(* ===== verification/_CoqProject ===== *)
-Q . S2P
Prelude.v
Parse.v
Laplace.v
InitData.v
Convergence.v
Config.v
Timeline.v
Individual.v
Population.v
Diffusion.v
AgentStep.v
Scheduler.v
Bounds.v
Run.v
Scenario.v
Setup.v
TractLink.v
Collect.v
Plots.v
Main.v
