(* ===== verification/Prelude.v ===== *)
(** * EvacDecModel: a verification development of the evacuation-decision ABM

    The program (src/) is a Mesa agent-based model of household decisions
    during a hurricane.  [EvacuationDec] (Model.py) builds a population of
    [Individual] agents (Agent.py) on a small-world acquaintance graph with
    survey-bootstrapped parameters (helper_functions.py), then runs
    [number_of_steps] ticks.  In each tick every live agent steps once, in a
    shuffled order.  An agent step updates the agent's environmental, media
    and social cues, then runs the handler of its phase
    (Unaware -> Aware -> Deciding -> Acted).  Handlers talk to the agent's
    acquaintances and spatial neighbours by mutating them in place.  An agent
    that acts is counted by destination and leaves the schedule.  At two
    fixed ticks the government broadcasts a watch and a warning to all live
    agents.  The last tick computes the mean evacuation time and stops the
    run.

    ** Files, in dependency order

    - Prelude.v: this header; the error monad [res] for Python exceptions
      ([PyErr]); Python's [l[i]] ([py_index]), slicing and [min]; numpy's
      integer remainder and element-wise product; sums of rationals; the
      monadic loop [fold_res] with its invariant lemmas; the tactics
      [qbool], [qcase], [res_inv] and [decide_prop]; and the hint databases
      [evac] and [evac_rw].
    - Parse.v: [parse_np_float_string] (helper_functions.py), which turns
      the cells of the tract table's [WindCat], [RainCat] and [storm_Surge]
      columns into lists of floats, and its use on the three columns by
      the constructor.  Strings are lists of ASCII characters.  The file
      models the quote removal, [re.sub] with the pattern
      [np\.float64\(([^)]+)\)], [strip], [split] and Python's [float()]
      on its whole grammar.  It also holds the floats [PyFloat] (a finite
      value, [inf] or [nan]) with their IEEE arithmetic, which Laplace.v,
      InitData.v and Convergence.v share.
    - Laplace.v: Weather/Laplace_inter.py, the offline natural-neighbour
      interpolation that produces cue rasters: [circum_center],
      [interpolate_laplace] (one loop iteration is [voronoi_weight]) and
      [bbox].  No other module calls it.  startinpy's triangulation,
      which the code mutates by [insert_one_pt] and [remove], is a state
      passed through the function behind the class [DT].  What the code
      computes from the vertices is a [PyFloat]: numpy's divisions give
      [inf] or [nan], Python's raise [ZeroDivisionError].
    - InitData.v: [agent_init_data] (helper_functions.py), which builds
      and caches the census table of a county, and the constructor's
      reads of that table (Model.py): centroids, cue series looked up by
      label, and the checks of the location draw.  A GeoDataFrame is a
      list of labelled rows; the cache directories are a state [Disk];
      reading a GeoPackage back ([relabel]) moves the geometry column
      last and relabels the rows [0 .. n-1].
    - Convergence.v: ConvergenceeAnalysis.py, the batch script: its
      pandas pipeline on the table of [mesa.batch_run] (an input) and the
      column reads of its plots.
    - Config.v: the keyword arguments of [EvacuationDec.__init__] (record
      [Config], with their defaults in [default_config]) and what the
      constructor derives from them ([trop_warning_step],
      [model_evac_warning_step], [coeff_dict]).
    - Timeline.v: [shift_warnings] and [shift_watch_warning]
      (helper_functions.py), which place the storm-surge watch and warning
      in an agent's timeline.
    - Individual.v: one agent.  Its record holds the static parameters, an
      attribute table [Attr -> Q], the phase, and the two attributes the
      code creates on first assignment.  This file has
      [Individual.__init__] and the self-only parts of [step] (cues, media
      cue, base immediacy, surge reaction).
    - Population.v: the model state [Model G].  It holds the configuration,
      a store [gmap nat Individual] of every agent ever created (agents name
      each other by id and are updated in place, so aliasing is that of the
      code), the live list [m_agents] for Mesa's [AgentSet], the tick,
      counters and collected history, and the state of the generator.  The
      injected collaborators are type classes: [RandomSource] (with
      [RandomSourceLaws]) for Python's generator, and [Classifier] for the
      pickled logistic model.  The file also defines the frame relation
      [frame] and the setoid [Model_equiv].
    - Diffusion.v: the communication methods of [Individual]
      ([general_communication], [action_communication],
      [phase_change_communication],
      [Protective_Action_Implementation_communication]).
    - AgentStep.v: the phase handlers, [commit_action] and
      [Individual.step].  Its abstract contract [step_effect] says what one
      step may change; [step_refines] proves that [step] implements it.
    - Scheduler.v: [EvacuationDec.step] ([model_step]: phase histogram,
      [shuffle_do], final statistic, government broadcast, collection) and
      [run_model].  The tick theorems are proved against [step_effect]
      only.
    - Bounds.v: the range invariant [agent_ok] of every agent
      ([0 <= risk_perception <= 1], [0 <= media_cue <= 1], non-negative
      perceptions and cues).  It is preserved by every operation and by a
      whole tick, and it has a decision procedure [store_ok_b].
    - Run.v: the reachability relation [reachable] of [run_model] (zero or
      more ticks of a running model).  Rule induction over it carries the
      live-set invariant, the range invariant and phase monotonicity to
      every state the run can reach.
    - Scenario.v: the end-to-end ring scenario of the specification, under
      every agent order of two ticks.
    - Setup.v: construction.  It covers [population_bootstrapper], the
      agent-creation loop with the acquaintances read from the half-filled
      [NetworkGrid], [closest_neighbours] over a KD-tree interface,
      [data_collection_attributes], and the constructor [EvacuationDec]
      (which ends by running the model).  It also shows that the
      constructed agents satisfy the range invariant when the input tables
      are non-negative and well-shaped ([inputs_ok]).
    - TractLink.v: the link between InitData.v and Setup.v: on a table
      labelled [0 .. n-1] the constructor's label lookups are the
      positional reads of [create_agent] on [TractData].
    - Collect.v: Mesa's [datacollector.collect] at the end of a tick.  It
      evaluates the model reporters of the chosen setting, including
      [retrieve_wind_cue] and [retrieve_rain_cue] (helper_functions.py).
      [model_step_reporting] is the tick with this collection.  Scheduler.v
      splits [EvacuationDec.step] at the collect call: [step_to_collect],
      then [collect_and_reset].
    - Plots.v: Viz/Plots.py.  It models the data every plot function
      computes: timestamps as minutes on the Gregorian calendar, the
      model-variable table as a DataFrame of typed columns, the survey
      file of [compare_real_data] and its date parser ([datetime.strptime]
      with the backtracking order of its regular expression),
      [evac_plot]'s write into its caller's frame (frames are a store by
      object identity), [phase_plot]'s group counts, [cum_evac]'s
      [cumsum], [kde2d_pop_plot]'s centroids and the cue plot's markers.
      The drawing calls return nothing the program reads.
    - Main.v: main.py.  It has the run with the whole data collector
      ([run_collecting]: the model reporters of Collect.v and Mesa's
      agent records), the two DataFrames the script reads back, and the
      script itself ([main_run], then [plots]).  It composes Setup.v,
      Scheduler.v, Collect.v and Plots.v.

    ** What is proved

    - State machine and schedule:
      - [step_refines]: the refinement of the step contract.
      - [model_step_live_inv]: the live-set
        invariant [live_inv]; the live list holds exactly the agents that
        have not acted, and the choice counters count them.
      - [model_step_phase_advance]: phases advance by at most one step
        per agent per tick.
      - [run_model_terminates] and [run_model_diverges]: termination with
        enough fuel, and non-termination when [number_of_steps = 0].
      - [EvacuationDec_build_initial]: the invariant holds initially.
      - [reachable_invariants]: every state reachable by [run_model] keeps
        the live-set and range invariants and the configuration, and no
        agent's phase goes back.
      - [EvacuationDec_run_invariants]: the model the constructor returns,
        after a finished or truncated run, satisfies both invariants when
        the inputs are well-formed ([inputs_ok]).
      - [model_step_store_ok]: the specification's attribute ranges hold
        after every tick when the constants and inputs are non-negative.
      - [protective_action_search_spec]: the preferred action is the first
        arg-max of the classifier's row, and a row of the wrong length
        raises.
      - [run_model_final_average]: the reported mean evacuation time leaves
        out the final tick's evacuations.
    - Data collector:
      - [model_step_reporting_refines]: the tick with the collector
        refines [model_step].  It reaches the same model and raises only
        where [model_step] raises, or when no agent is left live.
      - [singlerun_collect_fails]: under ["SingleRun"] that case happens.
        The collector raises [ZeroDivisionError] after the tick in which
        the last agents act.
      - [retrieve_cue_bounds]: bounds of the reported mean cues.
    - Input parsing:
      - [parse_np_float_string_roundtrip]: a cell printed in numpy's
        format parses back to the printed values.
      - [parse_np_float_string_errors]: the exceptions exactly:
        [TypeError] on a missing cell, and [ValueError] exactly when an
        item is not a float literal.
    - Census table:
      - [agent_init_data_first_run_keyerror]: on a first run for a county
        every label of the table is the position in the national table of
        a tract of the county, and the constructor's lookup
        [wind_list[population_idx]] raises [KeyError] at every drawable
        position that is not a label (so at some position, unless the
        county's tracts come first).  The provenance of each row is traced
        through [gpd.read_file], the column drop and insert, the filters
        and the normalisation ([agent_init_data_national_rows]).
      - [tract_proportions]: the removal keeps exactly the tracts with
        non-zero counts, and every range of every kept tract sums to 1.
      - [add_popdense_location_check]: [PopDense] passes numpy's checks
        exactly when the county has a tract and people.
      - [agent_init_data_cache_roundtrip]: the second call reads the
        table back from the cache.
      - [tract_of_refines]: on a cached table the lookups by label are
        the positional reads Setup.v models.
    - Plots and the entry script:
      - [run_collecting_refines]: main.py's run with the whole collector
        refines [run_model]; it adds one row per tick and raises only
        where [run_model] does, or with [ZeroDivisionError].
      - [main_needs_survey_file]: every completed run of main.py ends in
        [FileNotFoundError] unless the author's survey file exists.
      - [last_9_chars_day_truncation]: the survey dates are read right
        exactly when the day or the hour has one digit; otherwise the
        day loses its tens digit.
      - [evac_plot_mutates_caller]: [evac_plot] adds [datetime] to its
        caller's frame, and raises [KeyError] exactly without
        [evac_agents].
      - [cum_evac_running_total]: prefix sums, on a time axis 23 hours
        later than the other plots'.
      - [cues_markers]: the markers sit at the fixed steps 55 and 60, and
        [IndexError] is raised exactly when one of them has no row.
    - Convergence script:
      - [convergence_analysis_keyerror]: the plots read columns the
        selection dropped, so the script raises [KeyError] whenever its
        table is built.
      - [expanding_mean_spec]: the running mean at row [i] is the mean of
        the first [i + 1] values.
    - Interpolation:
      - [interpolate_laplace_convex]: a finite estimate lies between the
        smallest and the largest vertex value, or is 0 when the point has
        no incident triangle.
      - [interpolate_laplace_state]: what the triangulation is afterwards.
        When an incident triangle has the infinite vertex, the query point
        is left inserted; otherwise it is removed and the result is finite
        or [nan] (a degenerate triangle, a zero total), never [inf].
      - [circum_center_spec]: non-finite coordinates exactly on collinear
        vertices (numpy divides by zero without raising), and otherwise a
        finite point equidistant from the three.
      - [bbox_spec]: the smallest box holding the points, or [ValueError].
    - Diffusion:
      - [general_communication] and [action_communication] are the
        identity (a bug of the code).
      - [surge_update_reaction]: the private reaction to a surge advisory
        uses the same constants for a watch and a warning.
      - The broadcasts add their constants exactly once per occurrence of
        the receiver; the action broadcast of an agent without a chosen
        action raises [AttributeError].
      - The government broadcasts reach exactly the live agents, and the
        watch passes the risk value as the immediacy value.
    - Agent arithmetic:
      - [Individual_init_trust_is_freq]: the media trust vector is built
        from the frequency columns of the survey row (a bug of the code);
      - bounds of the media cue and of the base immediacy;
      - the final tick's immediacy overshoot, and its division by zero
        when [grow_factor = number_of_steps];
      - the one-tick lag of the risk threshold;
      - bounds of [average_evac_time].
    - Timelines: length and watch-count results for [shift_warnings] and
      [shift_watch_warning].  These include the loss of a warning that
      lasts to the end of the timeline.
    - Construction:
      - bootstrap alignment, and acceptance of misaligned tables;
      - acquaintances point only to lower ids (one direction per edge);
      - the neighbour count is [n_neighbors] or [n_neighbors + 1]; there
        is an [IndexError] with too few agents, and a [TypeError] with
        [n_neighbors = 0] (scipy returns a scalar for [k = 1]);
      - the default [outcome_collection] fails.
    - Scenario: the specification's four-agent ring becomes Aware at tick
      2, not 1, and the agents' risk perceptions then differ.

    ** Modelling choices

    - Python floats are exact rationals [Q], and [==] on floats is [Qeq].
      Where the code can produce [inf] or [nan] (numpy and pandas
      divisions, parsed cells), values are [PyFloat]s with IEEE's rules
      for them.  A decimal literal denotes its exact value.  Rounding of
      IEEE doubles is not modelled: the theorems are about the exact
      values, so for instance [general_communication_noop] says that the
      mean of [n] copies of [x] is [x], which in doubles holds up to one
      rounding of [sum] and [/].
    - Tick counters, indices and survey answers are [nat] or [Z].
      [int(x/3)] is [Z.quot].
    - Exceptions are [Err] values, and every raising expression of the
      modelled code is a branch of its definition.
    - Mesa 3 semantics, assumed from the library:
      - [Model.step] is wrapped so that [steps] is incremented before the
        body.
      - [shuffle_do] steps a snapshot of the live set in a shuffled order.
      - [unique_id]s start at 1 in creation order.
      - [NetworkGrid.get_neighbors] returns the agents currently placed on
        the adjacent nodes.
      - [AgentSet.get] and [remove] keep the insertion order.
    - numpy's [x % 0] is 0 ([np_mod]); [np.random.choice] accepts
      probabilities whose sum is within [sqrt(2^-52)] of 1
      ([np_choice_atol]).  scipy's KD-tree reports missing neighbours as
      position [len(data)] ([KDTreeLaws]) and squeezes the result of a
      query with [k = 1] to a scalar ([tree_query_indices]).
    - Fuel: [run_model] takes fuel.  [run_model_terminates] shows that
      [number_of_steps - steps] units of fuel are enough for a running model
      before its horizon, so fuel never truncates a terminating run.
      [run_model_diverges] shows that no fuel is enough when the horizon
      has passed.  main.py's run [run_collecting] takes the same fuel
      and, by [run_collecting_refines], runs out exactly where
      [run_model] does.
    - Collaborators:
      - The random generator ([RandomSource]), the classifier
        ([Classifier]), the bootstrap draws ([BootstrapSource]) and the
        KD-tree query ([KDTree]) are type classes, and so are startinpy's
        triangulation ([DT]) and [math.sqrt] ([Sqrt]).
      - The theorems assume only their laws: [random()] in [0,1),
        [shuffle] a permutation, sampled positions in range, and the query
        result shape, an insertion that moves no other vertex, and a
        square root that is non-negative, and positive on positive
        arguments.
      - Concrete instances ([demo_source], [cyclic_sampler],
        [brute_force_kdtree], [toy_dt], [toy_sqrt]) exist for the
        witnesses.

    ** Not modelled

    - Weather/NHC_data_retrieve.py: web scraping that produces input
      files.  The file does not parse (an [else] at line 141 matches no
      indentation level), so it cannot run.
    - startinpy's Delaunay triangulation itself: which triangles surround
      an inserted point is the library's business.  Laplace.v assumes
      only the law of [DT], so its theorems hold for any triangulation.
    - The matplotlib, seaborn and contextily calls of Viz/Plots.py and
      ConvergenceeAnalysis.py: they draw, and return nothing the program
      reads (the base map of [kde2d_pop_plot] is fetched from the
      network).  [mesa.batch_run] itself is not modelled either; its
      table is the input of Convergence.v.
    - The import lines and module docstrings of every file, which hold
      no logic.
    - GeoPackage files and shapely geometry: a file written and read back
      is the same rows under labels [0 .. n-1] with the geometry column
      last, and a geometry is its centroid (InitData.v).  Setup.v takes
      the tract data as [TractData] read by position; InitData.v shows
      where the code reads it by label instead.
    - Mesa's [DataCollector] is modelled for the "SingleRun" setting
      that main.py uses: the agent table's columns are those of its
      agent reporters ([AgentRow]).  pandas' dtype of a model-variable
      column is [int64] when every value is an integer and [float64]
      otherwise (an empty or all-[None] column, which pandas makes
      [object], cannot arise in a run of at least one tick).
    - networkx's graph generator, numpy's location draw and the pickled
      classifier: these are inputs or interfaces ([EvacuationDec] takes
      the Watts-Strogatz graph as its adjacency function). *)

From stdpp Require Export base list gmap.
From Stdlib Require Export QArith Qround Lqa ZArith.

Declare Scope evac_scope.
Delimit Scope evac_scope with evac.
Open Scope Q_scope.

(** ** Python exceptions and the error monad *)

(** The exceptions the modelled code can raise.  [KeyError] also stands for
    a dangling agent reference, which the well-formedness invariant of
    Population.v excludes; [PyException] is a bare [raise Exception(...)];
    [FileNotFoundError] is [open] or [read_csv] on a path that does not
    exist. *)
Inductive PyErr :=
  | IndexError
  | ZeroDivisionError
  | ValueError
  | AttributeError
  | KeyError
  | NameError
  | TypeError
  | PyException
  | FileNotFoundError.

#[export] Instance PyErr_eq_dec : EqDecision PyErr.
Proof. solve_decision. Defined.

Inductive res (A : Type) : Type :=
  | Ok (a : A)
  | Err (e : PyErr).
Arguments Ok {A} a.
Arguments Err {A} e.

#[export] Instance res_ret : MRet res := fun _ a => Ok a.
#[export] Instance res_bind : MBind res :=
  fun _ _ f m => match m with Ok a => f a | Err e => Err e end.
#[export] Instance res_fmap : FMap res :=
  fun _ _ f m => match m with Ok a => Ok (f a) | Err e => Err e end.

(** [raise e]. *)
Notation "'raise' e" := (Err e) (at level 10, only parsing) : evac_scope.

(** The value of a computation that did not raise. *)
Definition res_to_option {A} (r : res A) : option A :=
  match r with Ok a => Some a | Err _ => None end.

Lemma bind_Ok {A B} (m : res A) (k : A -> res B) (b : B) :
  (m ≫= k) = Ok b <-> exists a, m = Ok a /\ k a = Ok b.
Proof.
  destruct m as [a|e]; simpl; split.
  - intros H. exists a. done.
  - intros (a' & [= ->] & H). done.
  - discriminate.
  - intros (a' & ? & _). discriminate.
Qed.

Lemma bind_Err {A B} (m : res A) (k : A -> res B) e :
  m = Err e -> (m ≫= k) = Err e.
Proof. intros ->. reflexivity. Qed.

Lemma bind_ret {A B} (a : A) (k : A -> res B) : (Ok a ≫= k) = k a.
Proof. reflexivity. Qed.

(** A monadic left fold: Python's [for x in xs: state = f(state, x)] where
    the body may raise. *)
Fixpoint fold_res {A B} (f : A -> B -> res A) (xs : list B) (a : A) : res A :=
  match xs with
  | [] => Ok a
  | x :: xs' => f a x ≫= fold_res f xs'
  end.

Lemma fold_res_app {A B} (f : A -> B -> res A) xs ys a :
  fold_res f (xs ++ ys) a = fold_res f xs a ≫= fold_res f ys.
Proof. revert a. induction xs as [|x xs IH]; intros a; cbn; [done|]. destruct (f a x); cbn; auto. Qed.

(** An invariant of every iteration is an invariant of the loop. *)
Lemma fold_res_inv {A B} (P : A -> Prop) (f : A -> B -> res A) xs a r :
  (forall a x a', P a -> f a x = Ok a' -> P a') -> P a -> fold_res f xs a = Ok r -> P r.
Proof.
  intros Hf. revert a. induction xs as [|x xs IH]; intros a Ha; cbn; [by intros [= <-]|].
  intros (a1 & H1 & H2)%bind_Ok. eapply IH, H2. by eapply Hf.
Qed.

(** A loop whose every iteration succeeds returns. *)
Lemma fold_res_total {A B} (f : A -> B -> res A) xs a :
  (forall a x, x ∈ xs -> exists a', f a x = Ok a') -> exists r, fold_res f xs a = Ok r.
Proof.
  revert a. induction xs as [|x xs IH]; intros a Hf; cbn; [by eexists|].
  destruct (Hf a x ltac:(by left)) as [a' ->]. cbn. apply IH. intros a0 y Hy. apply Hf. by right.
Qed.

(** A loop [for x in xs] ending in [Ok]: the last iteration ran on the
    result of the others. *)
Lemma fold_res_snoc_Ok {A B} (f : A -> B -> res A) xs x a r :
  fold_res f (xs ++ [x]) a = Ok r -> exists r0, fold_res f xs a = Ok r0 /\ f r0 x = Ok r.
Proof.
  rewrite fold_res_app. destruct (fold_res f xs a) as [r0|]; cbn; [|done].
  destruct (f r0 x) eqn:E; cbn; intros; simplify_eq; eauto.
Qed.


(** [mapM] over [res]: the loop [[f(x) for x in xs]] raising at the first
    failing element. *)
Lemma mapM_Ok_map {A B C} (f : B -> res C) (h : A -> B) (g : A -> C) l :
  Forall (fun x => f (h x) = Ok (g x)) l -> mapM f (map h l) = Ok (map g l).
Proof. induction 1 as [|x l Hx _ IH]; [done|]. cbn [mapM map]. by rewrite Hx, IH. Qed.

Lemma mapM_Err {A B} (f : A -> res B) l e :
  mapM f l = Err e -> exists x, x ∈ l /\ f x = Err e.
Proof.
  induction l as [|x l IH]; cbn [mapM]; [done|].
  destruct (f x) as [y|e'] eqn:Ex; cbn.
  - destruct (mapM f l) as [ys|e''] eqn:El; cbn; [done|]. intros [= <-].
    destruct (IH eq_refl) as (x' & Hx' & Hf). exists x'. split; [by right|done].
  - intros [= <-]. exists x. split; [by left|done].
Qed.

(** [mapM] raises as soon as one input does (possibly with an earlier
    input's exception). *)
Lemma mapM_Err_elem {A B} (f : A -> res B) l x e :
  x ∈ l -> f x = Err e -> exists e', mapM f l = Err e'.
Proof.
  induction l as [|y l IH]; [by intros ?%elem_of_nil|].
  intros [->|Hx]%elem_of_cons Hf; cbn [mapM].
  - rewrite Hf. by eexists.
  - destruct (f y) as [z|e']; cbn; [|by eexists].
    destruct (IH Hx Hf) as [e' ->]. by eexists.
Qed.

(** A successful [mapM] relates each input to its output. *)
Lemma mapM_Forall2 {A B} (f : A -> res B) l l' :
  mapM f l = Ok l' <-> Forall2 (fun x y => f x = Ok y) l l'.
Proof.
  split.
  - revert l'. induction l as [|x l IH]; intros l'; cbn [mapM]; [by intros [= <-]|].
    intros (y & Hy & (ys & Hys & Hl)%bind_Ok)%bind_Ok. injection Hl as <-. constructor; auto.
  - induction 1 as [|x y l l' Hxy _ IH]; [done|]. cbn [mapM]. by rewrite Hxy, IH.
Qed.

Lemma filter_Forall_id {A} (P : A -> Prop) `{!forall x, Decision (P x)} l :
  Forall P l -> filter P l = l.
Proof. induction 1 as [|x l Hx _ IH]; [done|]. by rewrite filter_cons_True, IH. Qed.

(** A property of the inputs of a relation carried to its outputs. *)
Lemma Forall2_transfer {A B} (R : A -> B -> Prop) (P : A -> Prop) (P' : B -> Prop) l l' :
  (forall x y, P x -> R x y -> P' y) -> Forall P l -> Forall2 R l l' -> Forall P' l'.
Proof. intros H HP HR. induction HR; inversion HP; subst; constructor; eauto. Qed.

Lemma Forall_zip_fst {A B} (P : A -> Prop) (l : list A) (l' : list B) :
  Forall P l -> Forall (fun p => P p.1) (zip l l').
Proof. intros HP. revert l'. induction HP; intros [|y l']; cbn; constructor; auto. Qed.

Lemma Forall_List_filter {A} (P : A -> Prop) (p : A -> bool) l :
  Forall P l -> Forall P (List.filter p l).
Proof. induction 1 as [|x l Hx _ IH]; cbn; [done|]. destruct (p x); auto. Qed.

(** Invert an equation [e = Ok v] whose left side is a chain of binds,
    conditionals and returns. *)
Ltac res_inv :=
  repeat match goal with
  | H : (_ ≫= _) = Ok _ |- _ => apply bind_Ok in H as (? & ? & H)
  | H : Ok _ = Ok _ |- _ => injection H as H
  | H : Err _ = Ok _ |- _ => discriminate H
  | H : (if ?b then _ else _) = Ok _ |- _ => destruct b eqn:?
  | H : from_option _ _ ?o = Ok _ |- _ => destruct o eqn:?; simpl in H
  end.

(** Prove a decidable proposition about concrete data by evaluation. *)
Ltac decide_prop := apply (proj1 (bool_decide_eq_true _)); vm_compute; reflexivity.

(** ** Python lists *)

(** [l[i]]: negative indices count from the end; out of range raises. *)
Definition py_index {A} (l : list A) (i : Z) : res A :=
  let j := if (i <? 0)%Z then (i + Z.of_nat (length l))%Z else i in
  if (j <? 0)%Z then Err IndexError
  else match l !! Z.to_nat j with Some x => Ok x | None => Err IndexError end.

(** [l[:k]] for a non-negative [k] and [l[:-k]] for a positive [k]. *)
Definition py_take_upto {A} (l : list A) (k : nat) : list A := take k l.
Definition py_take_but {A} (l : list A) (k : nat) : list A := take (length l - k) l.
(** [l[k:]] for a non-negative [k]. *)
Definition py_drop {A} (l : list A) (k : nat) : list A := drop k l.

(** ** Python numbers *)

(** [min(a, b)] returns [b] only when [b < a]. *)
Definition py_min (a b : Q) : Q := if Qle_bool a b then a else b.

Definition Qlt_bool (a b : Q) : bool := negb (Qle_bool b a).

(** [sum(xs)]: a left fold from 0. *)
Definition qsum (xs : list Q) : Q := fold_left Qplus xs 0.

(** numpy's integer [%]: floored remainder, and 0 (with a warning, not an
    exception) for a zero divisor. *)
Definition np_mod (n m : Z) : Z := if (m =? 0)%Z then 0%Z else (n mod m)%Z.

(** Element-wise numpy product of two 1-d arrays, with broadcasting of a
    length-1 operand; other shape mismatches raise [ValueError]. *)
Definition np_mul (a b : list Q) : res (list Q) :=
  if decide (length a = length b) then Ok (zip_with Qmult a b)
  else match a, b with
       | [x], _ => Ok (map (Qmult x) b)
       | _, [y] => Ok (map (fun x => x * y) a)
       | _, _ => Err ValueError
       end.

(** ** Generic lemmas *)

Lemma Qle_bool_false a b : Qle_bool a b = false -> b < a.
Proof.
  intros H. apply Qnot_le_lt. intros Hle. apply Qle_bool_iff in Hle. congruence.
Qed.

Lemma Qlt_bool_true a b : Qlt_bool a b = true <-> a < b.
Proof.
  unfold Qlt_bool. split.
  - intros H. apply negb_true_iff in H. by apply Qle_bool_false.
  - intros H. apply negb_true_iff. destruct (Qle_bool b a) eqn:E; [|done].
    apply Qle_bool_iff in E. exfalso. apply (Qlt_not_le a b); done.
Qed.

Lemma Qlt_bool_false a b : Qlt_bool a b = false -> b <= a.
Proof.
  unfold Qlt_bool. intros H. apply negb_false_iff in H. by apply Qle_bool_iff.
Qed.

Lemma Qeq_bool_false a b : Qeq_bool a b = false -> ~ a == b.
Proof. intros H Heq. apply Qeq_bool_iff in Heq. congruence. Qed.

(** Turn the boolean comparisons of hypotheses into propositions. *)
Ltac qbool :=
  repeat match goal with
  | H : Qle_bool _ _ = true |- _ => apply Qle_bool_iff in H
  | H : Qle_bool _ _ = false |- _ => apply Qle_bool_false in H
  | H : Qlt_bool _ _ = true |- _ => apply Qlt_bool_true in H
  | H : Qlt_bool _ _ = false |- _ => apply Qlt_bool_false in H
  | H : Qeq_bool _ _ = true |- _ => apply Qeq_bool_iff in H
  | H : Qeq_bool _ _ = false |- _ => apply Qeq_bool_false in H
  end.

(** Case on the first boolean comparison of rationals in the goal. *)
Ltac qcase :=
  match goal with
  | |- context [Qle_bool ?a ?b] => destruct (Qle_bool a b) eqn:?; qbool
  | |- context [Qlt_bool ?a ?b] => destruct (Qlt_bool a b) eqn:?; qbool
  | |- context [Qeq_bool ?a ?b] => destruct (Qeq_bool a b) eqn:?; qbool
  end.

Lemma py_min_le_r a b : py_min a b <= b.
Proof. unfold py_min. qcase; lra. Qed.

Lemma py_min_le_l a b : py_min a b <= a.
Proof. unfold py_min. qcase; lra. Qed.

Lemma py_min_glb a b c : c <= a -> c <= b -> c <= py_min a b.
Proof. intros. unfold py_min. by destruct (Qle_bool a b). Qed.

Lemma py_min_l a b : a <= b -> py_min a b = a.
Proof. intros H. unfold py_min. apply Qle_bool_iff in H. by rewrite H. Qed.

Lemma py_min_r a b : b < a -> py_min a b = b.
Proof.
  intros H. unfold py_min. destruct (Qle_bool a b) eqn:E; qbool; [lra|done].
Qed.

Lemma qsum_acc xs a : fold_left Qplus xs a == a + qsum xs.
Proof.
  unfold qsum. revert a. induction xs as [|x xs IH]; intros a; simpl; [lra|].
  rewrite IH, (IH (0 + x)). lra.
Qed.

Lemma qsum_cons x xs : qsum (x :: xs) == x + qsum xs.
Proof. unfold qsum at 1. simpl. rewrite qsum_acc. lra. Qed.

Lemma qsum_nonneg xs : Forall (fun x => 0 <= x) xs -> 0 <= qsum xs.
Proof.
  induction 1 as [|x xs Hx _ IH]; [unfold qsum; simpl; lra|].
  rewrite qsum_cons. lra.
Qed.

Lemma qsum_zero_nonneg (xs : list Q) :
  Forall (Qle 0) xs -> qsum xs == 0 -> Forall (fun a => a == 0) xs.
Proof.
  induction 1 as [|x xs Hx Hxs IH]; [constructor|]. rewrite qsum_cons. intros Hs.
  pose proof (qsum_nonneg xs Hxs). constructor; [lra|]. apply IH. lra.
Qed.

Lemma qsum_const (x : Q) (ys : list nat) :
  qsum (map (fun _ => x) ys) == inject_Z (Z.of_nat (length ys)) * x.
Proof.
  induction ys as [|y ys IH]; [unfold qsum; simpl fold_left; simpl length; ring|].
  simpl map. rewrite qsum_cons, IH. simpl length.
  rewrite Nat2Z.inj_succ, <- Z.add_1_r, inject_Z_plus. change (inject_Z 1) with 1. lra.
Qed.

Lemma py_index_Ok_range {A} (l : list A) i x :
  py_index l i = Ok x -> (- Z.of_nat (length l) <= i < Z.of_nat (length l))%Z.
Proof.
  unfold py_index. intros H.
  repeat case_match; simplify_eq;
    match goal with Hl : _ !! _ = Some _ |- _ => apply lookup_lt_Some in Hl end;
    rewrite ?Z.ltb_lt, ?Z.ltb_ge in *; lia.
Qed.

(** At a natural index, [l[j]] is the [j]-th element. *)
Lemma py_index_nat {A} (l : list A) (j : nat) x :
  l !! j = Some x -> py_index l (Z.of_nat j) = Ok x.
Proof.
  intros H. unfold py_index. cbv zeta.
  rewrite !(proj2 (Z.ltb_ge (Z.of_nat j) 0)) by lia. by rewrite Nat2Z.id, H.
Qed.

Lemma py_index_nat_None {A} (l : list A) (j : nat) :
  l !! j = None -> py_index l (Z.of_nat j) = Err IndexError.
Proof.
  intros H. unfold py_index. cbv zeta.
  rewrite !(proj2 (Z.ltb_ge (Z.of_nat j) 0)) by lia. by rewrite Nat2Z.id, H.
Qed.

(** What [l[i]] returns is an element of [l]. *)
Lemma py_index_elem_of {A} (l : list A) i x : py_index l i = Ok x -> x ∈ l.
Proof.
  unfold py_index. cbv zeta. intros H.
  repeat case_match; simplify_eq; eapply list_elem_of_lookup_2; eauto.
Qed.

(** [[l[j] for j in idx]] with every index in range. *)
Lemma mapM_py_index {A} (l : list A) (idx : list nat) :
  Forall (fun j => j < length l)%nat idx ->
  exists xs, mapM (fun j => py_index l (Z.of_nat j)) idx = Ok xs /\
             Forall2 (fun j x => l !! j = Some x) idx xs.
Proof.
  induction 1 as [|j idx Hj _ (xs & Hxs & Hf)]; [by exists []|].
  destruct (lookup_lt_is_Some_2 l j Hj) as [x Hx].
  exists (x :: xs). cbn. rewrite (py_index_nat _ _ _ Hx), Hxs. split; [done|]. by constructor.
Qed.

Lemma py_index_in_range {A} (l : list A) i :
  (- Z.of_nat (length l) <= i < Z.of_nat (length l))%Z ->
  exists x, py_index l i = Ok x.
Proof.
  intros Hr. unfold py_index.
  destruct (lookup_lt_is_Some_2 l
              (Z.to_nat (if (i <? 0)%Z then (i + Z.of_nat (length l))%Z else i)))
    as [x Hx].
  { destruct (i <? 0)%Z eqn:Hi; rewrite ?Z.ltb_lt, ?Z.ltb_ge in *; lia. }
  exists x. rewrite Hx.
  destruct (i <? 0)%Z eqn:Hi; rewrite ?Z.ltb_lt, ?Z.ltb_ge in Hi;
    [replace ((i + Z.of_nat (length l)) <? 0)%Z with false by (symmetry; apply Z.ltb_ge; lia)
    |replace (i <? 0)%Z with false by (symmetry; apply Z.ltb_ge; lia)]; done.
Qed.

Lemma option_Forall2_Some_l {A B} (R : A -> B -> Prop) x o :
  option_Forall2 R (Some x) o -> exists y, o = Some y /\ R x y.
Proof. inversion 1. eauto. Qed.

Lemma option_Forall2_Some_r {A B} (R : A -> B -> Prop) o y :
  option_Forall2 R o (Some y) -> exists x, o = Some x /\ R x y.
Proof. inversion 1. eauto. Qed.

Lemma option_Forall2_compose {A B C} (R1 : A -> B -> Prop) (R2 : B -> C -> Prop)
    (R3 : A -> C -> Prop) o1 o2 o3 :
  option_Forall2 R1 o1 o2 -> option_Forall2 R2 o2 o3 ->
  (forall x y z, R1 x y -> R2 y z -> R3 x z) -> option_Forall2 R3 o1 o3.
Proof. intros H1 H2 H. destruct H1; inversion H2; subst; constructor; eauto. Qed.

Lemma option_Forall2_impl {A B} (R1 R2 : A -> B -> Prop) o1 o2 :
  option_Forall2 R1 o1 o2 -> (forall x y, R1 x y -> R2 x y) -> option_Forall2 R2 o1 o2.
Proof. intros H1 H. destruct H1; constructor; eauto. Qed.

Create HintDb evac.
Create Rewrite HintDb evac_rw.
#[export] Hint Resolve py_min_le_r py_min_le_l py_min_glb qsum_nonneg : evac.
