(* ===== verification/Parse.v ===== *)
(** * Parse: the cue series of the tract table

    [parse_np_float_string] (helper_functions.py, lines 189-210) turns a
    cell of the [WindCat], [RainCat] or [storm_Surge] column, written as
    ['[np.float64(1.2), np.float64(3.4)]'], into a list of Python floats;
    the constructor applies it to the three columns (Model.py, lines
    116-118).  Strings are lists of ASCII characters; Python's [float()]
    is modelled on its whole grammar (sign, digits with underscores,
    fraction, exponent, [inf], [infinity], [nan] in any case), with the
    value of a finite literal an exact rational. *)
From S2P Require Import Prelude.
From Stdlib Require Import Ascii.
From stdpp Require Import strings.

(** ** Characters and Python's string methods *)

Definition ch_eqb (c d : ascii) : bool := Ascii.eqb c d.
Arguments ch_eqb : simpl never.

(** [str.isspace] on ASCII: tab, line feed, vertical tab, form feed,
    carriage return, the four separators 28-31 and space. *)
Definition is_space (c : ascii) : bool :=
  let n := nat_of_ascii c in
  ((9 <=? n) && (n <=? 13)) || ((28 <=? n) && (n <=? 32)).

Fixpoint lstrip (p : ascii -> bool) (s : list ascii) : list ascii :=
  match s with
  | c :: s' => if p c then lstrip p s' else s
  | [] => []
  end.

(** [s.strip(chars)]: drop leading and trailing characters of the set. *)
Definition strip (p : ascii -> bool) (s : list ascii) : list ascii :=
  rev (lstrip p (rev (lstrip p s))).

(** [s.split(sep)] with a one-character separator: never an empty list. *)
Fixpoint split_on (sep : ascii) (s : list ascii) : list (list ascii) :=
  match s with
  | [] => [[]]
  | c :: s' =>
      if ch_eqb c sep then [] :: split_on sep s'
      else match split_on sep s' with
           | w :: ws => (c :: w) :: ws
           | [] => [[c]]
           end
  end.

(** [s.startswith(p)], returning what follows the prefix. *)
Fixpoint strip_prefix (p s : list ascii) : option (list ascii) :=
  match p, s with
  | [], _ => Some s
  | c :: p', d :: s' => if ch_eqb c d then strip_prefix p' s' else None
  | _ :: _, [] => None
  end.

(** ** [re.sub(r'np\.float64\(([^)]+)\)', r'\1', val)] *)

Definition np_prefix : list ascii := String.list_ascii_of_string "np.float64(".

(** [[^)]+] is greedy and cannot contain [)]: it takes the longest run
    without [)]. *)
Fixpoint span_not (c : ascii) (s : list ascii) : list ascii * list ascii :=
  match s with
  | [] => ([], [])
  | d :: s' => if ch_eqb d c then ([], s)
               else let '(g, r) := span_not c s' in (d :: g, r)
  end.

(** A match of the pattern at the start of [s]: the group and the text
    after the closing parenthesis. *)
Definition np_match (s : list ascii) : option (list ascii * list ascii) :=
  match strip_prefix np_prefix s with
  | Some t =>
      match span_not ")" t with
      | ((_ :: _) as g, _ :: r) => Some (g, r)
      | _ => None
      end
  | None => None
  end.

(** The scan of [re.sub]: at each position, replace a match by its group
    and continue after it, or copy one character.  Each round consumes at
    least one character, so [length s] rounds are enough. *)
Fixpoint np_sub_fuel (fuel : nat) (s : list ascii) : list ascii :=
  match fuel with
  | O => s
  | S fuel' =>
      match s with
      | [] => []
      | c :: s' =>
          match np_match s with
          | Some (g, r) => g ++ np_sub_fuel fuel' r
          | None => c :: np_sub_fuel fuel' s'
          end
      end
  end.

Definition np_sub (s : list ascii) : list ascii := np_sub_fuel (length s) s.

(** ** [float(x)] *)

Inductive PyFloat :=
  | Fin (q : Q)
  | Inf (negative : bool)
  | NaN.

(** ** Float arithmetic

    IEEE 754 doubles as Python floats, numpy's [float64] and pandas
    compute with them, on exact finite values: [inf] and [nan] arise and
    propagate as the standard says.  Python's own [/] raises instead of
    dividing by zero; numpy's and pandas' do not. *)

Definition fadd (a b : PyFloat) : PyFloat :=
  match a, b with
  | NaN, _ | _, NaN => NaN
  | Fin x, Fin y => Fin (x + y)
  | Inf s, Fin _ | Fin _, Inf s => Inf s
  | Inf s, Inf t => if Bool.eqb s t then Inf s else NaN
  end.

Definition fdiv (a b : PyFloat) : PyFloat :=
  match a, b with
  | NaN, _ | _, NaN => NaN
  | Fin x, Fin y =>
      if Qeq_bool y 0 then (if Qeq_bool x 0 then NaN else Inf (negb (Qle_bool 0 x)))
      else Fin (x / y)
  | Fin _, Inf _ => Fin 0
  | Inf s, Fin y => if Qle_bool 0 y then Inf s else Inf (negb s)
  | Inf _, Inf _ => NaN
  end.

Definition fneg (a : PyFloat) : PyFloat :=
  match a with Fin x => Fin (- x) | Inf s => Inf (negb s) | NaN => NaN end.

Definition fsub (a b : PyFloat) : PyFloat := fadd a (fneg b).

Definition fmul (a b : PyFloat) : PyFloat :=
  match a, b with
  | NaN, _ | _, NaN => NaN
  | Fin x, Fin y => Fin (x * y)
  | Inf s, Fin y | Fin y, Inf s => if Qeq_bool y 0 then NaN else Inf (xorb s (Qlt_bool y 0))
  | Inf s, Inf t => Inf (xorb s t)
  end.

Definition is_fin (a : PyFloat) : bool := match a with Fin _ => true | _ => false end.

Lemma fold_fadd_fin (xs : list Q) acc :
  fold_left fadd (map Fin xs) (Fin acc) = Fin (fold_left Qplus xs acc).
Proof. revert acc. induction xs as [|x xs IH]; intros acc; cbn; auto. Qed.

(** ** The literal grammar of [float(x)] *)

Definition digit_val (c : ascii) : option nat :=
  let n := nat_of_ascii c in
  if (48 <=? n) && (n <=? 57) then Some (n - 48)%nat else None.

(** The digits after the first of a [digitpart]: [(["_"] digit)*]. *)
Fixpoint digit_tail (s : list ascii) : list nat * list ascii :=
  match s with
  | [] => ([], [])
  | c :: s' =>
      match digit_val c with
      | Some d => let '(ds, r) := digit_tail s' in (d :: ds, r)
      | None =>
          if ch_eqb c "_" then
            match s' with
            | c' :: s'' =>
                match digit_val c' with
                | Some d => let '(ds, r) := digit_tail s'' in (d :: ds, r)
                | None => ([], s)
                end
            | [] => ([], s)
            end
          else ([], s)
      end
  end.

(** [digitpart ::= digit (["_"] digit)*]. *)
Definition digitpart (s : list ascii) : option (list nat * list ascii) :=
  match s with
  | c :: s' => d ← digit_val c; let '(ds, r) := digit_tail s' in Some (d :: ds, r)
  | [] => None
  end.

Definition opt_digitpart (s : list ascii) : list nat * list ascii :=
  match digitpart s with Some p => p | None => ([], s) end.

Definition digits_Z (ds : list nat) : Z :=
  fold_left (fun acc d => 10 * acc + Z.of_nat d)%Z ds 0%Z.

(** An optional sign: [true] for [-]. *)
Definition opt_sign (s : list ascii) : bool * list ascii :=
  match s with
  | c :: s' => if ch_eqb c "-" then (true, s') else if ch_eqb c "+" then (false, s') else (false, s)
  | [] => (false, [])
  end.

(** [mantissa * 10^exp] as a rational. *)
Definition dec_to_Q (m e : Z) : Q :=
  if (0 <=? e)%Z then inject_Z (m * 10 ^ e) else (inject_Z m / inject_Z (10 ^ (- e)))%Q.

Definition apply_sign (neg : bool) (q : Q) : Q := if neg then (- q)%Q else q.

(** [[digitpart] ["." [digitpart]] [("e"|"E") ["+"|"-"] digitpart]] with
    at least one digit before the exponent: the mantissa and the power of
    ten. *)
Definition parse_decimal (s : list ascii) : option (Z * Z) :=
  let '(ip, s1) := opt_digitpart s in
  let '(fp, s2) :=
    match s1 with
    | c :: s1' => if ch_eqb c "." then opt_digitpart s1' else ([], s1)
    | [] => ([], [])
    end in
  match ip ++ fp with
  | [] => None
  | _ =>
      let m := digits_Z (ip ++ fp) in
      let k := Z.of_nat (length fp) in
      match s2 with
      | [] => Some (m, (- k)%Z)
      | c :: s3 =>
          if ch_eqb c "e" || ch_eqb c "E" then
            let '(eneg, s4) := opt_sign s3 in
            match digitpart s4 with
            | Some (ed, []) =>
                Some (m, ((if eneg then - digits_Z ed else digits_Z ed) - k)%Z)
            | _ => None
            end
          else None
      end
  end.

Definition lower (c : ascii) : ascii :=
  let n := nat_of_ascii c in
  if (65 <=? n) && (n <=? 90) then ascii_of_nat (n + 32) else c.

Definition list_ascii_eqb (s t : list ascii) : bool := bool_decide (s = t).

(** [float(x)] for a string [x] without surrounding white space. *)
Definition py_float (s : list ascii) : res PyFloat :=
  let '(neg, t) := opt_sign s in
  let lt := map lower t in
  if list_ascii_eqb lt (String.list_ascii_of_string "inf")
     || list_ascii_eqb lt (String.list_ascii_of_string "infinity") then Ok (Inf neg)
  else if list_ascii_eqb lt (String.list_ascii_of_string "nan") then Ok NaN
  else match parse_decimal t with
       | Some (m, e) => Ok (Fin (apply_sign neg (dec_to_Q m e)))
       | None => Err ValueError
       end.

(** ** [parse_np_float_string] *)

(** [val[1:-1]]. *)
Definition py_slice_inner (s : list ascii) : list ascii := take (length s - 2) (drop 1 s).

(** The cell, [None] for a value that is not a string (a missing cell
    read as [None] or [NaN]), on which [re.sub] raises [TypeError]. *)
(** [[x for x in cleaned.strip('[]').split(',') if x.strip()]] with
    [cleaned = re.sub(...)], before [float(x.strip())]. *)
Definition np_items (s : list ascii) : list (list ascii) :=
  let cleaned := np_sub s in
  let items := split_on "," (strip (fun c => ch_eqb c "[" || ch_eqb c "]") cleaned) in
  filter (fun x => strip is_space x <> []) items.

(** [if isinstance(val, str) and val.startswith("'") and val.endswith("'"):
    val = val[1:-1]], on a string. *)
Definition np_unquote (v : string) : list ascii :=
  let s := String.list_ascii_of_string v in
  if bool_decide (head s = Some "'"%char) && bool_decide (last s = Some "'"%char)
  then py_slice_inner s else s.

Definition parse_np_float_string (val : option string) : res (list PyFloat) :=
  match val with
  | None => Err TypeError
  | Some v => mapM (fun x => py_float (strip is_space x)) (np_items (np_unquote v))
  end.


(** [EvacuationDec.__init__], lines 116-118: [init_data[col].apply(parse_np_float_string)]
    on the [WindCat], [RainCat] and [storm_Surge] columns, in this order;
    the first cell that raises stops the constructor. *)
Definition parse_tract_columns (wind rain surge : list (option string))
    : res (list (list PyFloat) * list (list PyFloat) * list (list PyFloat)) :=
  w ← mapM parse_np_float_string wind;
  r ← mapM parse_np_float_string rain;
  s ← mapM parse_np_float_string surge;
  Ok (w, r, s).

(** ** The format the cells are written in *)

Record DecLit := mkDecLit { lit_neg : bool; lit_int : list nat; lit_frac : list nat }.

Definition lit_wf (d : DecLit) : Prop :=
  lit_int d <> [] /\ Forall (fun x => x < 10)%nat (lit_int d ++ lit_frac d).

#[export] Instance lit_wf_dec d : Decision (lit_wf d).
Proof. unfold lit_wf. apply _. Defined.

(** The character of a decimal digit. *)
Definition show_digit (x : nat) : ascii :=
  match x with
  | 0 => "0" | 1 => "1" | 2 => "2" | 3 => "3" | 4 => "4"
  | 5 => "5" | 6 => "6" | 7 => "7" | 8 => "8" | _ => "9"
  end%char.

Definition show_lit (d : DecLit) : list ascii :=
  (if lit_neg d then ["-"%char] else []) ++ map show_digit (lit_int d) ++
  (if lit_frac d is [] then [] else "."%char :: map show_digit (lit_frac d)).

Definition lit_value (d : DecLit) : Q :=
  apply_sign (lit_neg d)
    (dec_to_Q (digits_Z (lit_int d ++ lit_frac d)) (- Z.of_nat (length (lit_frac d)))).

(** [sep.join(items)]. *)
Fixpoint join_with (sep : list ascii) (items : list (list ascii)) : list ascii :=
  match items with
  | [] => []
  | [w] => w
  | w :: ws => w ++ sep ++ join_with sep ws
  end.

(** The separator numpy prints between list items. *)
Definition np_sep : list ascii := [","%char; " "%char].

Definition np_item (d : DecLit) : list ascii := np_prefix ++ show_lit d ++ [")"%char].

Definition np_repr (ds : list DecLit) : list ascii :=
  "["%char :: join_with np_sep (map np_item ds) ++ ["]"%char].

(** ** Lemmas *)

Lemma ch_eqb_eq c d : ch_eqb c d = true <-> c = d.
Proof. apply Ascii.eqb_eq. Qed.

Lemma ch_eqb_refl c : ch_eqb c c = true.
Proof. by apply ch_eqb_eq. Qed.

Lemma ch_eqb_neq c d : c <> d -> ch_eqb c d = false.
Proof. intros H. destruct (ch_eqb c d) eqn:E; [by apply ch_eqb_eq in E|done]. Qed.

Lemma np_match_length s g r : np_match s = Some (g, r) -> (length r < length s)%nat.
Proof.
  unfold np_match. destruct (strip_prefix np_prefix s) as [t|] eqn:Ht; [|done].
  assert (Hl : length t <= length s).
  { clear -Ht. revert s Ht. generalize np_prefix. induction l as [|c p IH]; intros [|d s] H;
      simpl in H; simplify_eq/=; try lia. destruct (ch_eqb c d); [|done].
    specialize (IH _ H). lia. }
  assert (Hs : forall t, length (span_not ")" t).2 <= length t).
  { induction t0 as [|d t0 IH']; simpl; [lia|].
    destruct (ch_eqb d ")"); simpl; [lia|]. destruct (span_not ")" t0) eqn:E. simpl in *. lia. }
  specialize (Hs t). destruct (span_not ")" t) as [[|x g'] [|y r']]; intros; simplify_eq/=; lia.
Qed.

Lemma np_sub_fuel_enough n1 n2 s :
  (length s <= n1)%nat -> (length s <= n2)%nat -> np_sub_fuel n1 s = np_sub_fuel n2 s.
Proof.
  revert n2 s. induction n1 as [|n1 IH]; intros n2 s H1 H2.
  - destruct s; [|simpl in H1; lia]. by destruct n2.
  - destruct n2 as [|n2]; [destruct s; [done|simpl in H2; lia]|].
    destruct s as [|c s]; [done|]. simpl.
    destruct (np_match (c :: s)) as [[g r]|] eqn:E.
    + apply np_match_length in E. simpl in *. f_equal. apply IH; lia.
    + f_equal. simpl in *. apply IH; lia.
Qed.

Lemma np_sub_cons c s :
  np_sub (c :: s) = match np_match (c :: s) with
                    | Some (g, r) => g ++ np_sub r
                    | None => c :: np_sub s
                    end.
Proof.
  unfold np_sub at 1. simpl. destruct (np_match (c :: s)) as [[g r]|] eqn:E.
  - apply np_match_length in E. simpl in E. f_equal. apply np_sub_fuel_enough; lia.
  - f_equal.
Qed.

(** ** [float()] on a printed literal *)

Lemma digit_val_show x : (x < 10)%nat -> digit_val (show_digit x) = Some x.
Proof. intros Hx. do 10 (destruct x as [|x]; [reflexivity|]). lia. Qed.

Lemma show_digit_neq x c : (x < 10)%nat -> digit_val c = None -> show_digit x <> c.
Proof. intros Hx Hc <-. by rewrite digit_val_show in Hc. Qed.

Lemma lower_show_digit x : (x < 10)%nat -> lower (show_digit x) = show_digit x.
Proof. intros Hx. do 10 (destruct x as [|x]; [reflexivity|]). lia. Qed.

(** What may follow the digits of a [digitpart] without extending it. *)
Definition digits_end (rest : list ascii) : Prop :=
  match rest with [] => True | c :: _ => digit_val c = None /\ c <> "_"%char end.

Lemma digit_tail_show ds rest :
  Forall (fun x => x < 10)%nat ds -> digits_end rest ->
  digit_tail (map show_digit ds ++ rest) = (ds, rest).
Proof.
  intros Hds Hr. induction Hds as [|x ds Hx _ IH]; simpl.
  - destruct rest as [|c rest]; [done|]. destruct Hr as [Hc Hu]. simpl.
    by rewrite Hc, ch_eqb_neq.
  - by rewrite digit_val_show, IH.
Qed.

Lemma digitpart_show x ds rest :
  Forall (fun x => x < 10)%nat (x :: ds) -> digits_end rest ->
  digitpart (map show_digit (x :: ds) ++ rest) = Some (x :: ds, rest).
Proof.
  intros Hds Hr. inversion Hds; subst. simpl.
  by rewrite digit_val_show, digit_tail_show.
Qed.

Lemma py_float_show_lit d : lit_wf d -> py_float (show_lit d) = Ok (Fin (lit_value d)).
Proof.
  destruct d as [neg [|i0 ints] frac]; intros [Hi Hall]; [done|]. cbn [lit_int lit_frac] in Hall.
  apply Forall_app in Hall as [Hint Hfrac].
  pose proof Hint as [Hi0 _]%Forall_cons.
  set (t := map show_digit (i0 :: ints) ++
            (if frac is [] then [] else "."%char :: map show_digit frac)).
  assert (Hsign : opt_sign ((if neg then ["-"%char] else []) ++ t) = (neg, t)).
  { destruct neg; [done|]. cbn [app t map opt_sign].
    rewrite !ch_eqb_neq by (apply show_digit_neq; [done|reflexivity]). done. }
  assert (Hspec : forall w, w = String.list_ascii_of_string "inf" \/
                       w = String.list_ascii_of_string "infinity" \/
                       w = String.list_ascii_of_string "nan" ->
                  list_ascii_eqb (map lower t) w = false).
  { intros w Hw. unfold list_ascii_eqb. apply bool_decide_eq_false_2.
    cbn [t map app]. rewrite (lower_show_digit i0 Hi0).
    intros Heq%(f_equal head). destruct Hw as [-> | [-> | ->]]; cbn in Heq; injection Heq as Hc; revert Hc;
      (apply show_digit_neq; [exact Hi0|reflexivity]). }
  assert (Hdec : parse_decimal t =
                 Some (digits_Z (i0 :: ints ++ frac), (- Z.of_nat (length frac))%Z)).
  { unfold parse_decimal, opt_digitpart, t.
    rewrite digitpart_show by (done || by destruct frac).
    destruct frac as [|f0 fs]; [done|].
    rewrite ch_eqb_refl. rewrite <- (app_nil_r (map show_digit (f0 :: fs))).
    by rewrite digitpart_show. }
  unfold py_float, show_lit. cbn [lit_neg lit_int lit_frac]. fold t. rewrite Hsign.
  rewrite !Hspec by auto. simpl orb. by rewrite Hdec.
Qed.

(** ** The scan, [strip] and [split] on the printed format *)

(** The characters of a printed literal: none of [n ) , [ ]] nor white
    space. *)
Definition plain (c : ascii) : bool :=
  negb (ch_eqb c "n" || ch_eqb c ")" || ch_eqb c "," || ch_eqb c "[" || ch_eqb c "]" ||
        is_space c).

Lemma plain_show_digit x : (x < 10)%nat -> plain (show_digit x) = true.
Proof. intros Hx. do 10 (destruct x as [|x]; [reflexivity|]). lia. Qed.

Lemma show_lit_plain d : lit_wf d -> Forall (fun c => plain c = true) (show_lit d).
Proof.
  intros [_ Hall]. apply Forall_app in Hall as [Hi Hf]. unfold show_lit.
  repeat apply Forall_app_2.
  - destruct (lit_neg d); repeat constructor.
  - apply Forall_map. eapply Forall_impl; [exact Hi|]. apply plain_show_digit.
  - destruct (lit_frac d); [constructor|]. constructor; [reflexivity|].
    apply Forall_map. eapply Forall_impl; [exact Hf|]. apply plain_show_digit.
Qed.

Lemma show_lit_nonempty d : lit_wf d -> show_lit d <> [].
Proof.
  intros [Hi _]. unfold show_lit. destruct (lit_int d); [done|].
  destruct (lit_neg d); done.
Qed.

Lemma plain_neq c d : plain c = true -> plain d = false -> c <> d.
Proof. by intros H1 H2 ->; rewrite H1 in H2. Qed.

Lemma np_match_not_n c s : c <> "n"%char -> np_match (c :: s) = None.
Proof.
  intros Hc. unfold np_match.
  replace np_prefix with ("n"%char :: tail np_prefix) by reflexivity. cbn [strip_prefix].
  by rewrite ch_eqb_neq by congruence.
Qed.

Lemma np_sub_no_n l r :
  Forall (fun c => ch_eqb c "n" = false) l -> np_sub (l ++ r) = l ++ np_sub r.
Proof.
  induction 1 as [|c l Hc _ IH]; [done|].
  rewrite <- app_comm_cons, np_sub_cons, np_match_not_n, IH; [done|].
  intros ->. by rewrite ch_eqb_refl in Hc.
Qed.

Lemma strip_prefix_app p s : strip_prefix p (p ++ s) = Some s.
Proof. induction p as [|c p IH]; [done|]. cbn [strip_prefix app]. by rewrite ch_eqb_refl. Qed.

Lemma span_not_plain w r :
  Forall (fun c => plain c = true) w -> span_not ")" (w ++ ")"%char :: r) = (w, ")"%char :: r).
Proof.
  induction 1 as [|c w Hc _ IH]; [cbn [span_not app]; by rewrite ch_eqb_refl|].
  cbn [span_not app]. rewrite ch_eqb_neq by (by apply plain_neq). by rewrite IH.
Qed.

Lemma np_sub_item d r : lit_wf d -> np_sub (np_item d ++ r) = show_lit d ++ np_sub r.
Proof.
  intros Hd. unfold np_item. rewrite <- !app_assoc.
  change ([")"%char] ++ r) with (")"%char :: r).
  change (np_prefix ++ ?x) with ("n"%char :: (tail np_prefix ++ x)).
  rewrite np_sub_cons. change ("n"%char :: (tail np_prefix ++ ?x)) with (np_prefix ++ x).
  unfold np_match. rewrite strip_prefix_app, span_not_plain by (by apply show_lit_plain).
  destruct (show_lit d) eqn:E; [by apply show_lit_nonempty in Hd|done].
Qed.


Lemma np_sub_join ds r :
  Forall lit_wf ds -> np_sub (join_with np_sep (map np_item ds) ++ r) =
                      join_with np_sep (map show_lit ds) ++ np_sub r.
Proof.
  induction 1 as [|d ds Hd Hds IH]; [done|].
  destruct ds as [|d2 ds].
  - cbn [map join_with]. by rewrite np_sub_item.
  - change (join_with np_sep (map ?f (d :: d2 :: ds)))
      with (f d ++ np_sep ++ join_with np_sep (map f (d2 :: ds))).
    rewrite <- !app_assoc, np_sub_item by done.
    rewrite (np_sub_no_n np_sep) by (unfold np_sep; repeat constructor). by rewrite IH.
Qed.

Lemma np_sub_repr ds :
  Forall lit_wf ds -> np_sub (np_repr ds) = "["%char :: join_with np_sep (map show_lit ds) ++ ["]"%char].
Proof.
  intros Hds. unfold np_repr. rewrite np_sub_cons, np_match_not_n by done.
  f_equal. by rewrite np_sub_join.
Qed.

Lemma lstrip_app p a l :
  Forall (fun c => p c = true) a -> (match l with [] => True | c :: _ => p c = false end) ->
  lstrip p (a ++ l) = l.
Proof.
  induction 1 as [|c a Hc _ IH]; intros Hl; cbn [app lstrip].
  - destruct l as [|c l]; [done|]. cbn. by rewrite Hl.
  - rewrite Hc. by apply IH.
Qed.

(** [strip] removes exactly a border of stripped characters around a text
    that neither starts nor ends with one. *)
Lemma strip_wrap p a x b :
  Forall (fun c => p c = true) a -> Forall (fun c => p c = true) b ->
  Forall (fun c => p c = false) x -> strip p (a ++ x ++ b) = x.
Proof.
  intros Ha Hb Hx. unfold strip. destruct x as [|c x].
  - pose proof (lstrip_app p (a ++ b) [] ltac:(by apply Forall_app) I) as E.
    rewrite app_nil_r in E. by rewrite app_nil_l, E.
  - rewrite lstrip_app by (by inversion Hx).
    rewrite rev_app_distr, lstrip_app, rev_involutive; [done|by apply Forall_rev|].
    apply Forall_rev in Hx. destruct (rev (c :: x)) as [|c' x'] eqn:E; [done|].
    by inversion Hx.
Qed.

Lemma Forall_join_with (P : ascii -> Prop) s ws :
  Forall P s -> Forall (Forall P) ws -> Forall P (join_with s ws).
Proof.
  intros Hs. induction 1 as [|w ws Hw _ IH]; [constructor|].
  destruct ws; [done|]. cbn [join_with]. repeat apply Forall_app_2; done.
Qed.

Lemma split_on_app w r :
  Forall (fun c => ch_eqb c "," = false) w ->
  split_on "," (w ++ ","%char :: r) = w :: split_on "," r.
Proof.
  induction 1 as [|c w Hc _ IH]; [cbn; by rewrite ch_eqb_refl|].
  rewrite <- app_comm_cons. cbn [split_on]. by rewrite Hc, IH.
Qed.

Lemma split_on_none w :
  Forall (fun c => ch_eqb c "," = false) w -> split_on "," w = [w].
Proof. induction 1 as [|c w Hc _ IH]; [done|]. cbn [split_on]. by rewrite Hc, IH. Qed.

Lemma show_lit_no_comma d :
  lit_wf d -> Forall (fun c => ch_eqb c "," = false) (show_lit d).
Proof.
  intros Hd. eapply Forall_impl; [by apply show_lit_plain|]. intros c Hc.
  unfold plain in Hc. destruct (ch_eqb c ","); [|done]. by rewrite !orb_true_r in Hc.
Qed.

(** The items [split(',')] makes of the printed literals. *)
Definition pieces (ds : list DecLit) : list (list ascii) :=
  match ds with
  | [] => [[]]
  | d :: ds' => show_lit d :: map (fun d => " "%char :: show_lit d) ds'
  end.

Lemma split_on_join ds :
  Forall lit_wf ds -> split_on "," (join_with np_sep (map show_lit ds)) = pieces ds.
Proof.
  induction 1 as [|d ds Hd Hds IH]; [done|].
  destruct ds as [|d2 ds].
  - cbn [map join_with pieces]. by apply split_on_none, show_lit_no_comma.
  - change (join_with np_sep (map show_lit (d :: d2 :: ds)))
      with (show_lit d ++ ","%char :: " "%char :: join_with np_sep (map show_lit (d2 :: ds))).
    rewrite split_on_app.
    + cbn [split_on]. rewrite IH. reflexivity.
    + by apply show_lit_no_comma.
Qed.

Lemma plain_spec c :
  plain c = true ->
  ch_eqb c "[" = false /\ ch_eqb c "]" = false /\ is_space c = false.
Proof.
  unfold plain. intros H%negb_true_iff. repeat rewrite orb_false_iff in H. tauto.
Qed.

Lemma strip_space_lit (pre : list ascii) d :
  lit_wf d -> Forall (fun c => is_space c = true) pre -> strip is_space (pre ++ show_lit d) = show_lit d.
Proof.
  intros Hd Hpre.
  assert (Hx : Forall (fun c => is_space c = false) (show_lit d)).
  { eapply Forall_impl; [by apply show_lit_plain|]. intros c Hc. by apply plain_spec. }
  pose proof (strip_wrap is_space pre (show_lit d) [] Hpre (Forall_nil_2 _) Hx) as E.
  by rewrite app_nil_r in E.
Qed.

Lemma strip_space_show_lit d : lit_wf d -> strip is_space (show_lit d) = show_lit d.
Proof. intros Hd. exact (strip_space_lit [] d Hd (Forall_nil_2 _)). Qed.

Lemma mapM_pieces ds :
  Forall lit_wf ds ->
  mapM (fun x => py_float (strip is_space x)) (filter (fun x => strip is_space x <> []) (pieces ds)) =
  Ok (map (fun d => Fin (lit_value d)) ds).
Proof.
  intros Hds. destruct Hds as [|d ds Hd Hds]; [done|].
  assert (Hk : forall pre d, Forall (fun c => is_space c = true) pre -> lit_wf d ->
                 strip is_space (pre ++ show_lit d) <> []).
  { intros pre d' Hpre Hd'. rewrite strip_space_lit by done. by apply show_lit_nonempty. }
  assert (Hsp : Forall (fun c => is_space c = true) [" "%char]) by repeat constructor.
  cbn [pieces]. rewrite filter_Forall_id.
  - cbn [mapM map]. rewrite strip_space_show_lit, py_float_show_lit by done.
    rewrite (mapM_Ok_map _ _ (fun d => Fin (lit_value d))); [done|]. eapply Forall_impl; [exact Hds|]. intros d' Hd'.
    change (" "%char :: show_lit d') with ([" "%char] ++ show_lit d').
    by rewrite (strip_space_lit [" "%char] d'), py_float_show_lit.
  - constructor; [rewrite strip_space_show_lit by done; by apply show_lit_nonempty|]. apply Forall_map.
    eapply Forall_impl; [exact Hds|]. intros d' Hd'. by apply (Hk [" "%char]).
Qed.

(** A cell as numpy writes a list of [np.float64] values, optionally
    wrapped in single quotes. *)
Definition np_cell (quoted : bool) (ds : list DecLit) : string :=
  String.string_of_list_ascii
    (if quoted then "'"%char :: np_repr ds ++ ["'"%char] else np_repr ds).

Lemma unquote_np_repr (quoted : bool) ds :
  let s := if quoted then "'"%char :: np_repr ds ++ ["'"%char] else np_repr ds in
  (if bool_decide (head s = Some "'"%char) && bool_decide (last s = Some "'"%char)
   then py_slice_inner s else s) = np_repr ds.
Proof.
  destruct quoted; cbn zeta.
  - rewrite app_comm_cons, last_snoc, !bool_decide_eq_true_2 by done. cbn [andb].
    unfold py_slice_inner. rewrite <- app_comm_cons. cbn [drop].
    replace (_ - 2)%nat with (length (np_repr ds)) by (cbn [length]; rewrite length_app; cbn; lia).
    by rewrite drop_0, take_app_length.
  - by rewrite (bool_decide_eq_false_2 (head (np_repr ds) = Some "'"%char)).
Qed.

(** C24.  Round trip: a cell holding [np.float64] literals in numpy's list
    format, quoted or not, parses back to the values of the literals, in
    order; an empty list gives no value. *)
Theorem parse_np_float_string_roundtrip quoted ds :
  Forall lit_wf ds ->
  parse_np_float_string (Some (np_cell quoted ds)) = Ok (map (fun d => Fin (lit_value d)) ds).
Proof.
  intros Hds. unfold parse_np_float_string, np_unquote, np_items, np_cell.
  rewrite String.list_ascii_of_string_of_list_ascii, unquote_np_repr, np_sub_repr by done.
  change ("["%char :: ?x) with (["["%char] ++ x).
  rewrite strip_wrap; [|by repeat constructor|by repeat constructor|].
  - by rewrite split_on_join, mapM_pieces.
  - apply Forall_join_with; [by repeat constructor|]. apply Forall_map.
    eapply Forall_impl; [exact Hds|]. intros d Hd.
    eapply Forall_impl; [by apply show_lit_plain|]. intros c Hc.
    apply plain_spec in Hc as (H1 & H2 & _). by rewrite H1, H2.
Qed.

(** ** The scan against the meaning of [re.sub] *)

Lemma strip_prefix_Some p s t : strip_prefix p s = Some t -> s = p ++ t.
Proof.
  revert s. induction p as [|c p IH]; intros [|d s] H; cbn [strip_prefix] in H; simplify_eq; [done|done|].
  destruct (ch_eqb c d) eqn:E; [|done]. apply ch_eqb_eq in E as ->. cbn. by rewrite (IH s).
Qed.

Lemma span_not_spec c t g r :
  span_not c t = (g, r) -> t = g ++ r /\ (c ∉ g) /\ (r = [] \/ head r = Some c).
Proof.
  revert g r. induction t as [|d t IH]; intros g r H; cbn [span_not] in H.
  - injection H as <- <-. split_and!; [done|set_solver|by left].
  - destruct (ch_eqb d c) eqn:E.
    + injection H as <- <-. apply ch_eqb_eq in E as ->. split_and!; [done|set_solver|by right].
    + destruct (span_not c t) as [g' r'] eqn:E'. injection H as <- <-.
      destruct (IH _ _ eq_refl) as (-> & Hg & Hr). split_and!; [done| |done].
      rewrite elem_of_cons. intros [->|]; [by rewrite ch_eqb_refl in E|done].
Qed.

Lemma span_not_app w r :
  ")"%char ∉ w -> span_not ")" (w ++ ")"%char :: r) = (w, ")"%char :: r).
Proof.
  induction w as [|c w IH]; intros Hw; [cbn [span_not app]; by rewrite ch_eqb_refl|].
  rewrite elem_of_cons in Hw. cbn [span_not app].
  rewrite ch_eqb_neq by (intros ->; apply Hw; by left). rewrite IH; [done|]. intros ?; apply Hw; by right.
Qed.

(** ** Errors *)

Lemma py_float_Err s e : py_float s = Err e -> e = ValueError.
Proof.
  unfold py_float. destruct (opt_sign s) as [neg t].
  repeat case_match; intros; simplify_eq; done.
Qed.

(** C25.  The exceptions of [parse_np_float_string], exactly: a cell
    that is not a string (a missing value) raises [TypeError] in
    [re.sub]; a string raises [ValueError] if and only if one of its
    non-blank items between commas is not a float literal, and nothing
    else (no [IndexError] from the slicing, whatever the length). *)
Theorem parse_np_float_string_errors v e :
  parse_np_float_string v = Err e <->
  match v with
  | None => e = TypeError
  | Some s => e = ValueError /\ exists x, x ∈ np_items (np_unquote s) /\
                                         py_float (strip is_space x) = Err ValueError
  end.
Proof.
  destruct v as [s|]; unfold parse_np_float_string; cbv beta iota; [|split; [by intros [= <-]|by intros ->]].
  split.
  - intros (x & Hx & Hf)%mapM_Err. pose proof (py_float_Err _ _ Hf) as ->. eauto.
  - intros [-> (x & Hx & Hf)]. destruct (mapM_Err_elem (fun x => py_float (strip is_space x)) _ _ _ Hx Hf) as [e' He']. rewrite He'.
    apply mapM_Err in He' as (y & _ & Hy). by rewrite (py_float_Err _ _ Hy).
Qed.

(** Three cells of a tract: wind categories, rain categories and a
    watch-then-warning surge series. *)
Definition sample_lits : list DecLit :=
  [mkDecLit false [1] [2]; mkDecLit true [0] [3]; mkDecLit false [1; 0] []].

Lemma parse_np_float_string_roundtrip_witness :
  Forall lit_wf sample_lits /\
  parse_np_float_string (Some (np_cell true sample_lits)) =
    Ok (map (fun d => Fin (lit_value d)) sample_lits).
Proof.
  split; [decide_prop|].
  apply parse_np_float_string_roundtrip. decide_prop.
Defined.

Lemma parse_np_float_string_errors_witness :
  parse_np_float_string None = Err TypeError /\
  parse_np_float_string (Some "[np.float64(), np.float64(1.0)]") = Err ValueError.
Proof.
  split.
  - by apply (parse_np_float_string_errors None TypeError).
  - apply (parse_np_float_string_errors (Some "[np.float64(), np.float64(1.0)]")).
    split; [done|]. exists (String.list_ascii_of_string "np.float64()").
    split; [decide_prop|vm_compute; reflexivity].
Defined.

(** What the parser lets through: an empty item is skipped, and [nan] and
    [inf] are accepted as cue values. *)
Example parse_np_float_string_lenient :
  parse_np_float_string (Some "[np.float64(0.5),, np.float64(nan), np.float64(-inf)]") =
  Ok [Fin (5#10); NaN; Inf true].
Proof. vm_compute. reflexivity. Qed.
