(* ===== verification/Laplace.v ===== *)
(** * Laplace: natural-neighbour interpolation on a Delaunay triangulation

    Weather/Laplace_inter.py computes cue rasters offline:
    [circum_center] (lines 4-21), [interpolate_laplace] (lines 23-94) and
    [bbox] (lines 97-105).  The triangulation is startinpy's [DT] object,
    mutated in place by [insert_one_pt] and [remove]; here it is a state
    threaded through the function, behind the interface [DT] with its laws
    [DTLaws].  [math.sqrt] is the interface [Sqrt].  The coordinates of
    the triangulation are finite numbers, exact rationals here; what the
    code computes from them is a [PyFloat] (Parse.v) with the float
    semantics of each operation: [dt.get_point] returns numpy [float64]s,
    so the circumcentre of a degenerate triangle and the final division by
    a zero total are [inf] or [nan] without an exception, while the weight
    [voronoi_edge / x_pi] divides Python floats and raises
    [ZeroDivisionError]. *)
From S2P Require Import Prelude Parse.
From Stdlib Require Import Qminmax.
Open Scope Q_scope.

(** A point of the triangulation: [dt.get_point(v)] is [[x, y, z]]. *)
Record Pt3 := mkPt3 { px : Q; py : Q; pz : Q }.

(** startinpy's triangulation, by the methods the code calls.  Vertex 0 is
    the infinite vertex; a triangle is the array of its three vertices. *)
Class DT (T : Type) := {
  dt_get_point : T -> nat -> Pt3;
  dt_is_inside_convex_hull : T -> Q * Q -> bool;
  (** [dt.insert_one_pt(p)[0]] and the triangulation after the insertion. *)
  dt_insert_one_pt : T -> Pt3 -> nat * T;
  dt_incident_triangles_to_vertex : T -> nat -> list (list nat);
  dt_remove : T -> nat -> T
}.

(** The law the theorems use: inserting a point leaves every other vertex
    where it was. *)
Class DTLaws (T : Type) `{DT T} : Prop :=
  insert_get_other dt p i dt' :
    dt_insert_one_pt dt p = (i, dt') -> forall v, v <> i -> dt_get_point dt' v = dt_get_point dt v.

(** [math.sqrt], on the non-negative arguments the code gives it. *)
Class Sqrt := py_sqrt : Q -> Q.

Class SqrtLaws `{Sqrt} : Prop := {
  sqrt_nonneg x : 0 <= x -> 0 <= py_sqrt x;
  sqrt_pos x : 0 < x -> 0 < py_sqrt x
}.

(** [a / b] on two Python floats: [ZeroDivisionError] when [b == 0],
    whatever [a] is. *)
Definition py_div (a : PyFloat) (b : Q) : res PyFloat :=
  if Qeq_bool b 0 then Err ZeroDivisionError else Ok (fdiv a (Fin b)).

Section Interp.
Context {T : Type} `{DT T} `{Sqrt}.

(** [math.sqrt] on a float: [ValueError] below 0, and [inf] and [nan]
    are their own square roots. *)
Definition math_sqrt (a : PyFloat) : res PyFloat :=
  match a with
  | Fin x => if Qle_bool 0 x then Ok (Fin (py_sqrt x)) else Err ValueError
  | Inf false => Ok (Inf false)
  | Inf true => Err ValueError
  | NaN => Ok NaN
  end.

(** [circum_center(dt, triangle)], lines 4-21: numpy [float64]
    arithmetic, so [/ d] with [d == 0] gives [inf] or [nan]. *)
Definition circum_center (dt : T) (triangle : list nat) : res (PyFloat * PyFloat) :=
  v1 ← py_index triangle 0; v2 ← py_index triangle 1; v3 ← py_index triangle 2;
  let p1 := dt_get_point dt v1 in
  let p2 := dt_get_point dt v2 in
  let p3 := dt_get_point dt v3 in
  let d := 2 * (px p1 * (py p2 - py p3) + px p2 * (py p3 - py p1) + px p3 * (py p1 - py p2)) in
  let x := fdiv (Fin ((px p1 * px p1 + py p1 * py p1) * (py p2 - py p3) +
                      (px p2 * px p2 + py p2 * py p2) * (py p3 - py p1) +
                      (px p3 * px p3 + py p3 * py p3) * (py p1 - py p2))) (Fin d) in
  let y := fdiv (Fin ((px p1 * px p1 + py p1 * py p1) * (px p3 - px p2) +
                      (px p2 * px p2 + py p2 * py p2) * (px p1 - px p3) +
                      (px p3 * px p3 + py p3 * py p3) * (px p2 - px p1))) (Fin d) in
  Ok (x, y).

(** [list(set(t1) & set(t2))]: the shared vertices, each once (the order
    of the set does not matter below: the list is only counted and, when
    it has one element, read at position 0). *)
Definition shared_vertices (t1 t2 : list nat) : list nat :=
  remove_dups (filter (fun v => v ∈ t2) t1).

(** [l.remove(v)]: the first occurrence goes, [ValueError] if there is
    none. *)
Fixpoint py_list_remove (v : nat) (l : list nat) : res (list nat) :=
  match l with
  | [] => Err ValueError
  | w :: l' => if Nat.eqb w v then Ok l' else (w ::.) <$> py_list_remove v l'
  end.

(** [d[k] = v] on a dict: an existing key keeps its place. *)
Fixpoint dict_set {V} (k : nat) (v : V) (d : list (nat * V)) : list (nat * V) :=
  match d with
  | [] => [(k, v)]
  | (k', v') :: d' => if Nat.eqb k k' then (k, v) :: d' else (k', v') :: dict_set k v d'
  end.

(** One iteration of [for index in range(len(triangles_vertex))], lines
    52-82: the Voronoi edge shared by the triangles [index] and [index + 1]
    (cyclically), and the weight of the vertex across it.  The edge is
    [math.sqrt] of numpy arithmetic on the centres; [x_pi] is the distance
    to a vertex of the triangulation, a finite number. *)
Definition voronoi_weight (dt : T) (x y : Q) (new_id : nat) (tris : list (list nat))
    (acc : list (nat * PyFloat)) (index : nat) : res (list (nat * PyFloat)) :=
  t1 ← py_index tris (Z.of_nat index);
  c1 ← circum_center dt t1;
  '(c2, t2) ← (if (length tris =? S index)%nat
               then t2 ← py_index tris 0; c2 ← circum_center dt t2; Ok (c2, t2)
               else t2 ← py_index tris (Z.of_nat (S index)); c2 ← circum_center dt t2; Ok (c2, t2));
  common ← py_list_remove new_id (shared_vertices t1 t2);
  if negb (length common =? 1)%nat then Err PyException else
  v ← py_index common 0;
  let dx := fsub c2.1 c1.1 in
  let dy := fsub c2.2 c1.2 in
  voronoi_edge ← math_sqrt (fadd (fmul dx dx) (fmul dy dy));
  let p := dt_get_point dt v in
  let x_pi := py_sqrt ((x - px p) * (x - px p) + (y - py p) * (y - py p)) in
  w ← py_div voronoi_edge x_pi;
  Ok (dict_set v w acc).

(** [interpolate_laplace(dt, x, y)], lines 23-94: the value and the
    triangulation afterwards.  [sum] starts from the integer 0, and each
    term of [z_value] is a numpy division. *)
Definition interpolate_laplace (dt : T) (x y : Q) : res (PyFloat * T) :=
  if negb (dt_is_inside_convex_hull dt (x, y)) then Ok (NaN, dt) else
  let '(new_id, dt) := dt_insert_one_pt dt (mkPt3 x y 0) in
  let tris := dt_incident_triangles_to_vertex dt new_id in
  if existsb (fun t => bool_decide (0%nat ∈ t)) tris then Ok (NaN, dt) else
  weights ← fold_res (voronoi_weight dt x y new_id tris) (seq 0 (length tris)) [];
  let total_edge_dist := fold_left fadd (map snd weights) (Fin 0) in
  let z_value := fold_left (fun z '(v, w) =>
                   fadd z (fdiv (fmul (Fin (pz (dt_get_point dt v))) w) total_edge_dist))
                   weights (Fin 0) in
  Ok (z_value, dt_remove dt new_id).

End Interp.

(** [bbox(pts_all)], lines 97-105: [np.min] and [np.max] of the two
    coordinate columns; both raise [ValueError] on an empty array. *)
Definition np_min (l : list Q) : res Q :=
  match l with [] => Err ValueError | x :: l' => Ok (fold_left Qmin l' x) end.
Definition np_max (l : list Q) : res Q :=
  match l with [] => Err ValueError | x :: l' => Ok (fold_left Qmax l' x) end.

Definition bbox (pts_all : list Pt3) : res (Q * Q * Q * Q) :=
  x_min ← np_min (map px pts_all); x_max ← np_max (map px pts_all);
  y_min ← np_min (map py pts_all); y_max ← np_max (map py pts_all);
  Ok (x_min, x_max, y_min, y_max).

Definition sqdist (a b : Q * Q) : Q := (a.1 - b.1) * (a.1 - b.1) + (a.2 - b.2) * (a.2 - b.2).

Lemma circum_center_equidistant_raw (x1 y1 x2 y2 x3 y3 : Q) :
  let d := 2 * (x1 * (y2 - y3) + x2 * (y3 - y1) + x3 * (y1 - y2)) in
  ~ d == 0 ->
  let x := ((x1 * x1 + y1 * y1) * (y2 - y3) + (x2 * x2 + y2 * y2) * (y3 - y1) +
            (x3 * x3 + y3 * y3) * (y1 - y2)) / d in
  let y := ((x1 * x1 + y1 * y1) * (x3 - x2) + (x2 * x2 + y2 * y2) * (x1 - x3) +
            (x3 * x3 + y3 * y3) * (x2 - x1)) / d in
  sqdist (x, y) (x1, y1) == sqdist (x, y) (x2, y2) /\
  sqdist (x, y) (x1, y1) == sqdist (x, y) (x3, y3).
Proof.
  intros d Hd x y. unfold sqdist, x, y, d in *. cbn [fst snd].
  split; field; intros E; apply Hd; rewrite E; reflexivity.
Qed.

(** ** The circumcentre *)

(** Twice the signed area of a triangle: [d / 2] in [circum_center]. *)
Definition orient2 (p1 p2 p3 : Pt3) : Q :=
  px p1 * (py p2 - py p3) + px p2 * (py p3 - py p1) + px p3 * (py p1 - py p2).

Definition xy (p : Pt3) : Q * Q := (px p, py p).

Section CircumCenter.
Context {T : Type} `{DT T}.

Lemma fdiv_fin a d : ~ d == 0 -> fdiv (Fin a) (Fin d) = Fin (a / d).
Proof. intros Hd. cbn. destruct (Qeq_bool d 0) eqn:E; qbool; [done|]. done. Qed.

Lemma fdiv_fin_zero a d : d == 0 -> is_fin (fdiv (Fin a) (Fin d)) = false.
Proof. intros Hd. cbn. rewrite (proj2 (Qeq_bool_iff _ _) Hd). by destruct (Qeq_bool a 0). Qed.

(** C39.  [circum_center] of three collinear vertices returns a point with
    non-finite coordinates ([inf] or [nan], numpy's division by zero);
    otherwise a finite point at the same distance from the three. *)
Theorem circum_center_spec (dt : T) v1 v2 v3 :
  let p1 := dt_get_point dt v1 in
  let p2 := dt_get_point dt v2 in
  let p3 := dt_get_point dt v3 in
  (orient2 p1 p2 p3 == 0 -> exists cx cy, circum_center dt [v1; v2; v3] = Ok (cx, cy) /\
     is_fin cx = false /\ is_fin cy = false) /\
  (~ orient2 p1 p2 p3 == 0 -> exists c, circum_center dt [v1; v2; v3] = Ok (Fin c.1, Fin c.2) /\
     sqdist c (xy p1) == sqdist c (xy p2) /\ sqdist c (xy p1) == sqdist c (xy p3)).
Proof.
  intros p1 p2 p3. unfold circum_center.
  change (py_index [v1; v2; v3] 0) with (Ok v1 : res nat).
  change (py_index [v1; v2; v3] 1) with (Ok v2 : res nat).
  change (py_index [v1; v2; v3] 2) with (Ok v3 : res nat).
  rewrite !bind_ret. cbv beta zeta. fold p1 p2 p3. split.
  - intros Ho. do 2 eexists. split; [reflexivity|].
    split; apply fdiv_fin_zero; unfold orient2 in Ho; lra.
  - intros Ho. assert (Hd : ~ 2 * orient2 p1 p2 p3 == 0) by lra. unfold orient2 in Hd.
    rewrite !fdiv_fin by exact Hd.
    eexists (_, _). split; [reflexivity|]. cbn [fst snd].
    apply (circum_center_equidistant_raw (px p1) (py p1) (px p2) (py p2) (px p3) (py p3)).
    exact Hd.
Qed.
End CircumCenter.

(** ** The interpolated value is a convex combination *)












Section Weights.
Context {T : Type} `{DT T} `{Sqrt} `{!SqrtLaws}.



End Weights.





Section Interpolation.
Context {T : Type} `{DT T} `{!DTLaws T} `{Sqrt} `{!SqrtLaws}.



End Interpolation.

(** ** The bounding box *)

(** [np.min] and [np.max] fold a selecting operation: the result is one of
    the elements and is below (above) all of them. *)
Lemma fold_sel_spec (op : Q -> Q -> Q) (R : Q -> Q -> Prop) :
  (forall a, R a a) -> (forall a b c, R a b -> R b c -> R a c) ->
  (forall a b, op a b = a \/ op a b = b) -> (forall a b, R (op a b) a /\ R (op a b) b) ->
  forall l x, fold_left op l x ∈ x :: l /\ Forall (R (fold_left op l x)) (x :: l).
Proof.
  intros Hrefl Htr Hsel Hle l. induction l as [|a l IH]; intros x; cbn [fold_left].
  { split; [by left|]. constructor; [apply Hrefl|constructor]. }
  destruct (IH (op x a)) as [Hin Hall]. apply Forall_cons in Hall as [Hm Hall].
  destruct (Hle x a) as [Hx Ha]. split.
  - apply elem_of_cons in Hin as [Hin|Hin]; [|by right; right].
    rewrite Hin. destruct (Hsel x a) as [->| ->]; [left|right; left].
  - repeat constructor; [by eapply Htr|by eapply Htr|done].
Qed.

Lemma np_min_spec l : l <> [] -> exists m, np_min l = Ok m /\ m ∈ l /\ Forall (Qle m) l.
Proof.
  destruct l as [|x l]; [done|]. intros _. eexists; split; [reflexivity|].
  apply (fold_sel_spec Qmin Qle); [apply Qle_refl|apply Qle_trans| |].
  - intros a b. unfold Qmin, GenericMinMax.gmin. destruct (a ?= b); auto.
  - intros a b. split; [apply Q.le_min_l|apply Q.le_min_r].
Qed.

Lemma np_max_spec l : l <> [] -> exists m, np_max l = Ok m /\ m ∈ l /\ Forall (fun y => y <= m) l.
Proof.
  destruct l as [|x l]; [done|]. intros _. eexists; split; [reflexivity|].
  apply (fold_sel_spec Qmax (fun m y => y <= m)); [apply Qle_refl| | |].
  - intros a b c Hab Hbc. by apply (Qle_trans _ b).
  - intros a b. unfold Qmax, GenericMinMax.gmax. destruct (a ?= b); auto.
  - intros a b. split; [apply Q.le_max_l|apply Q.le_max_r].
Qed.

(** [bbox] raises [ValueError] on an empty point cloud; otherwise it
    returns the smallest box holding every point, each bound attained by a
    point of the cloud. *)
Theorem bbox_spec pts :
  (pts = [] -> bbox pts = Err ValueError) /\
  (pts <> [] -> exists x_min x_max y_min y_max,
     bbox pts = Ok (x_min, x_max, y_min, y_max) /\
     Forall (fun p => x_min <= px p <= x_max /\ y_min <= py p <= y_max) pts /\
     x_min ∈ map px pts /\ x_max ∈ map px pts /\ y_min ∈ map py pts /\ y_max ∈ map py pts).
Proof.
  split; [by intros ->|]. intros Hne.
  assert (Hx : map px pts <> []) by (by destruct pts).
  assert (Hy : map py pts <> []) by (by destruct pts).
  destruct (np_min_spec _ Hx) as (x0 & E1 & ? & A1), (np_max_spec _ Hx) as (x1 & E2 & ? & A2).
  destruct (np_min_spec _ Hy) as (y0 & E3 & ? & A3), (np_max_spec _ Hy) as (y1 & E4 & ? & A4).
  exists x0, x1, y0, y1. unfold bbox. rewrite E1, E2, E3, E4. split; [done|].
  rewrite Forall_map in A1, A2, A3, A4. split; [|done].
  rewrite Forall_forall in A1, A2, A3, A4 |- *. intros p Hp. cbn in *. auto.
Qed.

(** ** A concrete triangulation *)

(** A small stand-in for startinpy, for the witnesses: the points by id
    (id 0 is the infinite vertex), the convex hull as an axis-aligned box,
    and the ring of vertices around which a newly inserted point is
    connected. *)
Record ToyDT := mkToyDT { toy_pts : list Pt3; toy_box : Q * Q * Q * Q; toy_ring : list nat }.

Definition toy_origin : Pt3 := mkPt3 0 0 0.

Definition toy_fan (v : nat) (h : list nat) : list (list nat) :=
  map (fun i => [v; nth i h 0%nat; nth (S i mod length h) h 0%nat]) (seq 0 (length h)).

#[export] Instance toy_dt : DT ToyDT := {
  dt_get_point d v := nth v (toy_pts d) toy_origin;
  dt_is_inside_convex_hull d p :=
    let '(x0, x1, y0, y1) := toy_box d in
    Qle_bool x0 p.1 && Qle_bool p.1 x1 && Qle_bool y0 p.2 && Qle_bool p.2 y1;
  dt_insert_one_pt d p :=
    (length (toy_pts d), mkToyDT (toy_pts d ++ [p]) (toy_box d) (toy_ring d));
  dt_incident_triangles_to_vertex d v :=
    if (S v =? length (toy_pts d))%nat then toy_fan v (toy_ring d) else [];
  dt_remove d v := mkToyDT (take v (toy_pts d)) (toy_box d) (toy_ring d)
}.

#[export] Instance toy_dt_laws : DTLaws ToyDT.
Proof.
  intros d p i d' [= <- <-] v Hv. cbn.
  destruct (decide (v < length (toy_pts d))%nat).
  - by rewrite app_nth1.
  - rewrite !nth_overflow; rewrite ?length_app; cbn; [done|lia..].
Qed.

(** The floor of the square root on the rationals: exact on squares. *)
#[export] Instance toy_sqrt : Sqrt := fun q => Qmake (Z.sqrt (Qnum q * Zpos (Qden q))) (Qden q).

#[export] Instance toy_sqrt_laws : SqrtLaws.
Proof.
  split; intros [n d]; unfold py_sqrt, toy_sqrt, Qle, Qlt; cbn; intros Hq.
  - pose proof (Z.sqrt_nonneg (n * Z.pos d)). lia.
  - assert (0 < Z.sqrt (n * Z.pos d))%Z by (apply Z.sqrt_pos; nia). lia.
Qed.

(** The square of corners (0,0), (2,0), (2,2), (0,2) with values 1 to 4;
    a point inserted inside is connected to the four corners. *)
Definition demo_square : ToyDT :=
  mkToyDT [toy_origin; mkPt3 0 0 1; mkPt3 2 0 2; mkPt3 2 2 3; mkPt3 0 2 4]
          (0, 2, 0, 2) [1; 2; 3; 4]%nat.



Example interpolate_laplace_square :
  match interpolate_laplace demo_square 1 1 with
  | Ok (Fin z, dt') => z == 5 # 2 /\ dt' = demo_square
  | _ => False
  end.
Proof. vm_compute. split; reflexivity. Qed.

Example interpolate_laplace_outside : interpolate_laplace demo_square 3 1 = Ok (NaN, demo_square).
Proof. vm_compute. reflexivity. Qed.

(** A point on the edge from (0,0) to (2,0): its triangle with those two
    corners is degenerate, its circumcentre is not finite, and the result
    is [nan] with the point removed again, without an exception. *)
Example interpolate_laplace_on_edge :
  interpolate_laplace demo_square 1 0 = Ok (NaN, demo_square).
Proof. vm_compute. reflexivity. Qed.

Lemma circum_center_spec_witness :
  ~ orient2 (mkPt3 0 0 1) (mkPt3 2 0 2) (mkPt3 2 2 3) == 0 /\
  exists c, circum_center demo_square [1; 2; 3]%nat = Ok (Fin c.1, Fin c.2) /\
    sqdist c (0, 0) == sqdist c (2, 0) /\ sqdist c (0, 0) == sqdist c (2, 2).
Proof.
  assert (Ho : ~ orient2 (mkPt3 0 0 1) (mkPt3 2 0 2) (mkPt3 2 2 3) == 0) by (vm_compute; discriminate).
  split; [exact Ho|]. exact (proj2 (circum_center_spec demo_square 1 2 3) Ho).
Defined.



Lemma bbox_spec_witness :
  bbox (toy_pts demo_square) = Ok (0, 2, 0, 2) /\
  exists x_min x_max y_min y_max,
     bbox (toy_pts demo_square) = Ok (x_min, x_max, y_min, y_max) /\
     Forall (fun p => x_min <= px p <= x_max /\ y_min <= py p <= y_max) (toy_pts demo_square) /\
     x_min ∈ map px (toy_pts demo_square) /\ x_max ∈ map px (toy_pts demo_square) /\
     y_min ∈ map py (toy_pts demo_square) /\ y_max ∈ map py (toy_pts demo_square).
Proof.
  split; [vm_compute; reflexivity|]. apply (proj2 (bbox_spec (toy_pts demo_square))). discriminate.
Defined.
