(* ===== verification/InitData.v ===== *)
(** The tract table: [agent_init_data] (helper_functions.py, lines
    136-184), which builds the census table of a county, caches it on disk
    and returns it, and the way [EvacuationDec.__init__] (Model.py, lines
    111-145) reads it: the centroids, the three cue series parsed by
    [parse_np_float_string] (Parse.v), and the location draw
    [np.random.choice(len(init_data), p=init_data["PopDense"])].

    A GeoDataFrame is a [Frame]: its column names and its rows, each with
    its index label and one cell per column.  A geometry cell holds its
    centroid, the only thing the program reads from it.  The disk is the
    state [Disk]: the cached county directories with the table each one
    holds, and the national table.  [gpd.read_file] ([relabel]) gives
    the attribute columns in order, then the geometry column, one cell per
    column in each row, under the labels [0 .. n-1], since [to_file] does
    not write an unnamed integer index.  Numbers are [PyFloat]s (Parse.v),
    with pandas' float semantics for [inf] and [nan] and its [skipna]
    sums.

    The theorems: the second call reads the first call's table back
    ([agent_init_data_cache_roundtrip]); a first call keeps the national
    table's labels, each the position of a tract of the county in the
    national table, so the constructor's label lookups raise [KeyError]
    at the positions the draw can return that are not labels
    ([agent_init_data_first_run_keyerror]); the removal and normalisation
    loops leave exactly the tracts with non-zero counts, each range
    summing to 1 ([tract_proportions]); and [PopDense] passes numpy's
    checks exactly when the county has people
    ([add_popdense_location_check]). *)
From S2P Require Import Prelude Parse.
From stdpp Require Import strings gmap.
From Stdlib Require Import Qabs.
Open Scope Q_scope.

(** ** Tables *)

Inductive Cell :=
  | CNum (x : PyFloat)
  | CStr (s : string)
  | CGeom (centroid : Q * Q)
  | CNone.

Record Frame := mkFrame { columns : list string; rows : list (nat * list Cell) }.

(** [l[i:j]] for non-negative [i] and [j]. *)
Definition py_slice {A} (i j : nat) (l : list A) : list A := take (j - i) (drop i l).

(** The positions of the columns named in [names]: with distinct column
    names, [df[df.columns[i:j]]] selects the positions [i .. j-1]. *)
Definition select_pos (names cols : list string) : list nat :=
  filter (fun p => bool_decide (nth p cols ""%string ∈ names)) (seq 0 (length cols)).

Definition cells_at (ps : list nat) (cells : list Cell) : list Cell :=
  map (fun p => nth p cells CNone) ps.

(** [df[name]]: the first column of that name, [KeyError] if there is
    none. *)
Fixpoint col_index (name : string) (cols : list string) : res nat :=
  match cols with
  | [] => Err KeyError
  | c :: cols' => if bool_decide (c = name) then Ok 0%nat else S <$> col_index name cols'
  end.

(** ** Float tests *)

(** [a == 0] on a float. *)
Definition is_zero (a : PyFloat) : bool :=
  match a with Fin x => Qeq_bool x 0 | _ => false end.

(** A cell as [sum] sees it: missing values and [nan] are skipped, text
    and geometry raise. *)
Definition cell_num (c : Cell) : res (option PyFloat) :=
  match c with
  | CNum NaN | CNone => Ok None
  | CNum x => Ok (Some x)
  | CStr _ | CGeom _ => Err TypeError
  end.

(** [DataFrame.sum(axis=1)] on one row, and [Series.sum()]. *)
Definition pd_sum (cs : list Cell) : res PyFloat :=
  xs ← mapM cell_num cs; Ok (fold_left fadd (omap id xs) (Fin 0)).

(** [df.div(a, axis=0)] on one cell. *)
Definition cell_div (c : Cell) (a : PyFloat) : res Cell :=
  match c with
  | CNum x => Ok (CNum (fdiv x a))
  | CNone => Ok (CNum NaN)
  | CStr _ | CGeom _ => Err TypeError
  end.

(** The sums over the selected columns, row by row, with their labels. *)
Definition row_sums (ps : list nat) (f : Frame) : res (list (nat * PyFloat)) :=
  mapM (fun '(lbl, cells) => s ← pd_sum (cells_at ps cells); Ok (lbl, s)) (rows f).

(** The cells of the positions not in [ps]. *)
Definition keep_pos {A} (ps : list nat) (l : list A) : list A :=
  omap (fun '(i, x) => if bool_decide (i ∈ ps) then None else Some x) (zip (seq 0 (length l)) l).

(** [g] applied to the cells at the positions [ps]. *)
Definition map_pos (ps : list nat) (g : Cell -> res Cell) (cells : list Cell) : res (list Cell) :=
  mapM (fun '(i, c) => if bool_decide (i ∈ ps) then g c else Ok c) (zip (seq 0 (length cells)) cells).

Definition insert_at {A} (i : nat) (x : A) (l : list A) : list A := take i l ++ x :: drop i l.

(** [df.insert(loc, name, values)]: [ValueError] if the column exists,
    [IndexError] past the last column. *)
Definition df_insert (loc : nat) (name : string) (vals : list PyFloat) (f : Frame) : res Frame :=
  if bool_decide (name ∈ columns f) then Err ValueError
  else if bool_decide (length (columns f) < loc)%nat then Err IndexError
  else Ok (mkFrame (insert_at loc name (columns f))
                   (zip_with (fun '(l, cells) v => (l, insert_at loc (CNum v) cells)) (rows f) vals)).

(** [df[name] = values]: the column is overwritten, or added last. *)
Definition set_column (name : string) (vals : list Cell) (f : Frame) : Frame :=
  match col_index name (columns f) with
  | Ok p => mkFrame (columns f) (zip_with (fun '(l, cells) v => (l, <[p := v]> cells)) (rows f) vals)
  | Err _ => mkFrame (columns f ++ [name]) (zip_with (fun '(l, cells) v => (l, cells ++ [v])) (rows f) vals)
  end.

(** ** [agent_init_data] *)

(** Lines 160-162: the columns 7 to 13 are summed into [some_highschool],
    dropped, and the sum inserted at position 7. *)
Definition combine_highschool (f : Frame) : res Frame :=
  let ps := select_pos (py_slice 7 14 (columns f)) (columns f) in
  sums ← row_sums ps f;
  df_insert 7 "some_highschool" (map snd sums)
    (mkFrame (keep_pos ps (columns f)) (map (fun '(l, cells) => (l, keep_pos ps cells)) (rows f))).

(** [df[df[col].isin(vals)]], lines 164-165. *)
Definition cell_isin (vals : list string) (c : Cell) : bool :=
  match c with CStr s => bool_decide (s ∈ vals) | _ => false end.

Definition isin_filter (col : string) (vals : list string) (f : Frame) : res Frame :=
  p ← col_index col (columns f);
  Ok (mkFrame (columns f) (List.filter (fun r => cell_isin vals (nth p r.2 CNone)) (rows f))).

(** The four column ranges of lines 169 and 177. *)
Definition groups : list (nat * nat) := [(6, 16); (17, 33); (34, 53); (55, 70)]%nat.

Definition group_pos (g : nat * nat) (f : Frame) : list nat :=
  select_pos (py_slice g.1 g.2 (columns f)) (columns f).

(** Lines 170-173 for one range: the labels of the rows summing to 0. *)
Definition zero_labels (f : Frame) (g : nat * nat) : res (list nat) :=
  sums ← row_sums (group_pos g f) f;
  Ok (map fst (List.filter (fun s => is_zero s.2) sums)).

(** Lines 167-175: [gdf_AOI.drop(set(indexes_to_remove))]. *)
Definition remove_zero_tracts (f : Frame) : res Frame :=
  idx ← fold_res (fun acc g => ls ← zero_labels f g; Ok (acc ++ ls)) groups [];
  Ok (mkFrame (columns f) (List.filter (fun r => negb (bool_decide (r.1 ∈ idx))) (rows f))).

(** Lines 178-180 for one range: each cell divided by its row's sum. *)
Definition normalise_group (f : Frame) (g : nat * nat) : res Frame :=
  let ps := group_pos g f in
  sums ← row_sums ps f;
  rows' ← mapM (fun '((l, cells), (_, a)) => cells' ← map_pos ps (fun c => cell_div c a) cells;
                                             Ok (l, cells'))
            (zip (rows f) sums);
  Ok (mkFrame (columns f) rows').

(** Lines 177-180. *)
Definition normalise (f : Frame) : res Frame := fold_res normalise_group groups f.

(** Line 181: [PopDense] is [AgeTotal] over its column total. *)
Definition add_popdense (f : Frame) : res Frame :=
  p ← col_index "AgeTotal" (columns f);
  let col := map (fun r => nth p r.2 CNone) (rows f) in
  total ← pd_sum col;
  dens ← mapM (fun c => cell_div c total) col;
  Ok (set_column "PopDense" dens f).

(** The disk: the county directories under ./ACSDATA with the table of
    each, and the national table ./ACSDATA/ASC_data.gpkg. *)
Record Disk := mkDisk { acs_dirs : gmap string Frame; acs_national : Frame }.

(** [str] of a list of strings without quotes or backslashes. *)
Definition py_str_list (l : list string) : string :=
  "[" +:+ String.concat ", " (map (fun s => "'" +:+ s +:+ "'") l) +:+ "]".

Definition acs_dir (state county : list string) : string :=
  "./ACSDATA/" +:+ py_str_list state +:+ py_str_list county.

(** The column order in which [gpd.read_file] gives back a table that
    [to_file] wrote: the attribute columns in their order, then the
    geometry column (the first one named [geometry]: a GPKG layer has a
    single geometry field, stored apart from the attributes). *)
Definition geo_order (cols : list string) : list nat :=
  filter (fun i => nth i cols ""%string <> "geometry"%string) (seq 0 (length cols)) ++
  take 1 (filter (fun i => nth i cols ""%string = "geometry"%string) (seq 0 (length cols))).

Definition reorder {A} (o : list nat) (d : A) (l : list A) : list A := map (fun i => nth i l d) o.

(** [gpd.read_file]: the columns in [geo_order], one cell per column in
    each row, under a fresh [RangeIndex]. *)
Definition relabel (f : Frame) : Frame :=
  let o := geo_order (columns f) in
  mkFrame (reorder o ""%string (columns f))
          (zip (seq 0 (length (rows f))) (map (fun r => reorder o CNone r.2) (rows f))).

(** [agent_init_data(state, county)], lines 136-184: the table and the
    disk afterwards. *)
Definition agent_init_data (fs : Disk) (state county : list string) : res (Frame * Disk) :=
  let dir := acs_dir state county in
  match acs_dirs fs !! dir with
  | Some f => Ok (relabel f, fs)
  | None =>
      f ← combine_highschool (relabel (acs_national fs));
      f ← isin_filter "County" county f;
      f ← isin_filter "State" state f;
      f ← remove_zero_tracts f;
      f ← normalise f;
      f ← add_popdense f;
      Ok (f, mkDisk (<[dir := f]> (acs_dirs fs)) (acs_national fs))
  end.

(** ** What the constructor reads *)

(** [init_data[col]] as a series: the labels and the cells. *)
Definition series (col : string) (f : Frame) : res (list (nat * Cell)) :=
  p ← col_index col (columns f);
  Ok (map (fun r => (r.1, nth p r.2 CNone)) (rows f)).

Definition cell_text (c : Cell) : option string :=
  match c with CStr s => Some s | _ => None end.

(** [init_data[col].apply(parse_np_float_string)], Model.py lines 116-118:
    the parsed series keeps the labels. *)
Definition parse_series (col : string) (f : Frame) : res (list (nat * list PyFloat)) :=
  s ← series col f;
  mapM (fun '(l, c) => v ← parse_np_float_string (cell_text c); Ok (l, v)) s.

Definition centroid (c : Cell) : res (Q * Q) :=
  match c with CGeom p => Ok p | _ => Err AttributeError end.

Record TractInputs := mkTractInputs {
  ti_pos : list (Q * Q);
  ti_wind : list (nat * list PyFloat);
  ti_rain : list (nat * list PyFloat);
  ti_surge : list (nat * list PyFloat)
}.

(** Model.py lines 112-118: [list(init_data["geometry"].centroid)] and
    the three parsed cue series. *)
Definition read_tracts (f : Frame) : res TractInputs :=
  g ← series "geometry" f;
  pos ← mapM (fun '(_, c) => centroid c) g;
  w ← parse_series "WindCat" f;
  r ← parse_series "RainCat" f;
  s ← parse_series "storm_Surge" f;
  Ok (mkTractInputs pos w r s).

(** [series[i]] on an integer index: a label lookup, [KeyError] when no
    row has label [i]. *)
Fixpoint series_get {A} (s : list (nat * A)) (i : nat) : res A :=
  match s with
  | [] => Err KeyError
  | (l, v) :: s' => if (l =? i)%nat then Ok v else series_get s' i
  end.

(** Model.py lines 135-145: [wind_list[population_idx]],
    [rain_list[population_idx]], [surge_list[population_idx]] and
    [pos_idx[population_idx]], in this order. *)
Definition tract_of (ti : TractInputs) (population_idx : nat)
    : res (list PyFloat * list PyFloat * list PyFloat * (Q * Q)) :=
  wind ← series_get (ti_wind ti) population_idx;
  rain ← series_get (ti_rain ti) population_idx;
  surge ← series_get (ti_surge ti) population_idx;
  pos ← py_index (ti_pos ti) (Z.of_nat population_idx);
  Ok (wind, rain, surge, pos).

(** The tolerance of [np.random.choice] on the sum of [p]:
    [atol = np.sqrt(np.finfo(np.float64).eps)], the square root of
    [2 ^ -52]. *)
Definition np_choice_atol : Q := 1 # 67108864.

(** The checks of [np.random.choice(a, p=p)] (numpy's [ValueError]s):
    [a > 0], [len(p) == a], no [nan], no negative entry (an infinite entry
    fails one of these or the sum), and a sum within [atol] of 1. *)
Definition np_choice_check (a : nat) (p : list PyFloat) : res unit :=
  if (a =? 0)%nat then Err ValueError
  else if negb (length p =? a)%nat then Err ValueError
  else qs ← mapM (fun x => match x with
                           | Fin q => if Qle_bool 0 q then Ok q else Err ValueError
                           | _ => Err ValueError
                           end) p;
       if Qle_bool (Qabs (qsum qs - 1)) np_choice_atol then Ok tt else Err ValueError.

Definition cell_float (c : Cell) : res PyFloat :=
  match c with CNum x => Ok x | CNone => Ok NaN | CStr _ => Err ValueError | CGeom _ => Err TypeError end.

(** Model.py line 129: the location draw's checks on
    [init_data["PopDense"]]. *)
Definition location_check (f : Frame) : res unit :=
  s ← series "PopDense" f;
  p ← mapM (fun '(_, c) => cell_float c) s;
  np_choice_check (length (rows f)) p.

(** ** The cache *)

Definition labels (f : Frame) : list nat := map fst (rows f).

Lemma relabel_labels f : labels (relabel f) = seq 0 (length (rows f)).
Proof.
  unfold labels, relabel. cbn. rewrite fst_zip; [done|]. rewrite length_seq, length_map. lia.
Qed.

Lemma filter_seq_all (P : nat -> Prop) `{!forall i, Decision (P i)} a n :
  (forall i, (a <= i < a + n)%nat -> P i) -> filter P (seq a n) = seq a n.
Proof.
  revert a. induction n as [|n IH]; intros a HP; [done|]. cbn [seq].
  rewrite filter_cons_True by (apply HP; lia). f_equal. apply IH. intros; apply HP; lia.
Qed.

Lemma filter_seq_none (P : nat -> Prop) `{!forall i, Decision (P i)} a n :
  (forall i, (a <= i < a + n)%nat -> ~ P i) -> filter P (seq a n) = [].
Proof.
  revert a. induction n as [|n IH]; intros a HP; [done|]. cbn [seq].
  rewrite filter_cons_False by (apply HP; lia). apply IH. intros; apply HP; lia.
Qed.

Lemma reorder_seq {A} (d : A) l : reorder (seq 0 (length l)) d l = l.
Proof.
  unfold reorder. induction l as [|x l IH]; [done|]. cbn [length seq map nth].
  rewrite <- seq_shift, map_map. cbn [nth]. by rewrite IH.
Qed.

Lemma geo_order_split xs ys :
  Forall (fun c => c <> "geometry"%string) xs -> Forall (fun c => c = "geometry"%string) ys ->
  (length ys <= 1)%nat -> geo_order (xs ++ ys) = seq 0 (length xs + length ys).
Proof.
  intros Hx Hy Hl. unfold geo_order. rewrite length_app, seq_app, !filter_app. cbn [Nat.add].
  rewrite (filter_seq_all _ 0), (filter_seq_none _ (length xs)), (filter_seq_none _ 0),
    (filter_seq_all _ (length xs)).
  - rewrite app_nil_r, app_nil_l, firstn_all2; [done|rewrite length_seq; lia].
  - intros i Hi. rewrite app_nth2 by lia. apply (proj1 (Forall_nth _ _ _) Hy); lia.
  - intros i Hi. rewrite app_nth1 by lia. apply (proj1 (Forall_nth _ _ _) Hx); lia.
  - intros i Hi Hne. rewrite app_nth2 in Hne by lia. apply Hne, (proj1 (Forall_nth _ _ _) Hy); lia.
  - intros i Hi. rewrite app_nth1 by lia. apply (proj1 (Forall_nth _ _ _) Hx); lia.
Qed.

(** Read back once more, a table read from a GPKG keeps its column order. *)
Lemma geo_order_reorder cols :
  geo_order (reorder (geo_order cols) ""%string cols) = seq 0 (length (geo_order cols)).
Proof.
  unfold geo_order at 2 3. unfold reorder at 1. rewrite map_app, length_app.
  rewrite geo_order_split, !length_map; [done| | |].
  - apply Forall_forall. intros c (i & -> & Hi%list_elem_of_filter)%list_elem_of_fmap. apply Hi.
  - apply Forall_forall. intros c (i & -> & Hi)%list_elem_of_fmap.
    apply elem_of_take in Hi as (k & Hk & _).
    apply list_elem_of_lookup_2, list_elem_of_filter in Hk. apply Hk.
  - rewrite length_map, length_take. lia.
Qed.

Lemma relabel_idem f : relabel (relabel f) = relabel f.
Proof.
  unfold relabel. cbn [columns rows]. rewrite geo_order_reorder.
  set (o := geo_order (columns f)). set (g := fun r : nat * list Cell => reorder o CNone r.2).
  assert (Hl : forall {A} (d : A) l, reorder (seq 0 (length o)) d (reorder o d l) = reorder o d l).
  { intros A d l. replace (length o) with (length (reorder o d l)) by apply length_map.
    apply reorder_seq. }
  f_equal; [apply Hl|]. rewrite length_zip, length_seq, length_map, Nat.min_id. f_equal.
  transitivity (map (reorder (seq 0 (length o)) CNone) (map snd (zip (seq 0 (length (rows f)))
                                                                   (map g (rows f))))).
  { by rewrite map_map. }
  rewrite snd_zip by (rewrite length_seq, length_map; lia). rewrite map_map. apply map_ext.
  intros r. apply Hl.
Qed.

(** C26.  The second call of [agent_init_data] for the same state and
    county reads the table the first call returned (or read) back from
    its cache directory, under fresh labels [0 .. n-1], and leaves the
    disk as it is. *)
Theorem agent_init_data_cache_roundtrip fs state county f fs' :
  agent_init_data fs state county = Ok (f, fs') ->
  agent_init_data fs' state county = Ok (relabel f, fs') /\
  labels (relabel f) = seq 0 (length (rows f)).
Proof.
  intros Hf. split; [|apply relabel_labels]. revert Hf. unfold agent_init_data.
  destruct (acs_dirs fs !! acs_dir state county) as [f0|] eqn:Ed.
  - intros [= <- <-]. by rewrite Ed, relabel_idem.
  - intros Hf. repeat (apply bind_Ok in Hf as (? & _ & Hf)). injection Hf as -> <-.
    cbn [acs_dirs]. by rewrite lookup_insert_eq.
Qed.

(** ** The constructor's lookups *)

Lemma mapM_pair_fst {A B C} (g : B -> res C) (s : list (A * B)) s' :
  mapM (fun '(l, c) => v ← g c; Ok (l, v)) s = Ok s' -> map fst s' = map fst s.
Proof.
  intros H%mapM_Forall2. induction H as [|[l c] [l' v] s s' Hx _ IH]; [done|]. cbn.
  apply bind_Ok in Hx as (? & _ & [= -> _]). by rewrite IH.
Qed.

Lemma series_labels col f s : series col f = Ok s -> map fst s = labels f.
Proof. unfold series. intros (p & _ & [= <-])%bind_Ok. by rewrite map_map. Qed.

Lemma parse_series_labels col f s : parse_series col f = Ok s -> map fst s = labels f.
Proof.
  unfold parse_series. intros (s0 & Hs0 & Hs)%bind_Ok.
  rewrite (mapM_pair_fst _ _ _ Hs). by apply series_labels in Hs0.
Qed.

Lemma read_tracts_shape f ti :
  read_tracts f = Ok ti ->
  map fst (ti_wind ti) = labels f /\ map fst (ti_rain ti) = labels f /\
  map fst (ti_surge ti) = labels f /\ length (ti_pos ti) = length (rows f).
Proof.
  unfold read_tracts. intros Hr. res_inv. subst ti. cbn.
  repeat split; try by eapply parse_series_labels.
  match goal with H : mapM _ _ = Ok _ |- _ => apply mapM_Forall2, Forall2_length in H end.
  match goal with H : series _ _ = Ok _ |- _ =>
    apply series_labels in H; apply (f_equal length) in H; rewrite !length_map in H end.
  unfold labels in *. rewrite length_map in *. lia.
Qed.

(** [series[i]] finds a value exactly when some row has label [i]. *)
Lemma series_get_spec {A} (s : list (nat * A)) i :
  (i ∈ map fst s -> exists v, series_get s i = Ok v) /\
  (i ∉ map fst s -> series_get s i = Err KeyError).
Proof.
  induction s as [|[l v] s IH]; cbn [series_get map fst].
  { split; [by intros ?%elem_of_nil|done]. }
  destruct (Nat.eqb_spec l i) as [->|Hne]; [split; [eauto|by intros []; left]|].
  rewrite elem_of_cons. split.
  - intros [->|Hin]; [done|]. by apply IH.
  - intros Hn. apply IH. intros Hin. apply Hn. by right.
Qed.

(** In the constructor, [wind_list[population_idx]] is a lookup by
    label: for a position [i] that [np.random.choice(len(init_data))] can
    draw, the lookups raise [KeyError] exactly when no row of the table
    has label [i]. *)
Theorem tract_of_keyerror f ti i :
  read_tracts f = Ok ti -> (i < length (rows f))%nat ->
  (tract_of ti i = Err KeyError <-> i ∉ labels f).
Proof.
  intros Hr Hi. destruct (read_tracts_shape _ _ Hr) as (Hw & Hra & Hs & Hp).
  unfold tract_of. split.
  - intros Ht Hin.
    destruct (proj1 (series_get_spec (ti_wind ti) i)) as [w Ew]; [by rewrite Hw|].
    destruct (proj1 (series_get_spec (ti_rain ti) i)) as [r Er]; [by rewrite Hra|].
    destruct (proj1 (series_get_spec (ti_surge ti) i)) as [s Es]; [by rewrite Hs|].
    destruct (py_index_in_range (ti_pos ti) (Z.of_nat i)) as [p Hpi]; [lia|].
    rewrite Ew, Er, Es in Ht. cbn in Ht. by rewrite Hpi in Ht.
  - intros Hn. rewrite <- Hw in Hn. by rewrite (proj2 (series_get_spec _ _) Hn).
Qed.

(** ** Labels through [agent_init_data] *)

Lemma row_sums_labels ps f s : row_sums ps f = Ok s -> map fst s = labels f.
Proof. apply (mapM_pair_fst (fun c => pd_sum (cells_at ps c))). Qed.

Lemma zip_with_labels {B} (h : list Cell -> B -> list Cell) (rs : list (nat * list Cell)) vs :
  (length rs <= length vs)%nat ->
  map fst (zip_with (fun '(l, cells) v => (l, h cells v)) rs vs) = map fst rs.
Proof.
  revert vs. induction rs as [|[l c] rs IH]; intros [|v vs] Hl; cbn in *; try done; [lia|].
  f_equal. apply IH. lia.
Qed.

Lemma filter_labels (p : nat * list Cell -> bool) rs :
  map fst (List.filter p rs) `sublist_of` map fst rs.
Proof.
  induction rs as [|r rs IH]; cbn; [done|].
  destruct (p r); cbn; [by apply sublist_skip|by apply sublist_cons].
Qed.

Lemma combine_highschool_labels f f' : combine_highschool f = Ok f' -> labels f' = labels f.
Proof.
  unfold combine_highschool, df_insert. intros (s & Hs & Hf)%bind_Ok.
  repeat case_match; simplify_eq. unfold labels. cbn.
  apply row_sums_labels in Hs. rewrite zip_with_labels, map_map.
  - apply map_ext. by intros [].
  - apply (f_equal length) in Hs. unfold labels in Hs. rewrite !length_map in *. lia.
Qed.

Lemma isin_filter_labels col vals f f' :
  isin_filter col vals f = Ok f' -> labels f' `sublist_of` labels f.
Proof. unfold isin_filter. intros (p & _ & [= <-])%bind_Ok. apply filter_labels. Qed.

Lemma remove_zero_tracts_labels f f' :
  remove_zero_tracts f = Ok f' -> labels f' `sublist_of` labels f.
Proof. unfold remove_zero_tracts. intros (idx & _ & [= <-])%bind_Ok. apply filter_labels. Qed.

Lemma normalise_group_labels f g f' : normalise_group f g = Ok f' -> labels f' = labels f.
Proof.
  unfold normalise_group. intros (s & Hs & (out & Hout & [= <-])%bind_Ok)%bind_Ok.
  apply row_sums_labels in Hs. apply mapM_Forall2 in Hout. unfold labels in *. cbn.
  assert (Hl : length (rows f) = length s).
  { apply (f_equal length) in Hs. rewrite !length_map in Hs. lia. }
  clear Hs. revert s out Hl Hout. induction (rows f) as [|[l c] rs IH];
    intros [|[l' a] s] out Hl Hout; cbn in *; try lia; inversion Hout; subst; [done|].
  match goal with H : (_ ≫= _) = Ok _ |- _ => apply bind_Ok in H as (? & _ & [= <-]) end.
  cbn. f_equal. apply (IH s); [lia|done].
Qed.

Lemma normalise_labels f f' : normalise f = Ok f' -> labels f' = labels f.
Proof.
  apply (fold_res_inv (fun h => labels h = labels f)); [|done].
  intros h g h' Hh Hg. by rewrite (normalise_group_labels _ _ _ Hg).
Qed.

Lemma add_popdense_labels f f' : add_popdense f = Ok f' -> labels f' = labels f.
Proof.
  unfold add_popdense, set_column.
  intros (p & _ & (t & _ & (d & Hd & [= <-])%bind_Ok)%bind_Ok)%bind_Ok.
  apply mapM_Forall2, Forall2_length in Hd. rewrite length_map in Hd.
  unfold labels. case_match; cbn; rewrite zip_with_labels; auto; lia.
Qed.

(** On a first call, the labels are the positions in the national table
    of the tracts kept, in order. *)
Lemma agent_init_data_fresh_labels fs state county f fs' :
  acs_dirs fs !! acs_dir state county = None ->
  agent_init_data fs state county = Ok (f, fs') ->
  labels f `sublist_of` seq 0 (length (rows (acs_national fs))).
Proof.
  unfold agent_init_data. intros -> Hf.
  apply bind_Ok in Hf as (f1 & H1 & Hf). apply bind_Ok in Hf as (f2 & H2 & Hf).
  apply bind_Ok in Hf as (f3 & H3 & Hf). apply bind_Ok in Hf as (f4 & H4 & Hf).
  apply bind_Ok in Hf as (f5 & H5 & Hf). apply bind_Ok in Hf as (f6 & H6 & [= <- _]).
  rewrite <- relabel_labels, (add_popdense_labels _ _ H6), (normalise_labels _ _ H5),
    <- (combine_highschool_labels _ _ H1).
  etrans; [apply (remove_zero_tracts_labels _ _ H4)|].
  etrans; [apply (isin_filter_labels _ _ _ _ H3)|]. apply (isin_filter_labels _ _ _ _ H2).
Qed.

(** A sublist of [a, a+1, ...] of length [n] is [a .. a+n-1], or misses
    one of these numbers. *)
Lemma sublist_seq_gap (L : list nat) a N :
  L `sublist_of` seq a N -> L = seq a (length L) \/ exists i, (a <= i < a + length L)%nat /\ i ∉ L.
Proof.
  revert a L. induction N as [|N IH]; intros a L HL; cbn in HL.
  { apply sublist_nil_r in HL as ->. by left. }
  apply sublist_cons_r in HL as [HL | (L' & -> & HL)].
  - destruct L as [|x L]; [by left|]. right. exists a. split; [cbn; lia|].
    intros Ha. apply (elem_of_sublist _ _ _ Ha), elem_of_seq in HL. lia.
  - destruct (IH (S a) L' HL) as [Heq | (i & Hi & Hn)].
    + left. cbn. by rewrite Heq, length_seq.
    + right. exists i. split; [cbn; lia|]. rewrite elem_of_cons. intros [-> | ?]; [lia|done].
Qed.

(** ** The location weights *)

(** Every row has one cell per column. *)
Definition frame_wf (f : Frame) : Prop :=
  Forall (fun r => length r.2 = length (columns f)) (rows f).

Lemma col_index_Ok name cols p : col_index name cols = Ok p -> (p < length cols)%nat.
Proof.
  revert p. induction cols as [|c cols IH]; intros p; cbn; [done|].
  case_bool_decide; [intros [= <-]; lia|].
  destruct (col_index name cols) eqn:E; cbn; [|done]. intros [= <-]. specialize (IH _ eq_refl). lia.
Qed.

Lemma col_index_Err name cols e : col_index name cols = Err e -> col_index name (cols ++ [name]) = Ok (length cols).
Proof.
  revert e. induction cols as [|c cols IH]; intros e; cbn.
  - intros _. by rewrite bool_decide_eq_true_2.
  - case_bool_decide; [done|]. destruct (col_index name cols) eqn:E; cbn; [done|].
    intros _. by rewrite (IH _ eq_refl).
Qed.

(** [df[name] = values] followed by [df[name]]. *)
Lemma series_set_column name vals f :
  frame_wf f -> length vals = length (rows f) ->
  series name (set_column name vals f) = Ok (zip (labels f) vals).
Proof.
  intros Hwf Hl. unfold set_column, series, labels.
  destruct (col_index name (columns f)) as [p|e] eqn:Ep; cbn.
  - rewrite Ep. cbn. f_equal. apply col_index_Ok in Ep.
    revert vals Hl. induction Hwf as [|[l c] rs Hc _ IH]; intros [|v vals] Hl; cbn in *; try done.
    f_equal; [|apply IH; lia]. f_equal. rewrite nth_lookup, list_lookup_insert_eq; [done|lia].
  - rewrite (col_index_Err _ _ _ Ep). cbn. f_equal.
    revert vals Hl. induction Hwf as [|[l c] rs Hc _ IH]; intros [|v vals] Hl; cbn in *; try done.
    f_equal; [|apply IH; lia]. f_equal. rewrite <- Hc, app_nth2, Nat.sub_diag; done || lia.
Qed.

Lemma set_column_length name vals f :
  length vals = length (rows f) -> length (rows (set_column name vals f)) = length (rows f).
Proof. intros Hl. unfold set_column. case_match; cbn; rewrite length_zip_with; lia. Qed.

(** The sum of a column of finite numbers. *)
Lemma pd_sum_fin (xs : list Q) : pd_sum (map (fun a => CNum (Fin a)) xs) = Ok (Fin (qsum xs)).
Proof.
  unfold pd_sum, qsum.
  rewrite (mapM_Ok_map _ _ (fun a => Some (Fin a))) by (apply Forall_forall; intros; reflexivity).
  cbn. rewrite <- fold_fadd_fin. do 2 f_equal. induction xs as [|x xs IH]; cbn; congruence.
Qed.

Lemma qsum_map_div (xs : list Q) t : ~ t == 0 -> qsum (map (fun a => a / t) xs) == qsum xs / t.
Proof.
  intros Ht. induction xs as [|x xs IH]; cbn [map].
  - unfold qsum. cbn. unfold Qdiv. ring.
  - rewrite !qsum_cons, IH. field. exact Ht.
Qed.

(** The weights numpy reads from a column of numbers. *)
Lemma mapM_cell_float_zip {B} (ls : list nat) (g : B -> PyFloat) xs :
  length ls = length xs ->
  mapM (fun '(_, c) => cell_float c) (zip ls (map (fun x => CNum (g x)) xs)) = Ok (map g xs).
Proof.
  revert xs. induction ls as [|l ls IH]; intros [|x xs] Hl; cbn in *; try done.
  rewrite IH; [done|lia].
Qed.

(** [np.random.choice] accepts a probability vector of the right length. *)
Lemma np_choice_check_fin n qs :
  n = length qs -> qs <> [] -> Forall (Qle 0) qs -> qsum qs == 1 ->
  np_choice_check n (map Fin qs) = Ok tt.
Proof.
  intros -> Hne Hnn Hs. unfold np_choice_check.
  destruct qs as [|q qs']; [done|]. cbn [length Nat.eqb negb]. rewrite length_map, Nat.eqb_refl. cbn [negb].
  rewrite (mapM_Ok_map _ _ id).
  - rewrite bind_ret, map_id. replace (Qle_bool _ _) with true; [done|].
    symmetry. apply Qle_bool_iff. rewrite Hs. unfold np_choice_atol. vm_compute. discriminate.
  - eapply Forall_impl; [exact Hnn|]. intros a Ha. cbn. by rewrite (proj2 (Qle_bool_iff _ _) Ha).
Qed.

Lemma np_choice_check_nan n p : NaN ∈ p -> np_choice_check n p <> Ok tt.
Proof.
  intros Hin. unfold np_choice_check.
  destruct (n =? 0)%nat; [done|]. destruct (negb _); [done|].
  destruct (mapM _ p) as [qs|e] eqn:E; cbn; [|done].
  apply mapM_Forall2 in E. exfalso.
  apply list_elem_of_lookup_1 in Hin as [k Hk].
  by destruct (Forall2_lookup_l _ _ _ k NaN E Hk) as (q & _ & Hq).
Qed.

Lemma series_Ok col f s :
  series col f = Ok s -> exists p, col_index col (columns f) = Ok p /\
    s = map (fun r => (r.1, nth p r.2 CNone)) (rows f).
Proof. unfold series. intros (p & Hp & [= <-])%bind_Ok. eauto. Qed.

(** C22.  Line 181 makes [PopDense] a valid argument of the constructor's
    [np.random.choice]: on a table whose [AgeTotal] column holds
    non-negative numbers, [add_popdense] succeeds, and the draw's checks
    pass exactly when the county has a tract and a positive population;
    otherwise ([0 / 0] is [nan], or no tract) the draw raises [ValueError]. *)
Theorem add_popdense_location_check f s ages :
  frame_wf f -> series "AgeTotal" f = Ok s ->
  map snd s = map (fun a => CNum (Fin a)) ages -> Forall (Qle 0) ages ->
  exists f', add_popdense f = Ok f' /\
    (location_check f' = Ok tt <-> ages <> [] /\ 0 < qsum ages).
Proof.
  intros Hwf Hs Hages Hnn. destruct (series_Ok _ _ _ Hs) as (p & Hp & ->).
  rewrite map_map in Hages. cbn in Hages.
  assert (Hlen : length ages = length (rows f))
    by (apply (f_equal length) in Hages; rewrite !length_map in Hages; lia).
  set (T := qsum ages).
  set (dens := map (fun a => CNum (fdiv (Fin a) (Fin T))) ages).
  exists (set_column "PopDense" dens f). split.
  { unfold add_popdense. rewrite Hp, bind_ret. cbv zeta. rewrite Hages, pd_sum_fin, bind_ret.
    by rewrite (mapM_Ok_map _ _ (fun a => CNum (fdiv (Fin a) (Fin T))))
      by (apply Forall_forall; intros; reflexivity). }
  unfold location_check. rewrite series_set_column
    by (done || (unfold dens; rewrite length_map; done)).
  rewrite bind_ret, set_column_length by (unfold dens; rewrite length_map; done).
  unfold dens. rewrite mapM_cell_float_zip
    by (unfold labels; rewrite length_map; done). rewrite bind_ret.
  destruct (decide (ages = [])) as [->|Hne].
  { cbn in Hlen. rewrite <- Hlen. split; [discriminate|by intros []]. }
  destruct (Qeq_dec T 0) as [HT|HT].
  - split; [|intros [_ ?]; lra]. intros Hc. exfalso. refine (np_choice_check_nan _ _ _ Hc).
    destruct ages as [|a ages']; [done|]. apply elem_of_cons. left.
    apply qsum_zero_nonneg in HT as Hz; [|done]. apply Forall_cons in Hz as [Ha _].
    cbn [map]. unfold fdiv. by rewrite (proj2 (Qeq_bool_iff _ _) HT), (proj2 (Qeq_bool_iff _ _) Ha).
  - assert (Hpos : 0 < T) by (pose proof (qsum_nonneg _ Hnn); unfold T in *; lra).
    assert (HTb : Qeq_bool T 0 = false)
      by (apply not_true_iff_false; intros E; by apply HT, Qeq_bool_iff).
    split; [by intros _|intros _].
    replace (map (fun a => fdiv (Fin a) (Fin T)) ages) with (map Fin (map (fun a => a / T) ages))
      by (rewrite map_map; apply map_ext; intros a; cbn; by rewrite HTb).
    apply np_choice_check_fin.
    + rewrite length_map. lia.
    + by destruct ages.
    + apply Forall_map. eapply Forall_impl; [exact Hnn|]. intros a Ha.
      apply Qle_shift_div_l; [done|]. lra.
    + rewrite qsum_map_div by done. unfold T. field. exact HT.
Qed.

(** ** Proportions *)

(** With distinct column names, [df.columns[i:j]] selects the positions
    [i .. j-1]. *)
Lemma group_pos_range g f p :
  NoDup (columns f) -> p ∈ group_pos g f -> (g.1 <= p < g.2)%nat.
Proof.
  intros Hnd. unfold group_pos, select_pos, py_slice.
  rewrite list_elem_of_filter, elem_of_seq. intros [Hin Hp].
  apply bool_decide_unpack, list_elem_of_lookup_1 in Hin as [k Hk].
  rewrite lookup_take_Some, lookup_drop in Hk. destruct Hk as [Hk Hkl].
  destruct (lookup_lt_is_Some_2 (columns f) p) as [c Hc]; [lia|].
  rewrite (nth_lookup_Some _ _ _ _ Hc) in Hk.
  pose proof (NoDup_lookup _ _ _ _ Hnd Hc Hk). lia.
Qed.

(** The cells of a row at the positions [ps] are finite numbers. *)
Definition fin_at (ps : list nat) (cells : list Cell) : Prop :=
  Forall (fun p => exists x, nth p cells CNone = CNum (Fin x)) ps.

Definition cell_val (c : Cell) : Q := match c with CNum (Fin x) => x | _ => 0 end.

(** Their sum. *)
Definition gsum (ps : list nat) (cells : list Cell) : Q :=
  qsum (map (fun p => cell_val (nth p cells CNone)) ps).

Lemma pd_sum_fin_at ps cells :
  fin_at ps cells -> pd_sum (cells_at ps cells) = Ok (Fin (gsum ps cells)).
Proof.
  intros Hf. unfold cells_at, gsum. rewrite <- pd_sum_fin, map_map. f_equal.
  apply map_ext_in. intros p Hp%list_elem_of_In. unfold fin_at in Hf. rewrite Forall_forall in Hf.
  by destruct (Hf p Hp) as [x ->].
Qed.

Lemma fin_at_ext ps c c' :
  (forall p, p ∈ ps -> nth p c' CNone = nth p c CNone) ->
  (fin_at ps c' <-> fin_at ps c) /\ gsum ps c' = gsum ps c.
Proof.
  intros Heq. unfold fin_at, gsum. rewrite !Forall_forall. split.
  - split; intros H p Hp; [rewrite <- Heq|rewrite Heq]; auto.
  - f_equal. apply map_ext_in. intros p Hp%list_elem_of_In. by rewrite Heq.
Qed.

(** A row after line 180 for the positions [ps]. *)
Definition norm_row (ps : list nat) (cells : list Cell) : list Cell :=
  imap (fun i c => if bool_decide (i ∈ ps) then CNum (fdiv (Fin (cell_val c)) (Fin (gsum ps cells)))
                   else c) cells.

Lemma mapM_zip_seq (h : nat * Cell -> res Cell) (h' : nat -> Cell -> Cell) (l : list Cell) (k : nat) :
  (forall (j : nat) c, l !! j = Some c -> h (k + j, c)%nat = Ok (h' (k + j)%nat c)) ->
  mapM h (zip (seq k (length l)) l) = Ok (imap (fun j c => h' (k + j)%nat c) l).
Proof.
  revert k. induction l as [|c l IH]; intros k Hh; [done|]. cbn [length seq zip mapM].
  assert (H0 := Hh 0%nat c eq_refl). rewrite Nat.add_0_r in H0. rewrite H0, (IH (S k)).
  - rewrite imap_cons, Nat.add_0_r. cbn. do 2 f_equal. apply imap_ext. intros j x _. cbn. f_equal. lia.
  - intros j x Hj. replace (S k + j)%nat with (k + S j)%nat by lia. by apply Hh.
Qed.

Lemma map_pos_norm ps cells :
  fin_at ps cells ->
  map_pos ps (fun c => cell_div c (Fin (gsum ps cells))) cells = Ok (norm_row ps cells).
Proof.
  intros Hf. unfold map_pos, norm_row.
  rewrite (mapM_zip_seq _ (fun i c => if bool_decide (i ∈ ps)
            then CNum (fdiv (Fin (cell_val c)) (Fin (gsum ps cells))) else c)); [done|].
  intros j c Hj. cbn. case_bool_decide as Hin; [|done].
  unfold fin_at in Hf. rewrite Forall_forall in Hf. destruct (Hf j Hin) as [x Hx].
  rewrite (nth_lookup_Some _ _ _ _ Hj) in Hx. by subst.
Qed.

Lemma norm_row_nth ps cells p :
  nth p (norm_row ps cells) CNone =
  if bool_decide (p ∈ ps ∧ p < length cells)%nat
  then CNum (fdiv (Fin (cell_val (nth p cells CNone))) (Fin (gsum ps cells)))
  else nth p cells CNone.
Proof.
  unfold norm_row. rewrite !nth_lookup, list_lookup_imap.
  destruct (cells !! p) as [c|] eqn:Hc; cbn.
  - apply lookup_lt_Some in Hc as Hlt. case_bool_decide; case_bool_decide; naive_solver.
  - apply lookup_ge_None in Hc. case_bool_decide; [lia|done].
Qed.

Lemma row_sums_fin ps f :
  Forall (fun r => fin_at ps r.2) (rows f) ->
  row_sums ps f = Ok (map (fun r => (r.1, Fin (gsum ps r.2))) (rows f)).
Proof.
  unfold row_sums. generalize (rows f). intros rs H.
  induction H as [|[l c] rs Hc _ IH]; [done|]. cbn [mapM map].
  rewrite pd_sum_fin_at by done. cbn. by rewrite IH.
Qed.

(** Line 180 for one range, on rows whose cells there are finite. *)
Lemma normalise_group_Ok f g :
  Forall (fun r => fin_at (group_pos g f) r.2) (rows f) ->
  normalise_group f g =
    Ok (mkFrame (columns f) (map (fun r => (r.1, norm_row (group_pos g f) r.2)) (rows f))).
Proof.
  intros H. unfold normalise_group. cbv zeta. rewrite row_sums_fin by done. rewrite bind_ret.
  revert H. generalize (rows f). intros rs H.
  induction H as [|[l c] rs Hc _ IH]; [done|]. cbn [zip map mapM].
  cbn -[map_pos gsum norm_row]. rewrite map_pos_norm by done. cbn -[gsum norm_row].
  destruct (mapM _ (zip rs _)) as [out|e]; cbn in *; [|done]. injection IH as ->. done.
Qed.

Lemma fin_at_nth ps cells p :
  fin_at ps cells -> p ∈ ps ->
  (p < length cells)%nat /\ nth p cells CNone = CNum (Fin (cell_val (nth p cells CNone))).
Proof.
  unfold fin_at. rewrite Forall_forall. intros Hf Hp. destruct (Hf p Hp) as [x Hx].
  rewrite Hx. split; [|done]. destruct (decide (p < length cells)%nat); [done|].
  rewrite nth_overflow in Hx by lia. discriminate.
Qed.

(** Normalising one range leaves the cells of the other ranges alone. *)
Lemma norm_row_keep ps ps' cells :
  (forall p, p ∈ ps' -> p ∉ ps) ->
  (fin_at ps' (norm_row ps cells) <-> fin_at ps' cells) /\ gsum ps' (norm_row ps cells) = gsum ps' cells.
Proof.
  intros Hd. apply fin_at_ext. intros p Hp. rewrite norm_row_nth.
  case_bool_decide as H; [|done]. exfalso. by apply (Hd p Hp), H.
Qed.

(** ... and makes its own cells sum to 1. *)
Lemma norm_row_done ps cells :
  fin_at ps cells -> ~ gsum ps cells == 0 ->
  fin_at ps (norm_row ps cells) /\ gsum ps (norm_row ps cells) == 1.
Proof.
  intros Hf Hs.
  assert (HTb : Qeq_bool (gsum ps cells) 0 = false)
    by (apply not_true_iff_false; intros E; by apply Hs, Qeq_bool_iff).
  assert (Hn : forall p, p ∈ ps -> nth p (norm_row ps cells) CNone =
                                   CNum (Fin (cell_val (nth p cells CNone) / gsum ps cells))).
  { intros p Hp. destruct (fin_at_nth _ _ _ Hf Hp) as [Hl _].
    rewrite norm_row_nth, bool_decide_eq_true_2 by done. cbn. by rewrite HTb. }
  split.
  - unfold fin_at. rewrite Forall_forall. intros p Hp. rewrite (Hn p Hp). eauto.
  - unfold gsum at 1. rewrite (map_ext_in _ (fun p => cell_val (nth p cells CNone) / gsum ps cells)).
    + rewrite <- (map_map (fun p => cell_val (nth p cells CNone)) (fun a => a / gsum ps cells)).
      rewrite qsum_map_div by done. fold (gsum ps cells). field. exact Hs.
    + intros p Hp%list_elem_of_In. by rewrite (Hn p Hp).
Qed.

Lemma group_pos_columns g f f' : columns f' = columns f -> group_pos g f' = group_pos g f.
Proof. intros Hc. unfold group_pos. by rewrite Hc. Qed.

(** The loop of lines 177-180 over the ranges [gs], after the ranges [dn]
    are done: every range ends up summing to 1, provided the ranges are
    disjoint and every row has finite cells with a non-zero sum in each
    range still to do. *)
Lemma normalise_fold gs dn f :
  NoDup gs -> (forall g, g ∈ gs -> g ∉ dn) ->
  (forall g g', g ∈ gs -> g' ∈ gs ++ dn -> g <> g' ->
     forall p, p ∈ group_pos g f -> p ∉ group_pos g' f) ->
  Forall (fun r => (forall g, g ∈ gs -> fin_at (group_pos g f) r.2 /\ ~ gsum (group_pos g f) r.2 == 0) /\
                   (forall g, g ∈ dn -> fin_at (group_pos g f) r.2 /\ gsum (group_pos g f) r.2 == 1))
    (rows f) ->
  exists f', fold_res normalise_group gs f = Ok f' /\ columns f' = columns f /\ labels f' = labels f /\
    Forall (fun r => forall g, g ∈ gs ++ dn ->
                      fin_at (group_pos g f) r.2 /\ gsum (group_pos g f) r.2 == 1) (rows f').
Proof.
  revert dn f. induction gs as [|g gs IH]; intros dn f Hnd Hdn Hdis Hrows.
  { exists f. do 3 (split; [done|]). eapply Forall_impl; [exact Hrows|]. by intros r [_ H]. }
  apply NoDup_cons in Hnd as [Hg Hnd].
  set (f1 := mkFrame (columns f) (map (fun r => (r.1, norm_row (group_pos g f) r.2)) (rows f))).
  assert (E1 : normalise_group f g = Ok f1).
  { apply normalise_group_Ok. eapply Forall_impl; [exact Hrows|]. intros r [H _]. apply H, elem_of_cons. by left. }
  assert (Hgp : forall g', group_pos g' f1 = group_pos g' f) by (intros; by apply group_pos_columns).
  assert (Hsep : forall g', g' ∈ (g :: gs) ++ dn -> g <> g' ->
                 forall p, p ∈ group_pos g' f -> p ∉ group_pos g f).
  { intros g' Hg' Hne p Hp Hp'. by apply (Hdis g g' ltac:(set_solver) Hg' Hne p Hp'). }
  destruct (IH (g :: dn) f1) as (f' & Hf' & Hc & Hl & Hr).
  - done.
  - intros g' Hg' Hin. apply elem_of_cons in Hin as [->|Hin]; [done|]. by apply (Hdn g'); [set_solver|].
  - intros g1 g2 H1 H2 Hne p. rewrite !Hgp. apply Hdis; [set_solver|set_solver|done].
  - apply Forall_map. eapply Forall_impl; [exact Hrows|]. intros [l c] [Htodo Hdone]. unfold compose. cbn [fst snd].
    split.
    + intros g' Hg'. rewrite Hgp.
      destruct (norm_row_keep (group_pos g f) (group_pos g' f) c) as [Hfe ->].
      { apply Hsep; [set_solver|]. intros <-. done. }
      rewrite Hfe. apply Htodo. set_solver.
    + intros g' Hg'. rewrite Hgp. apply elem_of_cons in Hg' as [->|Hin].
      * apply norm_row_done; apply Htodo; set_solver.
      * destruct (norm_row_keep (group_pos g f) (group_pos g' f) c) as [Hfe ->].
        { apply Hsep; [set_solver|]. intros <-. by apply (Hdn g); [set_solver|]. }
        rewrite Hfe. by apply Hdone.
  - exists f'. cbn [fold_res]. rewrite E1, bind_ret. split; [done|]. rewrite Hc, Hl.
    split; [done|]. split; [unfold labels; cbn; rewrite map_map; by apply map_ext|].
    eapply Forall_impl; [exact Hr|]. intros r Hr' g' Hg'. rewrite <- Hgp. apply Hr'. set_solver.
Qed.

(** The four ranges of lines 169 and 177 do not overlap. *)
Lemma groups_disjoint g g' p :
  g ∈ groups -> g' ∈ groups -> g <> g' -> (g.1 <= p < g.2)%nat -> ~ (g'.1 <= p < g'.2)%nat.
Proof.
  unfold groups. intros Hg Hg' Hne.
  repeat match goal with
  | H : _ ∈ _ :: _ |- _ => apply elem_of_cons in H as [->|H]
  | H : _ ∈ [] |- _ => by apply elem_of_nil in H
  end; first [done | cbn; lia].
Qed.

Lemma zero_labels_fin f g :
  Forall (fun r => fin_at (group_pos g f) r.2) (rows f) ->
  exists ls, zero_labels f g = Ok ls /\
    forall l, l ∈ ls <-> exists r, r ∈ rows f /\ r.1 = l /\ gsum (group_pos g f) r.2 == 0.
Proof.
  intros H. unfold zero_labels. rewrite row_sums_fin by done. eexists. split; [reflexivity|].
  intros l. rewrite list_elem_of_fmap. split.
  - intros ([l' x] & -> & Hin%list_elem_of_In). apply filter_In in Hin as [Hin Hz].
    apply in_map_iff in Hin as (r & [= <- <-] & Hr). exists r.
    split; [by apply list_elem_of_In|]. split; [done|]. by apply Qeq_bool_iff.
  - intros (r & Hr & <- & Hz). exists (r.1, Fin (gsum (group_pos g f) r.2)). split; [done|].
    apply list_elem_of_In, filter_In. split.
    + apply in_map_iff. exists r. split; [done|]. by apply list_elem_of_In.
    + cbn. by apply Qeq_bool_iff.
Qed.

Lemma zero_labels_fold gs f acc :
  Forall (fun r => forall g, g ∈ gs -> fin_at (group_pos g f) r.2) (rows f) ->
  exists idx, fold_res (fun acc g => ls ← zero_labels f g; Ok (acc ++ ls)) gs acc = Ok idx /\
    forall l, l ∈ idx <-> l ∈ acc \/
      exists g r, g ∈ gs /\ r ∈ rows f /\ r.1 = l /\ gsum (group_pos g f) r.2 == 0.
Proof.
  revert acc. induction gs as [|g gs IH]; intros acc H.
  { exists acc. split; [done|]. intros l. split; [by left|]. intros [?|(g & r & Hg & _)]; [done|].
    by apply elem_of_nil in Hg. }
  destruct (zero_labels_fin f g) as (ls & Els & Hls).
  { eapply Forall_impl; [exact H|]. intros r Hr. apply Hr. set_solver. }
  destruct (IH (acc ++ ls)) as (idx & Eidx & Hidx).
  { eapply Forall_impl; [exact H|]. intros r Hr g' Hg'. apply Hr. set_solver. }
  exists idx. cbn [fold_res]. rewrite Els, bind_ret, bind_ret. split; [done|].
  intros l. rewrite Hidx, elem_of_app, Hls. split.
  - intros [[?|(r & ?)]|(g' & r & ?)]; [by left|right; exists g, r; set_solver|right; exists g', r; set_solver].
  - intros [?|(g' & r & Hg' & Hr)]; [by left; left|].
    apply elem_of_cons in Hg' as [->|Hg']; [left; right; by exists r|right; by exists g', r].
Qed.

Lemma labels_unique (rs : list (nat * list Cell)) r r' :
  NoDup (map fst rs) -> r ∈ rs -> r' ∈ rs -> r.1 = r'.1 -> r = r'.
Proof.
  induction rs as [|r0 rs IH]; cbn [map]; intros Hnd Hr Hr' Hl; [by apply elem_of_nil in Hr|].
  apply NoDup_cons in Hnd as [Hn Hnd].
  apply elem_of_cons in Hr as [->|Hr], Hr' as [->|Hr']; auto.
  - exfalso. apply Hn. rewrite Hl. by apply list_elem_of_fmap_2.
  - exfalso. apply Hn. rewrite <- Hl. by apply list_elem_of_fmap_2.
Qed.

Lemma forallb_false {A} (h : A -> bool) l : forallb h l = false -> exists x, x ∈ l /\ h x = false.
Proof.
  induction l as [|x l IH]; cbn; [done|]. destruct (h x) eqn:E; cbn.
  - intros (y & ? & ?)%IH. exists y. split; [by right|done].
  - intros _. exists x. split; [by left|done].
Qed.

(** Lines 167-175: with distinct labels, the rows kept are those whose
    four ranges all have a non-zero sum. *)
Lemma remove_zero_tracts_spec f :
  NoDup (labels f) -> Forall (fun r => forall g, g ∈ groups -> fin_at (group_pos g f) r.2) (rows f) ->
  exists f1, remove_zero_tracts f = Ok f1 /\ columns f1 = columns f /\
    rows f1 = List.filter (fun r => forallb (fun g => negb (Qeq_bool (gsum (group_pos g f) r.2) 0)) groups)
                          (rows f).
Proof.
  intros Hnd H. destruct (zero_labels_fold groups f [] H) as (idx & Eidx & Hidx).
  eexists. unfold remove_zero_tracts. rewrite Eidx, bind_ret. split; [done|]. split; [done|]. cbn [rows].
  apply filter_ext_in. intros r Hr%list_elem_of_In.
  destruct (forallb (fun g => negb (Qeq_bool (gsum (group_pos g f) r.2) 0)) groups) eqn:Ef.
  - rewrite forallb_forall in Ef. apply negb_true_iff, bool_decide_eq_false. rewrite Hidx.
    intros [Hin|(g & r' & Hg & Hr' & Hl & Hz)]; [by apply elem_of_nil in Hin|].
    rewrite (labels_unique _ _ _ Hnd Hr' Hr Hl) in Hz.
    specialize (Ef g (proj1 (list_elem_of_In _ _) Hg)). apply negb_true_iff in Ef.
    rewrite (proj2 (Qeq_bool_iff _ _) Hz) in Ef. discriminate.
  - apply negb_false_iff, bool_decide_eq_true. rewrite Hidx. right.
    apply forallb_false in Ef as (g & Hg & Hz). apply negb_false_iff, Qeq_bool_iff in Hz.
    by exists g, r.
Qed.

(** C23.  Lines 167-180: on a table with distinct column names and labels
    whose cells in the four ranges are finite numbers, the removal keeps
    exactly the tracts whose four ranges all have a non-zero sum, and the
    normalisation then succeeds and makes every range of every kept tract
    sum to 1. *)
Theorem tract_proportions f :
  NoDup (columns f) -> NoDup (labels f) ->
  Forall (fun r => forall g, g ∈ groups -> fin_at (group_pos g f) r.2) (rows f) ->
  exists f1 f2, remove_zero_tracts f = Ok f1 /\ normalise f1 = Ok f2 /\
    rows f1 = List.filter (fun r => forallb (fun g => negb (Qeq_bool (gsum (group_pos g f) r.2) 0)) groups)
                          (rows f) /\
    labels f2 = labels f1 /\
    Forall (fun r => forall g, g ∈ groups -> fin_at (group_pos g f2) r.2 /\ gsum (group_pos g f2) r.2 == 1)
      (rows f2).
Proof.
  intros Hcols Hnd H. destruct (remove_zero_tracts_spec f Hnd H) as (f1 & E1 & Hc1 & Hr1).
  assert (Hgp : forall g, group_pos g f1 = group_pos g f) by (intros; by apply group_pos_columns).
  destruct (normalise_fold groups [] f1) as (f2 & E2 & Hc2 & Hl2 & Hr2).
  - apply (bool_decide_unpack (NoDup groups)). by vm_compute.
  - intros g _. apply not_elem_of_nil.
  - intros g g' Hg Hg' Hne p. rewrite !Hgp. rewrite app_nil_r in Hg'.
    intros Hp Hp'. apply group_pos_range in Hp, Hp'; [|done..].
    by apply (groups_disjoint g g' p Hg Hg' Hne Hp).
  - rewrite Hr1, Forall_forall. intros r Hr%list_elem_of_In. apply filter_In in Hr as [Hr Hall].
    rewrite forallb_forall in Hall. split; [|by intros g ?%elem_of_nil]. intros g Hg. rewrite Hgp.
    split.
    + rewrite Forall_forall in H. apply (H r); [by apply list_elem_of_In|done].
    + specialize (Hall g (proj1 (list_elem_of_In _ _) Hg)). apply negb_true_iff in Hall.
      intros Hz. rewrite (proj2 (Qeq_bool_iff _ _) Hz) in Hall. discriminate.
  - exists f1, f2. unfold normalise. do 3 (split; [done|]). split; [done|].
    eapply Forall_impl; [exact Hr2|]. intros r Hr g Hg. rewrite (group_pos_columns g f1 f2) by done.
    apply Hr. by rewrite app_nil_r.
Qed.

(** ** The shape of the tables *)

(** Dropping the same positions from two lists of one length. *)
Lemma keep_pos_length {A B} ps (l : list A) (l' : list B) :
  length l = length l' -> length (keep_pos ps l) = length (keep_pos ps l').
Proof.
  unfold keep_pos. generalize 0%nat. revert l'. induction l as [|x l IH]; intros [|y l'] k Hl; cbn in *; try done.
  case_bool_decide; cbn; rewrite (IH l' (S k)); [done|lia|done|lia].
Qed.

Lemma relabel_wf f : frame_wf (relabel f).
Proof.
  destruct f as [cols rs]. unfold frame_wf, relabel. cbn [columns rows].
  set (o := geo_order cols). generalize 0%nat.
  induction rs as [|[l c] rs IH]; intros k; cbn [length seq map zip]; constructor; auto.
  cbn. unfold reorder. by rewrite !length_map.
Qed.

(** ** Where the rows of a first call come from *)

(** [df[name]] at one row: the cell of the first column of that name. *)
Definition cell_named (name : string) (cols : list string) (cells : list Cell) : Cell :=
  match col_index name cols with Ok p => nth p cells CNone | Err _ => CNone end.

Lemma map_lookup {A B} (f : A -> B) l i : map f l !! i = f <$> l !! i.
Proof. revert i. induction l as [|x l IH]; intros [|i]; cbn; auto. Qed.

Lemma col_index_elem name cols : name ∈ cols -> exists p, col_index name cols = Ok p.
Proof.
  induction cols as [|c cols IH]; [by intros ?%elem_of_nil|]. cbn. intros Hin.
  case_bool_decide as Hc; [by eexists|].
  apply elem_of_cons in Hin as [->|Hin]; [done|]. destruct (IH Hin) as [p ->]. by eexists.
Qed.

Lemma col_index_not_elem name cols : name ∉ cols -> exists e, col_index name cols = Err e.
Proof.
  induction cols as [|c cols IH]; cbn; [by eexists|]. intros Hn.
  rewrite bool_decide_eq_false_2 by (intros ->; apply Hn; left).
  destruct IH as [e ->]; [intros ?; apply Hn; by right|]. by eexists.
Qed.

Lemma col_index_Ok_iff name cols p :
  col_index name cols = Ok p <->
  cols !! p = Some name /\ forall q, (q < p)%nat -> cols !! q <> Some name.
Proof.
  revert p. induction cols as [|c cols IH]; intros p; cbn [col_index].
  { split; [done|]. by intros [? _]. }
  case_bool_decide as Hc.
  - subst. split; [intros [= <-]; split; [done|lia]|]. intros [Hp Hq].
    destruct p as [|p]; [done|]. by destruct (Hq 0%nat); [lia|].
  - assert (Hs : forall p, (c :: cols) !! p = Some name ->
                 exists p', p = S p' /\ cols !! p' = Some name).
    { intros [|p'] Hp; [by injection Hp|eauto]. }
    destruct (col_index name cols) as [p'|e] eqn:E; cbn.
    + destruct (proj1 (IH p') eq_refl) as [Hp' Hq']. split.
      * intros [= <-]. split; [done|]. intros [|q] Hq; cbn; [congruence|apply Hq'; lia].
      * intros [(p'' & -> & Hp'')%Hs Hq]. do 2 f_equal.
        destruct (Nat.lt_trichotomy p' p'') as [Hlt|[->|Hlt]]; [|done|].
        -- by destruct (Hq (S p')); [lia|].
        -- by destruct (Hq' p'').
    + split; [done|]. intros [(p'' & -> & Hp'')%Hs _].
      destruct (col_index_elem name cols) as [p0 Hp0]; [by eapply list_elem_of_lookup_2|].
      congruence.
Qed.

Lemma filter_seq_lookup_lt (P : nat -> Prop) `{!forall i, Decision (P i)} a n i j x y :
  filter P (seq a n) !! i = Some x -> filter P (seq a n) !! j = Some y -> (i < j)%nat -> (x < y)%nat.
Proof.
  revert a i j. induction n as [|n IH]; intros a i j Hx Hy Hij; [done|]. cbn [seq] in *.
  destruct (decide (P a)).
  - rewrite filter_cons_True in Hx, Hy by done.
    destruct i as [|i], j as [|j]; cbn in *; try lia.
    + injection Hx as <-. apply list_elem_of_lookup_2, list_elem_of_filter in Hy as [_ Hy].
      apply elem_of_seq in Hy. lia.
    + apply (IH (S a) i j); [done|done|lia].
  - rewrite filter_cons_False in Hx, Hy by done. by apply (IH (S a) i j).
Qed.

(** The columns taken in the order [o], a subsequence of the positions
    followed by any others: where every column called [name] is kept, the
    cell under [name] is the same. *)
Lemma reorder_cell_named name (P : nat -> Prop) `{!forall i, Decision (P i)} extra cols cells :
  name <> ""%string -> (forall p, cols !! p = Some name -> P p) ->
  cell_named name (reorder (filter P (seq 0 (length cols)) ++ extra) ""%string cols)
                  (reorder (filter P (seq 0 (length cols)) ++ extra) CNone cells) =
  cell_named name cols cells.
Proof.
  intros Hne HP. unfold cell_named, reorder. set (A := filter P (seq 0 (length cols))).
  assert (Hin : forall i, nth i cols ""%string = name -> cols !! i = Some name).
  { intros i Hi. destruct (decide (i < length cols)%nat) as [Hl|Hl].
    - destruct (lookup_lt_is_Some_2 cols i Hl) as [x Hx].
      by rewrite (nth_lookup_Some _ _ _ _ Hx) in Hi; subst.
    - rewrite nth_overflow in Hi by lia. by subst. }
  destruct (col_index name cols) as [p|e] eqn:E.
  - apply col_index_Ok_iff in E as [Hp Hq].
    assert (HA : p ∈ A).
    { apply list_elem_of_filter. split; [by apply HP|].
      apply elem_of_seq. apply lookup_lt_Some in Hp. lia. }
    apply list_elem_of_lookup_1 in HA as [j Hj].
    assert (Hoj : (A ++ extra) !! j = Some p) by (by apply lookup_app_l_Some).
    replace (col_index name _) with (Ok j : res nat).
    + apply nth_lookup_Some. by rewrite map_lookup, Hoj.
    + symmetry. apply col_index_Ok_iff. split.
      * rewrite map_lookup, Hoj. cbn. f_equal. by apply nth_lookup_Some.
      * intros q Hqj. destruct (lookup_lt_is_Some_2 A q) as [r Hr].
        { apply lookup_lt_Some in Hj. lia. }
        rewrite map_lookup, (lookup_app_l_Some _ _ _ _ Hr). cbn. intros [= Hn%Hin].
        apply (Hq r); [|done]. by apply (filter_seq_lookup_lt P 0 (length cols) q j).
  - assert (Hn : name ∉ map (fun i => nth i cols ""%string) (A ++ extra)).
    { intros [j Hj]%list_elem_of_lookup_1. rewrite map_lookup in Hj.
      destruct ((A ++ extra) !! j) as [i|]; cbn in Hj; [|done]. injection Hj as Hj%Hin.
      destruct (col_index_elem name cols) as [p Hp]; [by eapply list_elem_of_lookup_2|congruence]. }
    by destruct (col_index_not_elem _ _ Hn) as [e' ->].
Qed.

(** [gpd.read_file] moves the geometry column, and keeps every other
    column's cells under their name. *)
Lemma relabel_row f l c :
  (l, c) ∈ rows (relabel f) ->
  exists r, rows f !! l = Some r /\ forall name, name <> ""%string -> name <> "geometry"%string ->
    cell_named name (columns (relabel f)) c = cell_named name (columns f) r.2.
Proof.
  unfold relabel. cbn [rows columns]. intros [k Hk]%list_elem_of_lookup_1.
  apply lookup_zip_with_Some in Hk as (x & y & [= <- <-] & Hx & Hy).
  apply lookup_seq in Hx as [-> _]. rewrite map_lookup in Hy.
  destruct (rows f !! k) as [r|] eqn:Er; cbn in Hy; [|done]. injection Hy as <-.
  exists r. split; [done|]. intros name Hne Hg. unfold geo_order.
  apply reorder_cell_named; [done|]. intros p Hp. by rewrite (nth_lookup_Some _ _ _ _ Hp).
Qed.

Lemma keep_pos_reorder {A} ps (l : list A) d :
  keep_pos ps l = reorder (filter (fun i => i ∉ ps) (seq 0 (length l))) d l.
Proof.
  unfold keep_pos, reorder.
  cut (forall k, omap (fun '(i, x) => if bool_decide (i ∈ ps) then None else Some x)
                   (zip (seq k (length l)) l) =
                 map (fun i => nth (i - k) l d) (filter (fun i => i ∉ ps) (seq k (length l)))).
  { intros H. rewrite H. apply map_ext. intros i. by rewrite Nat.sub_0_r. }
  induction l as [|x l IH]; intros k; [done|]. cbn [length seq zip_with].
  assert (Hs : forall j, map (fun i => nth (i - k) (x :: l) d) (filter (fun i => i ∉ ps) (seq (S k) j)) =
                         map (fun i => nth (i - S k) l d) (filter (fun i => i ∉ ps) (seq (S k) j))).
  { intros j. apply map_ext_in. intros i Hi%list_elem_of_In%list_elem_of_filter.
    destruct Hi as [_ Hi%elem_of_seq]. by replace (i - k)%nat with (S (i - S k)) by lia. }
  cbn [omap list_omap]. destruct (decide (k ∈ ps)) as [Hk|Hk].
  - rewrite bool_decide_eq_true_2, filter_cons_False by tauto. by rewrite Hs, IH.
  - rewrite bool_decide_eq_false_2, filter_cons_True by tauto. cbn [map]. rewrite Nat.sub_diag, Hs, IH. done.
Qed.

Lemma col_index_insert_at name i x cols :
  name <> x ->
  col_index name (insert_at i x cols) = (fun p => if (p <? i)%nat then p else S p) <$> col_index name cols.
Proof.
  intros Hx. unfold insert_at. revert i. induction cols as [|c cols IH]; intros [|i]; cbn.
  - rewrite bool_decide_eq_false_2 by auto. done.
  - rewrite bool_decide_eq_false_2 by auto. done.
  - rewrite bool_decide_eq_false_2 by auto. case_bool_decide; [done|].
    by destruct (col_index name cols).
  - case_bool_decide; [done|]. rewrite IH.
    destruct (col_index name cols) as [a|]; [|done]. destruct i as [|i]; cbn; [done|].
    by destruct (a <=? i)%nat.
Qed.

Lemma insert_at_cell_named name i x v cols cells :
  name <> x -> length cells = length cols ->
  cell_named name (insert_at i x cols) (insert_at i v cells) = cell_named name cols cells.
Proof.
  intros Hx Hl. unfold cell_named. rewrite col_index_insert_at by done.
  destruct (col_index name cols) as [p|e] eqn:E; cbn; [|done].
  apply col_index_Ok in E. unfold insert_at. destruct i as [|i]; [by cbn|].
  destruct (Nat.leb_spec p i).
  - rewrite app_nth1 by (rewrite length_take; lia). rewrite nth_firstn.
    by rewrite (proj2 (Nat.ltb_lt p (S i))) by lia.
  - rewrite app_nth2 by (rewrite length_take; lia). rewrite length_take.
    replace (S p - min (S i) (length cells))%nat with (S (p - S i)) by lia. cbn [nth].
    rewrite nth_skipn. f_equal. lia.
Qed.

(** Lines 160-162 keep each row's label and, under every name but the
    dropped ones and [some_highschool], its cell. *)
Lemma combine_highschool_row f f' l c' :
  frame_wf f -> combine_highschool f = Ok f' -> (l, c') ∈ rows f' ->
  exists c, (l, c) ∈ rows f /\ forall name, name <> "some_highschool"%string -> name <> ""%string ->
    (exists p, col_index name (columns f') = Ok p) ->
    cell_named name (columns f') c' = cell_named name (columns f) c.
Proof.
  unfold combine_highschool, df_insert. intros Hwf (s & _ & Hf)%bind_Ok Hin.
  repeat case_match; simplify_eq. cbn [columns rows] in *.
  set (ps := select_pos _ _) in *.
  apply list_elem_of_lookup_1 in Hin as [k Hk].
  apply lookup_zip_with_Some in Hk as ([l0 c0] & v & Hk & Hr & _).
  rewrite map_lookup in Hr. destruct (rows f !! k) as [[l1 c1]|] eqn:Ek; cbn in Hr; [|done].
  injection Hr as <- <-. injection Hk as -> ->.
  exists c1. split; [by eapply list_elem_of_lookup_2|]. intros name Hsh Hne [p Hp].
  assert (Hl : length c1 = length (columns f)) by exact (Forall_lookup_1 _ _ _ _ Hwf Ek).
  rewrite insert_at_cell_named by (done || by apply keep_pos_length).
  rewrite (keep_pos_reorder ps (columns f) ""%string), (keep_pos_reorder ps c1 CNone), Hl.
  destruct (decide (name ∈ py_slice 7 14 (columns f))) as [Hn|Hn].
  - exfalso. rewrite col_index_insert_at, (keep_pos_reorder ps _ ""%string) in Hp by done.
    destruct (col_index_not_elem name (reorder (filter (fun i => i ∉ ps) (seq 0 (length (columns f))))
                                                ""%string (columns f))) as [e He].
    + intros [j Hj]%list_elem_of_lookup_1. unfold reorder in Hj. rewrite map_lookup in Hj.
      destruct (filter _ _ !! j) as [i|] eqn:Ei; cbn in Hj; [|done]. injection Hj as Hj.
      apply list_elem_of_lookup_2, list_elem_of_filter in Ei as [Hi Hs].
      apply Hi. unfold ps, select_pos. apply list_elem_of_filter. split; [|done].
      apply bool_decide_pack. by rewrite Hj.
    + by rewrite He in Hp.
  - rewrite <- (app_nil_r (filter _ _)). apply reorder_cell_named; [done|].
    intros q Hq Hqps. apply Hn. unfold ps, select_pos in Hqps.
    apply list_elem_of_filter in Hqps as [Hq' _]. apply bool_decide_unpack in Hq'.
    by rewrite (nth_lookup_Some _ _ _ _ Hq) in Hq'.
Qed.

Lemma isin_filter_row col vals f f' l c :
  isin_filter col vals f = Ok f' -> (l, c) ∈ rows f' ->
  (l, c) ∈ rows f /\ cell_isin vals (cell_named col (columns f) c) = true /\ columns f' = columns f /\
  exists p, col_index col (columns f) = Ok p.
Proof.
  unfold isin_filter, cell_named. intros (p & Hp & [= <-])%bind_Ok Hin. cbn in Hin |- *.
  rewrite Hp. apply list_elem_of_In, List.filter_In in Hin as [Hin Hc].
  split; [by apply list_elem_of_In|eauto].
Qed.

(** On a first call, the label of every row returned is the position in
    the national table of a tract of the county and state. *)
Lemma agent_init_data_national_rows fs state county f fs' l :
  acs_dirs fs !! acs_dir state county = None ->
  agent_init_data fs state county = Ok (f, fs') -> l ∈ labels f ->
  exists r, rows (acs_national fs) !! l = Some r /\
    cell_isin county (cell_named "County" (columns (acs_national fs)) r.2) = true /\
    cell_isin state (cell_named "State" (columns (acs_national fs)) r.2) = true.
Proof.
  unfold agent_init_data. intros -> Hf Hl.
  apply bind_Ok in Hf as (f1 & H1 & Hf). apply bind_Ok in Hf as (f2 & H2 & Hf).
  apply bind_Ok in Hf as (f3 & H3 & Hf). apply bind_Ok in Hf as (f4 & H4 & Hf).
  apply bind_Ok in Hf as (f5 & H5 & Hf). apply bind_Ok in Hf as (f6 & H6 & [= <- _]).
  rewrite (add_popdense_labels _ _ H6), (normalise_labels _ _ H5) in Hl.
  pose proof (elem_of_sublist _ _ _ Hl (remove_zero_tracts_labels _ _ H4)) as Hl3.
  apply list_elem_of_fmap in Hl3 as ([l' c] & -> & Hin).
  destruct (isin_filter_row _ _ _ _ _ _ H3 Hin) as (Hin2 & Hs & Hc2 & Hps).
  destruct (isin_filter_row _ _ _ _ _ _ H2 Hin2) as (Hin1 & Hc & Hc1 & Hpc).
  rewrite Hc1 in Hs, Hps.
  destruct (combine_highschool_row _ _ _ _ (relabel_wf _) H1 Hin1) as (c0 & Hin0 & Hcell).
  destruct (relabel_row _ _ _ Hin0) as (r & Hr & Hcell0).
  exists r. split; [done|].
  rewrite <- (Hcell0 "County"%string), <- (Hcell0 "State"%string), <- !Hcell by done. done.
Qed.

(** C20.  A first call for a county returns the tracts under their labels
    in the national table: each label is the position in the national
    table of a tract of that county and state.  The constructor's label
    lookups then raise [KeyError] at every position that
    [np.random.choice(len(init_data))] can draw and that is not a label,
    so a draw fails unless the county's tracts are the first rows of the
    national table.  (From the second call on the table is read from the
    cache under the labels [0 .. n-1].) *)
Theorem agent_init_data_first_run_keyerror fs state county f fs' ti :
  acs_dirs fs !! acs_dir state county = None ->
  agent_init_data fs state county = Ok (f, fs') ->
  read_tracts f = Ok ti ->
  (forall l, l ∈ labels f -> exists r, rows (acs_national fs) !! l = Some r /\
     cell_isin county (cell_named "County" (columns (acs_national fs)) r.2) = true /\
     cell_isin state (cell_named "State" (columns (acs_national fs)) r.2) = true) /\
  (forall i, (i < length (rows f))%nat -> i ∉ labels f -> tract_of ti i = Err KeyError) /\
  (labels f = seq 0 (length (rows f)) \/
   exists i, (i < length (rows f))%nat /\ tract_of ti i = Err KeyError).
Proof.
  intros Hd Hf Hr. split_and!.
  - intros l. by apply (agent_init_data_national_rows _ _ _ _ fs').
  - intros i Hi. by apply (tract_of_keyerror f ti i Hr Hi).
  - destruct (sublist_seq_gap _ _ _ (agent_init_data_fresh_labels _ _ _ _ _ Hd Hf))
      as [Heq | (i & Hi & Hn)].
    + left. by rewrite Heq at 1; unfold labels; rewrite length_map.
    + right. exists i. unfold labels in Hi. rewrite length_map in Hi.
      split; [lia|]. apply (tract_of_keyerror f ti i Hr); [lia|done].
Qed.

(** ** A small national table *)

#[export] Instance fin_at_dec ps cells : Decision (fin_at ps cells).
Proof.
  apply Forall_dec. intros p. unfold Decision.
  destruct (nth p cells CNone) as [[x| |]| | |];
    [left; by exists x|right; intros [? ?]; congruence..].
Defined.

Lemma fin_groups_of_Forall f :
  Forall (fun r => Forall (fun g => fin_at (group_pos g f) r.2) groups) (rows f) ->
  Forall (fun r => forall g, g ∈ groups -> fin_at (group_pos g f) r.2) (rows f).
Proof. intros H. eapply Forall_impl; [exact H|]. intros r Hr g Hg. rewrite Forall_forall in Hr. by apply Hr. Qed.

(** Columns: County, State, geometry, the three cue series, 70 census
    counts and AgeTotal; the counts 7 to 13 become [some_highschool]. *)
Definition demo_columns : list string :=
  ["County"; "State"; "NAME"; "WindCat"; "RainCat"; "storm_Surge"]%string ++
  map (fun i => "v" +:+ String.string_of_list_ascii [Ascii.ascii_of_nat (48 + i / 10);
                                                     Ascii.ascii_of_nat (48 + i mod 10)])%string
      (seq 6 70) ++ ["AgeTotal"; "geometry"]%string.

Definition demo_row (county : string) (n : Q) (pop : Q) : list Cell :=
  [CStr county; CStr "FL"; CStr "tract"; CStr "[np.float64(1.5), np.float64(2)]";
   CStr "'[np.float64(0.25)]'"; CStr "[0, 1]"] ++ repeat (CNum (Fin n)) 70 ++
  [CNum (Fin pop); CGeom (pop, pop)].

(** Collier first, then two Lee tracts and a Lee tract with no counts. *)
Definition demo_disk : Disk :=
  mkDisk ∅ (mkFrame demo_columns
    [(0, demo_row "Collier" 1 5); (0, demo_row "Lee" 1 1); (0, demo_row "Lee" 2 3);
     (0, demo_row "Lee" 0 2)]%nat).

(** The table line 165 leaves for Lee. *)
Definition demo_aoi : Frame :=
  match f ← combine_highschool (relabel (acs_national demo_disk));
        f ← isin_filter "County" ["Lee"] f; isin_filter "State" ["FL"] f with
  | Ok f => f
  | Err _ => mkFrame [] []
  end.

Definition demo_lookup (fs : Disk) (i : nat) : res (list PyFloat * list PyFloat * list PyFloat * (Q * Q)) :=
  '(f, _) ← agent_init_data fs ["FL"] ["Lee"]; ti ← read_tracts f; tract_of ti i.

(** The first call for Lee keeps the labels 1, 2 of the national table, so
    the draw 0 raises [KeyError]; from the cache the same draw succeeds. *)
Example demo_first_run_fails : demo_lookup demo_disk 0 = Err KeyError.
Proof. vm_compute. reflexivity. Qed.

Example demo_second_run_succeeds :
  match agent_init_data demo_disk ["FL"] ["Lee"] with
  | Ok (_, fs') => demo_lookup fs' 0 = Ok ([Fin (15 # 10); Fin 2], [Fin (25 # 100)], [Fin 0; Fin 1], (1, 1))
  | Err _ => False
  end.
Proof. vm_compute. reflexivity. Qed.

Lemma agent_init_data_cache_roundtrip_witness :
  match agent_init_data demo_disk ["FL"] ["Lee"] with
  | Ok (f, fs') => agent_init_data fs' ["FL"] ["Lee"] = Ok (relabel f, fs') /\
                   labels (relabel f) = seq 0 (length (rows f))
  | Err _ => False
  end.
Proof.
  destruct (agent_init_data demo_disk ["FL"] ["Lee"]) as [[f fs']|e] eqn:E;
    [|vm_compute in E; discriminate].
  exact (agent_init_data_cache_roundtrip demo_disk ["FL"] ["Lee"] f fs' E).
Defined.

Lemma agent_init_data_first_run_keyerror_witness :
  match agent_init_data demo_disk ["FL"] ["Lee"] with
  | Ok (f, fs') =>
      match read_tracts f with
      | Ok ti =>
        (forall l, l ∈ labels f -> exists r, rows (acs_national demo_disk) !! l = Some r /\
           cell_isin ["Lee"] (cell_named "County" (columns (acs_national demo_disk)) r.2) = true /\
           cell_isin ["FL"] (cell_named "State" (columns (acs_national demo_disk)) r.2) = true) /\
        (forall i, (i < length (rows f))%nat -> i ∉ labels f -> tract_of ti i = Err KeyError) /\
        (labels f = seq 0 (length (rows f)) \/
         exists i, (i < length (rows f))%nat /\ tract_of ti i = Err KeyError)
      | Err _ => False
      end
  | Err _ => False
  end.
Proof.
  destruct (agent_init_data demo_disk ["FL"] ["Lee"]) as [[f fs']|e] eqn:E;
    [|vm_compute in E; discriminate].
  assert (Ef := E). vm_compute in Ef. injection Ef as Hf _.
  destruct (read_tracts f) as [ti|e] eqn:Et; [|rewrite <- Hf in Et; vm_compute in Et; discriminate].
  apply (agent_init_data_first_run_keyerror demo_disk ["FL"] ["Lee"] f fs' ti);
    [vm_compute; reflexivity|exact E|exact Et].
Defined.

Lemma tract_proportions_witness :
  NoDup (columns demo_aoi) /\ NoDup (labels demo_aoi) /\
  exists f1 f2, remove_zero_tracts demo_aoi = Ok f1 /\ normalise f1 = Ok f2 /\
    rows f1 = List.filter (fun r => forallb (fun g => negb (Qeq_bool (gsum (group_pos g demo_aoi) r.2) 0))
                                            groups) (rows demo_aoi) /\
    labels f2 = labels f1 /\
    Forall (fun r => forall g, g ∈ groups -> fin_at (group_pos g f2) r.2 /\ gsum (group_pos g f2) r.2 == 1)
      (rows f2).
Proof.
  assert (Hc : NoDup (columns demo_aoi)) by (apply (bool_decide_unpack _); by vm_compute).
  assert (Hl : NoDup (labels demo_aoi)) by (apply (bool_decide_unpack _); by vm_compute).
  split; [exact Hc|]. split; [exact Hl|]. apply (tract_proportions demo_aoi Hc Hl).
  apply fin_groups_of_Forall. apply (bool_decide_unpack _). by vm_compute.
Defined.

(** The table before line 181, and its [AgeTotal] column. *)
Definition demo_normalised : Frame :=
  match remove_zero_tracts demo_aoi ≫= normalise with Ok f => f | Err _ => mkFrame [] [] end.

Lemma add_popdense_location_check_witness :
  frame_wf demo_normalised /\
  series "AgeTotal" demo_normalised = Ok [(1%nat, CNum (Fin 1)); (2%nat, CNum (Fin 3))] /\
  exists f', add_popdense demo_normalised = Ok f' /\
    (location_check f' = Ok tt <-> [1; 3] <> [] /\ 0 < qsum [1; 3]).
Proof.
  assert (Hwf : frame_wf demo_normalised) by (apply (bool_decide_unpack _); by vm_compute).
  assert (Hs : series "AgeTotal" demo_normalised = Ok [(1%nat, CNum (Fin 1)); (2%nat, CNum (Fin 3))])
    by (vm_compute; reflexivity).
  split; [exact Hwf|]. split; [exact Hs|].
  apply (add_popdense_location_check _ _ [1; 3] Hwf Hs); [reflexivity|].
  repeat constructor; vm_compute; discriminate.
Defined.

