(* ===== verification/Convergence.v ===== *)
(** The convergence script ConvergenceeAnalysis.py: the table that
    [mesa.batch_run] returns (an input [Frame] of InitData.v: one row per
    run, tick and agent), the pandas pipeline of lines 27-42 (the rows of
    the last tick, [reset_index], the running mean of each metric and its
    standardised value, the column selection and the mean per run), and
    the plotting loop of lines 50-61, whose matplotlib calls draw nothing
    the program reads.  [Series.std] needs a square root: [Sqrt] of
    Laplace.v.  The theorems: the running mean of [expanding().mean()] at
    row [i] is the mean of the first [i + 1] values; and the plotting loop
    reads a column the selection of line 42 dropped, so the script raises
    [KeyError] whenever the table is built. *)
From S2P Require Import Prelude Parse Laplace InitData.
From stdpp Require Import strings.
Open Scope Q_scope.

(** ** Float operations of pandas *)

Definition is_nan (a : PyFloat) : bool := match a with NaN => true | _ => false end.

(** [a == b]: false on [nan]. *)
Definition feq (a b : PyFloat) : bool :=
  match a, b with
  | Fin x, Fin y => Qeq_bool x y
  | Inf s, Inf t => Bool.eqb s t
  | _, _ => false
  end.

(** [a <= b]: false on [nan]. *)
Definition fle (a b : PyFloat) : bool :=
  match a, b with
  | NaN, _ | _, NaN => false
  | Fin x, Fin y => Qle_bool x y
  | Inf true, _ | _, Inf false => true
  | Inf false, _ | _, Inf true => false
  end.

(** [np.sqrt]: [nan] below 0. *)
Definition fsqrt `{Sqrt} (a : PyFloat) : PyFloat :=
  match a with
  | Fin x => if Qle_bool 0 x then Fin (py_sqrt x) else NaN
  | Inf false => Inf false
  | _ => NaN
  end.

Definition of_nat (n : nat) : PyFloat := Fin (inject_Z (Z.of_nat n)).

(** The values a reduction sees: [skipna=True]. *)
Definition non_nan (xs : list PyFloat) : list PyFloat := List.filter (fun x => negb (is_nan x)) xs.

Definition fsum (xs : list PyFloat) : PyFloat := fold_left fadd xs (Fin 0).

(** [Series.max()]. *)
Definition pd_max (xs : list PyFloat) : PyFloat :=
  match non_nan xs with
  | [] => NaN
  | x :: xs' => fold_left (fun m y => if fle m y then y else m) xs' x
  end.

(** [Series.mean()]. *)
Definition pd_mean (xs : list PyFloat) : PyFloat :=
  let ys := non_nan xs in
  if (length ys =? 0)%nat then NaN else fdiv (fsum ys) (of_nat (length ys)).

(** [Series.std()], with [ddof=1]. *)
Definition pd_std `{Sqrt} (xs : list PyFloat) : PyFloat :=
  let ys := non_nan xs in
  if (length ys <=? 1)%nat then NaN
  else let m := pd_mean ys in
       fsqrt (fdiv (fsum (map (fun y => fmul (fsub y m) (fsub y m)) ys)) (of_nat (length ys - 1))).

(** [Series.expanding().mean()]: at each row, the mean of the values so
    far, [nan] while there is none. *)
Fixpoint expanding_mean_go (acc : PyFloat) (n : nat) (xs : list PyFloat) : list PyFloat :=
  match xs with
  | [] => []
  | x :: xs' =>
      let '(acc', n') := if is_nan x then (acc, n) else (fadd acc x, S n) in
      (if (n' =? 0)%nat then NaN else fdiv acc' (of_nat n')) :: expanding_mean_go acc' n' xs'
  end.

Definition expanding_mean (xs : list PyFloat) : list PyFloat := expanding_mean_go (Fin 0) 0 xs.

(** ** Tables *)

Definition num_cell (c : Cell) : res PyFloat :=
  match c with CNum x => Ok x | CNone => Ok NaN | _ => Err TypeError end.

(** [df[col]] as numbers. *)
Definition column (col : string) (f : Frame) : res (list PyFloat) :=
  s ← series col f; mapM (fun '(_, c) => num_cell c) s.

(** Line 29: [df[df["Step"] == df["Step"].max()]]. *)
Definition step_filter (f : Frame) : res Frame :=
  steps ← column "Step" f;
  let m := pd_max steps in
  Ok (mkFrame (columns f) (map fst (List.filter (fun p => feq p.2 m) (zip (rows f) steps)))).

(** [df.reset_index()], lines 30 and 41: the old labels become the first
    column, named [index], or [level_0] when [index] exists. *)
Definition reset_index (f : Frame) : res Frame :=
  let name := if bool_decide ("index"%string ∈ columns f) then "level_0"%string else "index"%string in
  if bool_decide (name ∈ columns f) then Err ValueError
  else Ok (mkFrame (name :: columns f)
                   (imap (fun i '(l, cells) => (i, CNum (of_nat l) :: cells)) (rows f))).

Definition metrics : list string :=
  ["average_evac_time"; "hotel_choice"; "friends_choice"; "stay_choice"].

(** Lines 37-40 for one metric. *)
Definition metric_step `{Sqrt} (f : Frame) (metric : string) : res Frame :=
  xs ← column metric f;
  let f := set_column (metric +:+ "_running_mean") (map CNum (expanding_mean xs)) f in
  rm ← column (metric +:+ "_running_mean") f;
  let mean := pd_mean rm in
  let std := pd_std rm in
  Ok (set_column (metric +:+ "_standardized") (map (fun x => CNum (fdiv (fsub x mean) std)) rm) f).

(** [df[names]], line 42: [KeyError] if a name is missing. *)
Definition select_cols (names : list string) (f : Frame) : res Frame :=
  ps ← mapM (fun n => col_index n (columns f)) names;
  Ok (mkFrame names (map (fun '(l, cells) => (l, map (fun p => nth p cells CNone) ps)) (rows f))).

(** The distinct values of the group key, in increasing order. *)
Fixpoint finsert (x : PyFloat) (l : list PyFloat) : list PyFloat :=
  match l with
  | [] => [x]
  | y :: l' => if feq x y then l else if fle x y then x :: l else y :: finsert x l'
  end.

Definition group_keys (vals : list PyFloat) : list PyFloat := fold_right finsert [] (non_nan vals).

(** [.groupby(key).mean()], line 42: one row per key value, the mean of
    every other column over the rows with that key; the key becomes the
    index. *)
Definition groupby_mean (key : string) (f : Frame) : res (list PyFloat * Frame) :=
  k ← col_index key (columns f);
  vals ← mapM (fun r => num_cell (nth k r.2 CNone)) (rows f);
  let keys := group_keys vals in
  let others := List.filter (fun p => negb (p =? k)%nat) (seq 0 (length (columns f))) in
  rows' ← mapM (fun kv =>
             let grp := map fst (List.filter (fun rv => feq rv.2 kv) (zip (rows f) vals)) in
             mapM (fun p => xs ← mapM (fun r => num_cell (nth p r.2 CNone)) grp; Ok (CNum (pd_mean xs)))
                  others) keys;
  Ok (keys, mkFrame (keep_pos [k] (columns f)) (zip (seq 0 (length keys)) rows')).

(** Lines 27-42: [df_correct] and its index. *)
Definition convergence_table `{Sqrt} (batch : Frame) : res (list PyFloat * Frame) :=
  df ← step_filter batch;
  df ← reset_index df;
  df ← fold_res metric_step metrics df;
  df ← reset_index df;
  df_correct ← select_cols ["average_evac_time"; "hotel_choice"; "friends_choice"; "stay_choice";
                            "iteration"; "AgentID"] df;
  groupby_mean "iteration" df_correct.

(** Lines 50-61: each plot reads [df_correct[f'{metric}_standardized']]. *)
Definition plot_loop (df_correct : Frame) : res unit :=
  fold_res (fun _ metric => _ ← series (metric +:+ "_standardized") df_correct; Ok tt) metrics tt.

(** The script, lines 27-64. *)
Definition convergence_analysis `{Sqrt} (batch : Frame) : res unit :=
  '(_, df_correct) ← convergence_table batch;
  plot_loop df_correct.

(** ** The running mean *)

Lemma expanding_mean_go_lookup acc n xs i :
  (i < length xs)%nat ->
  expanding_mean_go acc n xs !! i =
    let ys := non_nan (take (S i) xs) in
    let n' := (n + length ys)%nat in
    Some (if (n' =? 0)%nat then NaN else fdiv (fold_left fadd ys acc) (of_nat n')).
Proof.
  revert acc n i. induction xs as [|x xs IH]; intros acc n i Hi; cbn in Hi; [lia|].
  destruct i as [|i]; cbn [expanding_mean_go take non_nan List.filter].
  - destruct (is_nan x); cbn; [by rewrite Nat.add_0_r|by rewrite Nat.add_1_r].
  - destruct (is_nan x); cbn [negb lookup list_lookup]; rewrite IH by lia; cbn.
    + done.
    + by rewrite Nat.add_succ_r.
Qed.

(** [expanding().mean()] (line 37) is the mean of the prefix: at row
    [i] it holds [pd_mean] of the first [i + 1] values, so its last row
    is the mean of the whole column. *)
Theorem expanding_mean_spec xs i :
  (i < length xs)%nat -> expanding_mean xs !! i = Some (pd_mean (take (S i) xs)).
Proof. intros Hi. unfold expanding_mean, pd_mean, fsum. by rewrite expanding_mean_go_lookup. Qed.

(** ** The plotting loop *)

Lemma convergence_table_columns `{Sqrt} batch idx dfc :
  convergence_table batch = Ok (idx, dfc) ->
  columns dfc = ["average_evac_time"; "hotel_choice"; "friends_choice"; "stay_choice"; "AgentID"]%string.
Proof.
  unfold convergence_table. intros Hc. res_inv.
  match goal with H : select_cols _ _ = Ok _ |- _ =>
    unfold select_cols in H; apply bind_Ok in H as (ps & _ & [= <-]) end.
  match goal with H : groupby_mean _ _ = Ok _ |- _ =>
    unfold groupby_mean in H; cbn [columns] in H; apply bind_Ok in H as (k & Hk & H);
    vm_compute in Hk; injection Hk as <-; res_inv end.
  by subst.
Qed.

(** C32.  The plots of lines 50-61 read [df_correct[f'{metric}_standardized']],
    a column the selection of line 42 dropped: whenever [df_correct] is
    built, the script raises [KeyError] before drawing anything, and
    otherwise it raises what building the table raised. *)
Theorem convergence_analysis_keyerror `{Sqrt} batch :
  convergence_analysis batch =
    match convergence_table batch with Ok _ => Err KeyError | Err e => Err e end.
Proof.
  unfold convergence_analysis. destruct (convergence_table batch) as [[idx dfc]|e] eqn:E; [|done].
  rewrite bind_ret. cbv beta iota. unfold plot_loop, series.
  by rewrite (convergence_table_columns _ _ _ E).
Qed.

(** ** A small batch *)

(** Two runs, two ticks each, one agent; the second run has no
    evacuation ([average_evac_time] is [nan]). *)
Definition demo_batch : Frame :=
  mkFrame ["RunId"; "iteration"; "Step"; "AgentID"; "rain_cue"; "evac_agents"; "average_evac_time";
           "hotel_choice"; "friends_choice"; "stay_choice"]%string
    [(0, [CNum (Fin 0); CNum (Fin 0); CNum (Fin 87); CNum (Fin 1); CNum (Fin 0); CNum (Fin 0);
          CNum NaN; CNum (Fin 0); CNum (Fin 0); CNum (Fin 0)]);
     (1, [CNum (Fin 0); CNum (Fin 0); CNum (Fin 88); CNum (Fin 1); CNum (Fin 0); CNum (Fin 1);
          CNum (Fin 40); CNum (Fin 1); CNum (Fin 0); CNum (Fin 0)]);
     (2, [CNum (Fin 1); CNum (Fin 1); CNum (Fin 87); CNum (Fin 1); CNum (Fin 0); CNum (Fin 0);
          CNum NaN; CNum (Fin 0); CNum (Fin 0); CNum (Fin 0)]);
     (3, [CNum (Fin 1); CNum (Fin 1); CNum (Fin 88); CNum (Fin 1); CNum (Fin 0); CNum (Fin 0);
          CNum NaN; CNum (Fin 0); CNum (Fin 0); CNum (Fin 1)])]%nat.

Example demo_convergence_table :
  match convergence_table demo_batch with
  | Ok (idx, dfc) => idx = [Fin 0; Fin 1] /\ length (rows dfc) = 2%nat
  | Err _ => False
  end.
Proof. vm_compute. split; reflexivity. Qed.

Lemma expanding_mean_spec_witness :
  (2 < length [Fin 1; NaN; Fin 3])%nat /\
  expanding_mean [Fin 1; NaN; Fin 3] !! 2%nat = Some (pd_mean (take 3 [Fin 1; NaN; Fin 3])).
Proof. split; [cbn; lia|]. apply expanding_mean_spec. cbn; lia. Defined.

Lemma convergence_analysis_keyerror_witness :
  convergence_analysis demo_batch =
    match convergence_table demo_batch with Ok _ => Err KeyError | Err e => Err e end /\
  convergence_analysis demo_batch = Err KeyError.
Proof.
  split; [apply convergence_analysis_keyerror|].
  rewrite convergence_analysis_keyerror. vm_compute. reflexivity.
Defined.
