(* ===== verification/Config.v ===== *)
(** * Config: the global configuration of [EvacuationDec] (src/Model.py)

    The keyword arguments of [EvacuationDec.__init__] and the attributes the
    constructor derives from them: the tick of the tropical watch and of the
    evacuation warning, and [coeff_dict], the diffusion coefficient of each
    shared attribute.  The configuration never changes after construction. *)

From S2P Require Import Prelude.

Record Config := mkConfig {
  number_of_steps : nat;
  init_individuals : nat;
  node_connectivity : nat;
  n_neighbors : nat;
  min_probability_threshold : Q;
  comm_watch_value_risk : Q;
  comm_warning_value_risk : Q;
  comm_watch_value_imm : Q;
  comm_warning_value_imm : Q;
  coeff_risk_perception : Q;
  ceiling : Q;
  coeff_action_comm : Q;
  grow_factor : Q;
  phase_change_factor : Q;
  action_comm_value_imm : Q;
  action_comm_value : Q;
  watch_shift : Z;
  communication_timing : Z;
  evac_watch_step : Z;
  evac_warning_step : Z;
  media_weight_trust : Q;
  media_weight_perc : Q;
  RA_base : Q;
  RI_base : Q;
  threshold_strength_RA : Q;
  env_strength : Q
}.

(** The defaults of the constructor's signature. *)
Definition default_config : Config := {|
  number_of_steps := 88;
  init_individuals := 1000;
  node_connectivity := 6;
  n_neighbors := 10;
  min_probability_threshold := 0;
  comm_watch_value_risk := 0.05;
  comm_warning_value_risk := 0.1;
  comm_watch_value_imm := 0.01;
  comm_warning_value_imm := 0.05;
  coeff_risk_perception := 1;
  ceiling := 0.4;
  coeff_action_comm := 1;
  grow_factor := 30;
  phase_change_factor := 0.1;
  action_comm_value_imm := 0.01;
  action_comm_value := 0.1;
  watch_shift := 0;
  communication_timing := 0;
  evac_watch_step := 55;
  evac_warning_step := 60;
  media_weight_trust := 0.04;
  media_weight_perc := 0.2;
  RA_base := 0.5;
  RI_base := 0.2;
  threshold_strength_RA := 0.4;
  env_strength := 0.18
|}.

(** The constructor called with [number_of_steps=n] and the other arguments of [c]. *)
Definition with_steps (c : Config) (n : nat) : Config := {|
  number_of_steps := n;
  init_individuals := init_individuals c;
  node_connectivity := node_connectivity c;
  n_neighbors := n_neighbors c;
  min_probability_threshold := min_probability_threshold c;
  comm_watch_value_risk := comm_watch_value_risk c;
  comm_warning_value_risk := comm_warning_value_risk c;
  comm_watch_value_imm := comm_watch_value_imm c;
  comm_warning_value_imm := comm_warning_value_imm c;
  coeff_risk_perception := coeff_risk_perception c;
  ceiling := ceiling c;
  coeff_action_comm := coeff_action_comm c;
  grow_factor := grow_factor c;
  phase_change_factor := phase_change_factor c;
  action_comm_value_imm := action_comm_value_imm c;
  action_comm_value := action_comm_value c;
  watch_shift := watch_shift c;
  communication_timing := communication_timing c;
  evac_watch_step := evac_watch_step c;
  evac_warning_step := evac_warning_step c;
  media_weight_trust := media_weight_trust c;
  media_weight_perc := media_weight_perc c;
  RA_base := RA_base c;
  RI_base := RI_base c;
  threshold_strength_RA := threshold_strength_RA c;
  env_strength := env_strength c
|}.

(** The constructor called with [init_individuals=n], [n_neighbors=nn]
    and the other arguments of [c]. *)
Definition with_population (c : Config) (n nn : nat) : Config := {|
  number_of_steps := number_of_steps c;
  init_individuals := n;
  node_connectivity := node_connectivity c;
  n_neighbors := nn;
  min_probability_threshold := min_probability_threshold c;
  comm_watch_value_risk := comm_watch_value_risk c;
  comm_warning_value_risk := comm_warning_value_risk c;
  comm_watch_value_imm := comm_watch_value_imm c;
  comm_warning_value_imm := comm_warning_value_imm c;
  coeff_risk_perception := coeff_risk_perception c;
  ceiling := ceiling c;
  coeff_action_comm := coeff_action_comm c;
  grow_factor := grow_factor c;
  phase_change_factor := phase_change_factor c;
  action_comm_value_imm := action_comm_value_imm c;
  action_comm_value := action_comm_value c;
  watch_shift := watch_shift c;
  communication_timing := communication_timing c;
  evac_watch_step := evac_watch_step c;
  evac_warning_step := evac_warning_step c;
  media_weight_trust := media_weight_trust c;
  media_weight_perc := media_weight_perc c;
  RA_base := RA_base c;
  RI_base := RI_base c;
  threshold_strength_RA := threshold_strength_RA c;
  env_strength := env_strength c
|}.

(** [self.trop_warning_step = evac_watch_step - watch_shift - communication_timing] *)
Definition trop_warning_step (c : Config) : Z :=
  (evac_watch_step c - watch_shift c - communication_timing c)%Z.

(** [self.evac_warning_step = evac_warning_step - communication_timing] *)
Definition model_evac_warning_step (c : Config) : Z :=
  (evac_warning_step c - communication_timing c)%Z.

(** The attributes that agents share by diffusion: the keys of [coeff_dict]
    (and, in Agent.py, every other attribute name the code passes to
    [getattr]/[setattr] by string; see Individual.v). *)
Inductive SharedAttr :=
  | sa_risk_perception
  | sa_evac_friends
  | sa_evac_hotel
  | sa_evac_shelter
  | sa_stay.

#[export] Instance SharedAttr_eq_dec : EqDecision SharedAttr.
Proof. solve_decision. Defined.

(** [self.coeff_dict]: one coefficient for risk perception, one shared by the
    four action propensities. *)
Definition coeff_dict (c : Config) (a : SharedAttr) : Q :=
  match a with
  | sa_risk_perception => coeff_risk_perception c
  | sa_evac_friends | sa_evac_hotel | sa_evac_shelter | sa_stay => coeff_action_comm c
  end.
