(* ===== verification/Timeline.v ===== *)
(** * Timeline: the advisory timelines of src/helper_functions.py

    A storm-surge timeline has one value per 3-tick block: 0 (none), 0.5
    (watch) or 1 (warning).  [shift_warnings] shifts a timeline by a number
    of blocks, padding with [fill_value]; [shift_watch_warning] moves the
    watch to [gap + 3] blocks before the first warning and shifts the result
    by the communication timing, then trims or pads to the original length.
    The model calls the latter once per agent (Model.py, line 138).

    Results: the length of [shift_warnings] is [max(len, |shift|)], so it
    keeps the length only for shifts no longer than the timeline (its
    docstring promises always); [shift_watch_warning] keeps the length and
    leaves at most one watch entry; but it shifts the timeline after removing
    the old watch entries, so the last entries of a warning that lasts to
    the end of the timeline are replaced by the fill value. *)

From S2P Require Import Prelude.

(** [shift_warnings(warning_list, shift_steps, fill_value)], lines 101-118. *)
Definition shift_warnings (warning_list : list Q) (shift_steps : Z) (fill_value : Q) : list Q :=
  if (0 <? shift_steps)%Z then
    repeat fill_value (Z.to_nat shift_steps) ++ py_take_but warning_list (Z.to_nat shift_steps)
  else if (shift_steps <? 0)%Z then
    py_drop warning_list (Z.to_nat (- shift_steps)) ++ repeat fill_value (Z.to_nat (- shift_steps))
  else warning_list.

(** [l.index(x)]: the first position holding a value equal to [x]; [None]
    where Python raises [ValueError]. *)
Fixpoint py_list_index (x : Q) (l : list Q) : option nat :=
  match l with
  | [] => None
  | v :: l' => if Qeq_bool v x then Some 0%nat else S <$> py_list_index x l'
  end.

(** Lines 93-97: trim or pad [result] to the original length [n]. *)
Definition fit_length (n : nat) (fill_value : Q) (result : list Q) : list Q :=
  if (n <? length result)%nat then take n result
  else if (length result <? n)%nat then result ++ repeat fill_value (n - length result)
  else result.

(** The part of [shift_watch_warning] after the first warning is found:
    remove the watches, place one watch [gap] blocks before the old index
    of the first warning (padding in front or behind if needed), shift,
    then trim or pad to [n]. *)
Definition place_watch (result : list Q) (first_warning : nat) (timing gap : Z)
    (fill_value : Q) (n : nat) : list Q :=
  let result := List.filter (fun v => negb (Qeq_bool v (1#2))) result in
  let watch_time := (Z.of_nat first_warning - gap)%Z in
  let '(result, watch_time) :=
    if (watch_time <? 0)%Z
    then (repeat fill_value (Z.to_nat (- watch_time)) ++ result, 0%Z)
    else (result, watch_time) in
  let result :=
    if (Z.of_nat (length result) <=? watch_time)%Z
    then result ++ repeat fill_value (Z.to_nat (watch_time - Z.of_nat (length result) + 1))
    else result in
  let result := <[Z.to_nat watch_time := 1#2]> result in
  fit_length n fill_value (shift_warnings result timing fill_value).

(** [shift_watch_warning(warning_list, timing, gap, fill_value)], lines 42-99. *)
Definition shift_watch_warning (warning_list : list Q) (timing gap : Z) (fill_value : Q)
    : list Q :=
  let timing := (- timing + 1)%Z in
  let timing := if (gap =? 0)%Z then timing else (timing + 1)%Z in
  let gap := (gap + 3)%Z in
  match py_list_index 1 warning_list with
  | None => shift_warnings warning_list timing fill_value
  | Some first_warning =>
      place_watch warning_list first_warning timing gap fill_value (length warning_list)
  end.

(** The number of watch entries of a timeline. *)
Definition count_watch (l : list Q) : nat :=
  length (List.filter (fun v => Qeq_bool v (1#2)) l).

(** ** Lengths *)

(** The length of a shifted timeline. *)
Lemma shift_warnings_length_eq l s f :
  length (shift_warnings l s f) = Nat.max (length l) (Z.to_nat (Z.abs s)).
Proof.
  unfold shift_warnings, py_take_but, py_drop.
  destruct (0 <? s)%Z eqn:E1; [|destruct (s <? 0)%Z eqn:E2];
    rewrite ?Z.ltb_lt, ?Z.ltb_ge in *.
  - rewrite length_app, repeat_length, length_take. lia.
  - rewrite length_app, length_drop, repeat_length. lia.
  - assert (s = 0%Z) by lia. subst. simpl. lia.
Qed.

(** [shift_warnings] returns a timeline of length
    [max(len(warning_list), |shift_steps|)]: it keeps the length only when
    the shift is no longer than the timeline, although its docstring
    promises the original length. *)
Theorem shift_warnings_length l s f :
  length (shift_warnings l s f) = Nat.max (length l) (Z.to_nat (Z.abs s)).
Proof. apply shift_warnings_length_eq. Qed.

Lemma fit_length_length n f r : length (fit_length n f r) = n.
Proof.
  unfold fit_length. destruct (n <? length r)%nat eqn:E1; [|destruct (length r <? n)%nat eqn:E2];
    rewrite ?Nat.ltb_lt, ?Nat.ltb_ge in *.
  - rewrite length_take. lia.
  - rewrite length_app, repeat_length. lia.
  - lia.
Qed.

(** When the timeline contains a warning, [shift_watch_warning]
    returns a timeline of the original length. *)
Theorem shift_watch_warning_length l t g f k :
  py_list_index 1 l = Some k -> length (shift_watch_warning l t g f) = length l.
Proof.
  intros Hk. unfold shift_watch_warning. rewrite Hk. unfold place_watch.
  destruct (_ <? 0)%Z; apply fit_length_length.
Qed.

Lemma shift_watch_warning_length_witness :
  length (shift_watch_warning [0; 0; 0; 0; 0; 0.5; 0.5; 1; 1; 1] 0 0 0) =
  length [0; 0; 0; 0; 0; 0.5; 0.5; 1; 1; 1].
Proof. apply (shift_watch_warning_length _ _ _ _ 7). reflexivity. Defined.

(** ** At most one watch *)

Lemma count_watch_app l1 l2 : count_watch (l1 ++ l2) = (count_watch l1 + count_watch l2)%nat.
Proof. unfold count_watch. by rewrite List.filter_app, length_app. Qed.

Lemma count_watch_repeat f n : ~ f == 1#2 -> count_watch (repeat f n) = 0%nat.
Proof.
  intros Hf. unfold count_watch. induction n as [|n IH]; [done|]. simpl.
  destruct (Qeq_bool f (1#2)) eqn:E; qbool; [contradiction|done].
Qed.

Lemma count_watch_no_watch l :
  count_watch (List.filter (fun v => negb (Qeq_bool v (1#2))) l) = 0%nat.
Proof.
  unfold count_watch. induction l as [|v l IH]; [done|]. simpl.
  destruct (Qeq_bool v (1#2)) eqn:E; simpl; [done|]. by rewrite E.
Qed.

Lemma count_watch_take n l : (count_watch (take n l) <= count_watch l)%nat.
Proof.
  unfold count_watch. revert n. induction l as [|v l IH]; intros [|n]; simpl; try lia.
  destruct (Qeq_bool v (1#2)); simpl; specialize (IH n); lia.
Qed.

Lemma count_watch_drop n l : (count_watch (drop n l) <= count_watch l)%nat.
Proof.
  unfold count_watch. revert n. induction l as [|v l IH]; intros [|n]; simpl; try lia.
  destruct (Qeq_bool v (1#2)); simpl; specialize (IH n); lia.
Qed.

Lemma count_watch_insert i l : (count_watch (<[i := 1#2]> l) <= S (count_watch l))%nat.
Proof.
  unfold count_watch. revert i. induction l as [|v l IH]; intros [|i]; simpl; try lia.
  - destruct (Qeq_bool v (1#2)); simpl; lia.
  - destruct (Qeq_bool v (1#2)); simpl; specialize (IH i); lia.
Qed.

Lemma count_watch_shift l s f :
  ~ f == 1#2 -> (count_watch (shift_warnings l s f) <= count_watch l)%nat.
Proof.
  intros Hf. unfold shift_warnings, py_take_but, py_drop.
  pose proof (count_watch_take (length l - Z.to_nat s) l).
  pose proof (count_watch_drop (Z.to_nat (- s)) l).
  repeat case_match; rewrite ?count_watch_app, ?count_watch_repeat by done; lia.
Qed.

Lemma count_watch_fit n f r :
  ~ f == 1#2 -> (count_watch (fit_length n f r) <= count_watch r)%nat.
Proof.
  intros Hf. unfold fit_length. pose proof (count_watch_take n r).
  repeat case_match; rewrite ?count_watch_app, ?count_watch_repeat by done; lia.
Qed.

(** When the timeline contains a warning and the fill value is not
    0.5, [shift_watch_warning] leaves at most one watch entry: the old
    watches are removed and exactly one is placed. *)
Theorem shift_watch_warning_one_watch l t g f k :
  py_list_index 1 l = Some k -> ~ f == 1#2 ->
  (count_watch (shift_watch_warning l t g f) <= 1)%nat.
Proof.
  intros Hk Hf. unfold shift_watch_warning. rewrite Hk. unfold place_watch.
  destruct (_ <? 0)%Z; cbv zeta;
    (etrans; [apply count_watch_fit, Hf|]); (etrans; [apply count_watch_shift, Hf|]);
    (etrans; [apply count_watch_insert|]); apply le_n_S, Nat.le_0_r;
    case_match; rewrite ?count_watch_app, ?count_watch_repeat, ?count_watch_no_watch by done;
    done.
Qed.

(** A surge timeline with three watch blocks before a warning that lasts
    to the end. *)
Definition sample_surge : list Q := [0; 0; 0; 0; 0.5; 0.5; 0.5; 1; 1; 1].

Lemma shift_watch_warning_one_watch_witness :
  (count_watch (shift_watch_warning sample_surge 0 0 0) <= 1)%nat.
Proof.
  apply (shift_watch_warning_one_watch _ _ _ _ 7); [reflexivity|].
  apply Qeq_bool_false. vm_compute. reflexivity.
Defined.

(** ** The end of a lasting warning is lost *)

Lemma fit_length_pad n f r :
  (length r < n)%nat -> fit_length n f r = r ++ repeat f (n - length r).
Proof.
  intros H. unfold fit_length.
  rewrite (proj2 (Nat.ltb_ge n (length r))) by lia. by rewrite (proj2 (Nat.ltb_lt _ _)).
Qed.

Lemma fit_length_same n f r : length r = n -> fit_length n f r = r.
Proof.
  intros H. unfold fit_length.
  rewrite (proj2 (Nat.ltb_ge n (length r))), (proj2 (Nat.ltb_ge (length r) n)) by lia. done.
Qed.

Lemma length_without_watches l :
  length (List.filter (fun v => negb (Qeq_bool v (1#2))) l) = (length l - count_watch l)%nat.
Proof.
  unfold count_watch. pose proof (List.filter_length (fun v => Qeq_bool v (1#2)) l). lia.
Qed.

(** C31.  If the old watch blocks are [w] entries of the timeline, the
    placed watch falls inside the timeline without padding, and the shift
    is between 1 and the shortened length (the defaults: no gap, no timing
    change, shift 1), then the last [w] blocks of the result are the fill
    value: removing the old watches shortens the timeline, the shift drops
    its last block, and the padding back to the original length replaces a
    warning that lasted to the end by [fill_value]. *)
Theorem shift_watch_warning_drops_tail l t g f k :
  py_list_index 1 l = Some k ->
  (g + 3 <= Z.of_nat k)%Z ->
  (Z.of_nat k - (g + 3) < Z.of_nat (length l - count_watch l))%Z ->
  (0 < (if (g =? 0)%Z then - t + 1 else - t + 1 + 1) <= Z.of_nat (length l - count_watch l))%Z ->
  drop (length l - count_watch l) (shift_watch_warning l t g f) = repeat f (count_watch l).
Proof.
  intros Hk Hg Hin Ht. unfold shift_watch_warning. rewrite Hk. unfold place_watch. cbv zeta.
  rewrite (proj2 (Z.ltb_ge _ 0)) by lia.
  rewrite length_without_watches, (proj2 (Z.leb_gt _ _)) by lia.
  set (r := <[_ := 1#2]> _).
  assert (Hr : length r = (length l - count_watch l)%nat)
    by (unfold r; by rewrite length_insert, length_without_watches).
  set (t' := if (g =? 0)%Z then _ else _) in *.
  assert (Hs : length (shift_warnings r t' f) = (length l - count_watch l)%nat)
    by (rewrite shift_warnings_length_eq, Hr; lia).
  destruct (count_watch l) as [|w] eqn:Hw.
  - rewrite fit_length_same by (rewrite Hs; lia). rewrite Nat.sub_0_r.
    apply drop_ge. lia.
  - assert (Hle : (S w <= length l)%nat).
    { rewrite <- Hw. unfold count_watch. apply List.filter_length_le. }
    rewrite fit_length_pad by (rewrite Hs; lia).
    rewrite <- Hs at 1. rewrite drop_app_length, Hs. f_equal. lia.
Qed.

Lemma shift_watch_warning_drops_tail_witness :
  drop (length sample_surge - count_watch sample_surge) (shift_watch_warning sample_surge 0 0 0)
  = repeat 0 (count_watch sample_surge).
Proof.
  apply (shift_watch_warning_drops_tail _ _ _ _ 7); [vm_compute; reflexivity|..];
    change (length sample_surge - count_watch sample_surge)%nat with 7%nat; cbn; lia.
Defined.
