(* ===== verification/Individual.v ===== *)
(** * Individual: one agent of src/Agent.py, and its self-only operations

    The [Individual] object is split into its static parameters (set by
    [__init__] and never written again), a table of its numeric attributes
    (the ones the code reads and writes by name, several of them through
    [getattr]/[setattr]), its phase, and the two attributes that do not
    exist until first assigned ([immediacy], [preferred_evac]).

    The operations here only touch the agent itself: the preamble of
    [step] (risk perception, base immediacy, rain/wind/surge cues and the
    private reaction to a surge advisory, the media cue) and the
    cue-perception update [calc_risk_perception].  Operations that touch
    other agents are in Diffusion.v. *)

From S2P Require Import Prelude Config.

(** ** Data *)

(** [self.phase]: 0 .. 3 in the code. *)
Inductive Phase := Unaware | Aware | Deciding | Acted.

#[export] Instance Phase_eq_dec : EqDecision Phase.
Proof. solve_decision. Defined.

Definition phase_num (p : Phase) : nat :=
  match p with Unaware => 0 | Aware => 1 | Deciding => 2 | Acted => 3 end.

(** The four protective actions, by the attribute name the code stores in
    [self.preferred_evac]. *)
Inductive Action := act_evac_friends | act_evac_hotel | act_evac_shelter | act_stay.

#[export] Instance Action_eq_dec : EqDecision Action.
Proof. solve_decision. Defined.

Definition action_shared (x : Action) : SharedAttr :=
  match x with
  | act_evac_friends => sa_evac_friends
  | act_evac_hotel => sa_evac_hotel
  | act_evac_shelter => sa_evac_shelter
  | act_stay => sa_stay
  end.

(** The numeric attributes an agent carries and updates. *)
Inductive Attr :=
  | rain_cue | wind_cue | storm_surge_state
  | risk_perception | evac_friends | evac_hotel | evac_shelter | stay
  | immediacy_cum | immediacy_base | media_cue | cue_perception | social_perception.

#[export] Instance Attr_eq_dec : EqDecision Attr.
Proof. solve_decision. Defined.

Definition shared_attr (s : SharedAttr) : Attr :=
  match s with
  | sa_risk_perception => risk_perception
  | sa_evac_friends => evac_friends
  | sa_evac_hotel => evac_hotel
  | sa_evac_shelter => evac_shelter
  | sa_stay => stay
  end.

Definition action_attr (x : Action) : Attr := shared_attr (action_shared x).

(** What [__init__] fixes.  [unique_id] is the network node, i.e. Mesa's
    [unique_id - 1]; agent references are node ids. *)
Record Params := mkParams {
  unique_id : nat;
  factor_values : list Q;
  weight_values : list Q;
  media_trust : list Q;
  media_freq : list Z;
  acquaintances : list nat;
  neigh_individuals : list nat;
  rain : list Q;
  wind : list Q;
  storm_surge : list Q;
  RI_thresh : Q;
  RA_thresh : Q;
  env_weight : Q
}.

Record Individual := mkIndividual {
  ind_params : Params;
  attrs : Attr -> Q;
  phase : Phase;
  immediacy : option Q;
  preferred_evac : option Action
}.

(** [getattr(self, f)] and [setattr(self, f, v)]. *)
Definition get (a : Individual) (f : Attr) : Q := attrs a f.

Definition set_attr (a : Individual) (f : Attr) (v : Q) : Individual :=
  mkIndividual (ind_params a) (fun g => if decide (g = f) then v else attrs a g)
    (phase a) (immediacy a) (preferred_evac a).

(** [self.f += v] *)
Definition add_attr (a : Individual) (f : Attr) (v : Q) : Individual :=
  set_attr a f (get a f + v).

Definition set_phase (a : Individual) (p : Phase) : Individual :=
  mkIndividual (ind_params a) (attrs a) p (immediacy a) (preferred_evac a).

Definition set_immediacy (a : Individual) (v : Q) : Individual :=
  mkIndividual (ind_params a) (attrs a) (phase a) (Some v) (preferred_evac a).

Definition set_preferred (a : Individual) (x : Action) : Individual :=
  mkIndividual (ind_params a) (attrs a) (phase a) (immediacy a) (Some x).

Definition set_neigh (a : Individual) (ns : list nat) : Individual :=
  let p := ind_params a in
  mkIndividual
    (mkParams (unique_id p) (factor_values p) (weight_values p) (media_trust p)
       (media_freq p) (acquaintances p) ns (rain p) (wind p) (storm_surge p)
       (RI_thresh p) (RA_thresh p) (env_weight p))
    (attrs a) (phase a) (immediacy a) (preferred_evac a).

(** ** Construction: [Individual.__init__] *)

(** [media_values] is one survey row of integers: its columns [[:-5]],
    scaled by [media_weight_trust], are the trust vector and its columns
    [[:5]] the frequency vector. *)
Definition Individual_init (c : Config) (node : nat) (acq : list nat)
    (factors weights : list Q) (media_values : list Z)
    (wind_l rain_l surge_l : list Q) : res Individual :=
  let trust := map (fun x => media_weight_trust c * inject_Z x)
                   (py_take_but media_values 5) in
  let freq := py_take_upto media_values 5 in
  r0 ← py_index rain_l 0;
  w0 ← py_index wind_l 0;
  s0 ← py_index surge_l 0;
  wt0 ← py_index weights 0;
  wt2 ← py_index weights 2;
  let p := mkParams node factors weights trust freq acq [] rain_l wind_l surge_l
             (RI_base c) (RA_base c + wt0 * threshold_strength_RA c)
             (wt2 * env_strength c) in
  let table := fun f => match f with
                        | rain_cue => r0 | wind_cue => w0 | storm_surge_state => s0
                        | _ => 0 end in
  Ok (mkIndividual p table Unaware None None).

(** ** The self-only operations of [step] *)

(** [calc_risk_perception]: the cue perception. *)
Definition calc_risk_perception (c : Config) (a : Individual) : Individual :=
  set_attr a cue_perception
    (env_weight (ind_params a) * (get a wind_cue + get a rain_cue)
     + media_weight_perc c * get a media_cue).

(** [calc_media_cue]: exposure to each medium whose frequency divides the
    tick, weighted by trust; the cue is capped at 1. *)
Definition calc_media_cue (c : Config) (steps : nat) (a : Individual) : res Individual :=
  let media_comm := map (fun medium =>
      if (np_mod (Z.of_nat steps) medium =? 0)%Z then 1 else 0)
      (media_freq (ind_params a)) in
  prod ← np_mul (media_trust (ind_params a)) media_comm;
  let raw_increment := qsum prod / 5 in
  if Qlt_bool (get a media_cue + raw_increment) 1
  then Ok (add_attr a media_cue raw_increment)
  else Ok (set_attr a media_cue 1).

(** The base immediacy of [step]:
    [ceiling * ((steps+1) * (1/T)) / (1 + grow_factor * (1 - (steps+1) * (1/T)))].
    Both divisions raise on a zero divisor. *)
Definition immediacy_base_value (c : Config) (steps : nat) : res Q :=
  if (number_of_steps c =? 0)%nat then Err ZeroDivisionError else
  let f := inject_Z (Z.of_nat (S steps)) * (1 / inject_Z (Z.of_nat (number_of_steps c))) in
  let den := 1 + grow_factor c * (1 - f) in
  if Qeq_bool den 0 then Err ZeroDivisionError
  else Ok (ceiling c * f / den).

(** The private reaction to an advisory: [social_perception] grows by
    [comm_watch_value_risk] and [immediacy_cum] by [comm_warning_value_imm],
    whichever advisory it is. *)
Definition surge_bump (c : Config) (a : Individual) : Individual :=
  add_attr (add_attr a social_perception (comm_watch_value_risk c))
    immediacy_cum (comm_warning_value_imm c).

(** Every third tick: [storm_surge[int(n/3)+1]] and the reaction to a
    transition 0 -> 0.5, 0 -> 1 or 0.5 -> 1. *)
Definition surge_update (c : Config) (n : nat) (a : Individual) : res Individual :=
  let old_value := get a storm_surge_state in
  new ← py_index (storm_surge (ind_params a)) (Z.of_nat (n / 3) + 1)%Z;
  let a := set_attr a storm_surge_state new in
  if Qeq_bool old_value 0 then
    (if Qeq_bool new (1#2) then Ok (surge_bump c a)
     else if Qeq_bool new 1 then Ok (surge_bump c a) else Ok a)
  else if Qeq_bool old_value (1#2) then
    (if Qeq_bool new 1 then Ok (surge_bump c a) else Ok a)
  else Ok a.

(** Every third tick: [wind[int(n/3)-1]]. *)
Definition wind_update (n : nat) (a : Individual) : res Individual :=
  w ← py_index (wind (ind_params a)) (Z.of_nat (n / 3) - 1)%Z;
  Ok (set_attr a wind_cue w).

(** Lines 239-262 of [step], before the phase dispatch. *)
Definition step_preamble (c : Config) (n : nat) (a : Individual) : res Individual :=
  let a := set_attr a risk_perception
             (py_min (get a cue_perception + get a social_perception) 1) in
  base ← immediacy_base_value c n;
  let a := set_attr a immediacy_base base in
  r ← py_index (rain (ind_params a)) (Z.of_nat n - 1)%Z;
  let a := set_attr a rain_cue r in
  a ← calc_media_cue c n a;
  a ← (if (n mod 3 =? 0)%nat then surge_update c n a else Ok a);
  if (n mod 3 =? 0)%nat then wind_update n a else Ok a.

(** ** Attribute-table lemmas *)

Lemma get_set_eq a f v : get (set_attr a f v) f = v.
Proof. unfold get, set_attr. simpl. by rewrite decide_True. Qed.

Lemma get_set_ne a f g v : g <> f -> get (set_attr a f v) g = get a g.
Proof. intros. unfold get, set_attr. simpl. by rewrite decide_False. Qed.

Lemma get_set a f g v : get (set_attr a f v) g = if decide (g = f) then v else get a g.
Proof. reflexivity. Qed.

Lemma set_attr_params a f v : ind_params (set_attr a f v) = ind_params a.
Proof. reflexivity. Qed.

Lemma set_attr_phase a f v : phase (set_attr a f v) = phase a.
Proof. reflexivity. Qed.

Lemma set_attr_preferred a f v : preferred_evac (set_attr a f v) = preferred_evac a.
Proof. reflexivity. Qed.

#[export] Hint Rewrite get_set_eq set_attr_params set_attr_phase set_attr_preferred : evac_rw.

Lemma np_mul_same_length a b :
  length a = length b -> np_mul a b = Ok (zip_with Qmult a b).
Proof. intros H. unfold np_mul. by rewrite decide_True. Qed.

Lemma zip_with_mult_nonneg (xs ys : list Q) :
  Forall (fun x => 0 <= x) xs -> Forall (fun y => 0 <= y) ys ->
  Forall (fun z => 0 <= z) (zip_with Qmult xs ys).
Proof.
  intros Hx. revert ys. induction Hx as [|x xs Hx0 _ IH]; intros [|y ys] Hy; simpl;
    try constructor.
  - inversion Hy; subst. by apply Qmult_le_0_compat.
  - inversion Hy; subst. by apply IH.
Qed.

Lemma media_comm_nonneg n (fs : list Z) :
  Forall (fun y => 0 <= y)
    (map (fun medium => if (np_mod (Z.of_nat n) medium =? 0)%Z then 1 else 0) fs).
Proof.
  apply Forall_forall. intros y (m & <- & _)%list_elem_of_In%in_map_iff.
  case_match; discriminate.
Qed.

Lemma inject_nat_pos (n : nat) : (0 < n)%nat -> 0 < inject_Z (Z.of_nat n).
Proof. intros. change 0 with (inject_Z 0). rewrite <- Zlt_Qlt. lia. Qed.

(** The rational [(steps + 1) / T] of the base-immediacy curve. *)
Definition tick_fraction (c : Config) (steps : nat) : Q :=
  inject_Z (Z.of_nat (S steps)) * (1 / inject_Z (Z.of_nat (number_of_steps c))).

Lemma tick_fraction_mul c s :
  (0 < number_of_steps c)%nat ->
  tick_fraction c s * inject_Z (Z.of_nat (number_of_steps c)) == inject_Z (Z.of_nat (S s)).
Proof.
  intros HT. unfold tick_fraction. field.
  intros H. pose proof (inject_nat_pos _ HT). lra.
Qed.


Lemma inject_nat_le (n m : nat) : (n <= m)%nat -> inject_Z (Z.of_nat n) <= inject_Z (Z.of_nat m).
Proof. intros. rewrite <- Zle_Qle. lia. Qed.

Lemma immediacy_base_value_eq c s :
  (0 < number_of_steps c)%nat ->
  ~ (1 + grow_factor c * (1 - tick_fraction c s) == 0) ->
  immediacy_base_value c s =
    Ok (ceiling c * tick_fraction c s / (1 + grow_factor c * (1 - tick_fraction c s))).
Proof.
  intros HT Hd. unfold immediacy_base_value.
  destruct (number_of_steps c =? 0)%nat eqn:E; [apply Nat.eqb_eq in E; lia|].
  fold (tick_fraction c s).
  destruct (Qeq_bool _ 0) eqn:Hq; qbool; [contradiction|done].
Qed.

Lemma tick_fraction_bounds c s :
  (0 < number_of_steps c)%nat -> (S s <= number_of_steps c)%nat ->
  0 < tick_fraction c s <= 1.
Proof.
  intros HT Hs. pose proof (tick_fraction_mul c s HT) as Hf.
  pose proof (inject_nat_pos _ HT). pose proof (inject_nat_le _ _ Hs).
  pose proof (inject_nat_pos (S s) ltac:(lia)). split; nra.
Qed.

(** Proves the closing arithmetic goal of a comparison between a quotient
    and a bound, given the products that define it. *)
Ltac qdiv_bound :=
  first [ apply Qle_shift_div_l | apply Qle_shift_div_r
        | apply Qlt_shift_div_l | apply Qlt_shift_div_r ]; nra.

(** Closes a goal [P] about a concrete configuration by evaluation. *)
Ltac qeval :=
  repeat match goal with
  | |- _ /\ _ => split
  | |- Forall _ _ => constructor
  end;
  first [ reflexivity | (cbn; lia)
        | apply Qle_bool_iff; vm_compute; reflexivity
        | apply Qlt_bool_true; vm_compute; reflexivity
        | apply Qeq_bool_iff; vm_compute; reflexivity ].

(** While the tick is inside the configured horizon
    ([steps + 1 <= number_of_steps]), the base immediacy computed by
    [Individual.step] is defined and lies between 0 and [ceiling]. *)
Theorem immediacy_base_bounded c s :
  (0 < number_of_steps c)%nat -> (S s <= number_of_steps c)%nat ->
  0 <= ceiling c -> 0 <= grow_factor c ->
  exists v, immediacy_base_value c s = Ok v /\ 0 <= v <= ceiling c.
Proof.
  intros HT Hs Hc Hg. destruct (tick_fraction_bounds c s HT Hs) as [Hf0 Hf1].
  assert (0 <= grow_factor c * (1 - tick_fraction c s)) by (apply Qmult_le_0_compat; lra).
  rewrite immediacy_base_value_eq by (done || lra).
  eexists; split; [reflexivity|]. split; qdiv_bound.
Qed.

Lemma immediacy_base_bounded_witness :
  exists v, immediacy_base_value default_config 10 = Ok v /\
            0 <= v <= ceiling default_config.
Proof. apply immediacy_base_bounded; qeval. Defined.

Lemma final_tick_denominator c :
  (0 < number_of_steps c)%nat ->
  (1 + grow_factor c * (1 - tick_fraction c (number_of_steps c)))
    * inject_Z (Z.of_nat (number_of_steps c))
  == inject_Z (Z.of_nat (number_of_steps c)) - grow_factor c.
Proof.
  intros HT. pose proof (tick_fraction_mul c (number_of_steps c) HT) as Hf.
  rewrite Nat2Z.inj_succ, <- Z.add_1_r, inject_Z_plus in Hf.
  change (inject_Z 1) with 1 in Hf.
  set (f := tick_fraction c (number_of_steps c)) in *.
  set (T := inject_Z (Z.of_nat (number_of_steps c))) in *.
  transitivity (T + grow_factor c * T - grow_factor c * (f * T)); [ring|].
  rewrite Hf. ring.
Qed.

(** At the last tick the scheduler runs ([steps = number_of_steps]),
    [(steps+1)/T] exceeds 1 and the base immediacy overshoots [ceiling]
    whenever [grow_factor < number_of_steps] (the defaults 30 < 88): the
    curve does not saturate below [ceiling] as the spec says. *)
Theorem immediacy_base_final_exceeds c :
  (0 < number_of_steps c)%nat -> 0 < ceiling c -> 0 <= grow_factor c ->
  grow_factor c < inject_Z (Z.of_nat (number_of_steps c)) ->
  exists v, immediacy_base_value c (number_of_steps c) = Ok v /\ ceiling c < v.
Proof.
  intros HT Hc Hg HgT. pose proof (final_tick_denominator c HT) as Hd.
  pose proof (tick_fraction_mul c (number_of_steps c) HT) as Hf.
  rewrite Nat2Z.inj_succ, <- Z.add_1_r, inject_Z_plus in Hf.
  change (inject_Z 1) with 1 in Hf. pose proof (inject_nat_pos _ HT).
  set (f := tick_fraction c (number_of_steps c)) in *.
  set (T := inject_Z (Z.of_nat (number_of_steps c))) in *.
  rewrite immediacy_base_value_eq; fold f;
    set (D := 1 + grow_factor c * (1 - f)) in *; [|done|].
  - assert (Hpos : 0 < D) by nra.
    assert (Hlt : D < f) by nra.
    eexists; split; [reflexivity|]. qdiv_bound.
  - assert (Hpos : 0 < D) by nra. lra.
Qed.

Lemma immediacy_base_final_exceeds_witness :
  exists v, immediacy_base_value default_config (number_of_steps default_config) = Ok v /\
            ceiling default_config < v.
Proof. apply immediacy_base_final_exceeds; qeval. Defined.

(** When [grow_factor] equals [number_of_steps], the denominator of the
    base-immediacy curve is 0 at the last tick and [step] raises
    [ZeroDivisionError]. *)
Theorem immediacy_base_final_raises c :
  (0 < number_of_steps c)%nat ->
  grow_factor c == inject_Z (Z.of_nat (number_of_steps c)) ->
  immediacy_base_value c (number_of_steps c) = Err ZeroDivisionError.
Proof.
  intros HT Hg. pose proof (final_tick_denominator c HT) as Hd.
  pose proof (inject_nat_pos _ HT).
  assert (H0 : 1 + grow_factor c * (1 - tick_fraction c (number_of_steps c)) == 0) by nra.
  unfold immediacy_base_value.
  destruct (number_of_steps c =? 0)%nat eqn:E; [apply Nat.eqb_eq in E; lia|].
  fold (tick_fraction c (number_of_steps c)).
  apply Qeq_bool_iff in H0. by rewrite H0.
Qed.

Lemma immediacy_base_final_raises_witness :
  immediacy_base_value (with_steps default_config 30) 30 = Err ZeroDivisionError.
Proof. apply (immediacy_base_final_raises (with_steps default_config 30)); qeval. Defined.


(** The media cue stays in [0, 1] when the trust weights are non-negative. *)
Lemma calc_media_cue_range c n a :
  0 <= get a media_cue <= 1 ->
  Forall (fun t => 0 <= t) (media_trust (ind_params a)) ->
  length (media_trust (ind_params a)) = length (media_freq (ind_params a)) ->
  exists a', calc_media_cue c n a = Ok a' /\
    get a media_cue <= get a' media_cue <= 1 /\
    (forall f, f <> media_cue -> get a' f = get a f) /\
    ind_params a' = ind_params a /\ phase a' = phase a.
Proof.
  intros Hm Ht Hlen. unfold calc_media_cue.
  rewrite np_mul_same_length by (by rewrite length_map). simpl.
  set (raw := qsum _ / 5).
  assert (Hraw : 0 <= raw).
  { apply Qle_shift_div_l; [lra|]. rewrite Qmult_0_l.
    apply qsum_nonneg, zip_with_mult_nonneg; [done|apply media_comm_nonneg]. }
  qcase; eexists; (split; [reflexivity|]); unfold add_attr;
    rewrite ?get_set_eq; (split; [lra|]);
    (split; [intros f Hf; by rewrite get_set_ne|done]).
Qed.

(** [calc_media_cue] keeps the media cue in [0, 1] and never lowers
    it, provided the trust weights are non-negative and the trust and
    frequency vectors have the same length (then no broadcasting error can
    occur); it writes no other attribute. *)
Theorem calc_media_cue_bounds c n a :
  0 <= get a media_cue <= 1 ->
  Forall (fun t => 0 <= t) (media_trust (ind_params a)) ->
  length (media_trust (ind_params a)) = length (media_freq (ind_params a)) ->
  exists a', calc_media_cue c n a = Ok a' /\
    get a media_cue <= get a' media_cue <= 1 /\
    (forall f, f <> media_cue -> get a' f = get a f) /\
    ind_params a' = ind_params a /\ phase a' = phase a.
Proof. apply calc_media_cue_range. Qed.

(** A sample agent: survey answers 1 .. 5 for the media row, no
    acquaintances, constant cue series. *)
Definition sample_media_row : list Z := [1; 2; 3; 4; 5; 2; 2; 2; 2; 2]%Z.

Definition sample_individual : Individual :=
  match Individual_init default_config 0 [] [1; 0; 1] [0.5; 0.2; 0.5]
          sample_media_row (repeat 0.1 40) (repeat 0.2 100) (repeat 0 40) with
  | Ok a => a
  | Err _ => mkIndividual (mkParams 0 [] [] [] [] [] [] [] [] [] 0 0 0)
               (fun _ => 0) Unaware None None
  end.

Lemma calc_media_cue_bounds_witness :
  exists a', calc_media_cue default_config 4 sample_individual = Ok a' /\
    get sample_individual media_cue <= get a' media_cue <= 1 /\
    (forall f, f <> media_cue -> get a' f = get sample_individual f) /\
    ind_params a' = ind_params sample_individual /\ phase a' = phase sample_individual.
Proof. apply calc_media_cue_bounds; qeval. Defined.

(** C19.  In [__init__], [media_trust] is built from the columns [[:-5]] and
    [media_freq] from the columns [[:5]] of the same survey row: on the
    ten-column rows the spec describes (five trust and five frequency
    answers) both are the first five columns, so the trust vector is the
    frequency vector scaled by [media_weight_trust] and the last five
    columns are never read. *)
Theorem Individual_init_trust_is_freq c node acq fs ws mv wl rl sl a :
  length mv = 10%nat ->
  Individual_init c node acq fs ws mv wl rl sl = Ok a ->
  media_trust (ind_params a) = map (fun x => media_weight_trust c * inject_Z x)
                                   (media_freq (ind_params a)) /\
  media_freq (ind_params a) = take 5 mv.
Proof.
  intros Hlen Hinit. unfold Individual_init in Hinit.
  repeat (apply bind_Ok in Hinit as (? & _ & Hinit)). injection Hinit as <-. simpl.
  unfold py_take_but, py_take_upto. by rewrite Hlen.
Qed.

Lemma Individual_init_trust_is_freq_witness :
  media_trust (ind_params sample_individual) =
    map (fun x => media_weight_trust default_config * inject_Z x)
        (media_freq (ind_params sample_individual)) /\
  media_freq (ind_params sample_individual) = take 5 sample_media_row.
Proof.
  apply (Individual_init_trust_is_freq default_config 0 [] [1; 0; 1] [0.5; 0.2; 0.5]
           sample_media_row (repeat 0.1 40) (repeat 0.2 100) (repeat 0 40)); reflexivity.
Defined.

(** ** The self-only operations keep the agent's parameters and phase *)

Lemma calc_media_cue_shape c n a a' :
  calc_media_cue c n a = Ok a' -> ind_params a' = ind_params a /\ phase a' = phase a.
Proof. unfold calc_media_cue. intros Hm. res_inv; subst; done. Qed.

Lemma surge_update_shape c n a a' :
  surge_update c n a = Ok a' -> ind_params a' = ind_params a /\ phase a' = phase a.
Proof. unfold surge_update. intros Hm. res_inv; subst; done. Qed.

Lemma wind_update_shape n a a' :
  wind_update n a = Ok a' -> ind_params a' = ind_params a /\ phase a' = phase a.
Proof. unfold wind_update. intros Hm. res_inv; subst; done. Qed.

Lemma step_preamble_shape c n a a' :
  step_preamble c n a = Ok a' -> ind_params a' = ind_params a /\ phase a' = phase a.
Proof.
  unfold step_preamble. intros Hm. res_inv;
  repeat match goal with
  | H : calc_media_cue _ _ _ = Ok _ |- _ => apply calc_media_cue_shape in H as [? ?]
  | H : surge_update _ _ _ = Ok _ |- _ => apply surge_update_shape in H as [? ?]
  | H : wind_update _ _ = Ok _ |- _ => apply wind_update_shape in H as [? ?]
  end; simpl in *; split; congruence.
Qed.

(** ** The attributes each self-only operation leaves alone *)

Lemma calc_media_cue_other c n a a' f :
  calc_media_cue c n a = Ok a' -> f <> media_cue -> get a' f = get a f.
Proof. unfold calc_media_cue, add_attr. intros Hm Hf. res_inv; subst; by rewrite get_set_ne. Qed.

Lemma surge_update_other c n a a' f :
  surge_update c n a = Ok a' -> f <> storm_surge_state -> f <> social_perception ->
  f <> immediacy_cum -> get a' f = get a f.
Proof.
  unfold surge_update, surge_bump, add_attr. intros Hm H1 H2 H3.
  res_inv; subst; by rewrite ?get_set_ne.
Qed.

Lemma wind_update_other n a a' f :
  wind_update n a = Ok a' -> f <> wind_cue -> get a' f = get a f.
Proof. unfold wind_update. intros Hm Hf. res_inv; subst; by rewrite get_set_ne. Qed.

(** The preamble's first statement fixes [risk_perception] for the tick. *)
Lemma step_preamble_risk c n a a' :
  step_preamble c n a = Ok a' ->
  get a' risk_perception = py_min (get a cue_perception + get a social_perception) 1.
Proof.
  unfold step_preamble. intros Hm.
  apply bind_Ok in Hm as (base & _ & Hm). apply bind_Ok in Hm as (r & _ & Hm).
  apply bind_Ok in Hm as (a1 & H1 & Hm). apply bind_Ok in Hm as (a2 & H2 & Hm).
  assert (Hr1 : get a1 risk_perception =
                py_min (get a cue_perception + get a social_perception) 1).
  { rewrite (calc_media_cue_other _ _ _ _ _ H1) by discriminate.
    rewrite !get_set_ne by discriminate. apply get_set_eq. }
  destruct (n mod 3 =? 0)%nat.
  - rewrite (wind_update_other _ _ _ _ Hm), (surge_update_other _ _ _ _ _ H2) by discriminate.
    done.
  - injection Hm as <-. injection H2 as <-. done.
Qed.

(** ** Storm-surge advisories

    The advisory levels of the surge series: none (0), watch (0.5) and
    warning (1). *)
Definition surge_level (v : Q) : Prop := v == 0 \/ v == 1#2 \/ v == 1.

#[export] Instance surge_level_dec v : Decision (surge_level v).
Proof.
  unfold surge_level.
  destruct (Qeq_dec v 0), (Qeq_dec v (1#2)), (Qeq_dec v 1); [left; tauto ..|right; tauto].
Defined.

(** [storm_surge[int(n/3)+1]] is the only read of [surge_update] that
    can fail: it raises [IndexError] exactly when the series has at most
    [n / 3 + 1] entries, so a series of [number_of_steps / 3] blocks is too
    short for the last ticks. *)
Theorem surge_update_index c n a :
  surge_update c n a = Err IndexError <->
  (length (storm_surge (ind_params a)) <= n / 3 + 1)%nat.
Proof.
  unfold surge_update.
  replace (Z.of_nat (n / 3) + 1)%Z with (Z.of_nat (n / 3 + 1)) by lia.
  destruct (storm_surge (ind_params a) !! (n / 3 + 1)%nat) as [x|] eqn:E.
  - rewrite (py_index_nat _ _ _ E). apply lookup_lt_Some in E.
    split; [|intros; lia]. cbn. repeat case_match; discriminate.
  - rewrite (py_index_nat_None _ _ E). cbn. apply lookup_ge_None in E. done.
Qed.

(** C18.  On advisory levels, [surge_update] reacts exactly to an
    escalation (0 -> 0.5, 0 -> 1, 0.5 -> 1): then [social_perception] grows
    by [comm_watch_value_risk] and [immediacy_cum] by
    [comm_warning_value_imm], the same constants for a watch and a warning;
    otherwise neither changes.  The new state is again a level. *)
Theorem surge_update_reaction c n a a' :
  surge_level (get a storm_surge_state) ->
  Forall surge_level (storm_surge (ind_params a)) ->
  surge_update c n a = Ok a' ->
  surge_level (get a' storm_surge_state) /\
  (get a storm_surge_state < get a' storm_surge_state ->
     get a' social_perception == get a social_perception + comm_watch_value_risk c /\
     get a' immediacy_cum == get a immediacy_cum + comm_warning_value_imm c) /\
  (get a' storm_surge_state <= get a storm_surge_state ->
     get a' social_perception = get a social_perception /\
     get a' immediacy_cum = get a immediacy_cum).
Proof.
  intros Ho Hs Hu. unfold surge_update in Hu. apply bind_Ok in Hu as (new & Hn & Hu).
  assert (Hl : surge_level new).
  { eapply Forall_forall; [exact Hs|]. by eapply py_index_elem_of. }
  unfold surge_level in Ho, Hl.
  res_inv; qbool; subst a'; unfold surge_bump, add_attr; rewrite ?get_set_eq, ?get_set_ne by discriminate;
    rewrite ?get_set_eq, ?get_set_ne by discriminate;
    (split; [unfold surge_level; lra|]);
    split; intros Hlt; try (split; reflexivity); try (split; reflexivity || lra);
    exfalso; destruct Ho as [?|[?|?]]; destruct Hl as [?|[?|?]]; lra.
Qed.

(** An agent whose surge series reaches a watch in its third block. *)
Definition surge_agent : Individual :=
  match Individual_init default_config 0 [] [1; 0; 1] [0.5; 0.2; 0.5]
          sample_media_row (repeat 0.1 40) (repeat 0.2 100) [0; 0; 1#2; 1#2; 1; 1] with
  | Ok a => a
  | Err _ => sample_individual
  end.

Lemma surge_update_reaction_witness :
  exists a', surge_update default_config 3 surge_agent = Ok a' /\
  surge_level (get a' storm_surge_state) /\
  (get surge_agent storm_surge_state < get a' storm_surge_state ->
     get a' social_perception == get surge_agent social_perception + comm_watch_value_risk default_config /\
     get a' immediacy_cum == get surge_agent immediacy_cum + comm_warning_value_imm default_config) /\
  (get a' storm_surge_state <= get surge_agent storm_surge_state ->
     get a' social_perception = get surge_agent social_perception /\
     get a' immediacy_cum = get surge_agent immediacy_cum).
Proof.
  destruct (surge_update default_config 3 surge_agent) as [a'|e] eqn:E;
    [|vm_compute in E; discriminate].
  exists a'. split; [reflexivity|].
  apply (surge_update_reaction default_config 3 surge_agent); [| |exact E].
  - decide_prop.
  - decide_prop.
Defined.
