(* ===== verification/Population.v ===== *)
(** * Population: the state of [EvacuationDec] (src/Model.py) and the agent store

    The model object holds the configuration, every [Individual] object ever
    created (the store: a finite map from node ids to agents, because the
    agents refer to each other through their acquaintance and neighbour
    lists and mutate each other in place), the live [AgentSet]
    [self.agents] (the ids still scheduled, in insertion order), the tick
    counter of Mesa's [Model.steps], the output counters, the collected
    per-tick evacuation counts and the state of the random generator.

    The two injected collaborators are interfaces here:
    - [RandomSource]: Python's [random.Random] of the model, used by
      [AgentSet.shuffle_do] and by [self.random.random()];
    - [Classifier]: the pickled logistic model's [predict_proba].

    A write [agent.x = v] to another agent is a write into the store, so
    that aliasing (an agent reached twice, or an agent reaching itself)
    behaves as in Python.  The relations at the end ([store_frame] and the
    setoid [≡] on agents) say which parts of the state an operation leaves
    alone. *)

From S2P Require Import Prelude Config Individual.

(** ** Interfaces *)

Class RandomSource (G : Type) := {
  rs_random : G -> Q * G;
  rs_shuffle : list nat -> G -> list nat * G
}.

(** What the code relies on from Python's generator. *)
Class RandomSourceLaws (G : Type) `{RandomSource G} := {
  rs_random_range : forall g, 0 <= fst (rs_random g) < 1;
  rs_shuffle_perm : forall l g, fst (rs_shuffle l g) ≡ₚ l
}.

(** [self.model.logistic_model.predict_proba(factors)[0]]. *)
Class Classifier := predict_proba : list Q -> list Q.

(** ** Model state *)

(** [evaced_agents] (reset every tick) and the four cumulative choices. *)
Record Counters := mkCounters {
  evaced_agents : nat;
  hotel_choice : nat;
  friends_choice : nat;
  shelter_choice : nat;
  stay_choice : nat
}.

Definition zero_counters : Counters := mkCounters 0 0 0 0 0.

(** The [if self.preferred_evac == ...] chain of
    [protective_action_assessment], after [self.model.evaced_agents += 1]. *)
Definition record_choice (x : Action) (k : Counters) : Counters :=
  let e := S (evaced_agents k) in
  match x with
  | act_evac_hotel => mkCounters e (S (hotel_choice k)) (friends_choice k) (shelter_choice k) (stay_choice k)
  | act_evac_friends => mkCounters e (hotel_choice k) (S (friends_choice k)) (shelter_choice k) (stay_choice k)
  | act_evac_shelter => mkCounters e (hotel_choice k) (friends_choice k) (S (shelter_choice k)) (stay_choice k)
  | act_stay => mkCounters e (hotel_choice k) (friends_choice k) (shelter_choice k) (S (stay_choice k))
  end.

Definition choices_total (k : Counters) : nat :=
  hotel_choice k + friends_choice k + shelter_choice k + stay_choice k.

Definition reset_evaced (k : Counters) : Counters :=
  mkCounters 0 (hotel_choice k) (friends_choice k) (shelter_choice k) (stay_choice k).

(** [self.phase_0], [self.phase_1], [self.phase_2]. *)
Record PhaseCounts := mkPhaseCounts { phase_0 : nat; phase_1 : nat; phase_2 : nat }.

Record Model (G : Type) := mkModel {
  m_cfg : Config;
  m_store : gmap nat Individual;
  m_agents : list nat;
  m_steps : nat;
  m_counts : Counters;
  m_phases : PhaseCounts;
  m_average_evac_time : option Q;
  m_running : bool;
  m_evac_history : list nat;
  m_rng : G
}.
Arguments mkModel {G}.
Arguments m_cfg {G}. Arguments m_store {G}. Arguments m_agents {G}.
Arguments m_steps {G}. Arguments m_counts {G}. Arguments m_phases {G}.
Arguments m_average_evac_time {G}. Arguments m_running {G}.
Arguments m_evac_history {G}. Arguments m_rng {G}.

Section Store.
Context {G : Type}.
Implicit Types m : Model G.

Definition set_store m s : Model G :=
  mkModel (m_cfg m) s (m_agents m) (m_steps m) (m_counts m) (m_phases m)
    (m_average_evac_time m) (m_running m) (m_evac_history m) (m_rng m).
Definition set_agents m l : Model G :=
  mkModel (m_cfg m) (m_store m) l (m_steps m) (m_counts m) (m_phases m)
    (m_average_evac_time m) (m_running m) (m_evac_history m) (m_rng m).
Definition set_steps m n : Model G :=
  mkModel (m_cfg m) (m_store m) (m_agents m) n (m_counts m) (m_phases m)
    (m_average_evac_time m) (m_running m) (m_evac_history m) (m_rng m).
Definition set_counts m k : Model G :=
  mkModel (m_cfg m) (m_store m) (m_agents m) (m_steps m) k (m_phases m)
    (m_average_evac_time m) (m_running m) (m_evac_history m) (m_rng m).
Definition set_phases m p : Model G :=
  mkModel (m_cfg m) (m_store m) (m_agents m) (m_steps m) (m_counts m) p
    (m_average_evac_time m) (m_running m) (m_evac_history m) (m_rng m).
Definition set_finished m avg : Model G :=
  mkModel (m_cfg m) (m_store m) (m_agents m) (m_steps m) (m_counts m) (m_phases m)
    avg false (m_evac_history m) (m_rng m).
Definition set_history m h : Model G :=
  mkModel (m_cfg m) (m_store m) (m_agents m) (m_steps m) (m_counts m) (m_phases m)
    (m_average_evac_time m) (m_running m) h (m_rng m).
Definition set_rng m g : Model G :=
  mkModel (m_cfg m) (m_store m) (m_agents m) (m_steps m) (m_counts m) (m_phases m)
    (m_average_evac_time m) (m_running m) (m_evac_history m) g.

(** Reading [self] (or any referenced agent) out of the store. *)
Definition self_of m (i : nat) : res Individual :=
  match m_store m !! i with Some a => Ok a | None => Err KeyError end.

(** An in-place update of agent [i]: [agent.x = ...]. *)
Definition upd (i : nat) (f : Individual -> Individual) m : Model G :=
  set_store m (alter f i (m_store m)).

(** A self-only method that may raise, run on agent [i]. *)
Definition upd_res (i : nat) (f : Individual -> res Individual) m : res (Model G) :=
  a ← self_of m i;
  a' ← f a;
  Ok (set_store m (<[i := a']> (m_store m))).

Lemma set_store_store m s : m_store (set_store m s) = s.
Proof. reflexivity. Qed.

Lemma set_store_twice m s s' : set_store (set_store m s) s' = set_store m s'.
Proof. reflexivity. Qed.

Lemma set_store_id m : set_store m (m_store m) = m.
Proof. by destruct m. Qed.

(** ** Which parts of the state an operation leaves alone *)

(** Two agents with the same static parameters and phase. *)
Definition same_shape (a b : Individual) : Prop :=
  ind_params a = ind_params b /\ phase a = phase b.

#[export] Instance same_shape_preorder : PreOrder same_shape.
Proof.
  split; [by intros a|]. intros a b c [H1 H2] [H3 H4]. split; congruence.
Qed.

(** A store that differs from another one only in agents' attributes,
    [immediacy] and [preferred_evac]. *)
Definition store_frame (s s' : gmap nat Individual) : Prop :=
  forall i, option_Forall2 same_shape (s !! i) (s' !! i).

#[export] Instance store_frame_preorder : PreOrder store_frame.
Proof.
  split.
  - intros s i. reflexivity.
  - intros s1 s2 s3 H12 H23 i. etrans; [apply H12|apply H23].
Qed.

(** A model that differs from another one only as [store_frame] allows. *)
Definition frame m m' : Prop :=
  exists s', m' = set_store m s' /\ store_frame (m_store m) s'.

#[export] Instance frame_preorder : PreOrder frame.
Proof.
  split.
  - intros m. exists (m_store m). split; [by rewrite set_store_id|reflexivity].
  - intros m1 m2 m3 (s2 & -> & H2) (s3 & -> & H3).
    exists s3. split; [done|]. by etrans.
Qed.

Lemma upd_frame i f m :
  (forall a, same_shape a (f a)) -> frame m (upd i f m).
Proof.
  intros Hf. exists (alter f i (m_store m)). split; [done|].
  intros j. rewrite lookup_alter. case_decide as Hij; [subst j|reflexivity].
  destruct (m_store m !! i); constructor. apply Hf.
Qed.

Lemma set_attr_shape a f v : same_shape a (set_attr a f v).
Proof. done. Qed.

Lemma add_attr_shape a f v : same_shape a (add_attr a f v).
Proof. done. Qed.

Lemma set_immediacy_shape a v : same_shape a (set_immediacy a v).
Proof. done. Qed.

Lemma set_preferred_shape a x : same_shape a (set_preferred a x).
Proof. done. Qed.

(** Folding an operation that stays in the frame stays in the frame. *)
Lemma fold_left_frame {B} (op : Model G -> B -> Model G) xs m :
  (forall m' x, frame m' (op m' x)) -> frame m (fold_left op xs m).
Proof.
  intros Hop. revert m. induction xs as [|x xs IH]; intros m; simpl; [reflexivity|].
  etrans; [apply Hop|apply IH].
Qed.

Lemma fold_res_frame {B} (op : Model G -> B -> res (Model G)) xs m m' :
  (forall m1 x m2, op m1 x = Ok m2 -> frame m1 m2) ->
  fold_res op xs m = Ok m' -> frame m m'.
Proof.
  intros Hop. revert m. induction xs as [|x xs IH]; intros m; simpl.
  - intros [= ->]. reflexivity.
  - intros (m1 & H1 & H2)%bind_Ok. etrans; [eapply Hop, H1|by apply IH].
Qed.

End Store.

#[export] Hint Resolve set_attr_shape add_attr_shape set_immediacy_shape
  set_preferred_shape : evac.

(** ** Observational equivalence

    Python floats are modelled by rationals, whose equality [==] is coarser
    than [=]; two agents are equivalent when they agree on everything, the
    numeric attributes up to [==].  A model is equivalent to another one when
    it has the same non-store fields and an equivalent store (stdpp's
    pointwise [≡] on finite maps). *)

#[export] Instance Individual_equiv : Equiv Individual := fun a b =>
  ind_params a = ind_params b /\ phase a = phase b /\ immediacy a = immediacy b /\
  preferred_evac a = preferred_evac b /\ forall f, get a f == get b f.

#[export] Instance Individual_equivalence : Equivalence (≡@{Individual}).
Proof.
  split.
  - intros a. do 4 (split; [done|]). intros f. reflexivity.
  - intros a b (?&?&?&?&Hf). do 4 (split; [done|]). intros f. by rewrite Hf.
  - intros a b c (?&?&?&?&Hf) (?&?&?&?&Hg). do 4 (split; [congruence|]).
    intros f. by rewrite Hf, Hg.
Qed.

#[export] Instance get_proper : Proper ((≡) ==> (=) ==> Qeq) get.
Proof. intros a b (_&_&_&_&H) f ? <-. apply H. Qed.

#[export] Instance set_attr_proper : Proper ((≡) ==> (=) ==> Qeq ==> (≡)) set_attr.
Proof.
  intros a b (?&?&?&?&H) f ? <- v w Hv. do 4 (split; [done|]).
  intros g. rewrite !get_set. case_decide; [done|apply H].
Qed.

Section ModelEquiv.
Context {G : Type}.

#[export] Instance Model_equiv : Equiv (Model G) := fun m m' =>
  set_store m (m_store m') = m' /\ m_store m ≡ m_store m'.

#[export] Instance Model_equivalence : Equivalence (≡@{Model G}).
Proof.
  split.
  - intros m. split; [apply set_store_id|reflexivity].
  - intros m m' [Hm H]. split; [|by symmetry].
    rewrite <- Hm. by destruct m.
  - intros m1 m2 m3 [H12 H] [H23 H']. split; [|by etrans].
    transitivity (set_store m2 (m_store m3)); [|done]. by rewrite <- H12.
Qed.

(** An in-place write of a value equivalent to the current one is
    unobservable. *)
Lemma upd_equiv (i : nat) (op : Individual -> Individual) (m : Model G) :
  (forall a, m_store m !! i = Some a -> op a ≡ a) -> upd i op m ≡ m.
Proof.
  intros Hop. split; [by destruct m|]. simpl.
  apply map_equiv_iff. intros j. rewrite lookup_alter. case_decide as Hij; [subst j|reflexivity].
  destruct (m_store m !! i) eqn:E; constructor. by apply Hop.
Qed.

End ModelEquiv.

(** Writing back an equivalent value is unobservable. *)
Lemma set_attr_same (a : Individual) f v : v == get a f -> set_attr a f v ≡ a.
Proof.
  intros Hv. do 4 (split; [done|]). intros g. rewrite get_set.
  case_decide; subst; [done|reflexivity].
Qed.
