(* ===== verification/Diffusion.v ===== *)
(** * Diffusion: the communication methods of [Individual] (src/Agent.py)

    - [general_communication attribute]: the agent averages an attribute
      with the mean over its acquaintances and moves by [coeff_dict];
    - [action_communication]: the former for the four action propensities
      and risk perception;
    - [phase_change_communication]: every acquaintance's
      [social_perception] grows by [phase_change_factor];
    - [Protective_Action_Implementation_communication]: acquaintances get a
      bump of the chosen action's propensity and of [immediacy_cum]; after
      an evacuation, spatial neighbours get a bump of the three evacuation
      propensities and of [immediacy_cum].

    Each is an operation on the model's store (Population.v): the writes to
    other agents are in place, in list order, so an agent listed twice is
    bumped twice.

    The main results: [general_communication] reads the agent's own value
    where it means to read the acquaintances' ones, so it never changes the
    state (up to [==]); the broadcasts add exactly their constants, once per
    occurrence of the receiver in the sender's lists. *)

From S2P Require Import Prelude Config Individual Population.

Section Diffusion.
Context {G : Type}.
Implicit Types m : Model G.

(** [general_communication(self, attribute)], lines 69-80.  The list
    comprehension [[getattr(self, attribute) for i in self.acquaintances]]
    reads [self], not [i]. *)
Definition general_communication (attribute : SharedAttr) (i : nat) m : res (Model G) :=
  a ← self_of m i;
  let acq := acquaintances (ind_params a) in
  if decide (length acq = 0%nat) then Ok m else
  let f := shared_attr attribute in
  let comm_sum := qsum (map (fun _ => get a f) acq) / inject_Z (Z.of_nat (length acq)) in
  let own := get a f in
  let avg := (own + comm_sum) / 2 in
  let diff := own - avg in
  let result := own + diff * coeff_dict (m_cfg m) attribute in
  Ok (upd i (fun b => set_attr b f result) m).

(** [action_communication], lines 82-88. *)
Definition action_communication (i : nat) m : res (Model G) :=
  fold_res (fun m attribute => general_communication attribute i m)
    [sa_evac_friends; sa_evac_hotel; sa_evac_shelter; sa_stay; sa_risk_perception] m.

(** [phase_change_communication(self, phase)], lines 92-102; the [phase]
    argument is not used by the code. *)
Definition phase_change_communication (i : nat) (phase_arg : nat) m : res (Model G) :=
  a ← self_of m i;
  let acq := acquaintances (ind_params a) in
  let c := m_cfg m in
  if decide (length acq = 0%nat) then Ok m else
  Ok (fold_left (fun m j => upd j (fun b => add_attr b social_perception (phase_change_factor c)) m)
        acq m).

(** The bump an acquaintance receives from an agent implementing action [x]. *)
Definition acquaintance_bump (c : Config) (x : Action) (b : Individual) : Individual :=
  add_attr (add_attr b (action_attr x) (action_comm_value c))
    immediacy_cum (action_comm_value_imm c).

(** The bump a spatial neighbour receives from an evacuating agent. *)
Definition neighbour_bump (c : Config) (b : Individual) : Individual :=
  add_attr (add_attr (add_attr (add_attr b evac_friends (action_comm_value c))
    evac_hotel (action_comm_value c)) evac_shelter (action_comm_value c))
    immediacy_cum (action_comm_value_imm c).

(** [preferred_evac in ["evac_hotel", "evac_friends", "evac_shelter"]]. *)
Definition is_evacuation (x : Action) : bool :=
  match x with act_stay => false | _ => true end.

(** [Protective_Action_Implementation_communication], lines 206-226.
    Reading [self.preferred_evac] before it was assigned raises
    [AttributeError]. *)
Definition Protective_Action_Implementation_communication (i : nat) m : res (Model G) :=
  a ← self_of m i;
  x ← from_option Ok (Err AttributeError) (preferred_evac a);
  let c := m_cfg m in
  let m := fold_left (fun m j => upd j (acquaintance_bump c x) m)
             (acquaintances (ind_params a)) m in
  if is_evacuation x
  then Ok (fold_left (fun m j => upd j (neighbour_bump c) m) (neigh_individuals (ind_params a)) m)
  else Ok m.

(** ** Generic lemmas on in-place broadcasts *)

(** Broadcasting [op] to the ids of [l], in order, applies it to agent [j]
    as many times as [j] occurs in [l]. *)
Lemma fold_upd_lookup (op : Individual -> Individual) (l : list nat) m j :
  m_store (fold_left (fun m k => upd k op m) l m) !! j =
  Nat.iter (count_occ Nat.eq_dec l j) op <$> m_store m !! j.
Proof.
  revert m. induction l as [|k l IH]; intros m; simpl.
  - by destruct (m_store m !! j).
  - rewrite IH. unfold upd. rewrite set_store_store, lookup_alter.
    destruct (Nat.eq_dec k j) as [->|Hne]; simpl.
    + rewrite decide_True by done. destruct (m_store m !! j); simpl; [|done].
      f_equal. symmetry. apply Nat.iter_succ_r.
    + by rewrite decide_False.
Qed.

Lemma fold_upd_frame (op : Individual -> Individual) (l : list nat) m :
  (forall a, same_shape a (op a)) -> frame m (fold_left (fun m k => upd k op m) l m).
Proof. intros Hop. apply fold_left_frame. intros m' k. by apply upd_frame. Qed.

(** The other fields of the model are untouched by a broadcast. *)
Lemma fold_upd_fields (op : Individual -> Individual) (l : list nat) m :
  set_store m (m_store (fold_left (fun m k => upd k op m) l m)) =
  fold_left (fun m k => upd k op m) l m.
Proof.
  revert m. induction l as [|k l IH]; intros m; simpl; [apply set_store_id|].
  rewrite <- IH. reflexivity.
Qed.

(** Iterating an additive bump of attribute [f] by [d]. *)
Lemma iter_bump_get (op : Individual -> Individual) (f : Attr) (d : Q) n a :
  (forall b, get (op b) f == get b f + d) ->
  get (Nat.iter n op a) f == get a f + inject_Z (Z.of_nat n) * d.
Proof.
  intros Hop. induction n as [|n IH]; simpl.
  - change (inject_Z 0) with 0. ring.
  - rewrite Hop, IH. rewrite Nat2Z.inj_succ, <- Z.add_1_r, inject_Z_plus.
    change (inject_Z 1) with 1. ring.
Qed.

Lemma get_add_attr b f g v :
  get (add_attr b f v) g = if decide (g = f) then get b f + v else get b g.
Proof. reflexivity. Qed.

End Diffusion.

Section DiffusionTheorems.
Context {G : Type}.
Implicit Types m : Model G.

(** The averaged value [(own + comm_sum) / 2] of [general_communication]
    equals [own] because [comm_sum] is the mean of [n] copies of [own]. *)
Lemma own_mean_eq (own : Q) (acq : list nat) :
  length acq <> 0%nat ->
  qsum (map (fun _ => own) acq) / inject_Z (Z.of_nat (length acq)) == own.
Proof.
  intros Hn. rewrite qsum_const. field.
  intros H. pose proof (inject_nat_pos (length acq) ltac:(lia)). lra.
Qed.

(** Whatever [general_communication] returns equals its input up to [==]. *)
Lemma general_communication_Ok_equiv attribute i m m' :
  general_communication attribute i m = Ok m' -> m' ≡ m.
Proof.
  unfold general_communication, self_of. intros H.
  destruct (m_store m !! i) as [a|] eqn:Ha; [|done]. cbn in H.
  case_decide as Hn; injection H as <-; [done|].
  apply upd_equiv. intros a' Ha'. rewrite Ha in Ha'. injection Ha' as <-.
  apply set_attr_same. rewrite own_mean_eq by done. field.
Qed.

(** It raises only when the agent is missing. *)
Lemma general_communication_total attribute i m :
  is_Some (m_store m !! i) -> exists m', general_communication attribute i m = Ok m'.
Proof.
  intros [a Ha]. unfold general_communication, self_of. rewrite Ha. cbn.
  case_decide; eauto.
Qed.

(** C6.  [general_communication] never changes the model: the mean it
    computes is the mean of the agent's own value repeated once per
    acquaintance, so the new value [own + coeff * (own - (own+own)/2)]
    equals [own] whatever the coefficient and the acquaintances' values.
    Attribute diffusion between agents does not happen. *)
Theorem general_communication_noop attribute i m :
  is_Some (m_store m !! i) ->
  exists m', general_communication attribute i m = Ok m' /\ m' ≡ m.
Proof.
  intros Hi. destruct (general_communication_total attribute i m Hi) as [m' Hm].
  exists m'. split; [done|]. by eapply general_communication_Ok_equiv.
Qed.

Lemma general_communication_frame attribute i m m' :
  general_communication attribute i m = Ok m' -> frame m m'.
Proof.
  unfold general_communication. intros (a & _ & H)%bind_Ok.
  case_decide; injection H as <-; [reflexivity|]. apply upd_frame. auto with evac.
Qed.

(** [action_communication], the alternative of every Deciding agent
    that does not act, leaves the model unchanged up to [==]. *)
Theorem action_communication_noop i m :
  is_Some (m_store m !! i) ->
  exists m', action_communication i m = Ok m' /\ m' ≡ m.
Proof.
  intros Hi. unfold action_communication.
  generalize [sa_evac_friends; sa_evac_hotel; sa_evac_shelter; sa_stay; sa_risk_perception].
  intros l. revert m Hi. induction l as [|x l IH]; intros m Hi; simpl; [by eexists|].
  destruct (general_communication_total x i m Hi) as [m1 Hm1].
  pose proof (general_communication_Ok_equiv _ _ _ _ Hm1) as [H1 H1']. rewrite Hm1. simpl.
  destruct (IH m1) as (m2 & -> & H2).
  { pose proof (proj1 (map_equiv_iff _ _) H1' i) as Hl. destruct Hi as [a Ha].
    rewrite Ha in Hl. inversion Hl. by eexists. }
  eexists; split; [done|]. etrans; [apply H2|]. done.
Qed.

Lemma action_communication_frame i m m' :
  action_communication i m = Ok m' -> frame m m'.
Proof.
  apply fold_res_frame. intros m1 x m2. apply general_communication_frame.
Qed.

Lemma phase_change_communication_frame i ph m m' :
  phase_change_communication i ph m = Ok m' -> frame m m'.
Proof.
  unfold phase_change_communication. intros Hm. res_inv; subst; [reflexivity|].
  apply fold_upd_frame. auto with evac.
Qed.

Lemma Protective_Action_Implementation_communication_frame i m m' :
  Protective_Action_Implementation_communication i m = Ok m' -> frame m m'.
Proof.
  unfold Protective_Action_Implementation_communication. intros Hm. res_inv; subst.
  - etrans; apply fold_upd_frame; intros; done.
  - apply fold_upd_frame; intros; done.
Qed.

Lemma is_evacuation_not_stay x : x <> act_stay -> is_evacuation x = true.
Proof. by destruct x. Qed.

(** What one broadcast adds to each attribute of an acquaintance, resp. of
    a spatial neighbour, of an agent implementing action [x]. *)
Definition acq_delta (c : Config) (x : Action) (f : Attr) : Q :=
  (if decide (f = action_attr x) then action_comm_value c else 0) +
  (if decide (f = immediacy_cum) then action_comm_value_imm c else 0).

Definition neigh_delta (c : Config) (f : Attr) : Q :=
  match f with
  | evac_friends | evac_hotel | evac_shelter => action_comm_value c
  | immediacy_cum => action_comm_value_imm c
  | _ => 0
  end.

Definition count_in (l : list nat) (j : nat) : Q :=
  inject_Z (Z.of_nat (count_occ Nat.eq_dec l j)).

Lemma acquaintance_bump_get c x b f :
  get (acquaintance_bump c x b) f == get b f + acq_delta c x f.
Proof.
  unfold acquaintance_bump, acq_delta, action_attr. rewrite !get_add_attr.
  destruct x; cbn [action_shared shared_attr]; destruct f;
    repeat case_decide; try congruence; ring.
Qed.

Lemma neighbour_bump_get c b f : get (neighbour_bump c b) f == get b f + neigh_delta c f.
Proof.
  unfold neighbour_bump. rewrite !get_add_attr.
  destruct f; simpl; repeat case_decide; try congruence; ring.
Qed.

Lemma acquaintance_bump_shape c x b : same_shape b (acquaintance_bump c x b).
Proof. done. Qed.

Lemma neighbour_bump_shape c b : same_shape b (neighbour_bump c b).
Proof. done. Qed.

Lemma social_bump_get (v : Q) b f :
  get (add_attr b social_perception v) f ==
  get b f + (if decide (f = social_perception) then v else 0).
Proof. rewrite get_add_attr. case_decide; subst; ring. Qed.

(** [phase_change_communication] adds [phase_change_factor] to the
    [social_perception] of each acquaintance, once per occurrence in the
    acquaintance list, and changes nothing else; the amount does not
    depend on the phase argument the caller passes. *)
Theorem phase_change_communication_spec i ph m a :
  m_store m !! i = Some a ->
  exists m', phase_change_communication i ph m = Ok m' /\ frame m m' /\
  forall j b, m_store m !! j = Some b ->
    exists b', m_store m' !! j = Some b' /\ forall f,
      get b' f == get b f + (if decide (f = social_perception)
                             then count_in (acquaintances (ind_params a)) j
                                  * phase_change_factor (m_cfg m) else 0).
Proof.
  intros Ha. unfold phase_change_communication, self_of. rewrite Ha. simpl.
  case_decide as Hn.
  - eexists; split; [done|]. split; [reflexivity|]. intros j b Hb. exists b. split; [done|].
    destruct (acquaintances (ind_params a)); [|done]. intros f.
    unfold count_in. cbn [count_occ]. change (inject_Z (Z.of_nat 0)) with 0.
    case_decide; ring.
  - eexists; split; [done|]. split; [apply fold_upd_frame; auto with evac|].
    intros j b Hb. rewrite fold_upd_lookup, Hb. eexists; split; [done|]. intros f.
    rewrite (iter_bump_get _ f (if decide (f = social_perception)
                                then phase_change_factor (m_cfg m) else 0))
      by (intros; apply social_bump_get).
    unfold count_in. case_decide; ring.
Qed.

(** C8.  [Protective_Action_Implementation_communication] of an agent that
    has not chosen an action ([preferred_evac] is [None]) raises the
    [AttributeError] of [self.preferred_evac.name]; for an agent whose
    preferred action is [x] it adds [acq_delta x] to each acquaintance (the
    propensity of [x] and [immediacy_cum]) and, when [x] is an evacuation,
    [neigh_delta] to each spatial neighbour (the three evacuation
    propensities and [immediacy_cum], never [stay]), once per occurrence
    in the respective list; nothing else changes. *)
Theorem Protective_Action_Implementation_communication_spec i m a :
  m_store m !! i = Some a ->
  (preferred_evac a = None ->
   Protective_Action_Implementation_communication i m = Err AttributeError) /\
  (forall x, preferred_evac a = Some x ->
    exists m', Protective_Action_Implementation_communication i m = Ok m' /\ frame m m' /\
    forall j b, m_store m !! j = Some b ->
      exists b', m_store m' !! j = Some b' /\ forall f,
        get b' f == get b f
          + count_in (acquaintances (ind_params a)) j * acq_delta (m_cfg m) x f
          + (if decide (x = act_stay) then 0
             else count_in (neigh_individuals (ind_params a)) j * neigh_delta (m_cfg m) f)).
Proof.
  intros Ha. unfold Protective_Action_Implementation_communication, self_of.
  rewrite Ha. simpl. split; [by intros ->|]. intros x Hx. rewrite Hx. simpl. unfold count_in.
  assert (Hacq : forall j' f b', get (Nat.iter (count_occ Nat.eq_dec (acquaintances (ind_params a)) j')
                  (acquaintance_bump (m_cfg m) x) b') f == get b' f
                  + count_in (acquaintances (ind_params a)) j' * acq_delta (m_cfg m) x f)
    by (intros; apply iter_bump_get; intros; apply acquaintance_bump_get).
  destruct (decide (x = act_stay)) as [->|Hs]; [|rewrite (is_evacuation_not_stay x Hs)];
    cbn [is_evacuation].
  - eexists; split; [done|]. split; [apply fold_upd_frame; auto using acquaintance_bump_shape|].
    intros j b Hb. rewrite fold_upd_lookup, Hb. eexists; split; [done|]. intros f.
    rewrite (Hacq j). unfold count_in. ring.
  - eexists; split; [done|]. split.
    { etrans; apply fold_upd_frame; auto using acquaintance_bump_shape, neighbour_bump_shape. }
    intros j b Hb. rewrite !fold_upd_lookup, Hb. eexists; split; [done|]. intros f.
    rewrite (iter_bump_get _ f (neigh_delta (m_cfg m) f)) by (intros; apply neighbour_bump_get).
    rewrite (Hacq j). unfold count_in. ring.
Qed.

End DiffusionTheorems.

(** A sample population: agent 0 knows agents 1 and 2 and prefers a hotel;
    1 and 2 know agent 0; agent 2 is everybody's spatial neighbour. *)
Definition sample_agent (acq : list nat) (a : Individual) : Individual :=
  let p := ind_params sample_individual in
  mkIndividual (mkParams (unique_id p) (factor_values p) (weight_values p)
                 (media_trust p) (media_freq p) acq [2%nat] (rain p) (wind p)
                 (storm_surge p) (RI_thresh p) (RA_thresh p) (env_weight p))
    (attrs a) (phase a) (immediacy a) (preferred_evac a).

Definition sample_agent0 : Individual :=
  sample_agent [1; 2]%nat (set_preferred (add_attr sample_individual risk_perception (1#3))
                             act_evac_hotel).

Definition sample_store : gmap nat Individual :=
  <[0%nat := sample_agent0]>
  (<[1%nat := sample_agent [0]%nat (add_attr sample_individual risk_perception (9#10))]>
  (<[2%nat := sample_agent [0]%nat sample_individual]> ∅)).

Definition sample_model : Model unit :=
  mkModel default_config sample_store [0; 1; 2]%nat 1 zero_counters
    (mkPhaseCounts 0 0 0) (Some 0) true [] tt.

Lemma general_communication_noop_witness :
  exists m' : Model unit, general_communication sa_risk_perception 0 sample_model = Ok m' /\
             m' ≡ sample_model.
Proof. apply general_communication_noop. by eexists. Defined.

Lemma action_communication_noop_witness :
  exists m' : Model unit, action_communication 1 sample_model = Ok m' /\ m' ≡ sample_model.
Proof. apply action_communication_noop. by eexists. Defined.

Lemma phase_change_communication_spec_witness :
  exists m', phase_change_communication 0 1 sample_model = Ok m' /\ frame sample_model m' /\
  forall j b, m_store sample_model !! j = Some b ->
    exists b', m_store m' !! j = Some b' /\ forall f,
      get b' f == get b f + (if decide (f = social_perception)
                             then count_in (acquaintances (ind_params sample_agent0)) j
                                  * phase_change_factor (m_cfg sample_model) else 0).
Proof. apply phase_change_communication_spec. reflexivity. Defined.

Lemma Protective_Action_Implementation_communication_spec_witness :
  Protective_Action_Implementation_communication 1 sample_model = Err AttributeError /\
  exists m', Protective_Action_Implementation_communication 0 sample_model = Ok m' /\
  frame sample_model m' /\
  forall j b, m_store sample_model !! j = Some b ->
    exists b', m_store m' !! j = Some b' /\ forall f,
      get b' f == get b f
        + count_in (acquaintances (ind_params sample_agent0)) j
          * acq_delta (m_cfg sample_model) act_evac_hotel f
        + (if decide (act_evac_hotel = act_stay) then 0
           else count_in (neigh_individuals (ind_params sample_agent0)) j
                * neigh_delta (m_cfg sample_model) f).
Proof.
  split.
  - apply (Protective_Action_Implementation_communication_spec 1 sample_model _ eq_refl).
    reflexivity.
  - apply (Protective_Action_Implementation_communication_spec 0 sample_model _ eq_refl).
    reflexivity.
Defined.
