(* ===== verification/AgentStep.v ===== *)
(** * AgentStep: the phase handlers and [Individual.step] (src/Agent.py)

    [step] runs the self-only preamble (Individual.v), then exactly one
    handler chosen by the agent's phase, then [general_communication] of
    risk perception:
    - Unaware ([risk_identification]): if [risk_perception >= RI_thresh],
      tell the acquaintances and become Aware;
    - Aware ([risk_assessment]): if [risk_perception > RA_thresh], tell the
      acquaintances, ask the classifier for the action probabilities
      ([protective_action_search]) and become Deciding; otherwise diffuse
      risk perception;
    - Deciding ([protective_action_assessment]): [prob_action] is the
      immediacy [min(1, immediacy_cum + immediacy_base)]; if it exceeds the
      minimum and a uniform draw is below it, broadcast the action, become
      Acted, count the choice and leave the schedule; otherwise diffuse
      the five shared attributes;
    - Acted: nothing.

    [step_effect] is the abstract contract of one agent step that the
    scheduler relies on: only the stepping agent's phase may change, by
    one stage; the choice counters and the live set change exactly when it
    goes from Deciding to Acted. [step_refines] proves that [step]
    implements it. *)

From S2P Require Import Prelude Config Individual Population Diffusion.

(** [max(d, key=d.get)] over the dict in insertion order: the first key
    whose value is not exceeded by a later one. *)
Fixpoint py_max_key (best : Action * Q) (l : list (Action * Q)) : Action :=
  match l with
  | [] => fst best
  | (k, v) :: t => if Qlt_bool (snd best) v then py_max_key (k, v) t else py_max_key best t
  end.

Definition phase_succ (p : Phase) : Phase :=
  match p with Unaware => Aware | Aware => Deciding | Deciding => Acted | Acted => Acted end.

Section AgentStep.
Context {G : Type} `{RandomSource G} `{Classifier}.
Implicit Types m : Model G.

(** [self.calc_risk_perception()] on agent [i]. *)
Definition calc_risk_perception_op (i : nat) m : Model G :=
  upd i (calc_risk_perception (m_cfg m)) m.

(** [self.remove()]: Mesa deregisters the agent from [model.agents]. *)
Definition remove_agent (i : nat) m : Model G :=
  set_agents m (filter (fun j => j <> i) (m_agents m)).

(** [risk_identification], lines 129-139. *)
Definition risk_identification (i : nat) m : res (Model G) :=
  let m := calc_risk_perception_op i m in
  a ← self_of m i;
  if Qle_bool (RI_thresh (ind_params a)) (get a risk_perception) then
    m ← phase_change_communication i 1 m;
    Ok (upd i (fun b => set_phase b Aware) m)
  else Ok m.

(** [protective_action_search], lines 158-169: the four probabilities are
    unpacked from the classifier's first row (a row of another length
    raises [ValueError]) and the arg-max is cached. *)
Definition protective_action_search (i : nat) m : res (Model G) :=
  a ← self_of m i;
  match predict_proba (factor_values (ind_params a)) with
  | [pf; ph; ps; pst] =>
      let x := py_max_key (act_evac_friends, pf)
                 [(act_evac_hotel, ph); (act_evac_shelter, ps); (act_stay, pst)] in
      Ok (upd i (fun b => set_preferred (set_attr (set_attr (set_attr (set_attr b
                  evac_friends pf) evac_hotel ph) evac_shelter ps) stay pst) x) m)
  | _ => Err ValueError
  end.

(** [risk_assessment], lines 141-155. *)
Definition risk_assessment (i : nat) m : res (Model G) :=
  let m := calc_risk_perception_op i m in
  a ← self_of m i;
  if Qlt_bool (RA_thresh (ind_params a)) (get a risk_perception) then
    m ← phase_change_communication i 2 m;
    m ← protective_action_search i m;
    Ok (upd i (fun b => set_phase b Deciding) m)
  else general_communication sa_risk_perception i m.

(** The commitment of lines 187-198: broadcast, phase 3, counters, removal. *)
Definition commit_action (i : nat) m : res (Model G) :=
  m ← Protective_Action_Implementation_communication i m;
  let m := upd i (fun b => set_phase b Acted) m in
  a ← self_of m i;
  x ← from_option Ok (Err AttributeError) (preferred_evac a);
  Ok (remove_agent i (set_counts m (record_choice x (m_counts m)))).

(** [protective_action_assessment], lines 172-202.  [prob_action] starts at
    0, is capped by [min(1, .)] and then gets the immediacy added. *)
Definition protective_action_assessment (i : nat) m : res (Model G) :=
  a ← self_of m i;
  let imm := py_min 1 (get a immediacy_cum + get a immediacy_base) in
  let m := upd i (fun b => set_immediacy b imm) m in
  let m := calc_risk_perception_op i m in
  let prob_action := py_min 1 0 + imm in
  if Qlt_bool (min_probability_threshold (m_cfg m)) prob_action then
    let '(r, g) := rs_random (m_rng m) in
    let m := set_rng m g in
    if Qlt_bool r prob_action then commit_action i m
    else action_communication i m
  else action_communication i m.

(** [phase_methods.get(self.phase)]. *)
Definition dispatch (p : Phase) (i : nat) m : res (Model G) :=
  match p with
  | Unaware => risk_identification i m
  | Aware => risk_assessment i m
  | Deciding => protective_action_assessment i m
  | Acted => Ok m
  end.

(** [step], lines 228-272. *)
Definition step (i : nat) m : res (Model G) :=
  m ← upd_res i (step_preamble (m_cfg m) (m_steps m)) m;
  a ← self_of m i;
  m ← dispatch (phase a) i m;
  general_communication sa_risk_perception i m.

End AgentStep.

(** ** The contract of one agent step *)

Section StepContract.
Context {G : Type}.
Implicit Types m : Model G.

(** The parts of the model an agent step never touches. *)
Definition same_globals m m' : Prop :=
  m_cfg m' = m_cfg m /\ m_steps m' = m_steps m /\ m_phases m' = m_phases m /\
  m_average_evac_time m' = m_average_evac_time m /\ m_running m' = m_running m /\
  m_evac_history m' = m_evac_history m.

(** Agent [j]'s phase goes from [p] to [q] in a step of agent [i]. *)
Definition phase_rel (i j : nat) (p q : Phase) : Prop :=
  q = p \/ (j = i /\ p <> Acted /\ q = phase_succ p).

(** The same agents with the same parameters, phases related by [R]. *)
Definition store_phases (R : nat -> Phase -> Phase -> Prop) (s s' : gmap nat Individual) : Prop :=
  forall j, option_Forall2 (fun a b => ind_params b = ind_params a /\ R j (phase a) (phase b))
              (s !! j) (s' !! j).

Definition became_acted (i : nat) m m' : Prop :=
  exists a a', m_store m !! i = Some a /\ m_store m' !! i = Some a' /\
               phase a = Deciding /\ phase a' = Acted.

Definition acted_stable (i : nat) m m' : Prop :=
  forall a a', m_store m !! i = Some a -> m_store m' !! i = Some a' ->
               phase a' = Acted -> phase a = Acted.

Record step_effect (i : nat) m m' : Prop := {
  se_globals : same_globals m m';
  se_store : store_phases (phase_rel i) (m_store m) (m_store m');
  se_live : (m_counts m' = m_counts m /\ m_agents m' = m_agents m /\ acted_stable i m m') \/
            (became_acted i m m' /\
             exists x, m_counts m' = record_choice x (m_counts m) /\
                       m_agents m' = filter (fun j => j <> i) (m_agents m))
}.

Lemma self_of_Ok m i a : self_of m i = Ok a <-> m_store m !! i = Some a.
Proof. unfold self_of. destruct (m_store m !! i); split; congruence. Qed.

Lemma frame_lookup m m' i a :
  frame m m' -> m_store m !! i = Some a ->
  exists a', m_store m' !! i = Some a' /\ ind_params a' = ind_params a /\ phase a' = phase a.
Proof.
  intros (s' & -> & Hs) Ha. specialize (Hs i). rewrite Ha in Hs.
  destruct (option_Forall2_Some_l _ _ _ Hs) as (a' & ? & [? ?]). by exists a'.
Qed.

Lemma frame_lookup_rev m m' i a' :
  frame m m' -> m_store m' !! i = Some a' ->
  exists a, m_store m !! i = Some a /\ ind_params a' = ind_params a /\ phase a' = phase a.
Proof.
  intros (s' & -> & Hs) Ha. specialize (Hs i). simpl in Ha. rewrite Ha in Hs.
  destruct (option_Forall2_Some_r _ _ _ Hs) as (a & ? & [? ?]). by exists a.
Qed.

Lemma frame_effect i m m' : frame m m' -> step_effect i m m'.
Proof.
  intros Hf. pose proof Hf as (s' & -> & Hs). split.
  - by repeat split.
  - intros j. apply (option_Forall2_impl _ _ _ _ (Hs j)). intros a b [Hp Hph].
    split; [done|]. by left.
  - left. split; [done|]. split; [done|]. intros a a' Ha Ha' Hact.
    destruct (frame_lookup _ _ _ _ Hf Ha) as (b & Hb & _ & Hph). simpl in *. congruence.
Qed.

Lemma frame_step_effect i m m1 m2 :
  frame m m1 -> step_effect i m1 m2 -> step_effect i m m2.
Proof.
  intros Hf [Hg Hs Hl]. pose proof Hf as (s1 & -> & Hs1). split.
  - destruct Hg as (?&?&?&?&?&?). by repeat split.
  - intros j. eapply option_Forall2_compose; [apply Hs1|apply Hs|].
    intros x y z [Hp Hph] [Hp' HR]. rewrite Hph. split; congruence.
  - destruct Hl as [(Hc & Ha & Hst)|((a1 & a2 & Ha1 & Ha2 & Hp1 & Hp2) & Hx)]; [left|right].
    + split; [done|]. split; [done|]. intros a a' Ha0 Ha' Hact.
      destruct (frame_lookup _ _ _ _ Hf Ha0) as (b & Hb & _ & Hph).
      rewrite <- Hph. by eapply Hst.
    + split; [|done]. destruct (frame_lookup_rev _ _ _ _ Hf Ha1) as (a0 & Ha0 & _ & Hph).
      exists a0, a2. split; [done|]. split; [done|]. split; [congruence|done].
Qed.

Lemma step_effect_frame i m m1 m2 :
  step_effect i m m1 -> frame m1 m2 -> step_effect i m m2.
Proof.
  intros [Hg Hs Hl] Hf. pose proof Hf as (s2 & -> & Hs2). split.
  - destruct Hg as (?&?&?&?&?&?). by repeat split.
  - intros j. eapply option_Forall2_compose; [apply Hs|apply Hs2|].
    intros x y z [Hp HR] [Hp' Hph]. rewrite <- Hph. split; congruence.
  - destruct Hl as [(Hc & Ha & Hst)|((a1 & a2 & Ha1 & Ha2 & Hp1 & Hp2) & Hx)]; [left|right].
    + split; [done|]. split; [done|]. intros a a' Ha0 Ha' Hact.
      destruct (frame_lookup_rev _ _ _ _ Hf Ha') as (b & Hb & _ & Hph).
      eapply Hst; [done|done|]. congruence.
    + split; [|done]. destruct (frame_lookup _ _ _ _ Hf Ha2) as (a3 & Ha3 & _ & Hph).
      exists a1, a3. split; [done|]. split; [done|]. split; [done|congruence].
Qed.

Lemma step_effect_rng i m m1 g : step_effect i m m1 -> step_effect i m (set_rng m1 g).
Proof. intros [Hg Hs Hl]. by split. Qed.

(** Moving agent [i] one stage forward to a phase other than Acted. *)
Lemma advance_effect i m a q :
  m_store m !! i = Some a -> q = phase_succ (phase a) -> q <> Acted ->
  step_effect i m (upd i (fun b => set_phase b q) m).
Proof.
  intros Ha Hq Hna. split.
  - by repeat split.
  - intros j. simpl. rewrite lookup_alter. case_decide as Hij; [subst j|].
    + rewrite Ha. constructor. split; [done|]. right. split; [done|].
      split; [|done]. intros Hact. rewrite Hact in Hq. by subst.
    + destruct (m_store m !! j); constructor. split; [done|]. by left.
  - left. split; [done|]. split; [done|]. intros a0 a' Ha0 Ha' Hact.
    simpl in Ha'. rewrite lookup_alter_eq, Ha0 in Ha'. injection Ha' as <-. simpl in Hact.
    congruence.
Qed.

End StepContract.

Section StepRefinement.
Context {G : Type} `{RandomSource G} `{Classifier}.
Implicit Types m : Model G.

Lemma step_effect_refl i m : step_effect i m m.
Proof. apply frame_effect. reflexivity. Qed.

(** A change of the generator state is invisible to the contract. *)
Lemma rng_step_effect i m g m' : step_effect i (set_rng m g) m' -> step_effect i m m'.
Proof. intros [Hg Hs Hl]. by split. Qed.

Lemma upd_res_frame i f m m' :
  (forall a a', f a = Ok a' -> ind_params a' = ind_params a /\ phase a' = phase a) ->
  upd_res i f m = Ok m' -> frame m m'.
Proof.
  intros Hf Hm. unfold upd_res in Hm. res_inv. subst m'.
  apply self_of_Ok in H1.
  eexists; split; [reflexivity|]. intros j. rewrite lookup_insert.
  case_decide as Hij; [subst j|reflexivity]. rewrite H1. constructor.
  destruct (Hf _ _ H2). split; done.
Qed.

Lemma calc_risk_perception_op_frame i m : frame m (calc_risk_perception_op i m).
Proof. apply upd_frame. intros; done. Qed.

Lemma protective_action_search_frame i m m' :
  protective_action_search i m = Ok m' -> frame m m'.
Proof.
  unfold protective_action_search. intros Hm. res_inv.
  destruct (predict_proba _) as [|? [|? [|? [|? []]]]]; try discriminate.
  injection Hm as <-. apply upd_frame. intros; done.
Qed.

Lemma commit_action_effect i m m' a :
  m_store m !! i = Some a -> phase a = Deciding -> commit_action i m = Ok m' ->
  step_effect i m m'.
Proof.
  intros Ha Hp Hm. unfold commit_action in Hm. res_inv. subst m'.
  rename x into m1. apply Protective_Action_Implementation_communication_frame in H1 as F.
  destruct (frame_lookup _ _ _ _ F Ha) as (a1 & Ha1 & _ & Hp1).
  apply (frame_step_effect _ _ _ _ F). split.
  - by repeat split.
  - intros j. simpl. rewrite lookup_alter. case_decide as Hij; [subst j|].
    + rewrite Ha1. constructor. split; [done|]. right. rewrite Hp1, Hp. done.
    + destruct (m_store m1 !! j); constructor. split; [done|]. by left.
  - right. split.
    + exists a1, (set_phase a1 Acted). simpl. rewrite lookup_alter_eq, Ha1.
      split; [done|]. split; [done|]. split; [congruence|done].
    + eexists. split; reflexivity.
Qed.

Lemma risk_identification_effect i m m' a :
  m_store m !! i = Some a -> phase a = Unaware -> risk_identification i m = Ok m' ->
  step_effect i m m'.
Proof.
  intros Ha Hp Hm. unfold risk_identification in Hm.
  pose proof (calc_risk_perception_op_frame i m) as F1. res_inv; subst m'.
  - apply phase_change_communication_frame in H2 as F2.
    destruct (frame_lookup _ _ _ _ (transitivity F1 F2) Ha) as (a2 & Ha2 & _ & Hp2).
    apply (frame_step_effect _ _ _ _ (transitivity F1 F2)).
    apply (advance_effect _ _ a2); [done| |done]. by rewrite Hp2, Hp.
  - by apply frame_effect.
Qed.

Lemma risk_assessment_effect i m m' a :
  m_store m !! i = Some a -> phase a = Aware -> risk_assessment i m = Ok m' ->
  step_effect i m m'.
Proof.
  intros Ha Hp Hm. unfold risk_assessment in Hm.
  pose proof (calc_risk_perception_op_frame i m) as F1. res_inv.
  - subst m'. apply phase_change_communication_frame in H2 as F2.
    apply protective_action_search_frame in H3 as F3.
    pose proof (transitivity F1 (transitivity F2 F3)) as F.
    destruct (frame_lookup _ _ _ _ F Ha) as (a3 & Ha3 & _ & Hp3).
    apply (frame_step_effect _ _ _ _ F).
    apply (advance_effect _ _ a3); [done| |done]. by rewrite Hp3, Hp.
  - apply frame_effect. etrans; [apply F1|]. by eapply general_communication_frame.
Qed.

Lemma protective_action_assessment_effect i m m' a :
  m_store m !! i = Some a -> phase a = Deciding -> protective_action_assessment i m = Ok m' ->
  step_effect i m m'.
Proof.
  intros Ha Hp Hm. unfold protective_action_assessment in Hm.
  apply bind_Ok in Hm as (x & H1 & Hm).
  set (m0 := upd i (fun b => set_immediacy b
               (py_min 1 (get x immediacy_cum + get x immediacy_base))) m) in *.
  set (m1 := calc_risk_perception_op i m0) in *.
  assert (F : frame m m1).
  { transitivity m0; [apply upd_frame; intros; done|apply calc_risk_perception_op_frame]. }
  apply (frame_step_effect _ _ _ _ F).
  destruct (Qlt_bool _ _).
  - destruct (rs_random (m_rng m1)) as [r g]. apply (rng_step_effect _ _ g).
    destruct (Qlt_bool r _) in Hm.
    + destruct (frame_lookup _ _ _ _ F Ha) as (a1 & Ha1 & _ & Hp1).
      eapply (commit_action_effect _ _ _ a1); [done|congruence|done].
    + apply frame_effect. by eapply action_communication_frame.
  - apply frame_effect. by eapply action_communication_frame.
Qed.

(** [step] implements the contract [step_effect]. *)
Lemma step_contract i m m' : step i m = Ok m' -> step_effect i m m'.
Proof.
  unfold step. intros Hm. res_inv. rename x into m1, x0 into a1, x1 into m2.
  apply upd_res_frame in H1 as F0; [|intros; by eapply step_preamble_shape].
  apply self_of_Ok in H2.
  apply (frame_step_effect _ _ _ _ F0). eapply step_effect_frame;
    [|by eapply general_communication_frame].
  destruct (phase a1) eqn:Hp; simpl in H3.
  - by eapply risk_identification_effect.
  - by eapply risk_assessment_effect.
  - by eapply protective_action_assessment_effect.
  - injection H3 as <-. apply step_effect_refl.
Qed.

(** C1.  Refinement: every successful [Individual.step] of agent [i]
    satisfies the contract [step_effect]: no other agent's phase changes,
    agent [i]'s phase advances by at most one stage, the static parameters
    of all agents and the model's globals are unchanged, and the choice
    counters and the live set change exactly when [i] goes from Deciding to
    Acted, by one recorded choice and the removal of [i]. *)
Theorem step_refines i m m' : step i m = Ok m' -> step_effect i m m'.
Proof. apply step_contract. Qed.

End StepRefinement.

(** ** The threshold check uses the previous tick's cue perception *)

Section Lag.
Context {G : Type} `{RandomSource G} `{Classifier}.
Implicit Types m : Model G.

(** An Unaware agent whose [risk_perception], recomputed at the start
    of its step from the [cue_perception] of its previous step, is below
    [RI_thresh] stays Unaware in this step, whatever cues this tick brings:
    [risk_identification] compares the threshold with that stale value and
    only afterwards recomputes [cue_perception].  (The spec's scenario has
    the agents become Aware at the tick whose cue first reaches the
    threshold; the code makes them Aware one tick later.) *)
Theorem step_unaware_uses_previous_cue i m m' a :
  m_store m !! i = Some a -> phase a = Unaware ->
  py_min (get a cue_perception + get a social_perception) 1 < RI_thresh (ind_params a) ->
  step i m = Ok m' ->
  exists a', m_store m' !! i = Some a' /\ phase a' = Unaware.
Proof.
  intros Ha Hp Hlt Hm. unfold step in Hm.
  apply bind_Ok in Hm as (m1 & H1 & Hm). apply bind_Ok in Hm as (a1 & H2 & Hm).
  apply bind_Ok in Hm as (m2 & H3 & Hm). apply general_communication_frame in Hm.
  unfold upd_res in H1. rewrite (proj2 (self_of_Ok _ _ _) Ha) in H1. simpl in H1.
  apply bind_Ok in H1 as (a0 & Hpre & H1). injection H1 as <-.
  apply self_of_Ok in H2. simpl in H2. rewrite lookup_insert_eq in H2. injection H2 as <-.
  destruct (step_preamble_shape _ _ _ _ Hpre) as [Hpar Hph].
  pose proof (step_preamble_risk _ _ _ _ Hpre) as Hrisk.
  rewrite Hph, Hp in H3. unfold dispatch, risk_identification in H3.
  apply bind_Ok in H3 as (a2 & H4 & H3). apply self_of_Ok in H4.
  simpl in H4. rewrite lookup_alter_eq, lookup_insert_eq in H4. injection H4 as <-.
  destruct (Qle_bool _ _) eqn:E; qbool.
  - exfalso. unfold calc_risk_perception in E.
    rewrite get_set_ne, Hrisk, set_attr_params, Hpar in E by discriminate. lra.
  - injection H3 as <-. destruct (frame_lookup _ _ i (calc_risk_perception (m_cfg m) a0) Hm)
      as (a' & Ha' & _ & Hph').
    + simpl. by rewrite lookup_alter_eq, lookup_insert_eq.
    + exists a'. split; [done|]. rewrite Hph'. simpl. congruence.
Qed.

End Lag.

(** ** Deterministic collaborators for examples *)

(** A generator that draws [(g mod 10) / 10] and shuffles by reversal. *)
Definition demo_source : RandomSource nat := {|
  rs_random g := (inject_Z (Z.of_nat (g mod 10)) / 10, S g);
  rs_shuffle l g := (rev l, g)
|}.

Lemma demo_source_laws : @RandomSourceLaws nat demo_source.
Proof.
  split.
  - intros g. change (fst (rs_random g)) with (inject_Z (Z.of_nat (g mod 10)) / 10).
    pose proof (Nat.mod_upper_bound g 10 ltac:(lia)).
    assert (0 <= inject_Z (Z.of_nat (g mod 10))) by (change 0 with (inject_Z 0); rewrite <- Zle_Qle; lia).
    assert (inject_Z (Z.of_nat (g mod 10)) <= 9) by (change 9 with (inject_Z 9); rewrite <- Zle_Qle; lia).
    split; [apply Qle_shift_div_l|apply Qlt_shift_div_r]; lra.
  - intros l g. simpl. symmetry. apply Permutation_rev.
Qed.

(** A classifier that always prefers the hotel. *)
Definition demo_classifier : Classifier := fun _ => [0.1; 0.5; 0.2; 0.2].

#[local] Existing Instances demo_source demo_classifier.

(** The spec's scenario agent: constant cues giving a cue perception of
    [0.18 * (0 + 25/18) = 0.25] every tick, no media, [RI_thresh = 0.2]. *)
Definition scenario_agent : Individual :=
  match Individual_init default_config 0 [] [1; 0; 1] [0.5; 0; 1]
          (repeat 0%Z 10) (repeat 0 40) (repeat (25#18) 100) (repeat 0 40) with
  | Ok a => a
  | Err _ => sample_individual
  end.

Definition scenario_model : Model nat :=
  mkModel default_config (<[0%nat := scenario_agent]> ∅) [0%nat] 1 zero_counters
    (mkPhaseCounts 0 0 0) (Some 0) true [] 0%nat.

Lemma step_unaware_uses_previous_cue_witness :
  exists m', step 0 scenario_model = Ok m' /\
    exists a', m_store m' !! 0%nat = Some a' /\ phase a' = Unaware.
Proof.
  eexists; split; [vm_compute; reflexivity|].
  apply (step_unaware_uses_previous_cue 0 scenario_model _ scenario_agent).
  - vm_compute. reflexivity.
  - vm_compute. reflexivity.
  - apply Qlt_bool_true. vm_compute. reflexivity.
  - vm_compute. reflexivity.
Defined.

Definition scenario_after_step : Model nat :=
  default scenario_model (res_to_option (step 0 scenario_model)).

Lemma step_refines_witness : step_effect 0 scenario_model scenario_after_step.
Proof. apply step_refines. vm_compute. reflexivity. Defined.

(** ** The choice of the preferred action *)

(** [py_max_key b l] is the first entry of [b :: l] with the largest value:
    every entry before it has a smaller value, none after it a larger one. *)
Lemma py_max_key_first_max (b : Action * Q) l :
  exists pre v post, b :: l = pre ++ (py_max_key b l, v) :: post /\
    Forall (fun e => snd e < v) pre /\ Forall (fun e => snd e <= v) post.
Proof.
  revert b. induction l as [|[k v] t IH]; intros b; cbn [py_max_key].
  - exists [], (snd b), []. destruct b. split_and!; [done|constructor|constructor].
  - destruct (Qlt_bool (snd b) v) eqn:E; qbool.
    + destruct (IH (k, v)) as (pre & v0 & post & Heq & Hpre & Hpost).
      assert (Hv : v <= v0).
      { destruct pre as [|e pre]; simplify_eq/=; [lra|]. inversion Hpre; cbn in *. lra. }
      exists (b :: pre), v0, post. rewrite Heq. split_and!; [done| |done].
      constructor; [lra|done].
    + destruct (IH b) as (pre & v0 & post & Heq & Hpre & Hpost).
      destruct pre as [|e pre]; cbn in Heq; injection Heq as Hb Ht.
      * assert (Hv0 : snd b = v0) by (rewrite Hb; reflexivity).
        exists [], v0, ((k, v) :: t). split_and!; [by rewrite Hb at 1|constructor|].
        rewrite Hv0 in E. constructor; [cbn; lra|by rewrite Ht].
      * subst e. exists (b :: (k, v) :: pre), v0, post. rewrite Ht at 1.
        split_and!; [done| |done].
        inversion Hpre; subst. constructor; [done|]. constructor; [cbn in *; lra|done].
Qed.

Section Search.
Context {G : Type} `{RandomSource G} `{Classifier}.
Implicit Types m : Model G.

(** C17.  [protective_action_search] stores the classifier's four
    probabilities in [evac_friends], [evac_hotel], [evac_shelter], [stay]
    and caches as [preferred_evac] the first of these actions, in this
    order, with the largest probability; a classifier row of another length
    raises [ValueError]. *)
Theorem protective_action_search_spec i m a :
  m_store m !! i = Some a ->
  match predict_proba (factor_values (ind_params a)) with
  | [pf; ph; ps; pst] =>
      exists m' a' x v pre post, protective_action_search i m = Ok m' /\
        m_store m' !! i = Some a' /\ preferred_evac a' = Some x /\
        get a' evac_friends = pf /\ get a' evac_hotel = ph /\
        get a' evac_shelter = ps /\ get a' stay = pst /\
        [(act_evac_friends, pf); (act_evac_hotel, ph); (act_evac_shelter, ps); (act_stay, pst)]
          = pre ++ (x, v) :: post /\
        Forall (fun e => snd e < v) pre /\ Forall (fun e => snd e <= v) post
  | _ => protective_action_search i m = Err ValueError
  end.
Proof.
  intros Ha. unfold protective_action_search. rewrite (proj2 (self_of_Ok m i a) Ha). cbn.
  destruct (predict_proba _) as [|pf [|ph [|ps [|pst [|]]]]]; try done.
  destruct (py_max_key_first_max (act_evac_friends, pf)
              [(act_evac_hotel, ph); (act_evac_shelter, ps); (act_stay, pst)])
    as (pre & v & post & Heq & Hpre & Hpost).
  eexists _, _, _, v, pre, post. split; [reflexivity|]. split.
  { unfold upd. rewrite set_store_store, lookup_alter, decide_True, Ha by done. reflexivity. }
  split_and!; try reflexivity; done.
Qed.

End Search.

Lemma protective_action_search_spec_witness :
  exists m' a' x v pre post, protective_action_search 0 scenario_model = Ok m' /\
    m_store m' !! 0%nat = Some a' /\ preferred_evac a' = Some x /\
    get a' evac_friends = 0.1 /\ get a' evac_hotel = 0.5 /\
    get a' evac_shelter = 0.2 /\ get a' stay = 0.2 /\
    [(act_evac_friends, 0.1); (act_evac_hotel, 0.5); (act_evac_shelter, 0.2); (act_stay, 0.2)]
      = pre ++ (x, v) :: post /\
    Forall (fun e => snd e < v) pre /\ Forall (fun e => snd e <= v) post.
Proof. exact (protective_action_search_spec 0 scenario_model scenario_agent eq_refl). Defined.
