(* ===== verification/Scheduler.v ===== *)
(** * Scheduler: [EvacuationDec.step] and the run loop (src/Model.py)

    One tick of the model: Mesa's wrapper increments [steps]; the phase
    histogram of the live agents is recorded; every live agent steps once,
    in an order drawn by [AgentSet.shuffle_do] from the model's generator,
    each step seeing the in-place effects of the earlier ones; at the last
    tick the mean evacuation time is computed from the collected per-tick
    counts and the run stops; at the watch or warning tick every live agent
    gets the government broadcast; the tick's evacuation count is collected
    and reset.  [run_model] is Mesa's [while self.running: self.step()].

    The theorems about a whole tick only use the contract [step_effect] of
    an agent step (AgentStep.v), through [step_refines]. *)

From S2P Require Import Prelude Config Individual Population Diffusion AgentStep.

(** Per-tick evacuation counts [n_t], [t = 0, 1, ...]:
    [sum((t + 1) * n for t, n in enumerate(evacs_per_step))]. *)
Fixpoint weighted_evacs (evacs : list nat) (t : nat) : nat :=
  match evacs with
  | [] => 0
  | n :: evacs' => (S t * n + weighted_evacs evacs' (S t))%nat
  end.

(** Lines 188-192: the mean tick of evacuation, or [None] when nobody
    evacuated. *)
Definition average_evac_time (evacs_per_step : list nat) : option Q :=
  let numerator := weighted_evacs evacs_per_step 0 in
  let denominator := sum_list evacs_per_step in
  if (0 <? denominator)%nat
  then Some (inject_Z (Z.of_nat numerator) / inject_Z (Z.of_nat denominator))
  else None.

(** [count(p)] over a list of phases. *)
Definition count_phase (p : Phase) (l : list Phase) : nat :=
  length (filter (fun q => q = p) l).

Inductive outcome (M : Type) :=
  | Finished (m : M)
  | Failed (e : PyErr)
  | OutOfFuel (m : M).
Arguments Finished {M} m.
Arguments Failed {M} e.
Arguments OutOfFuel {M} m.

Section Scheduler.
Context {G : Type} `{RandomSource G} `{Classifier}.
Implicit Types m : Model G.

(** The bump of one agent by a government announcement. *)
Definition government_bump (r im : Q) (b : Individual) : Individual :=
  add_attr (add_attr b social_perception r) immediacy_cum im.

(** [government_warning_communication], lines 164-173: every live agent. *)
Definition government_warning_communication (comm_value_risk comm_value_immediacy : Q) m
    : Model G :=
  fold_left (fun m j => upd j (government_bump comm_value_risk comm_value_immediacy) m)
    (m_agents m) m.

(** Lines 197-200.  The tropical watch passes [comm_watch_value_risk] as
    both arguments. *)
Definition tick_broadcast m : Model G :=
  let c := m_cfg m in
  if (Z.of_nat (m_steps m) =? trop_warning_step c)%Z then
    government_warning_communication (comm_watch_value_risk c) (comm_watch_value_risk c) m
  else if (Z.of_nat (m_steps m) =? model_evac_warning_step c)%Z then
    government_warning_communication (comm_warning_value_risk c) (comm_warning_value_imm c) m
  else m.

(** [self.agents.get("phase")]. *)
Definition agent_phases m : list Phase :=
  omap (fun j => phase <$> m_store m !! j) (m_agents m).

(** [self.agents.shuffle_do("step")]: a permutation of the live agents,
    each stepped once, in place. *)
Definition shuffle_do_step m : res (Model G) :=
  let '(order, g) := rs_shuffle (m_agents m) (m_rng m) in
  fold_res (fun m j => step j m) order (set_rng m g).

(** [step], lines 175-200, preceded by Mesa's [self.steps += 1]: the
    phase histogram, [shuffle_do], the final statistic and the government
    broadcasts.  The result is the model [datacollector.collect(self)]
    sees. *)
Definition step_to_collect m : res (Model G) :=
  let m := set_steps m (S (m_steps m)) in
  let ph := agent_phases m in
  let m := set_phases m (mkPhaseCounts (count_phase Unaware ph) (count_phase Aware ph)
                                       (count_phase Deciding ph)) in
  m ← shuffle_do_step m;
  let m := if (m_steps m =? number_of_steps (m_cfg m))%nat
           then set_finished m (average_evac_time (m_evac_history m)) else m in
  Ok (tick_broadcast m).

(** Lines 203-206: the collection of the tick's evacuations (the series
    the final statistic reads back) and the reset of [evaced_agents]. *)
Definition collect_and_reset m : Model G :=
  let m := set_history m (m_evac_history m ++ [evaced_agents (m_counts m)]) in
  set_counts m (reset_evaced (m_counts m)).

(** [step], lines 175-206. *)
Definition model_step m : res (Model G) :=
  m ← step_to_collect m;
  Ok (collect_and_reset m).

(** [run_model]: [while self.running: self.step()], with fuel. *)
Fixpoint run_model (fuel : nat) m : outcome (Model G) :=
  if m_running m then
    match fuel with
    | O => OutOfFuel m
    | S fuel' => match model_step m with
                 | Ok m' => run_model fuel' m'
                 | Err e => Failed e
                 end
    end
  else Finished m.

End Scheduler.

Lemma model_step_unfold {G} `{RandomSource G} `{Classifier} (m : Model G) :
  model_step m =
    (let m := set_steps m (S (m_steps m)) in
     let ph := agent_phases m in
     let m := set_phases m (mkPhaseCounts (count_phase Unaware ph) (count_phase Aware ph)
                                          (count_phase Deciding ph)) in
     m ← shuffle_do_step m;
     let m := if (m_steps m =? number_of_steps (m_cfg m))%nat
              then set_finished m (average_evac_time (m_evac_history m)) else m in
     let m := tick_broadcast m in
     let m := set_history m (m_evac_history m ++ [evaced_agents (m_counts m)]) in
     Ok (set_counts m (reset_evaced (m_counts m)))).
Proof. unfold model_step, step_to_collect. cbv zeta. by destruct (shuffle_do_step _). Qed.

(** ** The live-set invariant *)

(** The ids of the agents that have acted. *)
Definition acted_ids (s : gmap nat Individual) : gset nat :=
  dom (filter (fun kv : nat * Individual => phase kv.2 = Acted) s).

Section LiveInvariant.
Context {G : Type}.
Implicit Types m : Model G.

(** The live set is duplicate-free and holds exactly the agents that have
    not acted, and the four choice counters add up to the number of agents
    that have acted. *)
Record live_inv m : Prop := {
  li_nodup : NoDup (m_agents m);
  li_live : forall j, j ∈ m_agents m <-> exists a, m_store m !! j = Some a /\ phase a <> Acted;
  li_counts : choices_total (m_counts m) = size (acted_ids (m_store m))
}.

Lemma elem_of_acted_ids s j : j ∈ acted_ids s <-> exists a, s !! j = Some a /\ phase a = Acted.
Proof.
  unfold acted_ids. rewrite elem_of_dom. split.
  - intros [a (Ha & Hp)%map_lookup_filter_Some]. by exists a.
  - intros (a & Ha & Hp). exists a. by apply map_lookup_filter_Some.
Qed.

Lemma record_choice_total x k : choices_total (record_choice x k) = S (choices_total k).
Proof. unfold choices_total. destruct x; simpl; lia. Qed.

Lemma reset_evaced_total k : choices_total (reset_evaced k) = choices_total k.
Proof. reflexivity. Qed.

(** The acted status of an agent other than the stepping one, or of the
    stepping one when it does not newly act, is unchanged. *)
Lemma step_effect_status i m m' j :
  step_effect i m m' -> (j <> i \/ acted_stable i m m') ->
  (exists a, m_store m !! j = Some a /\ phase a = Acted) <->
  (exists a', m_store m' !! j = Some a' /\ phase a' = Acted).
Proof.
  intros [_ Hs _] Hj. specialize (Hs j).
  split.
  - intros (a & Ha & Hp). rewrite Ha in Hs.
    destruct (option_Forall2_Some_l _ _ _ Hs) as (a' & Ha' & _ & [Hq|(_ & Hna & _)]);
      [|done]. exists a'. split; [done|congruence].
  - intros (a' & Ha' & Hp). rewrite Ha' in Hs.
    destruct (option_Forall2_Some_r _ _ _ Hs) as (a & Ha & _ & HR).
    exists a. split; [done|]. destruct HR as [Hq|(-> & Hna & Hq)]; [congruence|].
    destruct Hj as [Hj|Hst]; [done|]. by eapply Hst.
Qed.

Lemma step_effect_live_status i m m' j :
  step_effect i m m' -> (j <> i \/ acted_stable i m m') ->
  (exists a, m_store m !! j = Some a /\ phase a <> Acted) <->
  (exists a', m_store m' !! j = Some a' /\ phase a' <> Acted).
Proof.
  intros He Hj. pose proof (step_effect_status i m m' j He Hj) as Hst.
  destruct He as [_ Hs _]. specialize (Hs j). split.
  - intros (a & Ha & Hna). rewrite Ha in Hs.
    destruct (option_Forall2_Some_l _ _ _ Hs) as (a' & Ha' & _).
    exists a'. split; [done|]. intros Hact. apply Hna.
    destruct (proj2 Hst) as (a0 & Ha0 & Hp0); [by exists a'|]. congruence.
  - intros (a' & Ha' & Hna). rewrite Ha' in Hs.
    destruct (option_Forall2_Some_r _ _ _ Hs) as (a & Ha & _).
    exists a. split; [done|]. intros Hact. apply Hna.
    destruct (proj1 Hst) as (a0 & Ha0 & Hp0); [by exists a|]. congruence.
Qed.

(** The live-set invariant is preserved by the step contract. *)
Lemma live_inv_step_effect i m m' : live_inv m -> step_effect i m m' -> live_inv m'.
Proof.
  intros [Hnd Hlive Hcnt] He. pose proof He as [Hg Hs Hl].
  destruct Hl as [(Hc & Ha & Hst)|((a1 & a2 & Ha1 & Ha2 & Hp1 & Hp2) & x & Hc & Ha)].
  - split.
    + by rewrite Ha.
    + intros j. rewrite Ha, Hlive. by apply (step_effect_live_status i); [|right].
    + rewrite Hc, Hcnt. f_equal. apply set_eq. intros j. rewrite !elem_of_acted_ids.
      by apply (step_effect_status i); [|right].
  - split.
    + rewrite Ha. by apply NoDup_filter.
    + intros j. rewrite Ha, list_elem_of_filter, Hlive. destruct (decide (j = i)) as [->|Hji].
      * split; [by intros []|]. intros (a & Ha' & Hna). congruence.
      * rewrite (step_effect_live_status i m m' j He (or_introl Hji)). naive_solver.
    + rewrite Hc, record_choice_total, Hcnt.
      assert (Heq : acted_ids (m_store m') = {[i]} ∪ acted_ids (m_store m)).
      { apply set_eq. intros j. rewrite elem_of_union, elem_of_singleton, !elem_of_acted_ids.
        destruct (decide (j = i)) as [->|Hji].
        - split; [by left|]. intros _. by exists a2.
        - rewrite (step_effect_status i m m' j He (or_introl Hji)). naive_solver. }
      rewrite Heq, size_union, size_singleton; [lia|].
      apply disjoint_singleton_l. rewrite elem_of_acted_ids. intros (a & Ha' & Hp).
      congruence.
Qed.

(** Every agent step preserves the live-set invariant, whatever
    the step does: this is proved from the contract [step_effect] alone. *)
Theorem step_effect_live_inv i m m' : live_inv m -> step_effect i m m' -> live_inv m'.
Proof. apply live_inv_step_effect. Qed.

Lemma frame_live_inv m m' : live_inv m -> frame m m' -> live_inv m'.
Proof.
  intros Hinv Hf. eapply (live_inv_step_effect 0); [done|]. by apply frame_effect.
Qed.

End LiveInvariant.

Section TickTheorems.
Context {G : Type} `{RandomSource G} `{Classifier}.
Implicit Types m : Model G.

Lemma same_globals_trans m1 m2 m3 :
  same_globals m1 m2 -> same_globals m2 m3 -> same_globals m1 m3.
Proof. intros (?&?&?&?&?&?) (?&?&?&?&?&?). repeat split; congruence. Qed.

Lemma fold_steps_inv (l : list nat) m m' :
  fold_res (fun m j => step j m) l m = Ok m' ->
  (live_inv m -> live_inv m') /\ same_globals m m'.
Proof.
  revert m. induction l as [|j l IH]; intros m Hm; simpl in Hm.
  - injection Hm as <-. split; [done|]. by repeat split.
  - apply bind_Ok in Hm as (m1 & H1 & Hm). apply step_contract in H1 as He.
    destruct (IH _ Hm) as [Hi Hg]. split.
    + intros Hinv. apply Hi. by eapply live_inv_step_effect.
    + eapply same_globals_trans; [apply He|done].
Qed.

Lemma government_warning_communication_frame r im m :
  frame m (government_warning_communication r im m).
Proof. apply fold_upd_frame. intros; done. Qed.

Lemma tick_broadcast_frame m : frame m (tick_broadcast m).
Proof.
  unfold tick_broadcast. repeat case_match; try reflexivity;
    apply government_warning_communication_frame.
Qed.

Lemma tick_broadcast_fields m :
  m_steps (tick_broadcast m) = m_steps m /\ m_cfg (tick_broadcast m) = m_cfg m /\
  m_running (tick_broadcast m) = m_running m /\
  m_evac_history (tick_broadcast m) = m_evac_history m /\
  m_counts (tick_broadcast m) = m_counts m.
Proof. destruct (tick_broadcast_frame m) as (s & -> & _). done. Qed.

Lemma live_inv_fields m m' :
  m_agents m' = m_agents m -> m_store m' = m_store m ->
  choices_total (m_counts m') = choices_total (m_counts m) -> live_inv m -> live_inv m'.
Proof. intros Ha Hs Hc [H1 H2 H3]. split; rewrite ?Ha, ?Hs, ?Hc; done. Qed.

(** A tick preserves the live-set invariant. *)
Lemma live_inv_model_step m m' : live_inv m -> model_step m = Ok m' -> live_inv m'.
Proof.
  intros Hinv Hm. rewrite model_step_unfold in Hm. unfold shuffle_do_step in Hm.
  destruct (rs_shuffle _ _) as [order g]. apply bind_Ok in Hm as (m1 & H1 & Hm).
  injection Hm as <-. apply fold_steps_inv in H1 as [Hi _].
  match goal with |- live_inv (set_counts (set_history ?m2 _) _) =>
    apply (live_inv_fields m2); [done|done|apply reset_evaced_total|] end.
  eapply frame_live_inv; [|apply tick_broadcast_frame].
  assert (Hinv1 : live_inv m1) by (apply Hi; by apply (live_inv_fields m)).
  case_match; [|done]. by apply (live_inv_fields m1).
Qed.

(** C2.  One tick of the scheduler ([EvacuationDec.step]) preserves the
    live-set invariant: after every tick the live agents are exactly the
    agents that have not acted, and the cumulative hotel, friends, shelter
    and stay counters add up to the number of agents that have acted. *)
Theorem model_step_live_inv m m' : live_inv m -> model_step m = Ok m' -> live_inv m'.
Proof. apply live_inv_model_step. Qed.

(** What a tick does to the step counter, the run flag and the collected
    evacuation counts. *)
Lemma model_step_fields m m' :
  model_step m = Ok m' ->
  m_steps m' = S (m_steps m) /\ m_cfg m' = m_cfg m /\
  m_running m' = (if (S (m_steps m) =? number_of_steps (m_cfg m))%nat then false
                  else m_running m).
Proof.
  intros Hm. rewrite model_step_unfold in Hm. unfold shuffle_do_step in Hm.
  destruct (rs_shuffle _ _) as [order g]. apply bind_Ok in Hm as (m1 & H1 & Hm).
  injection Hm as <-. apply fold_steps_inv in H1 as [_ (Hc & Hs & _ & _ & Hr & _)].
  cbn in Hc, Hs, Hr.
  remember (if (m_steps m1 =? number_of_steps (m_cfg m1))%nat
            then set_finished m1 (average_evac_time (m_evac_history m1)) else m1) as m2.
  assert (F2 : m_steps m2 = m_steps m1 /\ m_cfg m2 = m_cfg m1 /\
               m_running m2 = if (m_steps m1 =? number_of_steps (m_cfg m1))%nat
                              then false else m_running m1) by (subst m2; case_match; done).
  destruct (tick_broadcast_fields m2) as (Hs' & Hc' & Hr' & _).
  destruct F2 as (A & B & C). cbn [m_steps m_cfg m_running set_counts set_history].
  rewrite Hs', Hc', Hr', A, B, C, Hs, Hc, Hr. done.
Qed.

(** C5.  Termination of the run loop: with [number_of_steps >= 1], a
    running model at a tick before the horizon, given at least as much fuel
    as the ticks left, either stops normally at tick [number_of_steps] or
    raises; it never runs out of fuel. *)
Theorem run_model_terminates fuel m :
  m_running m = true -> (m_steps m < number_of_steps (m_cfg m))%nat ->
  (number_of_steps (m_cfg m) - m_steps m <= fuel)%nat ->
  (exists m', run_model fuel m = Finished m' /\
              m_steps m' = number_of_steps (m_cfg m) /\ m_cfg m' = m_cfg m) \/
  (exists e, run_model fuel m = Failed e).
Proof.
  revert m. induction fuel as [|fuel IH]; intros m Hr Hs Hf; [lia|].
  simpl. rewrite Hr. destruct (model_step m) as [m'|e] eqn:Hm; [|by right; exists e].
  destruct (model_step_fields _ _ Hm) as (Hs' & Hc' & Hr').
  destruct (S (m_steps m) =? number_of_steps (m_cfg m))%nat eqn:E.
  - apply Nat.eqb_eq in E. left. exists m'. destruct fuel; simpl; rewrite Hr';
      (split; [done|]); split; congruence.
  - apply Nat.eqb_neq in E. rewrite Hr in Hr'.
    destruct (IH m') as [(m'' & H1 & H2 & H3)|He]; [done|rewrite Hs', Hc'; lia|
      rewrite Hs', Hc'; lia| |by right].
    left. exists m''. split; [done|]. split; congruence.
Qed.

(** C27.  With [number_of_steps = 0] (more generally, once the tick
    counter has passed the horizon) the run flag is never cleared: the loop
    [while self.running] does not terminate, whatever the fuel. *)
Theorem run_model_diverges fuel m :
  m_running m = true -> (number_of_steps (m_cfg m) <= m_steps m)%nat ->
  (exists m', run_model fuel m = OutOfFuel m') \/ (exists e, run_model fuel m = Failed e).
Proof.
  revert m. induction fuel as [|fuel IH]; intros m Hr Hs; simpl; rewrite Hr; [by left; eexists|].
  destruct (model_step m) as [m'|e] eqn:Hm; [|by right; exists e].
  destruct (model_step_fields _ _ Hm) as (Hs' & Hc' & Hr').
  apply IH.
  - rewrite Hr'. destruct (Nat.eqb_spec (S (m_steps m)) (number_of_steps (m_cfg m))); [lia|done].
  - rewrite Hs', Hc'. lia.
Qed.

(** What one tick appends to the collected series and when it sets the
    average: the collection follows the final statistic. *)
Lemma model_step_outputs m m' :
  model_step m = Ok m' ->
  (exists n, m_evac_history m' = m_evac_history m ++ [n]) /\
  m_average_evac_time m' = (if (S (m_steps m) =? number_of_steps (m_cfg m))%nat
                            then average_evac_time (m_evac_history m)
                            else m_average_evac_time m).
Proof.
  intros Hm. rewrite model_step_unfold in Hm. unfold shuffle_do_step in Hm.
  destruct (rs_shuffle _ _) as [order g]. apply bind_Ok in Hm as (m1 & H1 & Hm).
  injection Hm as <-. apply fold_steps_inv in H1 as [_ (Hc & Hs & _ & Ha & _ & Hh)].
  cbn in Hc, Hs, Ha, Hh.
  destruct (tick_broadcast_frame
    (if (m_steps m1 =? number_of_steps (m_cfg m1))%nat
     then set_finished m1 (average_evac_time (m_evac_history m1)) else m1)) as (s & -> & _).
  rewrite Hs, Hc. cbn. split; [eexists; case_match; cbn; by rewrite Hh|].
  case_match; cbn; congruence.
Qed.

(** C11.  The reported [average_evac_time] of a finished run is computed
    from every collected tick but the last: [datacollector.collect] runs
    after the final statistic, so the agents that evacuate during the final
    tick are never counted in the average. *)
Theorem run_model_final_average fuel m m' :
  m_running m = true -> run_model fuel m = Finished m' ->
  m_average_evac_time m' = average_evac_time (removelast (m_evac_history m')).
Proof.
  revert m. induction fuel as [|fuel IH]; intros m Hr Hrun; simpl in Hrun; rewrite Hr in Hrun;
    [done|].
  destruct (model_step m) as [m1|e] eqn:Hm; [|done].
  destruct (model_step_fields _ _ Hm) as (_ & _ & Hr1).
  destruct (model_step_outputs _ _ Hm) as [[n Hh] Ha].
  destruct (m_running m1) eqn:E1; [by eapply IH|].
  destruct fuel; simpl in Hrun; rewrite E1 in Hrun; injection Hrun as <-;
    rewrite Ha, Hh, removelast_last; rewrite Hr in Hr1; by case_match.
Qed.

End TickTheorems.

(** ** The government broadcast *)

Section Broadcast.
Context {G : Type}.
Implicit Types m : Model G.

Lemma count_occ_NoDup (l : list nat) j :
  NoDup l -> count_occ Nat.eq_dec l j = if decide (j ∈ l) then 1%nat else 0%nat.
Proof.
  intros Hnd. case_decide as Hj.
  - apply (proj1 (NoDup_count_occ' Nat.eq_dec l)); [by apply NoDup_ListNoDup|].
    by apply list_elem_of_In.
  - apply count_occ_not_In. by rewrite <- list_elem_of_In.
Qed.

Lemma government_bump_get r im b f :
  get (government_bump r im b) f ==
  get b f + (if decide (f = social_perception) then r else 0)
          + (if decide (f = immediacy_cum) then im else 0).
Proof.
  unfold government_bump. rewrite !get_add_attr.
  destruct f; repeat case_decide; try congruence; ring.
Qed.

(** The effect of a government broadcast on each agent. *)
Lemma government_warning_communication_effect r im m :
  NoDup (m_agents m) ->
  frame m (government_warning_communication r im m) /\
  forall j b, m_store m !! j = Some b ->
    exists b', m_store (government_warning_communication r im m) !! j = Some b' /\
      forall f, get b' f == get b f +
        (if decide (j ∈ m_agents m)
         then (if decide (f = social_perception) then r else 0)
              + (if decide (f = immediacy_cum) then im else 0)
         else 0).
Proof.
  intros Hnd. split; [apply government_warning_communication_frame|].
  intros j b Hb. unfold government_warning_communication.
  rewrite fold_upd_lookup, Hb, count_occ_NoDup by done.
  eexists; split; [done|]. intros f.
  case_decide;
    [change (Nat.iter 1 ?op ?x) with (op x); rewrite government_bump_get
    |change (Nat.iter 0 ?op ?x) with x]; ring.
Qed.

(** [government_warning_communication r im] adds exactly [r] to the
    [social_perception] and [im] to the [immediacy_cum] of every live agent
    and changes nothing else; agents no longer in the live set (the ones
    that acted, by [live_inv]) are not touched. *)
Theorem government_warning_communication_spec r im m :
  NoDup (m_agents m) ->
  frame m (government_warning_communication r im m) /\
  forall j b, m_store m !! j = Some b ->
    exists b', m_store (government_warning_communication r im m) !! j = Some b' /\
      forall f, get b' f == get b f +
        (if decide (j ∈ m_agents m)
         then (if decide (f = social_perception) then r else 0)
              + (if decide (f = immediacy_cum) then im else 0)
         else 0).
Proof. apply government_warning_communication_effect. Qed.

(** C9.  At the tropical-watch tick the broadcast adds
    [comm_watch_value_risk] (not [comm_watch_value_imm], which the code
    never reads) to the [immediacy_cum] of every live agent. *)
Theorem tick_broadcast_watch_immediacy m j b :
  Z.of_nat (m_steps m) = trop_warning_step (m_cfg m) -> NoDup (m_agents m) ->
  j ∈ m_agents m -> m_store m !! j = Some b ->
  exists b', m_store (tick_broadcast m) !! j = Some b' /\
    get b' immediacy_cum == get b immediacy_cum + comm_watch_value_risk (m_cfg m) /\
    get b' social_perception == get b social_perception + comm_watch_value_risk (m_cfg m).
Proof.
  intros Hs Hnd Hj Hb. unfold tick_broadcast. rewrite Hs, Z.eqb_refl.
  destruct (government_warning_communication_effect (comm_watch_value_risk (m_cfg m))
              (comm_watch_value_risk (m_cfg m)) m Hnd) as [_ Hspec].
  destruct (Hspec j b Hb) as (b' & Hb' & Hf). exists b'. split; [done|].
  rewrite !Hf. rewrite decide_True by done. split; repeat case_decide; try congruence; ring.
Qed.

End Broadcast.

(** ** The summary statistic *)

Lemma weighted_evacs_bounds (h : list nat) t :
  (S t * sum_list h <= weighted_evacs h t <= (t + length h) * sum_list h)%nat.
Proof.
  revert t. induction h as [|n h IH]; intros t; simpl; [lia|].
  specialize (IH (S t)). nia.
Qed.

Lemma inject_nat_le_iff (a b : nat) :
  inject_Z (Z.of_nat a) <= inject_Z (Z.of_nat b) <-> (a <= b)%nat.
Proof. rewrite <- Zle_Qle. lia. Qed.

Lemma inject_nat_mul (a b : nat) :
  inject_Z (Z.of_nat (a * b)) == inject_Z (Z.of_nat a) * inject_Z (Z.of_nat b).
Proof. by rewrite Nat2Z.inj_mul, inject_Z_mult. Qed.

(** [average_evac_time] is [None] exactly when nobody evacuated in the
    collected ticks. *)
Theorem average_evac_time_None (h : list nat) :
  average_evac_time h = None <-> sum_list h = 0%nat.
Proof.
  unfold average_evac_time. destruct (0 <? sum_list h)%nat eqn:E.
  - apply Nat.ltb_lt in E. split; [discriminate|lia].
  - apply Nat.ltb_ge in E. split; [lia|done].
Qed.

(** When somebody evacuated, the mean evacuation tick lies between 1
    and the number of collected ticks. *)
Theorem average_evac_time_bounds (h : list nat) :
  (0 < sum_list h)%nat ->
  exists v, average_evac_time h = Some v /\ 1 <= v <= inject_Z (Z.of_nat (length h)).
Proof.
  intros Hpos. unfold average_evac_time. apply Nat.ltb_lt in Hpos as E. rewrite E.
  apply Nat.ltb_lt in E. eexists; split; [reflexivity|].
  destruct (weighted_evacs_bounds h 0) as [Hlo Hhi].
  pose proof (inject_nat_pos _ E) as HS.
  apply inject_nat_le_iff in Hlo, Hhi. rewrite !inject_nat_mul in Hlo, Hhi.
  change (inject_Z (Z.of_nat 1)) with 1 in Hlo. simpl plus in Hhi.
  split; [apply Qle_shift_div_l|apply Qle_shift_div_r]; lra.
Qed.

(** ** Phases over a whole tick *)

Section TickPhases.
Context {G : Type} `{RandomSource G} `{Classifier}.
Implicit Types m : Model G.

Lemma store_phases_compose R1 R2 (s1 s2 s3 : gmap nat Individual) :
  store_phases R1 s1 s2 -> store_phases R2 s2 s3 ->
  store_phases (fun j p r => exists q, R1 j p q /\ R2 j q r) s1 s3.
Proof.
  intros H12 H23 j. eapply option_Forall2_compose; [apply H12|apply H23|].
  intros a b c [Hp1 HR1] [Hp2 HR2]. split; [congruence|]. eauto.
Qed.

Lemma store_phases_impl (R1 R2 : nat -> Phase -> Phase -> Prop) s s' :
  store_phases R1 s s' -> (forall j p q, R1 j p q -> R2 j p q) -> store_phases R2 s s'.
Proof.
  intros H1 HR j. eapply option_Forall2_impl; [apply H1|]. intros a b [? ?]. eauto.
Qed.

Lemma store_frame_phases s s' : store_frame s s' -> store_phases (fun _ p q => q = p) s s'.
Proof.
  intros Hs j. eapply option_Forall2_impl; [apply Hs|]. intros a b [? ?]. done.
Qed.

(** One stage at most, for the agents of [l], none for the others. *)
Definition advanced_in (l : list nat) (j : nat) (p q : Phase) : Prop :=
  if decide (j ∈ l) then q = p \/ (p <> Acted /\ q = phase_succ p) else q = p.

Lemma fold_steps_phases (l : list nat) m m' :
  NoDup l -> fold_res (fun m j => step j m) l m = Ok m' ->
  store_phases (advanced_in l) (m_store m) (m_store m').
Proof.
  revert m. induction l as [|i l IH]; intros m Hnd Hm; simpl in Hm.
  - injection Hm as <-. intros j. destruct (m_store m !! j); constructor.
    split; [done|]. unfold advanced_in. by rewrite decide_False by set_solver.
  - apply bind_Ok in Hm as (m1 & H1 & Hm). apply step_contract in H1 as [_ Hs _].
    apply NoDup_cons in Hnd as [Hi Hnd].
    eapply store_phases_impl; [eapply store_phases_compose; [apply Hs|by apply IH]|].
    intros j p r (q & HR1 & HR2). unfold advanced_in, phase_rel in *.
    destruct (decide (j = i)) as [->|Hji].
    + rewrite decide_True by set_solver. rewrite decide_False in HR2 by done.
      subst r. destruct HR1 as [->|(_ & ? & ->)]; [by left|by right].
    + destruct HR1 as [->|(? & _)]; [|done].
      case_decide; case_decide; set_solver.
Qed.

(** How a tick moves the phases. *)
Lemma model_step_phases `{!RandomSourceLaws G} m m' :
  live_inv m -> model_step m = Ok m' ->
  store_phases (fun _ p q => q = p \/ (p <> Acted /\ q = phase_succ p))
    (m_store m) (m_store m').
Proof.
  intros Hinv Hm. rewrite model_step_unfold in Hm. unfold shuffle_do_step in Hm.
  pose proof (rs_shuffle_perm (m_agents m) (m_rng (set_phases (set_steps m (S (m_steps m)))
                  (mkPhaseCounts (count_phase Unaware (agent_phases (set_steps m (S (m_steps m)))))
                     (count_phase Aware (agent_phases (set_steps m (S (m_steps m)))))
                     (count_phase Deciding (agent_phases (set_steps m (S (m_steps m))))))))) as Hperm.
  destruct (rs_shuffle _ _) as [order g]. simpl in Hperm.
  apply bind_Ok in Hm as (m1 & H1 & Hm). injection Hm as <-.
  assert (Hnd : NoDup order) by (rewrite Hperm; apply Hinv).
  apply fold_steps_phases in H1; [|done].
  destruct (tick_broadcast_frame (if (m_steps m1 =? number_of_steps (m_cfg m1))%nat
      then set_finished m1 (average_evac_time (m_evac_history m1)) else m1)) as (s & Hs & Hf).
  cbn [m_store set_counts set_history]. rewrite Hs.
  eapply store_phases_impl; [eapply store_phases_compose;
    [apply H1|apply store_frame_phases; case_match; apply Hf]|].
  intros j p r (q & HR & ->). unfold advanced_in in HR. case_decide; [done|by left].
Qed.

(** C10.  In one tick every agent's phase advances by at most one stage
    (never back): each live agent steps once, and only an agent's own step
    moves its phase. *)
Theorem model_step_phase_advance `{!RandomSourceLaws G} m m' :
  live_inv m -> model_step m = Ok m' ->
  store_phases (fun _ p q => q = p \/ (p <> Acted /\ q = phase_succ p))
    (m_store m) (m_store m').
Proof. apply model_step_phases. Qed.

End TickPhases.

(** ** A decision procedure for the invariant and a demo generator *)

Section LiveInvCheck.
Context {G : Type}.
Implicit Types m : Model G.

Definition live_status (s : gmap nat Individual) (j : nat) : bool :=
  match s !! j with Some a => bool_decide (phase a <> Acted) | None => false end.

Definition live_inv_b m : bool :=
  bool_decide (NoDup (m_agents m)) &&
  forallb (fun j => Bool.eqb (bool_decide (j ∈ m_agents m)) (live_status (m_store m) j))
    (elements (dom (m_store m)) ++ m_agents m) &&
  Nat.eqb (choices_total (m_counts m)) (size (acted_ids (m_store m))).

Lemma live_status_true s j : live_status s j = true <-> exists a, s !! j = Some a /\ phase a <> Acted.
Proof.
  unfold live_status. destruct (s !! j) as [a|]; [rewrite bool_decide_eq_true|]; naive_solver.
Qed.

Lemma live_inv_b_sound m : live_inv_b m = true -> live_inv m.
Proof.
  unfold live_inv_b. intros Hb. apply andb_true_iff in Hb as [Hb Hc].
  apply andb_true_iff in Hb as [Hnd Hall]. apply bool_decide_eq_true in Hnd.
  apply Nat.eqb_eq in Hc. split; [done| |done].
  intros j. rewrite <- live_status_true.
  destruct (decide (j ∈ elements (dom (m_store m)) ++ m_agents m)) as [Hj|Hj].
  - rewrite forallb_forall in Hall. apply list_elem_of_In in Hj.
    specialize (Hall j Hj). apply Bool.eqb_prop in Hall. rewrite <- Hall.
    by rewrite bool_decide_eq_true.
  - rewrite elem_of_app, elem_of_elements, elem_of_dom in Hj.
    unfold live_status. destruct (m_store m !! j) eqn:E; [exfalso; apply Hj; left; by eexists|].
    split; [intros ?; exfalso; apply Hj; by right|discriminate].
Qed.

End LiveInvCheck.

#[local] Existing Instances demo_source demo_source_laws demo_classifier.

Definition demo_model : Model nat :=
  mkModel default_config sample_store [0; 1; 2]%nat 1 zero_counters
    (mkPhaseCounts 0 0 0) (Some 0) true [] 3%nat.

Lemma demo_model_live_inv : live_inv demo_model.
Proof. apply live_inv_b_sound. vm_compute. reflexivity. Qed.

(** ** Witnesses *)

Lemma step_effect_live_inv_witness :
  exists m', step 0 demo_model = Ok m' /\ live_inv m'.
Proof.
  eexists; split; [vm_compute; reflexivity|].
  apply (step_effect_live_inv 0 demo_model); [apply live_inv_b_sound; vm_compute; reflexivity|].
  apply step_contract. vm_compute. reflexivity.
Defined.

Lemma model_step_live_inv_witness :
  exists m', model_step demo_model = Ok m' /\ live_inv m'.
Proof.
  eexists; split; [vm_compute; reflexivity|].
  apply (model_step_live_inv demo_model); [apply live_inv_b_sound; vm_compute; reflexivity|].
  vm_compute. reflexivity.
Defined.

Lemma model_step_phase_advance_witness :
  exists m', model_step demo_model = Ok m' /\
    store_phases (fun _ p q => q = p \/ (p <> Acted /\ q = phase_succ p))
      (m_store demo_model) (m_store m').
Proof.
  eexists; split; [vm_compute; reflexivity|].
  apply (model_step_phase_advance demo_model); [apply live_inv_b_sound; vm_compute; reflexivity|].
  vm_compute. reflexivity.
Defined.

Lemma run_model_terminates_witness :
  (exists m', run_model 88 demo_model = Finished m' /\
              m_steps m' = number_of_steps (m_cfg demo_model) /\ m_cfg m' = m_cfg demo_model) \/
  (exists e, run_model 88 demo_model = Failed e).
Proof. apply run_model_terminates; vm_compute; (reflexivity || lia). Defined.

Definition demo_model_zero_horizon : Model nat :=
  mkModel (mkConfig 0 3 6 10 0 0.05 0.1 0.01 0.05 1 0.4 1 30 0.1 0.01 0.1 0 0 55 60
             0.04 0.2 0.5 0.2 0.4 0.18)
    sample_store [0; 1; 2]%nat 0 zero_counters (mkPhaseCounts 0 0 0) (Some 0) true [] 3%nat.

(** One deciding agent, certain to act, at the last tick before the
    horizon: it evacuates to a hotel during the final tick. *)
Definition last_tick_agent : Individual :=
  set_preferred (add_attr (set_phase scenario_agent Deciding) immediacy_cum 1) act_evac_hotel.

Definition last_tick_model : Model nat :=
  mkModel default_config (<[0%nat := last_tick_agent]> ∅) [0%nat]
    (pred (number_of_steps default_config)) zero_counters
    (mkPhaseCounts 0 0 0) None true [] 0%nat.

Definition last_tick_final : Model nat :=
  match run_model 1 last_tick_model with Finished m => m | _ => last_tick_model end.

Lemma run_model_final_average_witness :
  m_average_evac_time last_tick_final =
    average_evac_time (removelast (m_evac_history last_tick_final)) /\
  m_evac_history last_tick_final = [1%nat] /\ m_average_evac_time last_tick_final = None.
Proof.
  split; [|split; vm_compute; reflexivity].
  apply (run_model_final_average 1 last_tick_model); vm_compute; reflexivity.
Defined.

Lemma run_model_diverges_witness :
  (exists m', run_model 5 demo_model_zero_horizon = OutOfFuel m') \/
  (exists e, run_model 5 demo_model_zero_horizon = Failed e).
Proof. apply run_model_diverges; vm_compute; (reflexivity || lia). Defined.

Lemma government_warning_communication_spec_witness :
  frame demo_model (government_warning_communication 0.05 0.01 demo_model) /\
  forall j b, m_store demo_model !! j = Some b ->
    exists b', m_store (government_warning_communication 0.05 0.01 demo_model) !! j = Some b' /\
      forall f, get b' f == get b f +
        (if decide (j ∈ m_agents demo_model)
         then (if decide (f = social_perception) then 0.05 else 0)
              + (if decide (f = immediacy_cum) then 0.01 else 0)
         else 0).
Proof. apply government_warning_communication_spec. decide_prop. Defined.

Lemma tick_broadcast_watch_immediacy_witness :
  exists b', m_store (tick_broadcast (set_steps demo_model 55)) !! 2%nat = Some b' /\
    get b' immediacy_cum == get (sample_agent [0]%nat sample_individual) immediacy_cum
                            + comm_watch_value_risk (m_cfg demo_model) /\
    get b' social_perception == get (sample_agent [0]%nat sample_individual) social_perception
                                + comm_watch_value_risk (m_cfg demo_model).
Proof.
  apply (tick_broadcast_watch_immediacy (set_steps demo_model 55) 2
           (sample_agent [0]%nat sample_individual)).
  - vm_compute. reflexivity.
  - decide_prop.
  - decide_prop.
  - vm_compute. reflexivity.
Defined.

Lemma average_evac_time_bounds_witness :
  exists v, average_evac_time [0; 2; 0; 1]%nat = Some v /\ 1 <= v <= inject_Z (Z.of_nat 4).
Proof. apply average_evac_time_bounds. vm_compute. lia. Defined.
