(* ===== verification/Bounds.v ===== *)
(** * Bounds: the attribute ranges of every agent at every tick

    The specification states that [0 <= risk_perception <= 1] and
    [0 <= media_cue <= 1] hold for all agents at all ticks.  The code keeps
    them because [risk_perception] is only written as
    [min(cue_perception + social_perception, 1)] (and by the no-op
    [general_communication]), the media cue is clamped at 1, and every
    other write to the perceptions adds a non-negative constant.  This needs
    non-negative inputs: cue series, survey trust answers and weights, and
    the communication constants ([config_ok]).

    [agent_ok] is the per-agent invariant, [store_ok] its lifting to the
    store; each operation of Diffusion.v, AgentStep.v and Scheduler.v
    preserves it, and so does a whole tick ([model_step_store_ok]). *)
From S2P Require Import Prelude Config Individual Population Diffusion AgentStep Scheduler.

Definition nonneg (l : list Q) : Prop := Forall (fun x => 0 <= x) l.

(** The attributes the invariant constrains. *)
Definition monitored (f : Attr) : bool :=
  match f with
  | risk_perception | media_cue | social_perception | cue_perception
  | rain_cue | wind_cue => true
  | _ => false
  end.

Record agent_ok (a : Individual) : Prop := {
  ok_risk : 0 <= get a risk_perception <= 1;
  ok_media : 0 <= get a media_cue <= 1;
  ok_social : 0 <= get a social_perception;
  ok_cue : 0 <= get a cue_perception;
  ok_rain_cue : 0 <= get a rain_cue;
  ok_wind_cue : 0 <= get a wind_cue;
  ok_env : 0 <= env_weight (ind_params a);
  ok_rain : nonneg (rain (ind_params a));
  ok_wind : nonneg (wind (ind_params a));
  ok_trust : nonneg (media_trust (ind_params a));
  ok_trust_len : length (media_trust (ind_params a)) = length (media_freq (ind_params a))
}.

Definition store_ok (s : gmap nat Individual) : Prop := map_Forall (fun _ a => agent_ok a) s.

(** The constants added to social perception, and the media weight, are
    non-negative. *)
Record config_ok (c : Config) : Prop := {
  cok_perc : 0 <= media_weight_perc c;
  cok_phase : 0 <= phase_change_factor c;
  cok_watch : 0 <= comm_watch_value_risk c;
  cok_warning : 0 <= comm_warning_value_risk c
}.

(** ** The invariant under the agent-level writes *)

Lemma agent_ok_intro a b :
  ind_params b = ind_params a ->
  (forall f, monitored f = true -> get b f == get a f) -> agent_ok a -> agent_ok b.
Proof.
  intros Hp Hf [H1 H2 H3 H4 H5 H6 H7 H8 H9 H10 H11].
  rewrite <- Hp in *. split; try done;
    repeat match goal with |- context [get b ?f] => rewrite (Hf f eq_refl) end; done.
Qed.

Lemma agent_ok_equiv a b : a ≡ b -> agent_ok a -> agent_ok b.
Proof. intros (Hp & _ & _ & _ & Hf). apply agent_ok_intro; [done|]. intros f _. by rewrite Hf. Qed.

Lemma agent_ok_set_other a f v : monitored f = false -> agent_ok a -> agent_ok (set_attr a f v).
Proof.
  intros Hf. apply agent_ok_intro; [done|]. intros g Hg. rewrite get_set_ne; [done|].
  by intros ->; rewrite Hf in Hg.
Qed.

Lemma agent_ok_add_other a f v : monitored f = false -> agent_ok a -> agent_ok (add_attr a f v).
Proof. apply agent_ok_set_other. Qed.

(** A non-negative value written to one of the unbounded perceptions. *)
Lemma agent_ok_set_nonneg a f v :
  0 <= v -> f <> risk_perception -> f <> media_cue -> agent_ok a -> agent_ok (set_attr a f v).
Proof.
  intros Hv Hr Hm [? ? ? ? ? ? ? ? ? ? ?].
  split; cbn [set_attr ind_params]; try done; rewrite get_set;
    case_decide; subst; done.
Qed.

Lemma agent_ok_add_social a d : 0 <= d -> agent_ok a -> agent_ok (add_attr a social_perception d).
Proof.
  intros Hd Ha. apply agent_ok_set_nonneg; [|done|done|done].
  pose proof (ok_social a Ha). lra.
Qed.

Lemma agent_ok_set_phase a p : agent_ok a -> agent_ok (set_phase a p).
Proof. apply agent_ok_intro; [done|]. intros; reflexivity. Qed.

Lemma agent_ok_set_immediacy a v : agent_ok a -> agent_ok (set_immediacy a v).
Proof. apply agent_ok_intro; [done|]. intros; reflexivity. Qed.

Lemma agent_ok_set_preferred a x : agent_ok a -> agent_ok (set_preferred a x).
Proof. apply agent_ok_intro; [done|]. intros; reflexivity. Qed.

Lemma nonneg_elem l x : nonneg l -> x ∈ l -> 0 <= x.
Proof. unfold nonneg. rewrite Forall_forall. auto. Qed.

Section AgentLevel.
Variable c : Config.
Hypothesis Hc : config_ok c.

Lemma agent_ok_calc_risk_perception a : agent_ok a -> agent_ok (calc_risk_perception c a).
Proof.
  intros Ha. unfold calc_risk_perception. apply agent_ok_set_nonneg; [|done|done|done].
  pose proof (ok_env a Ha). pose proof (ok_wind_cue a Ha). pose proof (ok_rain_cue a Ha).
  pose proof (ok_media a Ha). pose proof (cok_perc c Hc). nra.
Qed.

Lemma agent_ok_surge_update n a a' : surge_update c n a = Ok a' -> agent_ok a -> agent_ok a'.
Proof.
  unfold surge_update, surge_bump. intros H Ha. pose proof (cok_watch c Hc).
  res_inv; subst; repeat (apply agent_ok_add_other; [done|]);
    try apply agent_ok_add_social; try done; by apply agent_ok_set_other.
Qed.

Lemma agent_ok_media_update a b :
  ind_params b = ind_params a -> (forall f, f <> media_cue -> get b f = get a f) ->
  0 <= get b media_cue <= 1 -> agent_ok a -> agent_ok b.
Proof.
  intros Hp Ho Hm [? ? ? ? ? ? ? ? ? ? ?]. rewrite <- Hp in *.
  split; try done; rewrite Ho; done.
Qed.



Lemma agent_ok_wind_update n a a' : wind_update n a = Ok a' -> agent_ok a -> agent_ok a'.
Proof.
  unfold wind_update. intros H Ha. apply bind_Ok in H as (w & Hw & [= <-]).
  apply agent_ok_set_nonneg; try done. eapply nonneg_elem, py_index_elem_of, Hw. apply Ha.
Qed.

Lemma agent_ok_step_preamble n a a' : step_preamble c n a = Ok a' -> agent_ok a -> agent_ok a'.
Proof.
  unfold step_preamble. intros H Ha.
  apply bind_Ok in H as (base & _ & H). apply bind_Ok in H as (r & Hr & H).
  apply bind_Ok in H as (a3 & Hm & H). apply bind_Ok in H as (a4 & Hs & Hw).
  set (a1 := set_attr a risk_perception _) in *.
  assert (Ha1 : agent_ok a1).
  { pose proof (ok_cue a Ha). pose proof (ok_social a Ha).
    destruct Ha as [_ ? ? ? ? ? ? ? ? ? ?]. unfold a1.
    split; cbn [set_attr ind_params]; try done; rewrite get_set; case_decide; try done.
    split; [apply py_min_glb; lra|apply py_min_le_r]. }
  assert (Ha2 : agent_ok (set_attr (set_attr a1 immediacy_base base) rain_cue r)).
  { apply agent_ok_set_nonneg; [|done|done|by apply agent_ok_set_other].
    eapply nonneg_elem, py_index_elem_of, Hr. apply Ha1. }
  destruct (calc_media_cue_range c n _ (ok_media _ Ha2) (ok_trust _ Ha2) (ok_trust_len _ Ha2))
    as (a3' & Ha3 & Hmr & Ho & Hp & _).
  rewrite Ha3 in Hm. injection Hm as <-.
  assert (Ha3' : agent_ok a3').
  { apply (agent_ok_media_update _ _ Hp Ho); [|done]. pose proof (ok_media _ Ha2). lra. }
  assert (Ha4 : agent_ok a4).
  { destruct (n mod 3 =? 0)%nat; [by eapply agent_ok_surge_update|by injection Hs as <-]. }
  destruct (n mod 3 =? 0)%nat; [by eapply agent_ok_wind_update|by injection Hw as <-].
Qed.
End AgentLevel.

Lemma monitored_action_attr x : monitored (action_attr x) = false.
Proof. by destruct x. Qed.

(** ** The invariant under the operations on the model *)

Section StoreLevel.
Context {G : Type} `{RandomSource G} `{Classifier}.
Implicit Types m : Model G.
Variable c : Config.
Hypothesis Hc : config_ok c.

(** A model with configuration [c] whose agents satisfy [agent_ok]. *)
Definition model_ok m : Prop := m_cfg m = c /\ store_ok (m_store m).

Lemma model_ok_upd i f m :
  (forall a, agent_ok a -> agent_ok (f a)) -> model_ok m -> model_ok (upd i f m).
Proof.
  intros Hf [Hcfg Hok]. split; [done|]. intros j a. unfold upd.
  rewrite set_store_store, lookup_alter. case_decide; [subst j|apply Hok].
  destruct (m_store m !! i) eqn:E; cbn; [intros [= <-]|done]. eauto.
Qed.

Lemma model_ok_fold_upd (l : list nat) f m :
  (forall a, agent_ok a -> agent_ok (f a)) -> model_ok m ->
  model_ok (fold_left (fun m k => upd k f m) l m).
Proof. intros Hf. revert m. induction l; intros m Hm; cbn; [done|]. by apply IHl, model_ok_upd. Qed.

Lemma model_ok_equiv m m' : m' ≡ m -> model_ok m -> model_ok m'.
Proof.
  intros [Hs Heq] [Hcfg Hok]. split; [by rewrite <- Hs in Hcfg|].
  intros j a' Ha'. pose proof (proj1 (map_equiv_iff _ _) Heq j) as Hj. rewrite Ha' in Hj.
  destruct (m_store m !! j) as [a|] eqn:Ea; inversion Hj as [x y Hxy|]; subst.
  apply (agent_ok_equiv a); [by symmetry|apply (Hok j a Ea)].
Qed.

Lemma model_ok_store m s : model_ok m -> store_ok s -> model_ok (set_store m s).
Proof. by intros [? _]. Qed.

Lemma model_ok_calc i m : model_ok m -> model_ok (calc_risk_perception_op i m).
Proof.
  intros Hm. apply model_ok_upd; [|done]. destruct Hm as [-> _].
  by apply agent_ok_calc_risk_perception.
Qed.

Lemma model_ok_general_communication x i m m' :
  general_communication x i m = Ok m' -> model_ok m -> model_ok m'.
Proof. intros Hg. apply model_ok_equiv. by eapply general_communication_Ok_equiv. Qed.

Lemma model_ok_action_communication i m m' :
  action_communication i m = Ok m' -> model_ok m -> model_ok m'.
Proof.
  intros Ha Hm. revert Ha. apply (fold_res_inv model_ok); [|done].
  intros m1 x m2 H1 H2. by eapply model_ok_general_communication.
Qed.

Lemma model_ok_phase_change_communication i ph m m' :
  phase_change_communication i ph m = Ok m' -> model_ok m -> model_ok m'.
Proof.
  unfold phase_change_communication. intros Hp Hm. res_inv; subst; [done|].
  apply model_ok_fold_upd; [|done]. intros a Ha. apply agent_ok_add_social; [|done].
  destruct Hm as [-> _]. apply Hc.
Qed.

Lemma model_ok_protective_action_search i m m' :
  protective_action_search i m = Ok m' -> model_ok m -> model_ok m'.
Proof.
  unfold protective_action_search. intros Hs Hm. res_inv.
  destruct (predict_proba _) as [|pf [|ph [|ps [|pst [|]]]]]; simplify_eq.
  apply model_ok_upd; [|done]. intros a Ha.
  apply agent_ok_set_preferred. repeat (apply agent_ok_set_other; [done|]). done.
Qed.

Lemma model_ok_PAI i m m' :
  Protective_Action_Implementation_communication i m = Ok m' -> model_ok m -> model_ok m'.
Proof.
  unfold Protective_Action_Implementation_communication. intros Hp Hm. res_inv; subst;
    repeat (apply model_ok_fold_upd; [intros a Ha; unfold acquaintance_bump, neighbour_bump;
      repeat (apply agent_ok_add_other; [done || apply monitored_action_attr|]); done|]);
    done.
Qed.

Lemma model_ok_commit_action i m m' :
  commit_action i m = Ok m' -> model_ok m -> model_ok m'.
Proof.
  unfold commit_action. intros Hc' Hm. res_inv. subst.
  match goal with Hp : Protective_Action_Implementation_communication _ _ = Ok _ |- _ =>
    pose proof (model_ok_PAI _ _ _ Hp Hm) as Hm1 end.
  pose proof (model_ok_upd i (fun b => set_phase b Acted) _ (fun a => agent_ok_set_phase a _) Hm1)
    as [Hc1 Hs1].
  by split.
Qed.

Lemma model_ok_set_rng m g : model_ok m -> model_ok (set_rng m g).
Proof. done. Qed.

Lemma model_ok_upd_res i f m m' :
  (forall a a', f a = Ok a' -> agent_ok a -> agent_ok a') ->
  upd_res i f m = Ok m' -> model_ok m -> model_ok m'.
Proof.
  unfold upd_res. intros Hf Hu [Hcfg Hok]. res_inv. subst. split; [done|].
  apply self_of_Ok in H1. intros j b. rewrite set_store_store, lookup_insert.
  case_decide; [intros [= <-]; by eapply Hf, (Hok i)|apply Hok].
Qed.

Ltac ok_chain :=
  repeat match goal with
  | H : general_communication _ _ ?m0 = Ok _, Hm : model_ok ?m0 |- _ =>
      pose proof (model_ok_general_communication _ _ _ _ H Hm); clear H
  | H : action_communication _ ?m0 = Ok _, Hm : model_ok ?m0 |- _ =>
      pose proof (model_ok_action_communication _ _ _ H Hm); clear H
  | H : phase_change_communication _ _ ?m0 = Ok _, Hm : model_ok ?m0 |- _ =>
      pose proof (model_ok_phase_change_communication _ _ _ _ H Hm); clear H
  | H : protective_action_search _ ?m0 = Ok _, Hm : model_ok ?m0 |- _ =>
      pose proof (model_ok_protective_action_search _ _ _ H Hm); clear H
  | H : commit_action _ ?m0 = Ok _, Hm : model_ok ?m0 |- _ =>
      pose proof (model_ok_commit_action _ _ _ H Hm); clear H
  end.

Lemma model_ok_risk_identification i m m' :
  risk_identification i m = Ok m' -> model_ok m -> model_ok m'.
Proof.
  unfold risk_identification. intros Hr Hm. pose proof (model_ok_calc i m Hm).
  res_inv; subst; ok_chain; [|done]. by apply model_ok_upd; [intros; apply agent_ok_set_phase|].
Qed.

Lemma model_ok_risk_assessment i m m' :
  risk_assessment i m = Ok m' -> model_ok m -> model_ok m'.
Proof.
  unfold risk_assessment. intros Hr Hm. pose proof (model_ok_calc i m Hm).
  res_inv; subst; ok_chain; [|done]. by apply model_ok_upd; [intros; apply agent_ok_set_phase|].
Qed.

Lemma model_ok_protective_action_assessment i m m' :
  protective_action_assessment i m = Ok m' -> model_ok m -> model_ok m'.
Proof.
  unfold protective_action_assessment. intros Hp Hm.
  apply bind_Ok in Hp as (a & _ & Hp). cbv zeta in Hp.
  set (m1 := calc_risk_perception_op i _) in *.
  assert (Hm1 : model_ok m1).
  { apply model_ok_calc, model_ok_upd; [intros; by apply agent_ok_set_immediacy|done]. }
  destruct (Qlt_bool _ _); [|by eapply model_ok_action_communication].
  destruct (rs_random (m_rng m1)) as [r g]. cbv zeta in Hp.
  pose proof (model_ok_set_rng m1 g Hm1).
  destruct (Qlt_bool r _); [by eapply model_ok_commit_action|by eapply model_ok_action_communication].
Qed.

Lemma model_ok_step i m m' : step i m = Ok m' -> model_ok m -> model_ok m'.
Proof.
  unfold step. intros Hs Hm.
  apply bind_Ok in Hs as (m1 & Hu & Hs). apply bind_Ok in Hs as (a & _ & Hs).
  apply bind_Ok in Hs as (m2 & Hd & Hg).
  assert (Hm1 : model_ok m1).
  { eapply model_ok_upd_res, Hm; [|exact Hu]. destruct Hm as [-> _].
    intros b b' Hb. by eapply agent_ok_step_preamble. }
  assert (Hm2 : model_ok m2).
  { destruct (phase a); cbn in Hd;
      [by eapply model_ok_risk_identification|by eapply model_ok_risk_assessment
      |by eapply model_ok_protective_action_assessment|by injection Hd as <-]. }
  by eapply model_ok_general_communication.
Qed.

Lemma model_ok_shuffle_do_step m m' : shuffle_do_step m = Ok m' -> model_ok m -> model_ok m'.
Proof.
  unfold shuffle_do_step. destruct (rs_shuffle _ _) as [order g]. intros Hs Hm.
  revert Hs. apply (fold_res_inv model_ok); [|done].
  intros m1 j m2 H1 H2. by eapply model_ok_step.
Qed.

Lemma model_ok_government_warning_communication r im m :
  0 <= r -> model_ok m -> model_ok (government_warning_communication r im m).
Proof.
  intros Hr Hm. apply model_ok_fold_upd; [|done]. intros a Ha. unfold government_bump.
  apply agent_ok_add_other; [done|]. by apply agent_ok_add_social.
Qed.

Lemma model_ok_tick_broadcast m : model_ok m -> model_ok (tick_broadcast m).
Proof.
  intros Hm. pose proof Hm as [Hcfg _]. unfold tick_broadcast. rewrite Hcfg.
  repeat case_match; try done; apply model_ok_government_warning_communication; try done;
    apply Hc.
Qed.
End StoreLevel.

(** A tick preserves the range invariant. *)
Lemma store_ok_model_step {G} `{RandomSource G} `{Classifier} (m m' : Model G) :
  config_ok (m_cfg m) -> store_ok (m_store m) -> model_step m = Ok m' -> store_ok (m_store m').
Proof.
  intros Hc Hs Hm. assert (Hok : model_ok (m_cfg m) m) by done.
  rewrite model_step_unfold in Hm. apply bind_Ok in Hm as (m1 & Hsh & [= <-]).
  assert (Hm1 : model_ok (m_cfg m) m1) by (eapply model_ok_shuffle_do_step; eauto).
  assert (Hm2 : model_ok (m_cfg m) (tick_broadcast
    (if (m_steps m1 =? number_of_steps (m_cfg m1))%nat
     then set_finished m1 (average_evac_time (m_evac_history m1)) else m1)))
    by (apply (model_ok_tick_broadcast (m_cfg m) Hc); by case_match).
  apply Hm2.
Qed.

(** C7.  The specification's range invariant: if the communication
    constants and the media weight are non-negative and every agent
    satisfies [agent_ok] (in particular [0 <= risk_perception <= 1] and
    [0 <= media_cue <= 1]), then so does every agent after a tick of
    [EvacuationDec.step], whatever the agent order and the random draws. *)
Theorem model_step_store_ok {G} `{RandomSource G} `{Classifier} (m m' : Model G) :
  config_ok (m_cfg m) -> store_ok (m_store m) -> model_step m = Ok m' -> store_ok (m_store m').
Proof. apply store_ok_model_step. Qed.

(** ** A decision procedure for the invariant *)

Definition agent_ok_b (a : Individual) : bool :=
  let p := ind_params a in
  Qle_bool 0 (get a risk_perception) && Qle_bool (get a risk_perception) 1 &&
  Qle_bool 0 (get a media_cue) && Qle_bool (get a media_cue) 1 &&
  Qle_bool 0 (get a social_perception) && Qle_bool 0 (get a cue_perception) &&
  Qle_bool 0 (get a rain_cue) && Qle_bool 0 (get a wind_cue) &&
  Qle_bool 0 (env_weight p) && forallb (Qle_bool 0) (rain p) &&
  forallb (Qle_bool 0) (wind p) && forallb (Qle_bool 0) (media_trust p) &&
  (length (media_trust p) =? length (media_freq p))%nat.

Definition store_ok_b (s : gmap nat Individual) : bool :=
  forallb (fun ja => agent_ok_b ja.2) (map_to_list s).

Definition config_ok_b (c : Config) : bool :=
  Qle_bool 0 (media_weight_perc c) && Qle_bool 0 (phase_change_factor c) &&
  Qle_bool 0 (comm_watch_value_risk c) && Qle_bool 0 (comm_warning_value_risk c).

Lemma forallb_nonneg l : forallb (Qle_bool 0) l = true -> nonneg l.
Proof.
  intros H. apply Forall_forall. intros x Hx%list_elem_of_In.
  apply Qle_bool_iff. by apply (proj1 (forallb_forall _ _) H).
Qed.

Lemma agent_ok_b_sound a : agent_ok_b a = true -> agent_ok a.
Proof.
  unfold agent_ok_b. intros H. repeat apply andb_prop in H as [H ?].
  repeat match goal with Hq : Qle_bool _ _ = true |- _ => apply Qle_bool_iff in Hq end.
  split; try split; try done; try (by apply forallb_nonneg). by apply Nat.eqb_eq.
Qed.

Lemma store_ok_b_sound s : store_ok_b s = true -> store_ok s.
Proof.
  unfold store_ok_b. intros H j a Ha. apply agent_ok_b_sound.
  apply (proj1 (forallb_forall _ _) H (j, a)), list_elem_of_In. by apply elem_of_map_to_list.
Qed.

Lemma config_ok_b_sound c : config_ok_b c = true -> config_ok c.
Proof.
  unfold config_ok_b. intros H. repeat apply andb_prop in H as [H ?].
  repeat match goal with Hq : Qle_bool _ _ = true |- _ => apply Qle_bool_iff in Hq end.
  by split.
Qed.

(** ** A tick of the demo model *)

#[local] Existing Instances demo_source demo_classifier.

Definition demo_after_tick : Model nat := default demo_model (res_to_option (model_step demo_model)).

Lemma model_step_store_ok_witness : store_ok (m_store demo_after_tick).
Proof.
  apply (model_step_store_ok demo_model).
  - apply config_ok_b_sound. vm_compute. reflexivity.
  - apply store_ok_b_sound. vm_compute. reflexivity.
  - vm_compute. reflexivity.
Defined.
