(* ===== verification/Run.v ===== *)
(** * Run: the models the run loop passes through

    [reachable m m'] is the reflexive-transitive closure of one tick of
    [EvacuationDec.step] taken while [running] is set, which is what
    Mesa's [run_model] loop does ([run_model_reachable]).  By rule
    induction, every reachable model keeps the live-set invariant
    (Scheduler.v) and the range invariant (Bounds.v), the configuration,
    and every agent's parameters, and no phase goes back. *)
From S2P Require Import Prelude Config Individual Population Diffusion AgentStep Scheduler Bounds.

Section Run.
Context {G : Type} `{RandomSource G} `{Classifier}.
Implicit Types m : Model G.

(** The models the run loop passes through: [m2] is reachable from [m]
    when [while self.running: self.step()] started at [m] visits [m2]. *)
Inductive reachable : Model G -> Model G -> Prop :=
  | reach_refl m : reachable m m
  | reach_step m m1 m2 :
      m_running m = true -> model_step m = Ok m1 -> reachable m1 m2 -> reachable m m2.

Lemma run_model_reachable fuel m m' :
  run_model fuel m = Finished m' \/ run_model fuel m = OutOfFuel m' -> reachable m m'.
Proof.
  revert m. induction fuel as [|fuel IH]; intros m; cbn.
  - destruct (m_running m); intros [H1|H1]; simplify_eq; constructor.
  - destruct (m_running m) eqn:Hr; [|intros [H1|H1]; simplify_eq; constructor].
    destruct (model_step m) as [m1|e] eqn:Hm; [|intros [H1|H1]; discriminate].
    intros Hrun. econstructor; [done|done|]. by apply IH.
Qed.

Definition phase_le (p q : Phase) : Prop := (phase_num p <= phase_num q)%nat.

Lemma phase_le_succ p q : q = p \/ (p <> Acted /\ q = phase_succ p) -> phase_le p q.
Proof. unfold phase_le. intros [->|[_ ->]]; [lia|destruct p; cbn; lia]. Qed.

Lemma phase_le_trans p r : (exists q, phase_le p q /\ phase_le q r) -> phase_le p r.
Proof. unfold phase_le. intros (q & ? & ?). lia. Qed.

(** The invariants along a run. *)
Lemma reachable_preserves `{!RandomSourceLaws G} m0 m :
  reachable m0 m -> live_inv m0 -> config_ok (m_cfg m0) -> store_ok (m_store m0) ->
  live_inv m /\ store_ok (m_store m) /\ m_cfg m = m_cfg m0 /\
  store_phases (fun _ => phase_le) (m_store m0) (m_store m).
Proof.
  induction 1 as [m|m m1 m2 Hr Hm _ IH]; intros Hl Hc Hs.
  - split_and!; try done. intros j. destruct (m_store m !! j); constructor. split; [done|].
    unfold phase_le. lia.
  - pose proof (model_step_fields _ _ Hm) as (_ & Hc1 & _).
    destruct IH as (Hl2 & Hs2 & Hc2 & Hp2).
    + by eapply live_inv_model_step.
    + by rewrite Hc1.
    + by eapply store_ok_model_step.
    + split_and!; [done|done|congruence|].
      eapply store_phases_impl; [eapply store_phases_compose; [|apply Hp2]|].
      * eapply store_phases_impl; [by eapply model_step_phases|]. intros j p q. apply phase_le_succ.
      * intros j p r. apply phase_le_trans.
Qed.

(** C4.  Every model the run loop reaches from a model satisfying the
    live-set invariant and the range invariant (with non-negative
    constants) satisfies both invariants, has the same configuration, keeps
    every agent with its parameters, and no agent's phase has gone back. *)
Theorem reachable_invariants `{!RandomSourceLaws G} m0 m :
  reachable m0 m -> live_inv m0 -> config_ok (m_cfg m0) -> store_ok (m_store m0) ->
  live_inv m /\ store_ok (m_store m) /\ m_cfg m = m_cfg m0 /\
  store_phases (fun _ => phase_le) (m_store m0) (m_store m).
Proof. apply reachable_preserves. Qed.

End Run.

#[local] Existing Instances demo_source demo_source_laws demo_classifier.

Lemma reachable_invariants_witness :
  live_inv demo_after_tick /\ store_ok (m_store demo_after_tick) /\
  m_cfg demo_after_tick = m_cfg demo_model /\
  store_phases (fun _ => phase_le) (m_store demo_model) (m_store demo_after_tick).
Proof.
  apply reachable_invariants.
  - eapply reach_step; [reflexivity|vm_compute; reflexivity|apply reach_refl].
  - apply demo_model_live_inv.
  - apply config_ok_b_sound. vm_compute. reflexivity.
  - apply store_ok_b_sound. vm_compute. reflexivity.
Defined.
