(* ===== verification/Scenario.v ===== *)
(** The end-to-end scenario of the specification: four agents in a ring of
    acquaintances, identical parameters, [RI_thresh = 0.2], constant cues
    giving [cue_perception = 0.25], no media.  The model is run with
    [model_step] of Scheduler.v and a scripted random source that plays back
    the orders chosen by [shuffle_do]; the theorems quantify over every
    order of both ticks. *)
From S2P Require Import Prelude Config Individual Population Diffusion AgentStep Scheduler.
From stdpp Require Import list_monad.
Open Scope Q_scope.

(** A random source that plays back a list of agent orders, one per call of
    [shuffle_do]; [random] is never reached in this scenario (no agent
    reaches [Deciding]). *)
#[local] Instance scripted_source : RandomSource (list (list nat)) := {|
  rs_random g := (0, g);
  rs_shuffle l g := match g with o :: g' => (o, g') | [] => (l, []) end |}.
#[local] Existing Instance demo_classifier.

(** Agent [i] of the ring: acquaintances [i-1] and [i+1] modulo 4. *)
Definition ring_agent (i : nat) : Individual :=
  match Individual_init default_config i [((i + 3) mod 4)%nat; ((i + 1) mod 4)%nat]
          [1; 0; 1] [0.5; 0; 1] (repeat 0%Z 10) (repeat 0 40) (repeat (25#18) 100)
          (repeat 0 40) with
  | Ok a => a
  | Err _ => sample_individual
  end.

Definition ring_ids : list nat := [0; 1; 2; 3]%nat.

Definition ring_model (orders : list (list nat)) : Model (list (list nat)) :=
  mkModel default_config (list_to_map (map (fun i => (i, ring_agent i)) ring_ids))
    ring_ids 0 zero_counters (mkPhaseCounts 0 0 0) (Some 0) true [] orders.

(** Decision procedures for the observations of the scenario. *)
Definition all_in_phase (p : Phase) (m : Model (list (list nat))) : bool :=
  forallb (fun i => match m_store m !! i with
                    | Some a => bool_decide (phase a = p) | None => false end) ring_ids.

Definition some_risk_differs (m : Model (list (list nat))) : bool :=
  existsb (fun i => existsb (fun j =>
    match m_store m !! i, m_store m !! j with
    | Some a, Some b => negb (Qeq_bool (get a risk_perception) (get b risk_perception))
    | _, _ => false end) ring_ids) ring_ids.

Definition two_ticks_observed (o1 o2 : list nat) : bool :=
  match model_step (ring_model [o1; o2]) with
  | Ok m1 => all_in_phase Unaware m1 &&
             match model_step m1 with
             | Ok m2 => all_in_phase Aware m2 && some_risk_differs m2
             | Err _ => false end
  | Err _ => false end.

Lemma all_in_phase_sound p m i :
  all_in_phase p m = true -> i ∈ ring_ids -> exists a, m_store m !! i = Some a /\ phase a = p.
Proof.
  unfold all_in_phase. rewrite forallb_forall. intros H Hi.
  apply list_elem_of_In, H in Hi. destruct (m_store m !! i); [|done].
  apply bool_decide_eq_true in Hi. eauto.
Qed.

Lemma some_risk_differs_sound m :
  some_risk_differs m = true -> exists i j a b, m_store m !! i = Some a /\
    m_store m !! j = Some b /\ ~ get a risk_perception == get b risk_perception.
Proof.
  unfold some_risk_differs. intros (i & _ & Hi)%existsb_exists.
  apply existsb_exists in Hi as (j & _ & Hj).
  destruct (m_store m !! i) as [a|] eqn:Ea, (m_store m !! j) as [b|] eqn:Eb; try done.
  exists i, j, a, b. repeat split; try done.
  apply negb_true_iff, Qeq_bool_false in Hj. done.
Qed.

Lemma two_ticks_all_orders :
  forallb (fun o1 => forallb (two_ticks_observed o1) (permutations ring_ids))
    (permutations ring_ids) = true.
Proof. vm_compute. reflexivity. Qed.

Lemma two_ticks_observed_any o1 o2 :
  o1 ≡ₚ ring_ids -> o2 ≡ₚ ring_ids -> two_ticks_observed o1 o2 = true.
Proof.
  intros H1 H2. pose proof two_ticks_all_orders as H. rewrite forallb_forall in H.
  symmetry in H1, H2. apply permutations_Permutation in H1, H2.
  apply list_elem_of_In, H in H1. rewrite forallb_forall in H1.
  by apply H1, list_elem_of_In.
Qed.

(** C16.  The specification's ring scenario, whatever order [shuffle_do]
    picks at each of the first two ticks: after the first tick every agent
    is still [Unaware] (the threshold compares the risk perception computed
    from the previous tick's cue), after the second tick every agent is
    [Aware], and the agents' [risk_perception] values are not all equal
    (the agents update one after another, and each newly aware agent bumps
    the social perception of the acquaintances that have not stepped yet).
    The specification says the agents become aware at tick 1 and keep equal
    values. *)
Theorem ring_scenario_two_ticks o1 o2 :
  o1 ≡ₚ ring_ids -> o2 ≡ₚ ring_ids ->
  exists m1 m2, model_step (ring_model [o1; o2]) = Ok m1 /\ model_step m1 = Ok m2 /\
    (forall i, i ∈ ring_ids -> exists a, m_store m1 !! i = Some a /\ phase a = Unaware) /\
    (forall i, i ∈ ring_ids -> exists a, m_store m2 !! i = Some a /\ phase a = Aware) /\
    exists i j a b, m_store m2 !! i = Some a /\ m_store m2 !! j = Some b /\
      ~ get a risk_perception == get b risk_perception.
Proof.
  intros H1 H2. pose proof (two_ticks_observed_any o1 o2 H1 H2) as H.
  unfold two_ticks_observed in H.
  destruct (model_step (ring_model [o1; o2])) as [m1|] eqn:E1; [|done].
  apply andb_prop in H as [Hu H]. destruct (model_step m1) as [m2|] eqn:E2; [|done].
  apply andb_prop in H as [Ha Hd].
  exists m1, m2. split_and!; try done; try (intros i; by apply all_in_phase_sound).
  by apply some_risk_differs_sound.
Qed.

Lemma ring_scenario_two_ticks_witness :
  exists m1 m2, model_step (ring_model [ring_ids; rev ring_ids]) = Ok m1 /\
    model_step m1 = Ok m2 /\
    (forall i, i ∈ ring_ids -> exists a, m_store m1 !! i = Some a /\ phase a = Unaware) /\
    (forall i, i ∈ ring_ids -> exists a, m_store m2 !! i = Some a /\ phase a = Aware) /\
    exists i j a b, m_store m2 !! i = Some a /\ m_store m2 !! j = Some b /\
      ~ get a risk_perception == get b risk_perception.
Proof.
  apply ring_scenario_two_ticks; [reflexivity|]. apply Permutation_rev.
Defined.
