(* ===== verification/Setup.v ===== *)
(** Construction of the population and its two graphs: [population_bootstrapper]
    (helper_functions.py), the agent-creation loop of [EvacuationDec.__init__]
    with the acquaintances read from the partially filled [NetworkGrid]
    (Model.py, Agent.py), [closest_neighbours] over the KD-tree
    (helper_functions.py) and [data_collection_attributes] (run_config.py).
    The survey tables, the small-world graph, the location draws and the
    KD-tree query are inputs or type classes: their contents come from CSV
    files, networkx, numpy and scipy.  The last part shows that, on
    non-negative and well-shaped input tables ([inputs_ok]), the constructed
    agents satisfy the range invariant of Bounds.v, and through Run.v so
    does every model the constructor's run reaches. *)
From S2P Require Import Prelude Config Timeline Individual Population AgentStep Scheduler Bounds Run.
From stdpp Require Import strings sorting.
Open Scope Q_scope.

(** ** PopulationBootstrap *)

(** The two random operations of [population_bootstrapper]:
    [random.randint(a, b)] and the row positions drawn by
    [DataFrame.sample(n=n, replace=True, random_state=s)] from [R] rows,
    which depend only on the state, [n] and [R]. *)
Class BootstrapSource (G : Type) := {
  bs_randint : Z -> Z -> G -> Z * G;
  bs_sample : Z -> nat -> nat -> list nat
}.

(** What pandas and numpy guarantee: [n] draws, each a row position. *)
Class BootstrapSourceLaws (G : Type) `{BootstrapSource G} := {
  bs_sample_length : forall s n R, length (bs_sample s n R) = n;
  bs_sample_range : forall s n R, (0 < R)%nat -> Forall (fun j => j < R)%nat (bs_sample s n R)
}.

Section Bootstrap.
Context {G : Type} `{BootstrapSource G}.

(** [df.sample(n=n, replace=True, random_state=s).reset_index(drop=True)]:
    numpy refuses to draw from an empty table. *)
Definition df_sample {A} (s : Z) (n : nat) (rows : list A) : res (list A) :=
  if (n =? 0)%nat then Ok [] else
  if (length rows =? 0)%nat then Err ValueError
  else mapM (fun j => py_index rows (Z.of_nat j)) (bs_sample s n (length rows)).

(** [df.drop(columns=df.columns[0])]: the index column written by [to_csv]. *)
Definition drop_first_column {A} (rows : list (list A)) : list (list A) :=
  map (drop 1) rows.

(** [population_bootstrapper(init_individuals, seed)], lines 7-40: only the
    branch [seed is None] binds [rand_int]; the three tables are sampled with
    the same [random_state]. *)
Definition population_bootstrapper {A B C} (init_individuals : nat) (seed : option Z)
    (predictors_df : list (list A)) (weights : list (list B)) (media_weights : list (list C))
    (g : G) : res (list (list A) * list (list B) * list (list C) * G) :=
  match seed with
  | Some _ => Err NameError
  | None =>
      let '(rand_int, g') := bs_randint 1 1000000 g in
      f ← df_sample rand_int init_individuals (drop_first_column predictors_df);
      w ← df_sample rand_int init_individuals (drop_first_column weights);
      m ← df_sample rand_int init_individuals (drop_first_column media_weights);
      Ok (f, w, m, g')
  end.

End Bootstrap.

Section BootstrapTheorems.
Context {G : Type} `{BootstrapSourceLaws G}.

Lemma length_drop_first_column {A} (rows : list (list A)) :
  length (drop_first_column rows) = length rows.
Proof. apply length_map. Qed.

(** Sampling a non-empty table succeeds, row [i] of the result being the
    source row at the [i]-th drawn position. *)
Lemma df_sample_rows {A} s n (rows : list A) :
  (0 < length rows)%nat ->
  exists xs, df_sample s n rows = Ok xs /\
    Forall2 (fun j x => rows !! j = Some x) (bs_sample s n (length rows)) xs.
Proof.
  intros HR. unfold df_sample.
  destruct (n =? 0)%nat eqn:En.
  - apply Nat.eqb_eq in En as ->. exists []. split; [done|].
    pose proof (bs_sample_length s 0 (length rows)) as Hl.
    destruct (bs_sample s 0 (length rows)); [constructor|done].
  - rewrite (proj2 (Nat.eqb_neq _ 0)) by lia.
    by apply mapM_py_index, bs_sample_range.
Qed.

(** The seeded branch reads [rand_int] before it is bound. *)
Lemma population_bootstrapper_seeded {A B C} n s (P : list (list A)) (W : list (list B))
    (M : list (list C)) g :
  population_bootstrapper n (Some s) P W M g = Err NameError.
Proof. done. Qed.

(** Bootstrap alignment: from three non-empty tables of equal row
    count, an unseeded [population_bootstrapper] returns three tables of
    [init_individuals] rows in which row [i] of each comes from the same
    drawn source row (with its index column dropped). *)
Theorem population_bootstrapper_aligned {A B C} n (P : list (list A)) (W : list (list B))
    (M : list (list C)) g :
  length P = length W -> length W = length M -> (0 < length P)%nat ->
  exists idx f w m g', population_bootstrapper n None P W M g = Ok (f, w, m, g') /\
    length idx = n /\
    Forall2 (fun j r => drop_first_column P !! j = Some r) idx f /\
    Forall2 (fun j r => drop_first_column W !! j = Some r) idx w /\
    Forall2 (fun j r => drop_first_column M !! j = Some r) idx m.
Proof.
  intros HPW HWM HP. unfold population_bootstrapper.
  destruct (bs_randint 1 1000000 g) as [s g'].
  destruct (df_sample_rows s n (drop_first_column P)) as (f & Hf & Ff);
    [by rewrite length_drop_first_column|].
  destruct (df_sample_rows s n (drop_first_column W)) as (w & Hw & Fw);
    [rewrite length_drop_first_column; lia|].
  destruct (df_sample_rows s n (drop_first_column M)) as (m & Hm & Fm);
    [rewrite length_drop_first_column; lia|].
  rewrite !length_drop_first_column, <- HPW in *. rewrite <- HWM in Fm.
  exists (bs_sample s n (length P)), f, w, m, g'. rewrite Hf, Hw, Hm.
  split_and!; try done. apply bs_sample_length.
Qed.

(** Misaligned tables are not rejected: an unseeded
    [population_bootstrapper] over any three non-empty tables succeeds,
    whatever their row counts; the specification asks for a configuration
    error when the counts differ. *)
Theorem population_bootstrapper_accepts_misaligned {A B C} n (P : list (list A))
    (W : list (list B)) (M : list (list C)) g :
  (0 < length P)%nat -> (0 < length W)%nat -> (0 < length M)%nat ->
  exists r, population_bootstrapper n None P W M g = Ok r.
Proof.
  intros HP HW HM. unfold population_bootstrapper.
  destruct (bs_randint 1 1000000 g) as [s g'].
  destruct (df_sample_rows s n (drop_first_column P)) as (f & -> & _);
    [by rewrite length_drop_first_column|].
  destruct (df_sample_rows s n (drop_first_column W)) as (w & -> & _);
    [by rewrite length_drop_first_column|].
  destruct (df_sample_rows s n (drop_first_column M)) as (m & -> & _);
    [by rewrite length_drop_first_column|].
  by eexists.
Qed.

End BootstrapTheorems.

(** A deterministic sampler: [randint] returns its lower bound and the
    [i]-th draw is row [(i + s) mod R]. *)
Definition cyclic_sampler : BootstrapSource unit := {|
  bs_randint a _ g := (a, g);
  bs_sample s n R := map (fun i => ((i + Z.to_nat s) mod R)%nat) (seq 0 n) |}.

Lemma cyclic_sampler_laws : @BootstrapSourceLaws unit cyclic_sampler.
Proof.
  split.
  - intros. cbn. by rewrite length_map, length_seq.
  - intros s n R HR. cbn. apply Forall_forall. intros j Hj.
    apply list_elem_of_In, in_map_iff in Hj as (i & <- & _).
    apply Nat.mod_upper_bound. lia.
Qed.

#[local] Existing Instances cyclic_sampler cyclic_sampler_laws.

Definition survey_predictors : list (list Q) := [[0; 1; 2]; [1; 3; 4]; [2; 5; 6]].
Definition survey_weights : list (list Q) := [[0; 0.5; 0; 1]; [1; 0.2; 0; 0.5]; [2; 0.1; 1; 0]].
Definition survey_media : list (list Z) := [repeat 0%Z 11; repeat 1%Z 11; repeat 2%Z 11].

Lemma population_bootstrapper_aligned_witness :
  exists idx f w m g', population_bootstrapper 4 None survey_predictors survey_weights
      survey_media tt = Ok (f, w, m, g') /\ length idx = 4%nat /\
    Forall2 (fun j r => drop_first_column survey_predictors !! j = Some r) idx f /\
    Forall2 (fun j r => drop_first_column survey_weights !! j = Some r) idx w /\
    Forall2 (fun j r => drop_first_column survey_media !! j = Some r) idx m.
Proof. apply population_bootstrapper_aligned; cbn; lia. Defined.

Lemma population_bootstrapper_accepts_misaligned_witness :
  exists r, population_bootstrapper 4 None survey_predictors (take 2 survey_weights)
      survey_media tt = Ok r.
Proof. apply population_bootstrapper_accepts_misaligned; cbn; lia. Defined.

(** ** Agent creation (Model.py lines 111-147, Agent.py lines 22-62) *)

(** The state of the creation loop: the agents placed on the [NetworkGrid]
    (node to agent id), the agents by id, [self.agents] in creation order,
    and the values of [self.pos_dict] in insertion order. *)
Record Building := mkBuilding {
  b_grid : gmap nat nat;
  b_store : gmap nat Individual;
  b_agents : list nat;
  b_coords : list (Q * Q)
}.

Definition empty_building : Building := mkBuilding ∅ ∅ [] [].

(** The tract data of [init_data]: centroids, wind, rain and surge series. *)
Record TractData := mkTractData {
  td_centroid : list (Q * Q);
  td_wind : list (list Q);
  td_rain : list (list Q);
  td_surge : list (list Q)
}.

(** [self.model.grid.get_neighbors(node_id)]: the agents on the nodes
    adjacent to [node_id] that hold one, in networkx's adjacency order. *)
Definition get_neighbors (adj : nat -> list nat) (grid : gmap nat nat) (node_id : nat) : list nat :=
  omap (fun n => grid !! n) (adj node_id).

(** One iteration of [for node_id in range(len(self.G.nodes))]: the
    location draw, the rows of the bootstrapped tables, the shifted surge
    series, [Individual(self, **agent_attributes)] (whose [unique_id] is
    [node_id + 1] and whose acquaintances are read from the grid before it is
    placed), [self.pos_dict[agent] = ...] and [self.grid.place_agent]. *)
Definition create_agent (c : Config) (adj : nat -> list nat) (td : TractData)
    (factor_data weight_data : list (list Q)) (media_weight : list (list Z))
    (population_idx : nat) (b : Building) (node_id : nat) : res Building :=
  factors ← py_index factor_data (Z.of_nat node_id);
  weights ← py_index weight_data (Z.of_nat node_id);
  media ← py_index media_weight (Z.of_nat node_id);
  wind ← py_index (td_wind td) (Z.of_nat population_idx);
  rain ← py_index (td_rain td) (Z.of_nat population_idx);
  surge ← py_index (td_surge td) (Z.of_nat population_idx);
  let storm_surge := shift_watch_warning surge (Z.quot (communication_timing c) 3)
                       (Z.quot (watch_shift c) 3) 0 in
  let unique_id := S node_id in
  agent ← Individual_init c unique_id (get_neighbors adj (b_grid b) node_id)
            factors weights media wind rain storm_surge;
  pos ← py_index (td_centroid td) (Z.of_nat population_idx);
  Ok (mkBuilding (<[node_id := unique_id]> (b_grid b)) (<[unique_id := agent]> (b_store b))
                 (b_agents b ++ [unique_id]) (b_coords b ++ [pos])).

(** [for node_id in range(len(self.G.nodes))], [draw node_id] being the
    location drawn by [np.random.choice(len(init_data), p=init_data["PopDense"])]
    in that iteration. *)
Definition create_agents c adj td factor_data weight_data media_weight
    (draw : nat -> nat) (N : nat) : res Building :=
  fold_res (fun b node_id =>
              create_agent c adj td factor_data weight_data media_weight (draw node_id) b node_id)
    (seq 0 N) empty_building.

(** The graph neighbours of node [pred u] created before it, as agent ids. *)
Definition lower_neighbors (adj : nat -> list nat) (u : nat) : list nat :=
  map S (filter (fun n => n < pred u)%nat (adj (pred u))).

(** What the loop has built after the nodes [0 .. k-1]. *)
Record built_inv (adj : nat -> list nat) (k : nat) (b : Building) : Prop := {
  bi_grid : forall n, b_grid b !! n = if decide (n < k)%nat then Some (S n) else None;
  bi_agents : b_agents b = map S (seq 0 k);
  bi_coords : length (b_coords b) = k;
  bi_dom : forall u, is_Some (b_store b !! u) <-> (1 <= u <= k)%nat;
  bi_agent : forall u a, b_store b !! u = Some a ->
    unique_id (ind_params a) = u /\ acquaintances (ind_params a) = lower_neighbors adj u /\
    neigh_individuals (ind_params a) = [] /\ phase a = Unaware
}.

Lemma Individual_init_fields c node acq f w mv wl rl sl a :
  Individual_init c node acq f w mv wl rl sl = Ok a ->
  unique_id (ind_params a) = node /\ acquaintances (ind_params a) = acq /\
  neigh_individuals (ind_params a) = [] /\ phase a = Unaware.
Proof. unfold Individual_init. intros H. res_inv. by simplify_eq. Qed.

Lemma get_neighbors_partial adj grid k :
  (forall n, grid !! n = if decide (n < k)%nat then Some (S n) else None) ->
  get_neighbors adj grid k = lower_neighbors adj (S k).
Proof.
  intros Hg. unfold get_neighbors, lower_neighbors. cbn [pred].
  induction (adj k) as [|n ns IH]; [done|].
  rewrite filter_cons. cbn. rewrite Hg. case_decide; cbn; by rewrite IH.
Qed.

Lemma built_inv_empty adj : built_inv adj 0 empty_building.
Proof.
  split; cbn [empty_building b_grid b_agents b_coords b_store]; try done.
  intros u. rewrite lookup_empty. split; [by intros []|lia].
Qed.

Lemma create_agent_inv c adj td F W M loc b k b' :
  built_inv adj k b ->
  create_agent c adj td F W M loc b k = Ok b' -> built_inv adj (S k) b'.
Proof.
  intros [Hg Ha Hc Hd Hs] H. unfold create_agent in H. res_inv.
  match goal with Hi : Individual_init _ _ _ _ _ _ _ _ _ = Ok _ |- _ =>
    pose proof (Individual_init_fields _ _ _ _ _ _ _ _ _ _ Hi) as (Hu & Hq & Hn & Hp) end.
  rewrite get_neighbors_partial in Hq by done. subst b'.
  split; cbn [b_grid b_agents b_coords b_store].
  - intros n. destruct (decide (n = k)) as [->|]; [rewrite lookup_insert_eq; case_decide; [done|lia]|].
    rewrite lookup_insert_ne, Hg by done. repeat case_decide; done || lia.
  - by rewrite Ha, seq_S, map_app.
  - rewrite length_app, Hc. cbn. lia.
  - intros u. destruct (decide (u = S k)) as [->|]; [rewrite lookup_insert_eq; split; [lia|eauto]|].
    rewrite lookup_insert_ne, Hd by done. lia.
  - intros u a. destruct (decide (u = S k)) as [->|].
    + rewrite lookup_insert_eq. intros [= <-]. done.
    + rewrite lookup_insert_ne by done. apply Hs.
Qed.

Lemma create_agents_inv c adj td F W M draw N b :
  create_agents c adj td F W M draw N = Ok b -> built_inv adj N b.
Proof.
  revert b. induction N as [|N IH]; intros b H.
  - cbn in H. simplify_eq. apply built_inv_empty.
  - unfold create_agents in H. rewrite seq_S in H.
    apply fold_res_snoc_Ok in H as (b0 & H0 & H1).
    eapply create_agent_inv; [apply IH, H0|]. cbn in H1. exact H1.
Qed.

Lemma lower_neighbors_lt adj u v : v ∈ lower_neighbors adj u -> (1 <= v < u)%nat.
Proof.
  unfold lower_neighbors. intros (n & -> & Hn)%list_elem_of_fmap.
  apply list_elem_of_filter in Hn as [Hn _]. lia.
Qed.

(** The acquaintances of the agent with [unique_id] [u] are the agents
    on the graph neighbours of its node [u - 1] that were created before it:
    [get_neighbors] is called in [Individual.__init__] before the agent and
    its successors are placed on the grid.  So every acquaintance has a
    smaller id, and agent 1 has none. *)
Theorem create_agents_acquaintances c adj td F W M draw N b u a :
  create_agents c adj td F W M draw N = Ok b -> b_store b !! u = Some a ->
  (1 <= u <= N)%nat /\ acquaintances (ind_params a) = lower_neighbors adj u /\
  Forall (fun v => 1 <= v < u)%nat (acquaintances (ind_params a)).
Proof.
  intros H Ha. destruct (create_agents_inv _ _ _ _ _ _ _ _ _ H) as [_ _ _ Hd Hs].
  destruct (Hs u a Ha) as (_ & Hq & _). split; [apply Hd; eauto|]. split; [done|].
  apply Forall_forall. rewrite Hq. apply lower_neighbors_lt.
Qed.

(** Every edge [x -- y] of the graph with [x < y] (networkx's
    adjacency lists it on both nodes) is an acquaintance of one endpoint only:
    the agent of the higher node knows the lower one, never the converse.
    The specification describes the acquaintance relation as symmetric. *)
Theorem create_agents_edge_one_way c adj td F W M draw N b x y ax ay :
  create_agents c adj td F W M draw N = Ok b ->
  (x < y)%nat -> x ∈ adj y ->
  b_store b !! S x = Some ax -> b_store b !! S y = Some ay ->
  S x ∈ acquaintances (ind_params ay) /\ S y ∉ acquaintances (ind_params ax).
Proof.
  intros H Hxy Hx Hax Hay.
  destruct (create_agents_inv _ _ _ _ _ _ _ _ _ H) as [_ _ _ _ Hs].
  destruct (Hs _ _ Hax) as (_ & -> & _), (Hs _ _ Hay) as (_ & -> & _). split.
  - apply list_elem_of_fmap. exists x. split; [done|].
    apply list_elem_of_filter. cbn. split; [lia|done].
  - intros ?%lower_neighbors_lt. lia.
Qed.

(** ** Spatial neighbours (helper_functions.py lines 213-228) *)

(** [KDTree(coords).query(x, k=k)[1]] for [k >= 2]: the positions of the
    [k] points nearest to [x], as an array. *)
Class KDTree := kd_query : list (Q * Q) -> Q * Q -> nat -> list nat.

(** What scipy documents of the array ([k >= 2]; [k = 1] is
    [tree_query_indices]): [k] results; with at least [k] points they are
    distinct positions; with fewer, every point is returned and the missing
    neighbours are reported as the position [len(data)]. *)
Class KDTreeLaws `{KDTree} := {
  kd_query_length : forall pts x k, length (kd_query pts x k) = k;
  kd_query_enough : forall pts x k, (k <= length pts)%nat ->
    NoDup (kd_query pts x k) /\ Forall (fun j => j < length pts)%nat (kd_query pts x k);
  kd_query_missing : forall pts x k, (length pts < k)%nat ->
    exists found, found ≡ₚ seq 0 (length pts) /\
      kd_query pts x k = found ++ repeat (length pts) (k - length pts)
}.

Section Neighbours.
Context `{KDTree}.

(** [closest_neighbours(model, id, nn)]: [keys] is [list(model.pos_dict.keys())]
    (the agents in creation order) and [coords] the tree's data. *)
(** [for uq_id in model.tree.query(x, k=k)[1]]: for [k = 1] scipy
    squeezes the result to a scalar [numpy.int64], which is not iterable
    ([TypeError]); otherwise the array of [kd_query]. *)
Definition tree_query_indices (coords : list (Q * Q)) (x : Q * Q) (k : nat) : res (list nat) :=
  if (k =? 1)%nat then Err TypeError else Ok (kd_query coords x k).

Definition closest_neighbours (keys : list nat) (coords : list (Q * Q)) (id nn : nat)
    : res (list nat) :=
  self ← py_index keys (Z.of_nat id - 1);
  x ← py_index coords (Z.of_nat self - 1);
  idx ← tree_query_indices coords x (nn + 1);
  a ← mapM (fun uq_id => py_index keys (Z.of_nat uq_id)) idx;
  Ok (List.filter (fun i => negb (i =? id)%nat) a).

(** [for agent in self.agents: agent.neigh_individuals = closest_neighbours(...)],
    Model.py lines 153-154. *)
Definition assign_neighbours (b : Building) (n_neighbors : nat) : res Building :=
  fold_res (fun b' u =>
              ns ← closest_neighbours (b_agents b) (b_coords b) u n_neighbors;
              Ok (mkBuilding (b_grid b') (alter (fun a => set_neigh a ns) u (b_store b'))
                             (b_agents b') (b_coords b')))
    (b_agents b) b.

End Neighbours.

Lemma mapM_res_app_Err {A B} (f : A -> res B) l1 y l2 xs e :
  mapM f l1 = Ok xs -> f y = Err e -> mapM f (l1 ++ y :: l2) = Err e.
Proof.
  revert xs. induction l1 as [|x l1 IH]; intros xs H1 Hy; cbn in *.
  - by rewrite Hy.
  - destruct (f x); cbn in *; [|done].
    destruct (mapM f l1) eqn:E; cbn in *; [|done]. by rewrite (IH _ eq_refl Hy).
Qed.

Lemma NoDup_filter_neq_length (l : list nat) x :
  NoDup l -> (length l <= S (length (List.filter (fun i => negb (i =? x)%nat) l)))%nat.
Proof.
  induction 1 as [|y l Hy Hl IH]; cbn; [lia|].
  destruct (Nat.eqb_spec y x) as [->|]; cbn; [|lia].
  rewrite List.filter_ext_in with (g := fun _ => true), List.filter_true; [lia|].
  intros i Hi. destruct (Nat.eqb_spec i x) as [->|]; [|done]. by apply list_elem_of_In in Hi.
Qed.

Lemma filter_neq_length_le (l : list nat) x :
  (length (List.filter (fun i => negb (i =? x)%nat) l) <= length l)%nat.
Proof. apply List.filter_length_le. Qed.

Lemma lookup_agent_ids N j : (j < N)%nat -> map S (seq 0 N) !! j = Some (S j).
Proof. intros Hj. by rewrite list_lookup_fmap, lookup_seq_lt. Qed.

Lemma py_index_agent_ids N id :
  (1 <= id <= N)%nat -> py_index (map S (seq 0 N)) (Z.of_nat id - 1) = Ok id.
Proof.
  intros Hid. replace (Z.of_nat id - 1)%Z with (Z.of_nat (pred id)) by lia.
  apply py_index_nat. rewrite lookup_agent_ids by lia. f_equal. lia.
Qed.

Section NeighbourTheorems.
Context `{KDTreeLaws}.

Lemma mapM_agent_ids N (q : list nat) :
  Forall (fun j => j < N)%nat q ->
  mapM (fun uq_id => py_index (map S (seq 0 N)) (Z.of_nat uq_id)) q = Ok (map S q).
Proof.
  induction 1 as [|j q Hj _ IH]; [done|]. cbn.
  by rewrite (py_index_nat _ _ _ (lookup_agent_ids _ _ Hj)), IH.
Qed.

(** C28.  With [n_neighbors = 0] the KD-tree query returns a scalar and
    [closest_neighbours] raises [TypeError].  With [n_neighbors >= 1] and at
    least [n_neighbors + 1] agents it returns distinct agent ids, never the
    agent itself, and [n_neighbors] of them, or [n_neighbors + 1] when the
    query at the agent's own location does not return the agent (several
    agents share the centroid of a tract). *)
Theorem closest_neighbours_spec N coords id nn :
  length coords = N -> (nn + 1 <= N)%nat -> (1 <= id <= N)%nat ->
  (nn = 0%nat -> closest_neighbours (map S (seq 0 N)) coords id nn = Err TypeError) /\
  ((1 <= nn)%nat ->
   exists ns, closest_neighbours (map S (seq 0 N)) coords id nn = Ok ns /\
     (id ∉ ns) /\ NoDup ns /\ Forall (fun v => 1 <= v <= N)%nat ns /\
     (nn <= length ns <= nn + 1)%nat).
Proof.
  intros Hc Hk Hid. unfold closest_neighbours.
  rewrite py_index_agent_ids by done. cbn [mbind res_bind].
  destruct (py_index_in_range coords (Z.of_nat id - 1)) as [x Hx]; [lia|].
  rewrite Hx. cbn [mbind res_bind]. unfold tree_query_indices.
  split; [by intros ->|intros Hnn]. rewrite (proj2 (Nat.eqb_neq _ _)) by lia. cbn [mbind res_bind].
  destruct (kd_query_enough coords x (nn + 1)) as [Hnd Hr]; [lia|].
  rewrite Hc in Hr. rewrite (mapM_agent_ids _ _ Hr).
  pose proof (kd_query_length coords x (nn + 1)) as Hl.
  set (q := kd_query coords x (nn + 1)) in *.
  assert (Hnd' : NoDup (map S q)) by (apply NoDup_fmap; [intros ?? [=]|]; done).
  pose proof (NoDup_filter_neq_length (map S q) id Hnd').
  pose proof (filter_neq_length_le (map S q) id).
  rewrite length_map, Hl in *.
  eexists. split; [reflexivity|]. split_and!; [| |apply Forall_forall|lia..].
  - intros Hin%list_elem_of_In. apply List.filter_In in Hin as [_ Hn].
    by rewrite Nat.eqb_refl in Hn.
  - apply NoDup_ListNoDup, List.NoDup_filter, NoDup_ListNoDup, Hnd'.
  - intros v Hv%list_elem_of_In. apply List.filter_In in Hv as [Hv _].
    apply list_elem_of_In, list_elem_of_fmap in Hv as (j & -> & Hj).
    rewrite Forall_forall in Hr. specialize (Hr j Hj). lia.
Qed.

(** C29.  With fewer agents than [n_neighbors + 1], the KD-tree reports the
    missing neighbours as position [len(data)], [list(model.pos_dict.keys())]
    has no such element, and [closest_neighbours] raises [IndexError]: the
    model cannot be built with [init_individuals <= n_neighbors]. *)
Theorem closest_neighbours_small_population N coords id nn :
  length coords = N -> (N < nn + 1)%nat -> (1 <= id <= N)%nat ->
  closest_neighbours (map S (seq 0 N)) coords id nn = Err IndexError.
Proof.
  intros Hc Hk Hid. unfold closest_neighbours.
  rewrite py_index_agent_ids by done. cbn [mbind res_bind].
  destruct (py_index_in_range coords (Z.of_nat id - 1)) as [x Hx]; [lia|].
  rewrite Hx. cbn [mbind res_bind]. unfold tree_query_indices.
  rewrite (proj2 (Nat.eqb_neq _ _)) by lia. cbn [mbind res_bind].
  destruct (kd_query_missing coords x (nn + 1)) as (found & Hf & ->); [lia|].
  rewrite Hc in *. replace (nn + 1 - N)%nat with (S (nn - N)) by lia. cbn [repeat].
  erewrite mapM_res_app_Err; [done| |].
  - apply mapM_agent_ids. apply Forall_forall. intros j Hj.
    rewrite Hf in Hj. apply elem_of_seq in Hj. lia.
  - apply py_index_nat_None, lookup_ge_None_2. rewrite length_map, length_seq. lia.
Qed.

End NeighbourTheorems.

(** ** Data collection settings (run_config.py lines 7-97) *)

(** A model reporter: an attribute name, or one of the two functions of
    helper_functions.py. *)
Inductive Reporter :=
  | rep_attr (name : String.string)
  | rep_retrieve_wind_cue
  | rep_retrieve_rain_cue.


Definition singlerun_agent_attributes : list (String.string * String.string) :=
  [("phase", "phase"); ("wind_cue", "wind_cue"); ("rain_cue", "rain_cue");
   ("media_cue", "media_cue"); ("risk_perception", "risk_perception");
   ("immediacy", "immediacy"); ("storm_surge_state", "storm_surge_state")].

(** The six outcome reporters shared by every setting. *)
Definition outcome_reporters : list (String.string * Reporter) :=
  [("evac_agents", rep_attr "evaced_agents");
   ("average_evac_time", rep_attr "average_evac_time");
   ("hotel_choice", rep_attr "hotel_choice"); ("friends_choice", rep_attr "friends_choice");
   ("shelter_choice", rep_attr "shelter_choice"); ("stay_choice", rep_attr "stay_choice")].

Definition phase_reporters : list (String.string * Reporter) :=
  [("phase_0", rep_attr "phase_0"); ("phase_1", rep_attr "phase_1");
   ("phase_2", rep_attr "phase_2")].

(** [data_collection_attributes(setting)]: an [if] for ["SingleRun"]
    followed by an [if]/[elif] chain for the other three settings; any
    other setting leaves both dictionaries unbound and the [return] raises
    [UnboundLocalError], a [NameError]. *)
Definition data_collection_attributes (setting : String.string)
    : res (list (String.string * String.string) * list (String.string * Reporter)) :=
  let bound :=
    if String.eqb setting "SingleRun"
    then Some (singlerun_agent_attributes,
               [("wind_cue", rep_retrieve_wind_cue); ("rain_cue", rep_retrieve_rain_cue)]
                 ++ phase_reporters ++ outcome_reporters)
    else None in
  let bound :=
    if String.eqb setting "verf"
    then Some (singlerun_agent_attributes, phase_reporters ++ outcome_reporters)
    else if String.eqb setting "convergence"
    then Some ([("rain_cue", "rain_cue")], outcome_reporters)
    else if String.eqb setting "all_agent"
    then Some ([("cue_perception", "cue_perception"); ("risk_perception", "risk_perception");
                ("media_cue", "media_cue"); ("rain_cue", "rain_cue"); ("wind_cue", "wind_cue");
                ("storm_surge_state", "storm_surge_state"); ("evac_friends", "evac_friends");
                ("evac_hotel", "evac_hotel"); ("evac_shelter", "evac_shelter"); ("stay", "stay");
                ("phase", "phase"); ("immediacy", "immediacy_cum")], outcome_reporters)
    else bound in
  match bound with
  | Some r => Ok r
  | None => Err NameError
  end.


(** ** The constructor (Model.py lines 58-162) *)

Section Constructor.
Context {G B : Type} `{RandomSource G} `{Classifier} `{BootstrapSource B} `{KDTree}.

(** [EvacuationDec.__init__] up to the data collector: the bootstrap of
    [len(self.G.nodes)] agents (no seed is passed), the creation loop, the
    spatial neighbours and the two calls of [data_collection_attributes].
    The scalar attributes of lines 66-107 are the configuration [c] and the
    counters of [mkModel]; [self.steps] is 0. *)
Definition EvacuationDec_build (c : Config) (adj : nat -> list nat) (td : TractData)
    (predictors_df weights : list (list Q)) (media_weights : list (list Z)) (bs : B)
    (draw : nat -> nat) (outcome_collection : string) (rng : G) : res (Model G) :=
  let N := init_individuals c in
  '(factor_data, weight_data, media_weight, _) ←
    population_bootstrapper N None predictors_df weights media_weights bs;
  b ← create_agents c adj td factor_data weight_data media_weight draw N;
  b ← assign_neighbours b (n_neighbors c);
  _ ← data_collection_attributes outcome_collection;
  _ ← data_collection_attributes outcome_collection;
  Ok (mkModel c (b_store b) (b_agents b) 0 zero_counters (mkPhaseCounts 0 0 0) (Some 0)
              true [] rng).

(** The constructor ends with [self.run_model()]. *)
Definition EvacuationDec (fuel : nat) c adj td predictors_df weights media_weights bs draw
    outcome_collection rng : outcome (Model G) :=
  match EvacuationDec_build c adj td predictors_df weights media_weights bs draw
          outcome_collection rng with
  | Ok m => run_model fuel m
  | Err e => Failed e
  end.

End Constructor.

Lemma assign_neighbours_shape `{KDTree} b nn b' :
  assign_neighbours b nn = Ok b' ->
  b_agents b' = b_agents b /\ forall u, phase <$> b_store b' !! u = phase <$> b_store b !! u.
Proof.
  unfold assign_neighbours.
  apply (fold_res_inv (fun b' => b_agents b' = b_agents b /\
    forall u, phase <$> b_store b' !! u = phase <$> b_store b !! u)); [|done].
  intros b1 u b2 [Ha Hs] Hb. res_inv. subst b2. cbn.
  split; [done|]. intros v. rewrite <- Hs.
  destruct (decide (u = v)) as [->|]; [rewrite lookup_alter_eq; by destruct (b_store b1 !! v)|].
  by rewrite lookup_alter_ne.
Qed.

Section ConstructorTheorems.
Context {G B : Type} `{RandomSource G} `{Classifier} `{BootstrapSource B} `{KDTree}.

(** C30.  The constructor's default [outcome_collection="phase_1"] is not a
    setting of [data_collection_attributes]: whatever the inputs, building
    the model with the default fails (with [NameError] if nothing fails
    earlier), and the simulation never runs. *)
Theorem EvacuationDec_default_collection_fails fuel c adj td P W M bs draw (rng : G) :
  exists e, EvacuationDec fuel c adj td P W M bs draw "phase_1" rng = Failed e.
Proof.
  unfold EvacuationDec, EvacuationDec_build.
  destruct (population_bootstrapper _ _ _ _ _ _) as [[[[f w] m] g']|e]; cbn; [|eauto].
  destruct (create_agents _ _ _ _ _ _ _ _) as [b|e]; cbn; [|eauto].
  destruct (assign_neighbours _ _) as [b'|e]; cbn; eauto.
Qed.

Lemma built_no_acted_ids (s : gmap nat Individual) :
  (forall u a, s !! u = Some a -> phase a = Unaware) -> acted_ids s = ∅.
Proof.
  intros Hs. apply set_eq. intros j. rewrite elem_of_acted_ids. split; [|set_solver].
  intros (a & Ha & Hp). by rewrite (Hs _ _ Ha) in Hp.
Qed.

(** The model the constructor builds, before it runs. *)
Lemma build_initial_state c adj td P W M bs draw coll (rng : G) m :
  EvacuationDec_build c adj td P W M bs draw coll rng = Ok m ->
  live_inv m /\ m_steps m = 0%nat /\ m_running m = true /\
  m_agents m = map S (seq 0 (init_individuals c)) /\
  (forall u a, m_store m !! u = Some a -> phase a = Unaware).
Proof.
  unfold EvacuationDec_build. intros Hm.
  apply bind_Ok in Hm as ([[[f w] m0] g'] & _ & Hm).
  apply bind_Ok in Hm as (b & Hc & Hm). apply bind_Ok in Hm as (b' & Ha & Hm).
  res_inv. subst m.
  destruct (create_agents_inv _ _ _ _ _ _ _ _ _ Hc) as [_ Hag _ Hd Hs].
  destruct (assign_neighbours_shape _ _ _ Ha) as [Hag' Hph].
  cbn [m_store m_agents m_steps m_counts m_running].
  assert (Hun : forall u a, b_store b' !! u = Some a -> phase a = Unaware).
  { intros u a Ha'. specialize (Hph u). rewrite Ha' in Hph.
    destruct (b_store b !! u) as [a0|] eqn:E; [|done]. injection Hph as ->.
    by apply (Hs u a0). }
  rewrite Hag', Hag. split_and!; try done. split; cbn [m_store m_agents m_counts].
  - apply NoDup_fmap; [intros ?? [=]; done|apply NoDup_seq].
  - intros j. rewrite list_elem_of_fmap. split.
    + intros (n & -> & Hn%elem_of_seq).
      destruct (proj2 (Hd (S n))) as [a0 Ha0]; [lia|].
      specialize (Hph (S n)). rewrite Ha0 in Hph.
      destruct (b_store b' !! S n) as [a|] eqn:E; [|done].
      exists a. split; [done|]. by rewrite (Hun _ _ E).
    + intros (a & Ha' & _). specialize (Hph j). rewrite Ha' in Hph.
      destruct (proj1 (Hd j)); [destruct (b_store b !! j); [eauto|done]|].
      exists (pred j). split; [lia|]. apply elem_of_seq. lia.
  - by rewrite built_no_acted_ids, size_empty.
Qed.

(** A model the constructor builds satisfies the live-set invariant
    of the scheduler at tick 0: its agents are [1 .. init_individuals] in
    creation order, all [Unaware], with zero counters. *)
Theorem EvacuationDec_build_initial c adj td P W M bs draw coll (rng : G) m :
  EvacuationDec_build c adj td P W M bs draw coll rng = Ok m ->
  live_inv m /\ m_steps m = 0%nat /\ m_running m = true /\
  m_agents m = map S (seq 0 (init_individuals c)) /\
  (forall u a, m_store m !! u = Some a -> phase a = Unaware).
Proof. apply build_initial_state. Qed.

End ConstructorTheorems.

(** ** A KD-tree by exhaustive search *)

Definition sq_dist (p q : Q * Q) : Q :=
  (fst p - fst q) * (fst p - fst q) + (snd p - snd q) * (snd p - snd q).

Definition closer (d : nat -> Q) (i j : nat) : Prop := Qle_bool (d i) (d j) = true.

#[export] Instance closer_dec d : RelDecision (closer d) :=
  fun i j => decide (Qle_bool (d i) (d j) = true).

(** All positions sorted by distance (a stable sort: ties in position
    order), the first [k] of them, and [len(data)] for each missing one. *)
Definition brute_force_kdtree : KDTree := fun pts x k =>
  let d i := sq_dist (from_option id (0, 0) (pts !! i)) x in
  take k (merge_sort (closer d) (seq 0 (length pts))) ++ repeat (length pts) (k - length pts).

Lemma brute_force_kdtree_laws : @KDTreeLaws brute_force_kdtree.
Proof.
  split; intros pts x k; cbv [kd_query brute_force_kdtree]; cbv zeta;
    match goal with |- context [merge_sort ?R ?l] => set (o := merge_sort R l) end;
    assert (Ho : o ≡ₚ seq 0 (length pts)) by apply merge_sort_Permutation;
    pose proof (Permutation_length Ho) as Hl; rewrite length_seq in Hl.
  - rewrite length_app, length_take, repeat_length. lia.
  - intros Hk. rewrite (proj2 (Nat.sub_0_le k _) Hk), app_nil_r. split.
    + eapply sublist_NoDup, sublist_take. rewrite Ho. apply NoDup_seq.
    + apply Forall_forall. intros j Hj. pose proof (elem_of_sublist _ _ _ Hj (sublist_take _ _)) as Hj'.
      rewrite Ho in Hj'. apply elem_of_seq in Hj'. lia.
  - intros Hk. exists o. split; [done|]. rewrite take_ge; [done|lia].
Qed.

(** ** A four-agent town *)

#[local] Existing Instances brute_force_kdtree brute_force_kdtree_laws demo_source demo_source_laws demo_classifier.

(** A ring lattice of four nodes (Watts-Strogatz with no rewiring), two
    tracts, and the bootstrapped rows of the survey tables. *)
Definition ring4 (n : nat) : list nat := [((n + 3) mod 4)%nat; ((n + 1) mod 4)%nat].

Definition sample_tracts : TractData :=
  mkTractData [(0, 0); (1, 0)] [repeat 0 40; repeat (1#10) 40] [repeat 0 40; repeat (1#5) 40]
    [repeat 0 40; repeat 0 34 ++ [0.5; 0.5; 1; 1; 1; 1]].

Definition small_town : Config := with_population default_config 4 2.

Definition town_factors : list (list Q) := [[3; 4]; [5; 6]; [1; 2]; [3; 4]].
Definition town_weights : list (list Q) := [[0.2; 0; 0.5]; [0.1; 1; 0]; [0.5; 0; 1]; [0.2; 0; 0.5]].
Definition town_media : list (list Z) := repeat (repeat 1%Z 10) 4.
Definition town_draw (n : nat) : nat := (n mod 2)%nat.

Definition town_building : Building :=
  default empty_building (res_to_option (create_agents small_town ring4 sample_tracts
    town_factors town_weights town_media town_draw 4)).

Definition town_agent (u : nat) : Individual :=
  default sample_individual (b_store town_building !! u).

Lemma create_agents_acquaintances_witness :
  (1 <= 3 <= 4)%nat /\ acquaintances (ind_params (town_agent 3)) = lower_neighbors ring4 3 /\
  Forall (fun v => 1 <= v < 3)%nat (acquaintances (ind_params (town_agent 3))).
Proof.
  apply (create_agents_acquaintances small_town ring4 sample_tracts town_factors town_weights
           town_media town_draw 4 town_building); vm_compute; reflexivity.
Defined.

Lemma create_agents_edge_one_way_witness :
  S 0 ∈ acquaintances (ind_params (town_agent 2)) /\
  S 1 ∉ acquaintances (ind_params (town_agent 1)).
Proof.
  apply (create_agents_edge_one_way small_town ring4 sample_tracts town_factors town_weights
           town_media town_draw 4 town_building); [vm_compute; reflexivity|lia|..];
    [by apply list_elem_of_In; left|vm_compute; reflexivity..].
Defined.

(** Four agents on one centroid: agent 3 is not among the two nearest
    positions and keeps both. *)
Lemma closest_neighbours_spec_witness :
  closest_neighbours (map S (seq 0 4)) (repeat (0, 0) 4) 3 0 = Err TypeError /\
  exists ns, closest_neighbours (map S (seq 0 4)) (repeat (0, 0) 4) 3 1 = Ok ns /\
    (3%nat ∉ ns) /\ NoDup ns /\ Forall (fun v => 1 <= v <= 4)%nat ns /\ (1 <= length ns <= 1 + 1)%nat.
Proof.
  split.
  - apply (closest_neighbours_spec 4 (repeat (0, 0) 4) 3 0); cbn; lia.
  - apply (closest_neighbours_spec 4 (repeat (0, 0) 4) 3 1); cbn; lia.
Defined.

Lemma closest_neighbours_small_population_witness :
  closest_neighbours (map S (seq 0 3)) [(0, 0); (1, 0); (2, 0)] 2 10 = Err IndexError.
Proof. apply closest_neighbours_small_population; cbn; lia. Defined.

Definition town_model : Model nat :=
  default demo_model (res_to_option (EvacuationDec_build small_town ring4 sample_tracts
    survey_predictors survey_weights survey_media tt town_draw "SingleRun" 0%nat)).

Lemma EvacuationDec_build_initial_witness :
  live_inv town_model /\ m_steps town_model = 0%nat /\ m_running town_model = true /\
  m_agents town_model = map S (seq 0 (init_individuals small_town)) /\
  (forall u a, m_store town_model !! u = Some a -> phase a = Unaware).
Proof.
  apply (EvacuationDec_build_initial small_town ring4 sample_tracts survey_predictors
           survey_weights survey_media tt town_draw "SingleRun" 0%nat).
  vm_compute. reflexivity.
Defined.

(** ** The ranges from construction to the end of the run *)

(** Non-negative survey answers and cue series, media rows of the ten
    survey columns (eleven with the index column), and non-negative
    scaling constants. *)
Record inputs_ok (c : Config) (W : list (list Q)) (M : list (list Z)) (td : TractData) : Prop := {
  in_config : config_ok c;
  in_trust : 0 <= media_weight_trust c;
  in_env : 0 <= env_strength c;
  in_weights : Forall nonneg W;
  in_media : Forall (fun r => Forall (fun x => 0 <= x)%Z r /\ length r = 11%nat) M;
  in_wind : Forall nonneg (td_wind td);
  in_rain : Forall nonneg (td_rain td)
}.

Lemma Individual_init_agent_ok c node acq fs ws mv wl rl sl a :
  0 <= media_weight_trust c -> 0 <= env_strength c -> nonneg ws ->
  Forall (fun x => 0 <= x)%Z mv -> length mv = 10%nat -> nonneg wl -> nonneg rl ->
  Individual_init c node acq fs ws mv wl rl sl = Ok a -> agent_ok a.
Proof.
  intros Ht He Hw Hmv Hl Hwl Hrl H. unfold Individual_init in H.
  apply bind_Ok in H as (r0 & Hr0 & H). apply bind_Ok in H as (w0 & Hw0 & H).
  apply bind_Ok in H as (s0 & _ & H). apply bind_Ok in H as (wt0 & _ & H).
  apply bind_Ok in H as (wt2 & Hwt2 & [= <-]).
  apply py_index_elem_of in Hr0, Hw0, Hwt2.
  assert (Hlen : length (map (fun x => media_weight_trust c * inject_Z x) (py_take_but mv 5))
                 = length (py_take_upto mv 5)).
  { unfold py_take_but, py_take_upto. rewrite length_map, !length_take. lia. }
  split; cbn [get ind_params attrs env_weight rain wind media_trust media_freq]; try lra; try done.
  - eapply nonneg_elem; [exact Hrl|exact Hr0].
  - eapply nonneg_elem; [exact Hwl|exact Hw0].
  - apply Qmult_le_0_compat; [|done]. eapply nonneg_elem; [exact Hw|exact Hwt2].
  - apply Forall_forall. intros x (z & <- & Hz)%list_elem_of_In%in_map_iff.
    apply Qmult_le_0_compat; [done|]. apply list_elem_of_In in Hz.
    unfold py_take_but in Hz. pose proof (elem_of_sublist _ _ _ Hz (sublist_take _ _)) as Hz'.
    rewrite Forall_forall in Hmv. specialize (Hmv z Hz'). unfold Qle. cbn. lia.
Qed.

(** The rows a sample returns are rows of the table. *)
Lemma mapM_py_index_elem {A} (rows : list A) (idx : list nat) xs :
  mapM (fun j => py_index rows (Z.of_nat j)) idx = Ok xs -> Forall (fun x => x ∈ rows) xs.
Proof.
  revert xs. induction idx as [|j idx IH]; intros xs H; cbn in H; [by injection H as <-|].
  destruct (py_index rows (Z.of_nat j)) as [x|] eqn:Ex; [|done]. cbn in H.
  destruct (mapM _ idx) as [ys|]; [|done]. injection H as <-.
  constructor; [by eapply py_index_elem_of|by apply IH].
Qed.

Lemma df_sample_Forall {G A} `{BootstrapSource G} (P : A -> Prop) s n rows xs :
  Forall P rows -> df_sample s n rows = Ok xs -> Forall P xs.
Proof.
  unfold df_sample. intros HP Hs. repeat case_match; simplify_eq; [done|].
  apply mapM_py_index_elem in Hs. eapply Forall_impl; [exact Hs|]. intros x Hx.
  by eapply Forall_forall.
Qed.

Lemma population_bootstrapper_Forall {G A B C} `{BootstrapSource G} n seed
    (P : list (list A)) (W : list (list B)) (M : list (list C)) g f w m g'
    (PA : list A -> Prop) (PB : list B -> Prop) (PC : list C -> Prop) :
  Forall PA (drop_first_column P) -> Forall PB (drop_first_column W) ->
  Forall PC (drop_first_column M) ->
  population_bootstrapper n seed P W M g = Ok (f, w, m, g') ->
  Forall PA f /\ Forall PB w /\ Forall PC m.
Proof.
  intros HP HW HM. unfold population_bootstrapper. destruct seed; [done|].
  destruct (bs_randint 1 1000000 g) as [s g1]. intros Hb.
  apply bind_Ok in Hb as (f1 & Hf & Hb). apply bind_Ok in Hb as (w1 & Hw & Hb).
  apply bind_Ok in Hb as (m1 & Hm & [= <- <- <- <-]).
  split_and!; by eapply df_sample_Forall.
Qed.

Lemma agent_ok_set_neigh a ns : agent_ok a -> agent_ok (set_neigh a ns).
Proof. intros [? ? ? ? ? ? ? ? ? ? ?]. by split. Qed.

Lemma create_agents_store_ok c adj td F W M draw N b :
  0 <= media_weight_trust c -> 0 <= env_strength c -> Forall nonneg W ->
  Forall (fun r => Forall (fun x => 0 <= x)%Z r /\ length r = 10%nat) M ->
  Forall nonneg (td_wind td) -> Forall nonneg (td_rain td) ->
  create_agents c adj td F W M draw N = Ok b -> store_ok (b_store b).
Proof.
  intros Ht He HW HM Hwd Hrn. unfold create_agents.
  apply (fold_res_inv (fun b => store_ok (b_store b))); [|apply map_Forall_empty].
  intros b1 k b2 Hb1 Hc. unfold create_agent in Hc.
  apply bind_Ok in Hc as (fs & _ & Hc). apply bind_Ok in Hc as (ws & Hws & Hc).
  apply bind_Ok in Hc as (mv & Hmv & Hc). apply bind_Ok in Hc as (wl & Hwl & Hc).
  apply bind_Ok in Hc as (rl & Hrl & Hc). apply bind_Ok in Hc as (sl & _ & Hc).
  apply bind_Ok in Hc as (a & Ha & Hc). apply bind_Ok in Hc as (pos & _ & [= <-]).
  apply py_index_elem_of in Hws, Hmv, Hwl, Hrl.
  destruct (proj1 (Forall_forall _ _) HM mv Hmv) as [Hmv1 Hmv2].
  apply map_Forall_insert_2; [|done].
  eapply Individual_init_agent_ok;
    [done|done|apply (proj1 (Forall_forall _ _) HW ws Hws)|done|done
    |apply (proj1 (Forall_forall _ _) Hwd wl Hwl)|apply (proj1 (Forall_forall _ _) Hrn rl Hrl)|].
  exact Ha.
Qed.

Lemma assign_neighbours_store_ok `{KDTree} b nn b' :
  store_ok (b_store b) -> assign_neighbours b nn = Ok b' -> store_ok (b_store b').
Proof.
  intros Hb. unfold assign_neighbours.
  apply (fold_res_inv (fun b => store_ok (b_store b))); [|done].
  intros b1 u b2 Hb1 Hs. apply bind_Ok in Hs as (ns & _ & [= <-]). cbn.
  intros j a'. rewrite lookup_alter. case_decide; [subst j|apply Hb1].
  destruct (b_store b1 !! u) as [a|] eqn:E; cbn; [intros [= <-]|done].
  apply agent_ok_set_neigh, (Hb1 u a E).
Qed.

Lemma drop_first_column_Forall {A} (P Q' : list A -> Prop) rows :
  (forall r, P r -> Q' (drop 1 r)) -> Forall P rows -> Forall Q' (drop_first_column rows).
Proof. intros HPQ HP. apply Forall_fmap. eapply Forall_impl; [exact HP|]. done. Qed.

Lemma EvacuationDec_build_store_ok {G B} `{RandomSource G} `{Classifier} `{BootstrapSource B}
    `{KDTree} c adj td P W M bs draw coll (rng : G) m :
  inputs_ok c W M td ->
  EvacuationDec_build c adj td P W M bs draw coll rng = Ok m ->
  m_cfg m = c /\ store_ok (m_store m).
Proof.
  intros [Hc Ht He HW HM Hwd Hrn] Hm. unfold EvacuationDec_build in Hm.
  apply bind_Ok in Hm as ([[[f w] m0] g'] & Hb & Hm).
  apply bind_Ok in Hm as (b & Hcr & Hm). apply bind_Ok in Hm as (b' & Ha & Hm).
  res_inv. subst m. split; [done|].
  assert (HW' : Forall nonneg (drop_first_column W)).
  { apply (drop_first_column_Forall nonneg nonneg W); [|done]. intros r Hr. by apply Forall_drop. }
  assert (HM' : Forall (fun r => Forall (fun x => 0 <= x)%Z r /\ length r = 10%nat)
                  (drop_first_column M)).
  { apply (drop_first_column_Forall
             (fun r => Forall (fun x => 0 <= x)%Z r /\ length r = 11%nat) _ M); [|done].
    intros r [Hr Hl]. split; [by apply Forall_drop|]. rewrite length_drop. lia. }
  destruct (population_bootstrapper_Forall _ _ P W M _ _ _ _ _ (fun _ => True) _ _
              (Forall_true _ _ (fun _ => I)) HW' HM' Hb) as (_ & Hw & Hm0).
  eapply assign_neighbours_store_ok, Ha. by eapply create_agents_store_ok.
Qed.

(** C3.  The specification's invariants over a whole run of the program:
    with non-negative inputs, whatever the graph, the bootstrap draws, the
    locations and the agent orders, the model [EvacuationDec(...)] ends
    with (finished, or stopped by the fuel bound) has the constructor's
    configuration, satisfies the live-set invariant, and every agent
    satisfies the range invariant ([0 <= risk_perception <= 1],
    [0 <= media_cue <= 1], ...). *)
Theorem EvacuationDec_run_invariants {G B} `{RandomSource G} `{!RandomSourceLaws G}
    `{Classifier} `{BootstrapSource B} `{KDTree} fuel c adj td P W M bs draw coll (rng : G) m :
  inputs_ok c W M td ->
  EvacuationDec fuel c adj td P W M bs draw coll rng = Finished m \/
  EvacuationDec fuel c adj td P W M bs draw coll rng = OutOfFuel m ->
  m_cfg m = c /\ live_inv m /\ store_ok (m_store m).
Proof.
  intros Hin Hr. unfold EvacuationDec in Hr.
  destruct (EvacuationDec_build c adj td P W M bs draw coll rng) as [m0|e] eqn:Hb;
    [|by destruct Hr].
  apply run_model_reachable in Hr.
  destruct (EvacuationDec_build_store_ok _ _ _ _ _ _ _ _ _ _ _ Hin Hb) as [Hc Hs].
  destruct (build_initial_state _ _ _ _ _ _ _ _ _ _ _ Hb) as (Hl & _).
  destruct (reachable_preserves m0 m Hr Hl ltac:(rewrite Hc; apply Hin) Hs) as (Hl' & Hs' & Hc' & _).
  split_and!; [congruence|done|done].
Qed.

Definition inputs_ok_b (c : Config) (W : list (list Q)) (M : list (list Z)) (td : TractData) : bool :=
  config_ok_b c && Qle_bool 0 (media_weight_trust c) && Qle_bool 0 (env_strength c) &&
  forallb (forallb (Qle_bool 0)) W &&
  forallb (fun r => forallb (fun x => 0 <=? x)%Z r && (length r =? 11)%nat) M &&
  forallb (forallb (Qle_bool 0)) (td_wind td) && forallb (forallb (Qle_bool 0)) (td_rain td).

Lemma forallb_Forall {A} (f : A -> bool) (P : A -> Prop) l :
  (forall x, f x = true -> P x) -> forallb f l = true -> Forall P l.
Proof.
  intros Hf Hl. apply Forall_forall. intros x Hx%list_elem_of_In. apply Hf.
  by apply (proj1 (forallb_forall _ _) Hl).
Qed.

Lemma inputs_ok_b_sound c W M td : inputs_ok_b c W M td = true -> inputs_ok c W M td.
Proof.
  unfold inputs_ok_b. intros Hb.
  apply andb_prop in Hb as [Hb Hr]. apply andb_prop in Hb as [Hb Hw].
  apply andb_prop in Hb as [Hb HM]. apply andb_prop in Hb as [Hb HW].
  apply andb_prop in Hb as [Hb He]. apply andb_prop in Hb as [Hc Ht].
  split.
  - by apply config_ok_b_sound.
  - by apply Qle_bool_iff.
  - by apply Qle_bool_iff.
  - eapply forallb_Forall; [|exact HW]. apply forallb_nonneg.
  - eapply forallb_Forall; [|exact HM]. intros r [Hr' Hl]%andb_prop.
    split; [|by apply Nat.eqb_eq]. eapply forallb_Forall; [|exact Hr']. intros x. apply Z.leb_le.
  - eapply forallb_Forall; [|exact Hw]. apply forallb_nonneg.
  - eapply forallb_Forall; [|exact Hr]. apply forallb_nonneg.
Qed.

Definition short_town : Config := with_steps small_town 3.

Definition short_town_run : outcome (Model nat) :=
  EvacuationDec 3 short_town ring4 sample_tracts survey_predictors survey_weights survey_media tt
    town_draw "SingleRun" 0%nat.

Definition short_town_final : Model nat :=
  match short_town_run with Finished m | OutOfFuel m => m | Failed _ => demo_model end.

Lemma EvacuationDec_run_invariants_witness :
  m_cfg short_town_final = short_town /\ live_inv short_town_final /\
  store_ok (m_store short_town_final).
Proof.
  apply (EvacuationDec_run_invariants 3 short_town ring4 sample_tracts survey_predictors
           survey_weights survey_media tt town_draw "SingleRun" 0%nat).
  - apply inputs_ok_b_sound. vm_compute. reflexivity.
  - left. vm_compute. reflexivity.
Defined.
