(* ===== verification/TractLink.v ===== *)
(** How the tract table of InitData.v reaches the constructor of Setup.v.
    Setup.v models [EvacuationDec.__init__] on a [TractData] whose lists it
    reads by position ([py_index] in [create_agent]); the code reads the
    cue series by label ([tract_of] in InitData.v).  On a table labelled
    [0 .. n-1], as every table read back from the cache is, the two agree:
    [tract_of] returns, for every position the location draw can return,
    what [create_agent] reads. *)
From S2P Require Import Prelude Parse InitData Setup.
From stdpp Require Import strings.
Open Scope Q_scope.

(** The [TractData] a table's series stand for: the same centroids, and
    cue series of finite numbers. *)
Definition tracts_refine (ti : TractInputs) (td : TractData) : Prop :=
  ti_pos ti = td_centroid td /\
  map snd (ti_wind ti) = map (map Fin) (td_wind td) /\
  map snd (ti_rain ti) = map (map Fin) (td_rain td) /\
  map snd (ti_surge ti) = map (map Fin) (td_surge td).

(** On labels [k, k+1, ...], the lookup by label is the lookup by
    position. *)
Lemma series_get_seq {A} (s : list (nat * A)) k i l v :
  map fst s = seq k (length s) -> s !! i = Some (l, v) -> series_get s (k + i) = Ok v.
Proof.
  revert k i. induction s as [|[l0 v0] s IH]; intros k i Hs Hi; [done|].
  cbn in Hs. injection Hs as -> Hs. destruct i as [|i]; cbn in Hi |- *.
  - injection Hi as -> ->. by rewrite Nat.add_0_r, Nat.eqb_refl.
  - rewrite (proj2 (Nat.eqb_neq _ _)) by lia. rewrite <- Nat.add_succ_comm. by apply (IH (S k)).
Qed.

Lemma refine_lookup (s : list (nat * list PyFloat)) (qs : list (list Q)) i :
  map fst s = seq 0 (length s) -> map snd s = map (map Fin) qs -> (i < length s)%nat ->
  exists q, series_get s i = Ok (map Fin q) /\ py_index qs (Z.of_nat i) = Ok q.
Proof.
  intros Hf Hs Hi. destruct (lookup_lt_is_Some_2 s i Hi) as [[l v] Hl].
  assert (Hq : map snd s !! i = Some v) by (rewrite list_lookup_fmap, Hl; done).
  rewrite Hs, list_lookup_fmap in Hq.
  destruct (qs !! i) as [q|] eqn:Eq; cbn in Hq; [|done]. injection Hq as <-.
  exists q. split; [apply (series_get_seq s 0 i l); done|by apply py_index_nat].
Qed.

(** C21.  On a table labelled [0 .. n-1], the constructor's reads of
    [wind_list[population_idx]], [rain_list[population_idx]],
    [surge_list[population_idx]] and [pos_idx[population_idx]] succeed
    for every position the draw can return, and give exactly the
    positional reads of [create_agent] on the [TractData] the table
    stands for. *)
Theorem tract_of_refines f ti td i :
  read_tracts f = Ok ti -> labels f = seq 0 (length (rows f)) -> tracts_refine ti td ->
  (i < length (rows f))%nat ->
  exists w r s p, tract_of ti i = Ok (map Fin w, map Fin r, map Fin s, p) /\
    py_index (td_wind td) (Z.of_nat i) = Ok w /\ py_index (td_rain td) (Z.of_nat i) = Ok r /\
    py_index (td_surge td) (Z.of_nat i) = Ok s /\ py_index (td_centroid td) (Z.of_nat i) = Ok p.
Proof.
  intros Hr Hl (Hp & Hw & Hra & Hs) Hi.
  destruct (read_tracts_shape _ _ Hr) as (Fw & Fr & Fs & Lp).
  assert (Hlen : forall s : list (nat * list PyFloat), map fst s = labels f ->
                 map fst s = seq 0 (length s) /\ (i < length s)%nat).
  { intros s Hs'. rewrite Hs', Hl. apply (f_equal length) in Hs'.
    rewrite length_map in Hs'. unfold labels in Hs'. rewrite length_map in Hs'.
    rewrite Hs'. split; [done|lia]. }
  destruct (Hlen _ Fw) as [Sw Iw], (Hlen _ Fr) as [Sr Ir], (Hlen _ Fs) as [Ss Is].
  destruct (refine_lookup _ _ i Sw Hw Iw) as (w & Gw & Pw).
  destruct (refine_lookup _ _ i Sr Hra Ir) as (r & Gr & Pr).
  destruct (refine_lookup _ _ i Ss Hs Is) as (s & Gs & Ps).
  destruct (lookup_lt_is_Some_2 (ti_pos ti) i ltac:(lia)) as [p Ep].
  exists w, r, s, p. unfold tract_of. rewrite Gw, Gr, Gs. cbn.
  rewrite (py_index_nat _ _ _ Ep). rewrite Hp in Ep. by rewrite (py_index_nat _ _ _ Ep).
Qed.

(** The Lee table read back from the cache, as [TractData]. *)
Definition demo_tracts : TractData :=
  mkTractData [(1, 1); (3, 3)] [[15 # 10; 2]; [15 # 10; 2]] [[25 # 100]; [25 # 100]]
              [[0; 1]; [0; 1]].

Lemma tract_of_refines_witness :
  match agent_init_data demo_disk ["FL"] ["Lee"] with
  | Ok (_, fs') =>
      match agent_init_data fs' ["FL"] ["Lee"] with
      | Ok (f, _) =>
          match read_tracts f with
          | Ok ti =>
              labels f = seq 0 (length (rows f)) /\ tracts_refine ti demo_tracts /\
              exists w r s p, tract_of ti 1 = Ok (map Fin w, map Fin r, map Fin s, p) /\
                py_index (td_wind demo_tracts) 1 = Ok w /\ py_index (td_rain demo_tracts) 1 = Ok r /\
                py_index (td_surge demo_tracts) 1 = Ok s /\ py_index (td_centroid demo_tracts) 1 = Ok p
          | Err _ => False
          end
      | Err _ => False
      end
  | Err _ => False
  end.
Proof.
  destruct (agent_init_data demo_disk ["FL"] ["Lee"]) as [[f0 fs']|e] eqn:E0;
    [|vm_compute in E0; discriminate].
  assert (E0' := E0). vm_compute in E0'. injection E0' as _ Hfs.
  destruct (agent_init_data fs' ["FL"] ["Lee"]) as [[f fs'']|e] eqn:E1;
    [|rewrite <- Hfs in E1; vm_compute in E1; discriminate].
  rewrite <- Hfs in E1. vm_compute in E1. injection E1 as Hf _.
  destruct (read_tracts f) as [ti|e] eqn:Et; [|rewrite <- Hf in Et; vm_compute in Et; discriminate].
  assert (Hl : labels f = seq 0 (length (rows f))) by (rewrite <- Hf; vm_compute; reflexivity).
  assert (Hr : tracts_refine ti demo_tracts).
  { rewrite <- Hf in Et. vm_compute in Et. injection Et as <-. vm_compute. repeat split. }
  split; [exact Hl|]. split; [exact Hr|].
  apply (tract_of_refines f ti demo_tracts 1 Et Hl Hr). rewrite <- Hf. vm_compute. lia.
Defined.
