(* ===== verification/Collect.v ===== *)
(** * Collect: the data collector at the end of a tick

    [datacollector.collect(self)] (Model.py, line 203) evaluates the model
    reporters of the setting chosen by [data_collection_attributes]
    (run_config.py) on the model after the broadcasts.  A reporter is an
    attribute name, read with Mesa's [getattr(model, name, None)], or one of
    [retrieve_wind_cue] and [retrieve_rain_cue] (helper_functions.py, lines
    120-134), the mean cue over the live agents, which divides by their
    number.  [model_step_reporting] is [EvacuationDec.step] with this
    collection; [model_step] (Scheduler.v) is the same tick with only the
    evacuation series kept. *)
From S2P Require Import Prelude Config Individual Population AgentStep Scheduler Bounds Setup.
From stdpp Require Import strings.
Open Scope Q_scope.

(** A collected model variable: an integer counter, a float, or [None]. *)
Inductive Collected :=
  | col_nat (n : nat)
  | col_q (q : Q)
  | col_none.

Section Reporters.
Context {G : Type} `{RandomSource G} `{Classifier}.
Implicit Types m : Model G.

(** [model.agents.get(attr)]: the attribute of every live agent, in the
    order of the agent set. *)
Definition agents_get (f : Attr) m : list Q :=
  omap (fun j => (fun a => get a f) <$> m_store m !! j) (m_agents m).

(** [sum(values)/len(values)]. *)
Definition py_mean (values : list Q) : res Q :=
  if (length values =? 0)%nat then Err ZeroDivisionError
  else Ok (qsum values / inject_Z (Z.of_nat (length values))).

(** [retrieve_wind_cue(model)], lines 120-126. *)
Definition retrieve_wind_cue m : res Q := py_mean (agents_get wind_cue m).

(** [retrieve_rain_cue(model)], lines 128-134. *)
Definition retrieve_rain_cue m : res Q := py_mean (agents_get rain_cue m).

(** [getattr(model, name, None)] for the model attributes the settings
    name. *)
Definition model_attr (name : string) m : Collected :=
  let k := m_counts m in
  if String.eqb name "phase_0" then col_nat (phase_0 (m_phases m))
  else if String.eqb name "phase_1" then col_nat (phase_1 (m_phases m))
  else if String.eqb name "phase_2" then col_nat (phase_2 (m_phases m))
  else if String.eqb name "evaced_agents" then col_nat (evaced_agents k)
  else if String.eqb name "average_evac_time" then
    match m_average_evac_time m with Some q => col_q q | None => col_none end
  else if String.eqb name "hotel_choice" then col_nat (hotel_choice k)
  else if String.eqb name "friends_choice" then col_nat (friends_choice k)
  else if String.eqb name "shelter_choice" then col_nat (shelter_choice k)
  else if String.eqb name "stay_choice" then col_nat (stay_choice k)
  else col_none.

(** One model reporter of [DataCollector.collect]. *)
Definition eval_reporter (r : Reporter) m : res Collected :=
  match r with
  | rep_attr name => Ok (model_attr name m)
  | rep_retrieve_wind_cue => col_q <$> retrieve_wind_cue m
  | rep_retrieve_rain_cue => col_q <$> retrieve_rain_cue m
  end.

(** The model variables of one [collect], in the order of the dictionary. *)
Definition collect_model_vars (reps : list (string * Reporter)) m
    : res (list (string * Collected)) :=
  mapM (fun '(name, r) => v ← eval_reporter r m; Ok (name, v)) reps.

(** [EvacuationDec.step] with the data collector of the setting: the
    collected row is returned beside the model. *)
Definition model_step_reporting (reps : list (string * Reporter)) m
    : res (Model G * list (string * Collected)) :=
  m ← step_to_collect m;
  row ← collect_model_vars reps m;
  Ok (collect_and_reset m, row).

End Reporters.

(** ** Lemmas *)

Lemma qsum_bounds lo hi xs :
  Forall (fun x => lo <= x <= hi) xs ->
  inject_Z (Z.of_nat (length xs)) * lo <= qsum xs <= inject_Z (Z.of_nat (length xs)) * hi.
Proof.
  induction 1 as [|x xs Hx _ IH].
  { unfold qsum. cbn [length fold_left]. change (inject_Z (Z.of_nat 0)) with 0. lra. }
  rewrite qsum_cons. cbn [length]. rewrite Nat2Z.inj_succ, <- Z.add_1_r, inject_Z_plus.
  change (inject_Z 1) with 1. nra.
Qed.

Lemma py_mean_bounds lo hi xs v :
  Forall (fun x => lo <= x <= hi) xs -> py_mean xs = Ok v -> lo <= v <= hi.
Proof.
  unfold py_mean. intros Hxs Hm. destruct (length xs =? 0)%nat eqn:E; [done|].
  injection Hm as <-. apply Nat.eqb_neq in E.
  assert (Hn : 0 < inject_Z (Z.of_nat (length xs))).
  { change 0 with (inject_Z 0). rewrite <- Zlt_Qlt. lia. }
  destruct (qsum_bounds lo hi xs Hxs) as [H1 H2]. split.
  - apply Qle_shift_div_l; [done|]. lra.
  - apply Qle_shift_div_r; [done|]. lra.
Qed.

Lemma py_mean_Err xs e : py_mean xs = Err e <-> xs = [] /\ e = ZeroDivisionError.
Proof.
  unfold py_mean. destruct xs as [|x xs]; cbn; [split; [by intros [= <-]|by intros [_ ->]]|].
  split; [done|by intros [? _]].
Qed.

Section ReporterLemmas.
Context {G : Type} `{RandomSource G} `{Classifier}.
Implicit Types m : Model G.

Lemma agents_get_Forall (P : Q -> Prop) f m :
  map_Forall (fun _ a => P (get a f)) (m_store m) -> Forall P (agents_get f m).
Proof.
  intros Hs. unfold agents_get. induction (m_agents m) as [|j l IH]; [constructor|].
  simpl. destruct (m_store m !! j) as [a|] eqn:E; simpl; [|exact IH].
  constructor; [by apply (Hs j a)|exact IH].
Qed.

Lemma agents_get_nil f m : live_inv m -> agents_get f m = [] <-> m_agents m = [].
Proof.
  intros [_ Hlive _]. unfold agents_get. split; [|by intros ->].
  destruct (m_agents m) as [|j l] eqn:El; [done|]. intros Hnil. exfalso.
  assert (Hj : j ∈ j :: l) by by left.
  destruct (proj1 (Hlive j) Hj) as (a & Ha & _).
  simpl in Hnil. by rewrite Ha in Hnil.
Qed.

Lemma collect_and_reset_view m :
  m_store (collect_and_reset m) = m_store m /\ m_agents (collect_and_reset m) = m_agents m.
Proof. done. Qed.

Lemma eval_reporter_Err r m e :
  live_inv m -> eval_reporter r m = Err e -> e = ZeroDivisionError /\ m_agents m = [].
Proof.
  intros Hinv. destruct r as [name| |]; cbn [eval_reporter]; [done| |];
    [unfold retrieve_wind_cue | unfold retrieve_rain_cue];
    destruct (py_mean _) as [v|e'] eqn:E; cbn; intros; simplify_eq;
    apply py_mean_Err in E as [E ->]; split; [done| |done|];
    by eapply (agents_get_nil _ _ Hinv).
Qed.
End ReporterLemmas.

Section CollectTheorems.
Context {G : Type} `{RandomSource G} `{Classifier}.
Implicit Types m : Model G.

Lemma collect_model_vars_Err reps m e :
  live_inv m -> collect_model_vars reps m = Err e -> e = ZeroDivisionError /\ m_agents m = [].
Proof.
  intros Hinv (x & _ & Hx)%mapM_Err. destruct x as [name r].
  destruct (eval_reporter r m) as [v|e'] eqn:E; cbn in Hx; [done|].
  injection Hx as <-. by eapply eval_reporter_Err.
Qed.

(** The model the collector sees and the model after the tick differ only
    in the collected series and the reset counter. *)
Lemma model_step_collect_view m m' :
  model_step m = Ok m' ->
  exists m1, step_to_collect m = Ok m1 /\ m' = collect_and_reset m1.
Proof. unfold model_step. intros (m1 & H1 & [= <-])%bind_Ok. by exists m1. Qed.

Lemma live_inv_collect_and_reset m : live_inv (collect_and_reset m) -> live_inv m.
Proof. apply live_inv_fields; [done|done|]. symmetry. apply reset_evaced_total. Qed.

(** C12.  Refinement: with the data collector, a tick reaches the same model
    as [model_step] whenever it does not raise; from a model satisfying the
    live-set invariant it raises only where [model_step] raises or, after a
    tick that leaves no live agent, in a cue reporter. *)
Theorem model_step_reporting_refines reps m :
  live_inv m ->
  (forall m' row, model_step_reporting reps m = Ok (m', row) -> model_step m = Ok m') /\
  (forall m', model_step m = Ok m' -> m_agents m' <> [] ->
     exists row, model_step_reporting reps m = Ok (m', row)) /\
  (forall e, model_step m = Err e -> model_step_reporting reps m = Err e).
Proof.
  intros Hinv. unfold model_step_reporting. split_and!.
  - intros m' row (m1 & H1 & Hr)%bind_Ok. apply bind_Ok in Hr as (row' & _ & [= <- _]).
    unfold model_step. by rewrite H1.
  - intros m' Hm Hne. destruct (model_step_collect_view _ _ Hm) as (m1 & H1 & ->).
    rewrite H1. cbn. destruct (collect_model_vars reps m1) as [row|e] eqn:E; [by exists row|].
    apply collect_model_vars_Err in E as [_ E]; [by destruct Hne|].
    apply live_inv_collect_and_reset. by eapply live_inv_model_step.
  - intros e. unfold model_step. destruct (step_to_collect m); cbn; intros Heq; [discriminate Heq|congruence].
Qed.

(** C13.  Under the ["SingleRun"] setting the collector's first reporter is
    [retrieve_wind_cue]: a tick after which no agent is live (every agent
    has acted) raises [ZeroDivisionError] in [datacollector.collect], even
    on the final tick. *)
Theorem singlerun_collect_fails m m' ag reps :
  data_collection_attributes "SingleRun" = Ok (ag, reps) ->
  model_step m = Ok m' -> m_agents m' = [] ->
  model_step_reporting reps m = Err ZeroDivisionError.
Proof.
  intros Hd Hm Hnil. vm_compute in Hd. injection Hd as <- <-.
  destruct (model_step_collect_view _ _ Hm) as (m1 & H1 & ->).
  unfold model_step_reporting. rewrite H1. cbn.
  unfold retrieve_wind_cue, agents_get. cbn in Hnil. by rewrite Hnil.
Qed.

(** The reported mean cues: with the range invariant every live
    agent's wind and rain cue is non-negative, so are the means; and a
    bound on the live agents' cues bounds their mean. *)
Theorem retrieve_cue_bounds m hi :
  store_ok (m_store m) ->
  (forall v, Forall (fun x => x <= hi) (agents_get wind_cue m) ->
     retrieve_wind_cue m = Ok v -> 0 <= v <= hi) /\
  (forall v, Forall (fun x => x <= hi) (agents_get rain_cue m) ->
     retrieve_rain_cue m = Ok v -> 0 <= v <= hi).
Proof.
  intros Hs. split; intros v Hhi; apply py_mean_bounds, Forall_and; split; [|done| |done];
    apply agents_get_Forall; intros j a Ha; apply (Hs j a Ha).
Qed.

End CollectTheorems.

(** ** Witnesses *)

#[local] Existing Instances demo_source demo_source_laws demo_classifier.

Lemma model_step_reporting_refines_witness :
  live_inv demo_model /\
  let reps := [("wind_cue", rep_retrieve_wind_cue); ("evac_agents", rep_attr "evaced_agents")] in
  (forall m' row, model_step_reporting reps demo_model = Ok (m', row) -> model_step demo_model = Ok m') /\
  (forall m', model_step demo_model = Ok m' -> m_agents m' <> [] ->
     exists row, model_step_reporting reps demo_model = Ok (m', row)) /\
  (forall e, model_step demo_model = Err e -> model_step_reporting reps demo_model = Err e).
Proof.
  split; [apply demo_model_live_inv|].
  apply model_step_reporting_refines. apply demo_model_live_inv.
Defined.

(** The single deciding agent of [last_tick_model] evacuates in the final
    tick; with the ["SingleRun"] collector the tick raises. *)
Lemma singlerun_collect_fails_witness :
  exists ag reps m', data_collection_attributes "SingleRun" = Ok (ag, reps) /\
    model_step last_tick_model = Ok m' /\ m_agents m' = [] /\
    model_step_reporting reps last_tick_model = Err ZeroDivisionError.
Proof.
  do 3 eexists. split; [vm_compute; reflexivity|]. split; [vm_compute; reflexivity|].
  split; [vm_compute; reflexivity|].
  eapply singlerun_collect_fails; vm_compute; reflexivity.
Defined.

Lemma retrieve_cue_bounds_witness :
  store_ok (m_store demo_model) /\
  (forall v, Forall (fun x => x <= 1) (agents_get wind_cue demo_model) ->
     retrieve_wind_cue demo_model = Ok v -> 0 <= v <= 1) /\
  (forall v, Forall (fun x => x <= 1) (agents_get rain_cue demo_model) ->
     retrieve_rain_cue demo_model = Ok v -> 0 <= v <= 1).
Proof.
  assert (Hs : store_ok (m_store demo_model)) by (apply store_ok_b_sound; vm_compute; reflexivity).
  split; [exact Hs|]. exact (retrieve_cue_bounds demo_model 1 Hs).
Defined.
