(* ===== verification/Plots.v ===== *)
(** * Plots: the data behind the figures of Viz/Plots.py

    Each function of Viz/Plots.py takes a table of the data collector,
    computes the series it plots, and hands them to matplotlib or seaborn.
    The drawing calls return nothing the program reads.  This file models
    what is computed and plotted, and the exceptions raised on the way:

    - timestamps ([pd.Timestamp], [datetime], [timedelta]) as minutes on
      the proleptic Gregorian calendar;
    - a pandas DataFrame of the model variables as an index and named,
      typed columns ([DataFrame]);
    - [compare_real_data]: the model's histogram values, the survey file
      read by [read_csv], and the date parser [datetime.strptime] on the
      format ["%d %I:%M %p"], with the backtracking order of the regular
      expression that [_strptime] builds;
    - [evac_plot], which writes a column into its caller's DataFrame
      (a store of frames: the argument is not copied);
    - [phase_plot] ([groupby(...).count().unstack().fillna(0)]),
      [cum_evac] ([cumsum]) and [plot_environmental_and_social_cues]. *)
From S2P Require Import Prelude Parse InitData Collect.
From Stdlib Require Import Ascii.
From stdpp Require Import strings gmap sorting.
Open Scope Q_scope.

(** ** Timestamps *)

(** A [Timestamp] or [datetime] at the resolution the code uses: minutes
    since 1970-01-01 00:00. *)
Definition Timestamp := Z.

(** The day number of a date of the proleptic Gregorian calendar, in days
    since 1970-01-01. *)
Definition days_from_civil (y m d : Z) : Z :=
  let y := if (m <=? 2)%Z then (y - 1)%Z else y in
  let era := (y / 400)%Z in
  let yoe := (y - era * 400)%Z in
  let doy := ((153 * ((m + 9) mod 12) + 2) / 5 + d - 1)%Z in
  let doe := (yoe * 365 + yoe / 4 - yoe / 100 + doy)%Z in
  (era * 146097 + doe - 719468)%Z.

(** The literal [pd.Timestamp("y-mo-d h:mi:00")]. *)
Definition ts (y mo d h mi : Z) : Timestamp := ((days_from_civil y mo d * 24 + h) * 60 + mi)%Z.

Definition is_leap (y : Z) : bool :=
  ((y mod 4 =? 0) && (negb (y mod 100 =? 0) || (y mod 400 =? 0)))%Z.

Definition days_in_month (y m : Z) : Z :=
  if (m =? 2)%Z then (if is_leap y then 29 else 28)%Z
  else if ((m =? 4) || (m =? 6) || (m =? 9) || (m =? 11))%Z then 30%Z else 31%Z.

(** [datetime(year, month, day, hour, minute)]: [ValueError] when a field
    is out of range. *)
Definition datetime (y mo d h mi : Z) : res Timestamp :=
  if ((1 <=? y) && (y <=? 9999) && (1 <=? mo) && (mo <=? 12) && (1 <=? d)
      && (d <=? days_in_month y mo) && (0 <=? h) && (h <? 24) && (0 <=? mi) && (mi <? 60))%Z
  then Ok (ts y mo d h mi) else Err ValueError.

(** [t + timedelta(hours=h)]. *)
Definition add_hours (t : Timestamp) (h : Z) : Timestamp := (t + 60 * h)%Z.

(** The first instant of the simulation, lines 26, 61, 93, 143 and 264. *)
Definition start_time : Timestamp := ts 2017 9 3 0 0.

(** [step_hours], lines 27 and 94: one tick is two hours. *)
Definition step_hours : Z := 2.

(** ** DataFrames of the model variables *)

(** A column and its dtype: [int64], [float64] ([None] is [nan]) or
    [datetime64]. *)
Inductive Column :=
  | IntCol (xs : list Z)
  | FloatCol (xs : list (option Q))
  | TimeCol (xs : list Timestamp).

Record DataFrame := mkDF { df_index : list Z; df_cols : list (string * Column) }.

(** [df[name]]: the first column of that name, [KeyError] when there is
    none. *)
Fixpoint cols_get (name : string) (cols : list (string * Column)) : res Column :=
  match cols with
  | [] => Err KeyError
  | (n, c) :: cols' => if String.eqb n name then Ok c else cols_get name cols'
  end.

Definition df_get (name : string) (df : DataFrame) : res Column := cols_get name (df_cols df).

(** [df[name] = col]: the column is replaced, or added last. *)
Fixpoint cols_set (name : string) (c : Column) (cols : list (string * Column))
    : list (string * Column) :=
  match cols with
  | [] => [(name, c)]
  | (n, c') :: cols' => if String.eqb n name then (n, c) :: cols' else (n, c') :: cols_set name c cols'
  end.

Definition df_set (name : string) (c : Column) (df : DataFrame) : DataFrame :=
  mkDF (df_index df) (cols_set name c (df_cols df)).

(** [start_time + pd.to_timedelta(df.index * step_hours, unit="h")]
    (lines 36 and 96): one timestamp per index label. *)
Definition datetime_column (index : list Z) : list Timestamp :=
  map (fun i => add_hours start_time (i * step_hours)%Z) index.

(** ** [compare_real_data] (lines 15-78) *)

(** [df_model.loc[idx, "datetime"]]: a lookup by label. *)
Fixpoint loc_label {A} (index : list Z) (col : list A) (idx : Z) : res A :=
  match index, col with
  | l :: index', x :: col' => if (l =? idx)%Z then Ok x else loc_label index' col' idx
  | _, _ => Err KeyError
  end.

(** Lines 39-42: every timestamp repeated [count] times
    ([[x] * count] is empty for a negative count).  Only an integer count
    can multiply a list: a [float64] column raises [TypeError]. *)
Definition hist_values (index : list Z) (datetimes : list Timestamp) (evac : Column)
    : res (list Timestamp) :=
  match evac with
  | IntCol counts =>
      fold_res (fun acc '(idx, count) =>
                  t ← loc_label index datetimes (Z.of_nat idx);
                  Ok (acc ++ repeat t (Z.to_nat count)))
               (zip (seq 0 (length counts)) counts) []
  | FloatCol _ | TimeCol _ => Err TypeError
  end.

(** A cell of a CSV file as [read_csv] parses it. *)
Inductive CsvCell :=
  | CsvNa
  | CsvText (s : string)
  | CsvNum (q : Q).

Record Csv := mkCsv { csv_header : list string; csv_rows : list (list CsvCell) }.

(** The path of line 45, on the author's machine. *)
Definition irma_csv_path : string := "C:\Users\roelo\Downloads\times_irma.csv".

(** [pd.read_csv(path)]: [FileNotFoundError] when there is no such
    file. *)
Definition read_csv (files : gmap string Csv) (path : string) : res Csv :=
  match files !! path with Some c => Ok c | None => Err FileNotFoundError end.

(** [df.dropna()]: the rows without a missing cell.  The column [index]
    that [reset_index] adds has none. *)
Definition dropna (rows : list (list CsvCell)) : list (list CsvCell) :=
  List.filter (forallb (fun c => match c with CsvNa => false | _ => true end)) rows.

Fixpoint col_pos (name : string) (cols : list string) : res nat :=
  match cols with
  | [] => Err KeyError
  | c :: cols' => if String.eqb c name then Ok 0%nat else S <$> col_pos name cols'
  end.

(** [s[-k:]] on a string. *)
Definition str_last (k : nat) (s : list ascii) : list ascii := drop (length s - k) s.

(** [df_clean['Column81;Column82'].str[-10:]] on one cell (line 47):
    the last ten characters, stored in the column [last_9_chars]. *)
Definition last_9_chars (s : list ascii) : list ascii := str_last 10 s.

(** The [.str] accessor on the column: its dtype is fixed by [read_csv]
    over the whole file, and [.str] raises [AttributeError] unless the
    column holds text; a number in a text column gives [nan]. *)
Definition str_slice_col (whole cells : list CsvCell) : res (list (option (list ascii))) :=
  if existsb (fun c => match c with CsvText _ => true | _ => false end) whole
  then Ok (map (fun c => match c with
                         | CsvText s => Some (last_9_chars (String.list_ascii_of_string s))
                         | _ => None
                         end) cells)
  else Err AttributeError.

(** *** [datetime.strptime(val, "%d %I:%M %p")] *)

(** [_strptime] compiles the format into a regular expression matched
    with [IGNORECASE]: each directive is an alternation of fixed-width
    alternatives, each space becomes [\s+].  An alternative is one
    character class per character. *)
Definition Alt := list (ascii -> bool).

Definition ch_in (cs : list ascii) (c : ascii) : bool := existsb (ch_eqb c) cs.
Definition is_digit (c : ascii) : bool := match digit_val c with Some _ => true | None => false end.
Definition nonzero (c : ascii) : bool := ch_in ["1";"2";"3";"4";"5";"6";"7";"8";"9"]%char c.
Definition ci (c : ascii) (x : ascii) : bool := ch_eqb (lower x) c.

Fixpoint match_alt (a : Alt) (s : list ascii) : option (list ascii * list ascii) :=
  match a, s with
  | [], _ => Some ([], s)
  | p :: a', c :: s' => if p c then (fun mr => (c :: mr.1, mr.2)) <$> match_alt a' s' else None
  | _ :: _, [] => None
  end.

(** The matches of [alt1|alt2|...] at the start of [s], in the order the
    engine tries them. *)
Definition match_alts (alts : list Alt) (s : list ascii) : list (list ascii * list ascii) :=
  omap (fun a => match_alt a s) alts.

(** [%d]: [3[01]|[12]\d|0[1-9]|[1-9]| [1-9]]. *)
Definition d_re : list Alt :=
  [[ch_eqb "3"; ch_in ["0";"1"]]; [ch_in ["1";"2"]; is_digit]; [ch_eqb "0"; nonzero];
   [nonzero]; [ch_eqb " "; nonzero]]%char.

(** [%I]: [1[0-2]|0[1-9]|[1-9]| [1-9]]. *)
Definition I_re : list Alt :=
  [[ch_eqb "1"; ch_in ["0";"1";"2"]]; [ch_eqb "0"; nonzero]; [nonzero]; [ch_eqb " "; nonzero]]%char.

(** [%M]: [[0-5]\d|\d]. *)
Definition M_re : list Alt := [[ch_in ["0";"1";"2";"3";"4";"5"]; is_digit]; [is_digit]]%char.

(** [%p] in the C locale: [am|pm], in any case. *)
Definition p_re : list Alt := [[ci "a"; ci "m"]; [ci "p"; ci "m"]]%char.

Fixpoint space_run (s : list ascii) : nat :=
  match s with c :: s' => if is_space c then S (space_run s') else 0%nat | [] => 0%nat end.

(** [\s+], greedy: what is left after the longest run first, then after
    each shorter one. *)
Definition ws_matches (s : list ascii) : list (list ascii) :=
  map (fun k => drop k s) (rev (seq 1 (space_run s))).

(** The first success of a choice point: backtracking. *)
Fixpoint backtrack {A B} (xs : list A) (k : A -> option B) : option B :=
  match xs with
  | [] => None
  | x :: xs' => match k x with Some b => Some b | None => backtrack xs' k end
  end.

(** [format_regex.match(s)]: the groups [d], [I], [M], [p] and what
    follows the match. *)
Definition strptime_match (s : list ascii)
    : option (list ascii * list ascii * list ascii * list ascii * list ascii) :=
  backtrack (match_alts d_re s) (fun '(d, s1) =>
  backtrack (ws_matches s1) (fun s2 =>
  backtrack (match_alts I_re s2) (fun '(i, s3) =>
  match s3 with
  | c :: s4 =>
      if ch_eqb c ":" then
        backtrack (match_alts M_re s4) (fun '(mi, s5) =>
        backtrack (ws_matches s5) (fun s6 =>
        backtrack (match_alts p_re s6) (fun '(p, s7) => Some (d, i, mi, p, s7))))
      else None
  | [] => None
  end))).

(** [int(group)]: the digits of the group (a leading space is stripped). *)
Definition int_of (g : list ascii) : Z := digits_Z (omap digit_val g).

(** [%I] with [%p]: 12 AM is hour 0, 12 PM is 12, and PM adds 12 to the
    others. *)
Definition hour_of (i p : list ascii) : Z :=
  let h := int_of i in
  if bool_decide (map lower p = ["a"; "m"]%char) then (if (h =? 12)%Z then 0%Z else h)
  else (if (h =? 12)%Z then h else (h + 12)%Z).

(** [datetime.strptime(s, "%d %I:%M %p")]: day, hour and minute of a
    date in January 1900, where every day from 1 to 31 exists;
    [ValueError] when the expression does not match or leaves
    characters over. *)
Definition strptime (s : list ascii) : res (Z * Z * Z) :=
  match strptime_match s with
  | None => Err ValueError
  | Some (d, i, mi, p, rest) =>
      match rest with
      | [] => Ok (int_of d, hour_of i p, int_of mi)
      | _ :: _ => Err ValueError
      end
  end.

(** [val.replace(";", " ")]. *)
Definition replace_semicolons (s : list ascii) : list ascii :=
  map (fun c => if ch_eqb c ";" then " "%char else c) s.

(** [parse_date] (lines 50-57): every exception, the [AttributeError] of
    [nan.replace] included, gives [None]. *)
Definition parse_date (val : option (list ascii)) : option Timestamp :=
  match val with
  | None => None
  | Some v =>
      match strptime (replace_semicolons v) with
      | Ok (d, h, mi) => res_to_option (datetime 2017 9 d h mi)
      | Err _ => None
      end
  end.

Definition survey_end : Timestamp := ts 2017 9 10 23 59.

(** Line 64: [(dt >= start) & (dt <= end)]; a missing date compares
    false. *)
Definition in_window (t : option Timestamp) : option Timestamp :=
  match t with
  | Some t => if ((start_time <=? t) && (t <=? survey_end))%Z then Some t else None
  | None => None
  end.

(** Lines 60-65: the parsed dates inside the window. *)
Definition survey_dates (lasts : list (option (list ascii))) : list Timestamp :=
  omap (fun v => in_window (parse_date v)) lasts.

(** [compare_real_data(data_model)] over the files of the disk: the
    survey dates kept by the mask (line 65) and the model's histogram
    values (lines 39-42), the two series of the histogram. *)
Definition compare_real_data (data_model : DataFrame) (files : gmap string Csv)
    : res (list Timestamp * list Timestamp) :=
  evac_agents ← df_get "evac_agents" data_model;
  let index := df_index data_model in
  hv ← hist_values index (datetime_column index) evac_agents;
  irma ← read_csv files irma_csv_path;
  p ← col_pos "Column81;Column82" (csv_header irma);
  lasts ← str_slice_col (map (fun r => nth p r CsvNa) (csv_rows irma))
                        (map (fun r => nth p r CsvNa) (dropna (csv_rows irma)));
  Ok (survey_dates lasts, hv).

(** ** [evac_plot] (lines 80-127) *)


(** The three event markers of lines 104-108. *)
Definition nl : string := String "010"%char EmptyString.

Definition evac_events : list (string * Timestamp) :=
  [("Hurricane Watch" +:+ nl +:+ "1000", ts 2017 8 23 10 0);
   ("Hurricane Warning" +:+ nl +:+ "0400", ts 2017 8 24 4 0);
   ("Landfall" +:+ nl +:+ "2200", ts 2017 8 25 22 0)].

(** [evac_plot(data)]: [df = data] (line 91) binds the caller's object,
    line 96 adds the column [datetime] to it, and line 100 reads the bars
    [df['datetime']] and [df['evac_agents']].  The store is returned also
    when the read raises, since the assignment has happened.  A name bound
    to no object is a [NameError].  The DataFrames of the session are a
    store by object identity: an assignment [df[name] = ...] changes the
    object, and so every name bound to it. *)
Definition evac_plot (st : gmap nat DataFrame) (data : nat) : gmap nat DataFrame * res (Column * Column) :=
  match st !! data with
  | None => (st, Err NameError)
  | Some df =>
      let df := df_set "datetime" (TimeCol (datetime_column (df_index df))) df in
      (<[data := df]> st, x ← df_get "datetime" df; y ← df_get "evac_agents" df; Ok (x, y))
  end.

(** ** [cum_evac] (lines 201-237) *)

Fixpoint cumsum_int (acc : Z) (xs : list Z) : list Z :=
  match xs with [] => [] | x :: xs' => (acc + x)%Z :: cumsum_int (acc + x)%Z xs' end.

(** [cumsum] on [float64] skips [nan]: a [nan] stays, the sum goes on. *)
Fixpoint cumsum_float (acc : Q) (xs : list (option Q)) : list (option Q) :=
  match xs with
  | [] => []
  | Some x :: xs' => Some (acc + x) :: cumsum_float (acc + x) xs'
  | None :: xs' => None :: cumsum_float acc xs'
  end.

(** [Series.cumsum()]; a [datetime64] column raises [TypeError]. *)
Definition cumsum (c : Column) : res Column :=
  match c with
  | IntCol xs => Ok (IntCol (cumsum_int 0 xs))
  | FloatCol xs => Ok (FloatCol (cumsum_float 0 xs))
  | TimeCol _ => Err TypeError
  end.

(** Line 217: this plot starts at 23:00, not at midnight. *)
Definition cum_evac_start : Timestamp := ts 2017 9 3 23 0.

(** [cum_evac(data)] on the copy of line 213: the frame it plots, with
    the columns [cumulative_evacuated] and [time]. *)
Definition cum_evac (data : DataFrame) : res DataFrame :=
  evac ← df_get "evac_agents" data;
  cum ← cumsum evac;
  let df := df_set "cumulative_evacuated" cum data in
  Ok (df_set "time" (TimeCol (map (fun i => add_hours cum_evac_start (2 * i)%Z) (df_index df))) df).

(** ** The agent table *)

(** A row of [datacollector.get_agent_vars_dataframe().reset_index()]
    under the agent reporters of ["SingleRun"]: [Step], [AgentID], then
    [phase], [wind_cue], [rain_cue], [media_cue], [risk_perception],
    [immediacy] (an attribute an agent has only once it has assessed an
    action: [None] before) and [storm_surge_state]. *)
Record AgentRow := mkAgentRow {
  ar_step : Z;
  ar_id : Z;
  ar_phase : Z;
  ar_wind : Q;
  ar_rain : Q;
  ar_media : Q;
  ar_risk : Q;
  ar_immediacy : option Q;
  ar_surge : Q
}.

(** [df['time'] = [start_time + timedelta(hours=2 * i) for i in df["Step"]]]
    (lines 145 and 266). *)
Definition step_time (step : Z) : Timestamp := add_hours start_time (2 * step)%Z.

(** ** [phase_plot] (lines 129-170) *)

(** The sorted distinct keys of a [groupby]. *)
Definition group_levels (xs : list Z) : list Z := remove_dups (merge_sort Z.le xs).

(** [data_grouped[("AgentID", phase)]] at a step: [count()] of the rows
    of the group; the table [unstack(level=1).fillna(0)] has 0 where no
    row has the pair. *)
Definition phase_count (rows : list AgentRow) (step phase : Z) : nat :=
  length (List.filter (fun r => (ar_step r =? step)%Z && (ar_phase r =? phase)%Z) rows).

(** [df.set_index("Step")["time"].to_dict()] (line 152): the last row of
    a step gives its time. *)
Definition step_to_time (rows : list AgentRow) : gmap Z Timestamp :=
  foldl (fun d r => <[ar_step r := step_time (ar_step r)]> d) ∅ rows.

Record PhasePlot := mkPhasePlot {
  pp_times : list (option Timestamp);
  pp_phases : list Z;
  pp_values : list (list nat)
}.

(** [phase_plot(data)]: the x values [time_index] (line 154; a step
    missing from the dictionary would map to [NaT]), the phases of
    [columns.levels[1]] and, per phase, the count at every step
    (line 158): the arguments of [ax.stackplot]. *)
Definition phase_plot (rows : list AgentRow) : PhasePlot :=
  let steps := group_levels (map ar_step rows) in
  let phases := group_levels (map ar_phase rows) in
  let d := step_to_time rows in
  mkPhasePlot (map (fun s => d !! s) steps) phases
              (map (fun p => map (fun s => phase_count rows s p) steps) phases).

(** ** [kde2d_pop_plot] (lines 173-198) *)

(** A cell of the column made the geometry by [set_geometry]: a
    geometry, a missing one, or [TypeError] for anything else. *)
Definition geometry_cell (c : Cell) : res (option (Q * Q)) :=
  match c with
  | CGeom p => Ok (Some p)
  | CNone => Ok None
  | CNum _ | CStr _ => Err TypeError
  end.

(** [kde2d_pop_plot(data)] on a table of InitData.v: [data.columns[5]]
    ([IndexError] with fewer than six columns) becomes the geometry
    (line 188) of the copy [set_geometry] returns; the points of the
    density plot are the centroids (line 189), a missing geometry giving
    no point.  The base map of line 195 is fetched from the network and
    is not modelled. *)
Definition kde2d_pop_plot (data : Frame) : res (list (Q * Q)) :=
  name ← py_index (columns data) 5;
  p ← col_index name (columns data);
  pts ← mapM (fun r => geometry_cell (nth p r.2 CNone)) (rows data);
  Ok (omap id pts).

(** ** [plot_environmental_and_social_cues] (lines 240-324) *)

(** [df.loc[df["Step"] == step, "time"].values[0]]: [IndexError] when no
    row has that step. *)
Definition marker_time (rows : list AgentRow) (step : Z) : res Timestamp :=
  match List.filter (fun r => (ar_step r =? step)%Z) rows with
  | r :: _ => Ok (step_time (ar_step r))
  | [] => Err IndexError
  end.

(** The storm-watch and storm-warning markers, at the fixed steps 55
    and 60 (lines 290 and 301). *)
Definition watch_marker_step : Z := 55.
Definition warning_marker_step : Z := 60.

(** The time axis of the five cue lines (line 266), and the two markers.
    The [events] of lines 319-323 are never drawn. *)
Definition plot_environmental_and_social_cues (rows : list AgentRow)
    : res (list Timestamp * Timestamp * Timestamp) :=
  let time := map (fun r => step_time (ar_step r)) rows in
  w ← marker_time rows watch_marker_step;
  v ← marker_time rows warning_marker_step;
  Ok (time, w, v).

(** ** Column reads and writes *)

Lemma df_get_set_eq name c df : df_get name (df_set name c df) = Ok c.
Proof.
  unfold df_get, df_set. cbn. induction (df_cols df) as [|[n c'] cols IH]; cbn.
  - by rewrite String.eqb_refl.
  - destruct (String.eqb n name) eqn:E; cbn; rewrite ?E; [done|exact IH].
Qed.

Lemma df_get_set_ne name name' c df :
  name <> name' -> df_get name' (df_set name c df) = df_get name' df.
Proof.
  intros Hne. unfold df_get, df_set. cbn. induction (df_cols df) as [|[n c'] cols IH]; cbn.
  - by rewrite (proj2 (String.eqb_neq _ _) Hne).
  - destruct (String.eqb n name) eqn:E; cbn.
    + apply String.eqb_eq in E as ->. by rewrite (proj2 (String.eqb_neq _ _) Hne).
    + by destruct (String.eqb n name').
Qed.

(** ** Dates of the survey *)

(** [str(n)] for [n < 100]. *)
Definition show_nat (n : nat) : list ascii :=
  if (n <? 10)%nat then [show_digit n] else [show_digit (n / 10); show_digit (n mod 10)].

(** A survey answer [D;H:MM AM]: the day and the hour without padding,
    two digits of minutes. *)
Definition survey_cell (d h mi : nat) (pm : bool) : list ascii :=
  show_nat d ++ [";"%char] ++ show_nat h ++
  [":"%char; show_digit (mi / 10); show_digit (mi mod 10); " "%char] ++
  (if pm then ["P"; "M"] else ["A"; "M"])%char.

(** The hour of the day an answer means. *)
Definition hour24 (h : nat) (pm : bool) : Z :=
  if pm then (if (h =? 12)%nat then 12 else Z.of_nat h + 12)%Z
  else (if (h =? 12)%nat then 0 else Z.of_nat h)%Z.

(** What [parse_date] makes of the ten last characters of an answer. *)
Definition survey_read (d h mi : nat) (pm : bool) : option Timestamp :=
  if (10 <=? d)%nat && (10 <=? h)%nat then
    (if (d mod 10 =? 0)%nat then None
     else Some (ts 2017 9 (Z.of_nat (d mod 10)) (hour24 h pm) (Z.of_nat mi)))
  else Some (ts 2017 9 (Z.of_nat d) (hour24 h pm) (Z.of_nat mi)).

Lemma survey_table :
  forallb (fun d => forallb (fun h => forallb (fun mi => forallb (fun pm =>
    bool_decide (parse_date (Some (last_9_chars (survey_cell d h mi pm))) = survey_read d h mi pm))
    [false; true]) (seq 0 60)) (seq 1 12)) (seq 1 30) = true.
Proof. vm_compute. reflexivity. Qed.

Lemma forallb_seq (P : nat -> bool) a n k : forallb P (seq a n) = true -> (a <= k < a + n)%nat -> P k = true.
Proof. intros H Hk. apply (proj1 (forallb_forall _ _) H). apply in_seq. lia. Qed.

(** C33.  [compare_real_data] keeps the last ten characters of a survey
    answer [D;H:MM AM] (the column is named [last_9_chars]) and parses
    them with ["%d %I:%M %p"].  For every day of September and every time
    of day, the answer is read right exactly when the day or the hour has
    one digit.  When both have two, the tens digit of the day is cut off:
    day 13 is read as day 3, and days 10, 20 and 30 are lost. *)
Theorem last_9_chars_day_truncation d h mi pm :
  (1 <= d <= 30)%nat -> (1 <= h <= 12)%nat -> (mi < 60)%nat ->
  parse_date (Some (last_9_chars (survey_cell d h mi pm))) =
    if (10 <=? d)%nat && (10 <=? h)%nat then
      (if (d mod 10 =? 0)%nat then None
       else Some (ts 2017 9 (Z.of_nat (d mod 10)) (hour24 h pm) (Z.of_nat mi)))
    else Some (ts 2017 9 (Z.of_nat d) (hour24 h pm) (Z.of_nat mi)).
Proof.
  intros Hd Hh Hm. change (parse_date (Some (last_9_chars (survey_cell d h mi pm))) = survey_read d h mi pm).
  apply (bool_decide_eq_true_1 (_ = _)).
  assert (Hd' := forallb_seq _ 1 30 d survey_table ltac:(lia)). cbv beta in Hd'.
  assert (Hh' := forallb_seq _ 1 12 h Hd' ltac:(lia)). cbv beta in Hh'.
  assert (Hm' := forallb_seq _ 0 60 mi Hh' ltac:(lia)). cbv beta in Hm'.
  cbn [forallb] in Hm'. apply andb_true_iff in Hm' as [Hf Ht]. apply andb_true_iff in Ht as [Ht _].
  by destruct pm.
Qed.

(** C34.  [evac_plot] writes into the DataFrame its caller holds: after
    the call the object has a [datetime] column of the step times, and
    its other columns and index are as they were, whether or not the
    plot then raises.  It raises [KeyError] exactly when the frame has no
    [evac_agents] column.  No other object changes. *)
Theorem evac_plot_mutates_caller st data df :
  st !! data = Some df ->
  (exists df', (evac_plot st data).1 !! data = Some df' /\
     df_get "datetime" df' = Ok (TimeCol (datetime_column (df_index df))) /\
     df_index df' = df_index df /\
     (forall n, n <> "datetime"%string -> df_get n df' = df_get n df)) /\
  (forall o, o <> data -> (evac_plot st data).1 !! o = st !! o) /\
  ((evac_plot st data).2 = Err KeyError <-> df_get "evac_agents" df = Err KeyError).
Proof.
  intros Hd. unfold evac_plot. rewrite Hd. cbv beta iota zeta. cbn [fst snd]. split; [|split].
  - eexists. rewrite lookup_insert_eq. split; [done|]. split; [apply df_get_set_eq|].
    split; [done|]. intros n Hn. by apply df_get_set_ne.
  - intros o Ho. by rewrite lookup_insert_ne.
  - rewrite df_get_set_eq, bind_ret, df_get_set_ne by done.
    destruct (df_get "evac_agents" df); cbn; split; congruence.
Qed.

(** ** The cumulative plot *)

Lemma cumsum_int_lookup acc xs k :
  (k < length xs)%nat -> cumsum_int acc xs !! k = Some (acc + foldr Z.add 0%Z (take (S k) xs))%Z.
Proof.
  revert acc k. induction xs as [|x xs IH]; intros acc k Hk; cbn in Hk; [lia|].
  destruct k as [|k]; cbn.
  - f_equal. rewrite take_0. cbn. lia.
  - rewrite IH by lia. f_equal. cbn. lia.
Qed.

Lemma cumsum_int_length acc xs : length (cumsum_int acc xs) = length xs.
Proof. revert acc. induction xs; intros; cbn; auto. Qed.

(** C35.  [cum_evac] plots, at row [k], the evacuations of rows [0 .. k];
    its time axis is 23 hours later than the one [evac_plot] and
    [compare_real_data] give the same rows. *)
Theorem cum_evac_running_total data xs :
  df_get "evac_agents" data = Ok (IntCol xs) ->
  exists ys, cum_evac data =
      Ok (df_set "time" (TimeCol (map (fun t => add_hours t 23) (datetime_column (df_index data))))
            (df_set "cumulative_evacuated" (IntCol ys) data)) /\
    length ys = length xs /\
    forall k, (k < length xs)%nat -> ys !! k = Some (foldr Z.add 0%Z (take (S k) xs)).
Proof.
  intros He. exists (cumsum_int 0%Z xs). unfold cum_evac. rewrite He. cbn. split; [|split].
  - do 3 f_equal. unfold datetime_column. rewrite map_map. apply map_ext. intros i.
    unfold add_hours, step_hours. assert (cum_evac_start = start_time + 23 * 60)%Z as -> by reflexivity. lia.
  - apply cumsum_int_length.
  - intros k Hk. by rewrite cumsum_int_lookup.
Qed.

(** ** The cue plot *)

Lemma marker_time_spec rows s :
  marker_time rows s =
    if existsb (fun r => (ar_step r =? s)%Z) rows then Ok (step_time s) else Err IndexError.
Proof.
  unfold marker_time. induction rows as [|r rows IH]; [done|]. cbn.
  destruct (Z.eqb_spec (ar_step r) s) as [<-|]; [done|exact IH].
Qed.

(** C36.  The cue plot's markers are drawn at step 55 ("Storm watch",
    2017-09-07 14:00) and step 60 ("Storm warning", 2017-09-08 00:00)
    whatever the run's watch and warning ticks; it raises [IndexError]
    exactly when no row was collected at one of these steps. *)
Theorem cues_markers rows :
  plot_environmental_and_social_cues rows =
    if existsb (fun r => (ar_step r =? 55)%Z) rows && existsb (fun r => (ar_step r =? 60)%Z) rows
    then Ok (map (fun r => step_time (ar_step r)) rows, ts 2017 9 7 14 0, ts 2017 9 8 0 0)
    else Err IndexError.
Proof.
  unfold plot_environmental_and_social_cues. rewrite !marker_time_spec.
  destruct (existsb _ rows), (existsb _ rows); reflexivity.
Qed.

(** ** Instances *)

(** The tables of a three-tick run with two agents: the model variables
    without [evac_agents] in frame 0, and the agent rows. *)
Definition demo_frame : DataFrame :=
  mkDF [0; 1; 2]%Z [("phase_0", IntCol [2; 1; 0]%Z)].

Definition demo_store : gmap nat DataFrame := {[0%nat := demo_frame]}.

Definition demo_rows : list AgentRow :=
  [mkAgentRow 1 1 0 0 0 0 0 None 0; mkAgentRow 1 2 1 0 0 0 0 None 0;
   mkAgentRow 2 1 1 0 0 0 0 None 0; mkAgentRow 2 2 2 0 0 0 0 (Some (1#2)) 0]%Z.

Lemma last_9_chars_day_truncation_witness :
  parse_date (Some (last_9_chars (survey_cell 13 10 30 true))) = Some (ts 2017 9 3 22 30).
Proof. rewrite (last_9_chars_day_truncation 13 10 30 true); [reflexivity|lia..]. Defined.

Lemma evac_plot_mutates_caller_witness :
  demo_store !! 0%nat = Some demo_frame /\
  (evac_plot demo_store 0).2 = Err KeyError /\
  exists df', (evac_plot demo_store 0).1 !! 0%nat = Some df' /\
    df_get "datetime" df' = Ok (TimeCol (datetime_column [0; 1; 2]%Z)).
Proof.
  assert (Hd : demo_store !! 0%nat = Some demo_frame) by reflexivity.
  destruct (evac_plot_mutates_caller demo_store 0 demo_frame Hd) as [(df' & H1 & H2 & _) [_ H3]].
  split; [exact Hd|]. split; [by apply H3|]. exists df'. split; [exact H1|exact H2].
Defined.

Lemma cum_evac_running_total_witness :
  df_get "evac_agents" (mkDF [0; 1; 2]%Z [("evac_agents", IntCol [3; 0; 4]%Z)]) = Ok (IntCol [3; 0; 4]%Z) /\
  exists ys, length ys = 3%nat /\ ys !! 2%nat = Some 7%Z.
Proof.
  assert (He : df_get "evac_agents" (mkDF [0; 1; 2]%Z [("evac_agents", IntCol [3; 0; 4]%Z)])
               = Ok (IntCol [3; 0; 4]%Z)) by reflexivity.
  split; [exact He|].
  destruct (cum_evac_running_total _ _ He) as (ys & _ & Hl & Hk).
  exists ys. split; [exact Hl|]. rewrite (Hk 2%nat); [reflexivity|cbn; lia].
Defined.
