(* ===== verification/Main.v ===== *)
(** * Main: the entry script main.py

    main.py builds one model with [outcome_collection="SingleRun"],
    [watch_shift=0] and [communication_timing=0]; the constructor runs it
    to the end with the data collector.  The script then plots the agent
    table with [phase_plot], the model table with [compare_real_data], and
    the agent table again with [plot_environmental_and_social_cues].
    This file composes Setup.v (the constructor), Scheduler.v and
    Collect.v (the run and its collector, here with Mesa's agent records
    as well), and Plots.v. *)
From S2P Require Import Prelude Config Individual Population AgentStep Scheduler Setup Collect Plots.
From stdpp Require Import strings.
Open Scope Q_scope.

(** ** The full data collector *)

Section Collector.
Context {G : Type} `{RandomSource G} `{Classifier}.
Implicit Types m : Model G.

(** Mesa's record of one agent under the "SingleRun" agent reporters:
    [(model.steps, unique_id)] and [getattr(agent, name, None)] for each
    reporter.  Mesa numbers agents from 1 as they are created, so the
    [unique_id] held in [ind_params] (node id plus one, [Setup.create_agent])
    is already the AgentID. *)
Definition agent_record m (j : nat) : option AgentRow :=
  a ← m_store m !! j;
  Some (mkAgentRow (Z.of_nat (m_steps m)) (Z.of_nat (unique_id (ind_params a)))
          (Z.of_nat (phase_num (phase a))) (get a wind_cue) (get a rain_cue) (get a media_cue)
          (get a risk_perception) (immediacy a) (get a storm_surge_state)).

(** The records of one [collect]: one per agent of [model.agents]. *)
Definition agent_records m : list AgentRow := omap (agent_record m) (m_agents m).

(** [datacollector.collect(self)]: the model variables, then the agent
    records. *)
Definition collect (reps : list (string * Reporter)) m
    : res (list (string * Collected) * list AgentRow) :=
  row ← collect_model_vars reps m;
  Ok (row, agent_records m).

(** [EvacuationDec.step] with the whole collector. *)
Definition model_step_collecting (reps : list (string * Reporter)) m
    : res (Model G * (list (string * Collected) * list AgentRow)) :=
  m ← step_to_collect m;
  c ← collect reps m;
  Ok (collect_and_reset m, c).

(** What the collector holds: the rows of [model_vars] and the agent
    records, tick after tick. *)
Record Tables := mkTables {
  model_vars : list (list (string * Collected));
  agent_vars : list AgentRow
}.

Definition record_tick (t : Tables) (c : list (string * Collected) * list AgentRow) : Tables :=
  mkTables (model_vars t ++ [c.1]) (agent_vars t ++ c.2).

(** [run_model] with the collector, and fuel. *)
Fixpoint run_collecting (fuel : nat) (reps : list (string * Reporter)) m (t : Tables)
    : outcome (Model G * Tables) :=
  if m_running m then
    match fuel with
    | O => OutOfFuel (m, t)
    | S fuel' =>
        match model_step_collecting reps m with
        | Ok (m', c) => run_collecting fuel' reps m' (record_tick t c)
        | Err e => Failed e
        end
    end
  else Finished (m, t).

End Collector.

(** ** The tables as DataFrames *)

(** The value a row holds for a reporter. *)
Fixpoint row_get (name : string) (row : list (string * Collected)) : Collected :=
  match row with
  | [] => col_none
  | (n, v) :: row' => if String.eqb n name then v else row_get name row'
  end.

(** The dtype pandas infers for a list of collected values: [int64] when
    all are integers, [float64] otherwise ([None] is [nan]). *)
Definition collected_column (vs : list Collected) : Column :=
  if forallb (fun v => match v with col_nat _ => true | _ => false end) vs
  then IntCol (map (fun v => match v with col_nat n => Z.of_nat n | _ => 0%Z end) vs)
  else FloatCol (map (fun v => match v with
                               | col_nat n => Some (inject_Z (Z.of_nat n))
                               | col_q q => Some q
                               | col_none => None
                               end) vs).

(** [datacollector.get_model_vars_dataframe()]: [pd.DataFrame] of the
    dictionary [model_vars], one column per reporter, under a
    [RangeIndex]. *)
Definition model_vars_df (reps : list (string * Reporter)) (rows : list (list (string * Collected)))
    : DataFrame :=
  mkDF (map Z.of_nat (seq 0 (length rows)))
       (map (fun nr => (nr.1, collected_column (map (row_get nr.1) rows))) reps).

(** ** main.py *)

Section Script.
Context {G B : Type} `{RandomSource G} `{Classifier} `{BootstrapSource B} `{KDTree}.

(** Line 6: every other keyword keeps its default, and [watch_shift] and
    [communication_timing] are given their defaults, 0. *)
Definition main_config : Config := default_config.

(** What the three plot calls receive and compute, in the order of lines
    10-14. *)
Definition plots (reps : list (string * Reporter)) (t : Tables) (files : gmap string Csv)
    : res (PhasePlot * (list Timestamp * list Timestamp) * (list Timestamp * Timestamp * Timestamp)) :=
  let data := agent_vars t in
  let pp := phase_plot data in
  cmp ← compare_real_data (model_vars_df reps (model_vars t)) files;
  cues ← plot_environmental_and_social_cues data;
  Ok (pp, cmp, cues).

(** Line 6 for a configuration [c] (the script uses [main_config]): the
    construction and its run with the collector of "SingleRun"; [None]
    when the fuel runs out.  The result holds the model reporters and the
    collected tables. *)
Definition main_run (c : Config) (fuel : nat) adj td predictors_df weights media_weights (bs : B)
    draw (rng : G) : option (res (list (string * Reporter) * Tables)) :=
  match EvacuationDec_build c adj td predictors_df weights media_weights bs draw "SingleRun" rng,
        data_collection_attributes "SingleRun" with
  | Err e, _ | _, Err e => Some (Err e)
  | Ok m0, Ok (_, reps) =>
      match run_collecting fuel reps m0 (mkTables [] []) with
      | OutOfFuel _ => None
      | Failed e => Some (Err e)
      | Finished (_, t) => Some (Ok (reps, t))
      end
  end.

(** main.py: the run, then the plots of lines 10-14. *)
Definition main_with (c : Config) (fuel : nat) adj td predictors_df weights media_weights (bs : B)
    draw (rng : G) (files : gmap string Csv)
    : option (res (PhasePlot * (list Timestamp * list Timestamp) * (list Timestamp * Timestamp * Timestamp))) :=
  match main_run c fuel adj td predictors_df weights media_weights bs draw rng with
  | None => None
  | Some (Err e) => Some (Err e)
  | Some (Ok (reps, t)) => Some (plots reps t files)
  end.

Definition main := main_with main_config.

End Script.

(** ** The run with the collector *)

Section RunTheorems.
Context {G : Type} `{RandomSource G} `{Classifier}.
Implicit Types m : Model G.

Lemma model_step_collecting_Ok reps m m' c :
  model_step_collecting reps m = Ok (m', c) ->
  model_step m = Ok m' /\ exists m1, step_to_collect m = Ok m1 /\ collect reps m1 = Ok c.
Proof.
  unfold model_step_collecting, model_step.
  intros (m1 & H1 & (c' & Hc & [= <- <-])%bind_Ok)%bind_Ok. rewrite H1. split; [done|]. eauto.
Qed.

(** Under the live-set invariant the collector raises only when no agent
    is left. *)
Lemma model_step_collecting_Err reps m e :
  live_inv m -> model_step_collecting reps m = Err e -> model_step m = Err e \/ e = ZeroDivisionError.
Proof.
  intros Hinv. unfold model_step_collecting.
  destruct (step_to_collect m) as [m1|e'] eqn:E1; cbn; [|intros [= ->]; left; unfold model_step; by rewrite E1].
  unfold collect. destruct (collect_model_vars reps m1) as [row|e'] eqn:E2; cbn; [done|].
  intros [= <-]. right. assert (Hs : model_step m = Ok (collect_and_reset m1)) by (unfold model_step; by rewrite E1).
  apply live_inv_model_step in Hs; [|done]. apply live_inv_collect_and_reset in Hs.
  by destruct (collect_model_vars_Err _ _ _ Hs E2).
Qed.

(** Every row the run adds satisfies what every [collect] guarantees. *)
Lemma run_collecting_rows (P : list (string * Collected) -> Prop) fuel reps m t m' t' :
  (forall m1 c, collect reps m1 = Ok c -> P c.1) ->
  Forall P (model_vars t) -> run_collecting fuel reps m t = Finished (m', t') -> Forall P (model_vars t').
Proof.
  intros HP. revert m t. induction fuel as [|fuel IH]; intros m t Ht; cbn;
    destruct (m_running m); try (intros [= _ <-]; done); try done.
  destruct (model_step_collecting reps m) as [[m1 c]|e] eqn:E; [|done].
  apply IH. cbn. apply Forall_app. split; [done|]. constructor; [|done].
  destruct (model_step_collecting_Ok _ _ _ _ E) as (_ & m2 & _ & Hc). exact (HP _ _ Hc).
Qed.

(** C14.  Refinement: main.py's run, with the whole data collector,
    reaches the model [run_model] reaches, and runs out of fuel where it
    does; it adds one row of model variables per tick.  It raises only
    where [run_model] raises, or with [ZeroDivisionError] (the mean cues
    of an empty population).  So every theorem on [run_model] holds of
    the model main.py builds. *)
Theorem run_collecting_refines fuel reps m t :
  live_inv m ->
  match run_collecting fuel reps m t with
  | Finished (m', t') =>
      run_model fuel m = Finished m' /\
      (length (model_vars t') + m_steps m = length (model_vars t) + m_steps m')%nat
  | OutOfFuel (m', _) => run_model fuel m = OutOfFuel m'
  | Failed e => run_model fuel m = Failed e \/ e = ZeroDivisionError
  end.
Proof.
  revert m t. induction fuel as [|fuel IH]; intros m t Hinv; cbn; destruct (m_running m) eqn:Er;
    try (split; [done|lia]); [done|].
  destruct (model_step_collecting reps m) as [[m1 c]|e] eqn:E.
  - destruct (model_step_collecting_Ok _ _ _ _ E) as (Hs & _). rewrite Hs.
    assert (Hinv1 := live_inv_model_step _ _ Hinv Hs).
    destruct (model_step_fields _ _ Hs) as (Hst & _).
    specialize (IH m1 (record_tick t c) Hinv1).
    destruct (run_collecting fuel reps m1 (record_tick t c)) as [[m' t']|e|[m' t']]; [|done|done].
    destruct IH as [IH1 IH2]. split; [done|]. cbn in IH2. rewrite length_app in IH2. cbn in IH2. lia.
  - destruct (model_step_collecting_Err _ _ _ Hinv E) as [He|He]; [left; by rewrite He|by right].
Qed.

End RunTheorems.

(** ** What main.py's tables hold *)

(** The reporter of a name in the dictionary of reporters. *)
Fixpoint reps_get (name : string) (reps : list (string * Reporter)) : option Reporter :=
  match reps with
  | [] => None
  | (n, r) :: reps' => if String.eqb n name then Some r else reps_get name reps'
  end.

Section TableLemmas.
Context {G : Type} `{RandomSource G} `{Classifier}.
Implicit Types m : Model G.

(** A collected row holds, under each reporter's name, what the reporter
    returned. *)
Lemma row_get_collect reps m row name r :
  collect_model_vars reps m = Ok row -> reps_get name reps = Some r ->
  eval_reporter r m = Ok (row_get name row).
Proof.
  intros Hc%mapM_Forall2. induction Hc as [|[n r0] y reps row Hy _ IH]; [done|]. cbn.
  apply bind_Ok in Hy as (v & Hv & [= <-]). cbn. destruct (String.eqb n name); [|exact IH].
  by intros [= <-].
Qed.

Lemma collected_column_int vs :
  Forall (fun v => exists n, v = col_nat n) vs ->
  exists xs, collected_column vs = IntCol xs /\ length xs = length vs.
Proof.
  intros Hv. unfold collected_column.
  rewrite (proj2 (forallb_forall _ _)); [eexists; split; [done|apply length_map]|].
  intros v Hin%list_elem_of_In. rewrite Forall_forall in Hv. by destruct (Hv v Hin) as [n ->].
Qed.

Lemma loc_label_seq {A} k n (l : list A) i :
  (i < n)%nat -> (n <= length l)%nat ->
  exists x, loc_label (map Z.of_nat (seq k n)) l (Z.of_nat (k + i)) = Ok x.
Proof.
  revert k l i. induction n as [|n IH]; intros k [|x l] i Hi Hl; cbn in *; try lia.
  destruct i as [|i].
  - rewrite Nat.add_0_r, Z.eqb_refl. by exists x.
  - rewrite (proj2 (Z.eqb_neq _ _)) by lia. replace (k + S i)%nat with (S k + i)%nat by lia.
    apply IH; lia.
Qed.

(** On a [RangeIndex], the histogram values of integer counts exist. *)
Lemma hist_values_range xs :
  exists h, hist_values (map Z.of_nat (seq 0 (length xs)))
              (datetime_column (map Z.of_nat (seq 0 (length xs)))) (IntCol xs) = Ok h.
Proof.
  unfold hist_values. apply fold_res_total. intros acc [idx count] Hin.
  apply list_elem_of_lookup_1 in Hin as [j Hj]. apply lookup_zip_with_Some in Hj as (i' & c' & [= <- <-] & Hs & _).
  apply lookup_seq in Hs as [-> Hi].
  destruct (loc_label_seq 0 (length xs) (datetime_column (map Z.of_nat (seq 0 (length xs)))) j Hi)
    as [x Hx]; [unfold datetime_column; rewrite !length_map, length_seq; lia|].
  rewrite Hx. by eexists.
Qed.

End TableLemmas.

Section ScriptTheorems.
Context {G B : Type} `{RandomSource G} `{Classifier} `{BootstrapSource B} `{KDTree}.

(** C15.  main.py cannot finish anywhere but on its author's machine:
    whenever the model is built and run to its end, the script raises
    [FileNotFoundError] in [compare_real_data], before the cue plot,
    unless the survey file [C:\Users\roelo\Downloads\times_irma.csv]
    exists.  The model table always has integer [evac_agents] under a
    [RangeIndex], so the steps before [read_csv] do not raise. *)
Theorem main_needs_survey_file c fuel adj td P W M (bs : B) draw (rng : G) files reps t :
  files !! irma_csv_path = None ->
  main_run c fuel adj td P W M bs draw rng = Some (Ok (reps, t)) ->
  main_with c fuel adj td P W M bs draw rng files = Some (Err FileNotFoundError).
Proof.
  intros Hf Hr. unfold main_with. rewrite Hr. f_equal. unfold main_run in Hr.
  destruct (EvacuationDec_build _ _ _ _ _ _ _ _ _ _) as [m0|e]; [|discriminate].
  destruct (data_collection_attributes "SingleRun") as [[attrs reps0]|e] eqn:Ed; [|discriminate].
  vm_compute in Ed. injection Ed as _ <-.
  destruct (run_collecting _ _ _ _) as [[m t0]|e|?] eqn:Er; try discriminate.
  injection Hr as Hreps Ht. subst reps t0.
  assert (Hrows : Forall (fun v => exists n, v = col_nat n) (map (row_get "evac_agents") (model_vars t))).
  { apply Forall_map.
    eapply (run_collecting_rows (fun row => exists n, row_get "evac_agents" row = col_nat n));
      [| |exact Er]; [|constructor].
    intros m1 [row recs] Hc. apply bind_Ok in Hc as (row' & Hrow & [= <- _]). cbn.
    exists (evaced_agents (m_counts m1)). symmetry.
    assert (He := row_get_collect _ _ _ "evac_agents" (rep_attr "evaced_agents") Hrow eq_refl).
    cbn in He. by injection He. }
  destruct (collected_column_int _ Hrows) as (xs & Hxs & Hl). rewrite length_map in Hl.
  unfold plots, compare_real_data.
  match goal with |- context [df_get "evac_agents" (model_vars_df ?rs ?rows)] =>
    assert (Hg : df_get "evac_agents" (model_vars_df rs rows)
                 = Ok (collected_column (map (row_get "evac_agents") rows))) by reflexivity;
    assert (Hi : df_index (model_vars_df rs rows) = map Z.of_nat (seq 0 (length xs)))
      by (cbn; by rewrite Hl)
  end.
  rewrite Hg, Hxs, bind_ret, Hi. destruct (hist_values_range xs) as [h ->]. rewrite bind_ret.
  unfold read_csv. by rewrite Hf.
Qed.

End ScriptTheorems.

(** ** Instances *)

#[local] Existing Instances cyclic_sampler brute_force_kdtree demo_source demo_classifier.

Lemma run_collecting_refines_witness :
  live_inv demo_model /\
  match run_collecting 2 outcome_reporters demo_model (mkTables [] []) with
  | Finished (m', t') =>
      run_model 2 demo_model = Finished m' /\
      (length (model_vars t') + m_steps demo_model = length (model_vars (mkTables [] [])) + m_steps m')%nat
  | OutOfFuel (m', _) => run_model 2 demo_model = OutOfFuel m'
  | Failed e => run_model 2 demo_model = Failed e \/ e = ZeroDivisionError
  end.
Proof. split; [exact demo_model_live_inv|]. apply run_collecting_refines, demo_model_live_inv. Defined.

(** A three-tick run of the four-agent town of Setup.v, without the
    survey file. *)
Lemma main_needs_survey_file_witness :
  (∅ : gmap string Csv) !! irma_csv_path = None /\
  main_with short_town 3 ring4 sample_tracts survey_predictors survey_weights survey_media tt
    town_draw 0%nat ∅ = Some (Err FileNotFoundError).
Proof.
  destruct (main_run short_town 3 ring4 sample_tracts survey_predictors survey_weights survey_media tt
              town_draw 0%nat) as [[[reps t]|e]|] eqn:E; [|vm_compute in E; discriminate..].
  split; [reflexivity|]. exact (main_needs_survey_file _ _ _ _ _ _ _ _ _ _ ∅ reps t eq_refl E).
Defined.
